(* ===== verification/_CoqProject ===== *)
-Q . S2P
Prelude.v
PyStr.v
PyDict.v
Json.v
GnmiMsg.v
GnmiPath.v
Adapter.v
DemoAdapter.v
Server.v
Client.v
NetconfFraming.v
Xml.v
NetconfMsgs.v
SyncNc.v
ApiAdapter.v
RouteStatus.v
ModifSubscriber.v
Ipv4.v
NcGen.v
DpGen.v
RouteGen.v
Trace.v
NedTest.v
Soup.v
CliDump.v
TagYang.v
AnnStmt.v
ArgParse.v
CommandLines.v
YinAnn.v
Daemons.v
Hoare.v
Connections.v
Links.v
Console.v
ConsoleEnds.v
ConsoleOutput.v
ConsoleProps.v
OptParse.v
ConsoleOpts.v
Symlinks.v
SyncDaemon.v
SyncRefine.v
Endpoints.v
Adapters.v
GrpcTests.v
ApiTests.v
