(* ===== verification/Prelude.v ===== *)
(** * ConfD-Demos: a verification development (root file)

    The repository is a collection of demonstrations around ConfD, a network
    management agent, and NSO.  Its Python programs are modelled here: the gNMI
    adapter (confdgnmi/), a gNMI server and client with two back ends; the NETCONF
    tools (confd-sync-py/), a NETCONF console and a daemon that copies the
    configuration to NETCONF servers; a subscriber that prints changes
    (confd-and-docker/); generators of test data and requests (active-active/,
    dp-performance/, oper-performance/, confd-manager-client/, confdgnmi/); the tool
    that builds and tests NEDs in NSO (ned-test/); and the tools that rewrite YANG
    modules and annotations (ann-stmt/, ann2ann-stmt/, cmd-path/, symlink/).

    ** How the programs are put together

    A gNMI client (confd_gnmi_client.py) sends Capabilities, Get, Set and Subscribe
    requests to the server (confd_gnmi_server.py), which checks the credentials and
    the encodings and calls an adapter through the abstract class of
    confd_gnmi_adapter.py.  A subscription is served by the adapter's subscription
    handler: its generator [read] takes events from a queue that the server's
    request thread and the adapter's change thread fill.  There are two adapters:
    the demo adapter with databases in memory, and the ConfD adapter over the ConfD
    library.  Paths travel as messages and as strings (confd_gnmi_common.py).
    route_status.py is a data provider for ConfD that also announces its changes to
    the ConfD adapter over a socket. netconf_console.py speaks NETCONF over SSH or
    TCP with its two framings: it builds a request from its options, exchanges
    hellos, sends the request and shows the replies through xmllint; cdbl-sync-nc.py
    is a two-phase CDB subscriber that renders changes as XML and runs
    netconf-console for each server.

    The generators print documents for a number of routes or interfaces. ned-test.py
    works on NSO by transactions, commands and a dialogue with its command line.
    The YANG tools have pyang print a module as YIN, read it with BeautifulSoup,
    change the tree of tags and have it printed again; confd_cli_dump.py reads what
    confd_tag_yang.py has written from the schema. symlinks.py is a plugin of pyang
    that replaces symlink statements of a module by links, groupings or copies of
    their targets.

    ** Files

    - Prelude: text, exceptions, the result monad [res] and the state monad [PyM],
      loops, tactics, hint databases, lemmas on results and lists.
    - PyStr, PyDict, Json, Xml, Ipv4, ArgParse, OptParse: what the programs use of
      Python's strings, dictionaries and the modules json, ipaddress, argparse and
      optparse, templates, and a scanner for balanced tags.  Trace: calls answered
      by an environment, with a logic for the traces they leave.  Hoare: the same
      for programs with a state.  Soup: trees of tags.  They have no counterpart
      under src/.
    - GnmiMsg: the messages of proto/gnmi.proto; the iteration order of protobuf
      maps is the class [ProtoMap], and messages are compared up to it.
    - GnmiPath: confd_gnmi_common.py.  Printing and parsing are inverse (C1), the
      parser's errors (C2).
    - NetconfFraming: the transport of netconf_console.py.  A message is received
      whole, for every cutting of the stream into socket reads and both framings, or
      the exceptions of a character that was cut in two and of a pause of the peer
      are raised (C5, C6); receiving ends, because the end of the stream is noticed
      (C7); sending and receiving are inverse, for ASCII under the chunked framing
      (C8).
    - Connections: opening a link over SSH or TCP, or waiting for a server that
      calls home, as calls to sockets and paramiko (C13).  Links: what the console
      needs of a link as the class [Link] with laws [LinkLaws], and its instances
      for SSH and TCP.
    - NetconfMsgs: the messages of netconf_console.py and the choice of the request.
      Console: its main program over any link: hellos, request, replies, the
      interactive mode, subscriptions, schemas and the end.  ConsoleEnds: it always
      ends (C10).  ConsoleOutput: the discipline of its output (C11), and what the
      raw style prints, with the framing that the help says is removed (C12).
      ConsoleProps: a request is answered (C9), with the witnesses of these files.
      ConsoleOpts: the options of its command line.
    - Adapter: confd_gnmi_adapter.py.  The abstract methods are the classes
      [HandlerOps] and [AdapterOps]; the handler is proved against them, for all
      interleavings, with a relation [env] for what other threads (the change thread
      of an adapter) do to the adapter's state between its calls: the order of
      responses (C14), refinement of a sequential session (C15), termination (C16),
      the protocol of monitoring calls (C18).
    - DemoAdapter: confd_gnmi_demo_adapter.py, instances of the classes: Set and Get
      (C19), and lemmas on Get and the change thread.
    - Server: confd_gnmi_server.py over any adapter.  Checks precede the effects of
      a Set, for every adapter (C22); the two threads of Subscribe with the
      adapter's change thread (C25).
    - Client: confd_gnmi_client.py.  A POLL subscription through client, server and
      handler gives the responses the client waits for (C29).
    - GrpcTests: confdgnmi/tests.  The unit tests, and the tests of the demo
      adapter, with a run of them on client, server and adapter that passes.
      ApiTests: the tests against ConfD, whose threads change data by commands and
      by messages to the ConfD adapter, and lemmas on the order of their calls and
      on the changes received.
    - SyncNc: cdbl-sync-nc.py.  Rendering refines the tree of modifications (C32),
      two-phase safety for all orders of the child processes, which decode what
      netconf-console prints and put errors on a queue with the room that an
      argument gives it (C35).  SyncDaemon: its sockets, sessions and main loop as
      calls (C33).  SyncRefine: with CDB behind the calls, the whole main program
      does what the state machine of SyncNc says (C34).
    - ApiAdapter: confd_gnmi_api_adapter.py, instances of the classes.  Key paths
      (C37), the transaction of a Set and what it sets (C38), no change that is
      recorded is lost (C39).  An external message is what one [recv] gets of it.
    - RouteStatus: route_status.py.  ConfD's walk through the routes (C23), and
      changes from the provider to the client's notification (C40).
    - Endpoints: the calls by which route_status.py, the ConfD adapter, the gNMI
      client and check-build.py open and close their connections.  Adapters: the
      settings of the ConfD adapter, the shared instance of the demo adapter, the
      stub for NETCONF.
    - ModifSubscriber: modif-subscriber.py, with the same kind of rendering.
    - NcGen: active-active/consistent-sync/app/ncgen.py, a generator of NETCONF
      sessions, all of whose documents are balanced.
    - DpGen: dp-performance/app/cdbgen.py.  Up to a bound on the count the document
      is balanced and each sequence of addresses is without repetition, above it is
      an error (C4).
    - RouteGen: the other generators, a Module each (SyncGen, OperGen, DestGen,
      IntfGen), with the facts on them and the destinations in blocks of 256, whose
      number is rounded as a float is (C17).
    - NedTest: ned-test.py as calls to its environment.  Transactions are closed
      (C24), waiting for NSO (C36), and lemmas on the order of building and loading
      and on the dialogue with NSO.
    - CliDump, TagYang: cmd-path/app/confd_cli_dump.py and confd_tag_yang.py.  The
      commands that are dumped (C3); tagging adds meta-data and changes nothing else
      (C26).
    - AnnStmt: ann-stmt/app/tailf_ann_stmt.py and tailf_sanitize.py.  Statements
      move to the annotation module and, unless leafrefs are replaced, nothing is
      lost (C21).
    - YinAnn: ann2ann-stmt/app/yin_ann_stmt.py.  Where annotations end up (C20), and
      a lemma on the files.
    - Symlinks: symlink/origin/symlinks.py on a heap of statements and list objects.
      Which targets are linked (C28), the links of a copy (C27), and lemmas on
      groupings.
    - Daemons: the threads of route_status.py's main program as a step relation
      (C31), the main loop of modif-subscriber.py and the action of check-build.py
      (confd-nso-interop/router_nso) as traces of calls.
    - CommandLines: the parsers and main programs of the gNMI server and client, the
      NED test tool and the YANG tools; every argument that is declared with a type
      has it (C30).

    Files of components end with lemmas that show, on concrete inputs, where the
    code does not do what it means to.

    ** Conventions

    Text and bytes are lists of [ascii], so the text covered is Latin-1; where bytes
    and text differ (the framing) decoding is modelled.  A call that can raise
    returns [res]; the writes made before an exception stay, as [PyM] has it.
    Threads are step relations or schedules, and theorems hold for every one.
    Programs that only make calls to what is not under src/ are functions to traces
    of calls, answered by an environment that may depend on all calls before;
    theorems hold for every environment.  Integers are [Z] as Python's are
    unbounded; the limits the NETCONF framing sets are written out.  What is not
    under src/ is an argument: ConfD (classes [ConfdLib], [ConfdApi]),
    netconf-console, sockets, paramiko, xmllint, the clock, random draws, the
    protobuf runtime, pyang, the reading and writing of XML; theorems that need a
    property of it say so, and a witness instantiates it.  Tags have identities
    where a program holds on to them while it changes the tree.  Log and terminal
    output is modelled where it is the result.

    ** Fuel

    [recv_msg] has fuel for one step per byte of the stream and two more, and its
    inner loops for one per read to come and one more; C7 shows that both are
    enough, since the loops stop at the end of the stream, where reads return no
    bytes for ever; [read] is given the fuel of C16, a bound on the steps of a
    session; the console's loops have as much fuel as there are bytes and events to
    come, which C10 shows is enough; [walk] needs one call per route and one more;
    [str_nat] and the JSON parser have fuel bounded by the number and the length of
    the text. [wait_for_nso] has an iteration of five seconds per unit of fuel; C36
    gives the units for a start and shows that without one no fuel is enough, as the
    code then waits for ever; the polling loop of [download_yang_modules] has fuel
    of its own, as have the loops of Daemons and SyncDaemon, and the theorems on
    traces hold for every amount.  [add_stmt] has as much fuel as the tree has tags,
    [climb] as the path has names, and the functions of Symlinks as the target has
    statements, which C21, C20 and C27 show is enough.

    ** Not modelled

    The wire formats below the calls (gRPC, TLS, SSH), logging apart from its
    levels, the layout of the console's help text, the text it prints when sending
    fails, functions that nothing calls ([maapi_maagic] of ned-test.py,
    [dot_notation] of active-active's ncgen.py), and what a running ConfD answers in
    the tests that need one.  Programs in other languages, YANG models, containers
    and scripts are out of scope.*)

From Stdlib Require Import Ascii String.
From stdpp Require Export base tactics option list strings.
From stdpp Require Export numbers sets.

(** ** Python text

    A Python [str] (and a [bytes] object) is the list of its characters; the
    characters are the 256 values of [ascii], so the text the model covers is
    Latin-1 text.  [py "..."] is a literal. *)
Abbreviation pystr := (list ascii).

Definition py_of_string (s : string) : pystr := String.list_ascii_of_string s.
Arguments py_of_string _%_string : simpl never.

Declare Scope py_scope.
Delimit Scope py_scope with py.
Notation "'py' s" := (py_of_string s) (at level 1, s at level 0, format "'py' s") : py_scope.
Open Scope py_scope.

(** The double quote, as one-character text. *)
Definition dquote : pystr := ["034"%char].

(** The line feed, as one-character text. *)
Definition nl : pystr := ["010"%char].

(** ** Exceptions and results

    The Python exceptions the modelled code raises or lets through.  The last two are
    none: [Blocked] is the end of a call that waits for ever, [OutOfFuel] of a model
    whose fuel was not enough. *)
Inductive exn :=
  | IndexError
  | KeyError
  | ValueError
  | AddressValueError
  | TypeError
  | AttributeError
  | AssertionError
  | NotImplementedError
  | RuntimeError
  | UnicodeDecodeError
  | UnboundLocalError
  | OverflowError
  | NameError
  | SocketTimeout
  | SocketError
  | BrokenPipeError
  | AuthenticationException
  | KeyboardInterrupt
  | ConfdError (external : bool)
  | PyException
  | SystemExit (code : Z)
  | CalledProcessError (returncode : Z)
  | TestNedError (failure : pystr)
  | StdoutError (msg : pystr)
  | StderrError (msg : pystr)
  | Blocked
  | OutOfFuel.

#[export] Instance exn_eq_dec : EqDecision exn.
Proof. solve_decision. Defined.

(** A call returns a value or raises. *)
Inductive res (A : Type) :=
  | Ok (a : A)
  | Raise (e : exn).
Arguments Ok {_} _.
Arguments Raise {_} _.

#[export] Instance res_eq_dec `{EqDecision A} : EqDecision (res A).
Proof. solve_decision. Defined.

#[export] Instance res_ret : MRet res := λ A a, Ok a.
#[export] Instance res_bind : MBind res := λ A B f m,
  match m with Ok a => f a | Raise e => Raise e end.
#[export] Instance res_fmap : FMap res := λ A B f m,
  match m with Ok a => Ok (f a) | Raise e => Raise e end.

Definition is_ok {A} (r : res A) : bool := match r with Ok _ => true | _ => false end.

(** Python's [assert]. *)
Definition py_assert (b : bool) : res unit := if b then Ok tt else Raise AssertionError.

(** [l[i]] for a non-negative index. *)
Definition py_index {A} (l : list A) (i : nat) : res A :=
  match l !! i with Some a => Ok a | None => Raise IndexError end.

(** A loop [for x in l: ...] whose body may raise, collecting its results. *)
Fixpoint res_map {A B} (f : A → res B) (l : list A) : res (list B) :=
  match l with
  | [] => Ok []
  | x :: l' => y ← f x; ys ← res_map f l'; Ok (y :: ys)
  end.

(** A loop over [l] that threads an accumulator and may raise. *)
Fixpoint res_fold {A B} (f : B → A → res B) (acc : B) (l : list A) : res B :=
  match l with
  | [] => Ok acc
  | x :: l' => acc' ← f acc x; res_fold f acc' l'
  end.

(** ** Stateful code

    [PyM S A] is a call that reads and writes a state [S]; as in Python, the
    writes made before an exception is raised stay. *)
Definition PyM (S A : Type) : Type := S → res A * S.

#[export] Instance PyM_ret S : MRet (PyM S) := λ A a s, (Ok a, s).
#[export] Instance PyM_bind S : MBind (PyM S) := λ A B f m s,
  match m s with
  | (Ok a, s') => f a s'
  | (Raise e, s') => (Raise e, s')
  end.

Definition get {S} : PyM S S := λ s, (Ok s, s).
Definition put {S} (s : S) : PyM S unit := λ _, (Ok tt, s).
Definition modify {S} (f : S → S) : PyM S unit := λ s, (Ok tt, f s).
Definition raise {S A} (e : exn) : PyM S A := λ s, (Raise e, s).
Definition lift {S A} (r : res A) : PyM S A := λ s, (r, s).

(** A loop over a list whose body is stateful, collecting its results. *)
Fixpoint M_map {S A B} (f : A → PyM S B) (l : list A) : PyM S (list B) :=
  match l with
  | [] => mret []
  | x :: l' => y ← f x; ys ← M_map f l'; mret (y :: ys)
  end.

(** [print(s)]: the output is the list of the printed texts. *)
Definition print (s : pystr) : PyM (list pystr) unit := modify (λ out, out ++ [s ++ nl]).

(** ** Tactics and hint databases *)

Create HintDb pydb discriminated.
Create Rewrite HintDb pydb.

(** Case on the scrutinee of a [match] or [if] in the goal or a hypothesis. *)
Ltac case_scrut :=
  match goal with
  | |- context [match ?x with _ => _ end] => destruct x eqn:?
  | H : context [match ?x with _ => _ end] |- _ => destruct x eqn:?
  end.

(** Unfold the monads' operations where they are applied. *)
Ltac monad_unfold :=
  unfold mbind, mret, res_bind, res_ret, res_fmap, PyM_bind, PyM_ret,
    get, put, modify, raise, lift, py_assert in *.

(** Replace literals by their character lists. *)
Ltac py_norm :=
  unfold nl, dquote in *;
  repeat match goal with
  | |- context [py_of_string ?s] =>
      let l := eval vm_compute in (py_of_string s) in change (py_of_string s) with l
  | H : context [py_of_string ?s] |- _ =>
      let l := eval vm_compute in (py_of_string s) in change (py_of_string s) with l in H
  end.

(** Decide a closed proposition by evaluation. *)
Ltac vm_decide := apply (bool_decide_eq_true_1 _); vm_compute; reflexivity.

(** Split a successful [mbind] of the result monad into its parts. *)
Lemma bind_Ok {A B} (m : res A) (f : A → res B) b :
  (m ≫= f) = Ok b ↔ ∃ a, m = Ok a ∧ f a = Ok b.
Proof.
  destruct m as [a|e]; cbn; split; [eauto | by intros (? & [= ->] & ?) | done | by intros (? & ? & _)].
Qed.

Lemma Ok_inj {A} (a b : A) : Ok a = Ok b → a = b.
Proof. by intros [=]. Qed.

Ltac inv_bind :=
  repeat match goal with
  | H : mbind _ _ = Ok _ |- _ => apply bind_Ok in H as (? & ? & ?)
  | H : Ok _ = Ok _ |- _ => injection H; clear H; intros; subst
  | H : mret _ = Ok _ |- _ => injection H; clear H; intros; subst
  | H : Raise _ = Ok _ |- _ => discriminate H
  end.

(** ** Generic lemmas on results *)

Lemma res_map_Ok {A B} (f : A → res B) l l' :
  res_map f l = Ok l' ↔ Forall2 (λ x y, f x = Ok y) l l'.
Proof.
  revert l'; induction l as [|x l IH]; intros l'; cbn [res_map].
  - split; [intros [= <-]; constructor | by inversion 1].
  - rewrite bind_Ok; split.
    + intros (y & Hy & Hb); inv_bind; constructor; [done | by apply IH].
    + inversion 1; subst; eexists; split; [done|].
      rewrite bind_Ok; eexists; split; [by apply IH | done].
Qed.

Lemma res_map_total {A B} (f : A → B) (g : A → res B) l :
  Forall (λ x, g x = Ok (f x)) l → res_map g l = Ok (f <$> l).
Proof. induction 1 as [|x l Hx _ IH]; cbn; [done|]. by rewrite Hx; cbn; rewrite IH. Qed.

Lemma res_map_Raise {A B} (f : A → res B) l e :
  res_map f l = Raise e ↔
    ∃ l1 x l2, l = l1 ++ x :: l2 ∧ f x = Raise e ∧ Forall (λ y, is_ok (f y)) l1.
Proof.
  induction l as [|x l IH]; cbn [res_map].
  - split; [done | by intros ([|? ?] & ? & ? & ? & _)].
  - destruct (f x) as [y|e'] eqn:Hx; cbn; split.
    + destruct (res_map f l) as [ys|e'] eqn:Hl; cbn; [done|intros [= ->]].
      destruct (proj1 IH eq_refl) as (l1 & z & l2 & -> & Hz & Hok).
      exists (x :: l1), z, l2; repeat split; [done|]. constructor; [by rewrite Hx|done].
    + intros ([|x' l1] & z & l2 & Heq & Hz & Hok); simplify_list_eq; [congruence|].
      inversion Hok; subst. rewrite (proj2 IH); [done|]. by exists l1, z, l2.
    + intros [= <-]. by exists [], x, l.
    + intros ([|x' l1] & z & l2 & Heq & Hz & Hok); simplify_list_eq; [congruence|].
      inversion Hok as [|?? Hk]; subst. by rewrite Hx in Hk.
Qed.

Lemma res_fold_app {A B} (f : B → A → res B) acc l1 l2 :
  res_fold f acc (l1 ++ l2) = (acc' ← res_fold f acc l1; res_fold f acc' l2).
Proof.
  revert acc; induction l1 as [|x l1 IH]; intros acc; cbn; [done|].
  destruct (f acc x); cbn; [apply IH | done].
Qed.

Lemma M_map_snoc {S A B} (f : A → PyM S B) l x s ys s1 y s2 :
  M_map f l s = (Ok ys, s1) → f x s1 = (Ok y, s2) → M_map f (l ++ [x]) s = (Ok (ys ++ [y]), s2).
Proof.
  revert s ys; induction l as [|z l IH]; intros s ys; cbn; monad_unfold.
  - intros [= <- <-] Hx. by rewrite Hx.
  - destruct (f z s) as [[y'|e] s']; [|done].
    destruct (M_map f l s') as [[ys'|e] s''] eqn:Hl; [|done]. intros [= <- <-] Hx.
    by rewrite (IH _ _ Hl Hx).
Qed.

(** ** Generic lemmas on lists *)

Lemma Forall_not_elem {A} (x : A) (l : list A) : x ∉ l ↔ Forall (λ y, y ≠ x) l.
Proof. rewrite Forall_forall; set_solver. Qed.

Lemma take_app_exact {A} (l k : list A) : take (length l) (l ++ k) = l.
Proof. by rewrite take_app_length. Qed.

Lemma drop_app_exact {A} (l k : list A) : drop (length l) (l ++ k) = k.
Proof. by rewrite drop_app_length. Qed.

#[export] Hint Rewrite @take_app_exact @drop_app_exact : pydb.

Lemma prefix_by_length {A} (a b l : list A) :
  a `prefix_of` l → b `prefix_of` l → length a ≤ length b → a `prefix_of` b.
Proof.
  intros [x ->] [y Hy] Hlen. exists (drop (length a) b).
  apply (f_equal (take (length b))) in Hy.
  rewrite take_app_exact, take_app_ge in Hy by done.
  rewrite <-Hy at 2. by rewrite drop_app_exact.
Qed.
