(* ===== verification/PyStr.v ===== *)
(** * Python string operations

    The methods of [str] and [bytes] the modelled programs call, as executable
    functions on character lists, and the lemmas the components share:
    [startswith], [find], [in], [split], [join], [replace], [strip], slices,
    [str(int)] and [int(str)].  These are the language's library, so the file
    has no counterpart under src/. *)

From Stdlib Require Import Ascii String.
From S2P Require Import Prelude.

(** ** Definitions *)

(** [s.startswith(p)]. *)
Fixpoint startswith (s p : pystr) {struct p} : bool :=
  match p, s with
  | [], _ => true
  | _ :: _, [] => false
  | a :: p', b :: s' => if decide (a = b) then startswith s' p' else false
  end.

(** [s.find(sub)]: the leftmost index of [sub], [None] for Python's [-1]. *)
Fixpoint find (s sub : pystr) : option nat :=
  if startswith s sub then Some 0
  else match s with
       | [] => None
       | _ :: s' => S <$> find s' sub
       end.

(** [sub in s]. *)
Definition contains (s sub : pystr) : bool :=
  match find s sub with Some _ => true | None => false end.

(** [s.split(c)] for a one-character separator. *)
Fixpoint split (c : ascii) (s : pystr) : list pystr :=
  match s with
  | [] => [[]]
  | x :: s' =>
      if decide (x = c) then [] :: split c s'
      else match split c s' with
           | [] => [[x]]
           | w :: ws => (x :: w) :: ws
           end
  end.

(** [s.split(c, 1)]: at most one split, at the first separator. *)
Fixpoint split1 (c : ascii) (s : pystr) : list pystr :=
  match s with
  | [] => [[]]
  | x :: s' =>
      if decide (x = c) then [[]; s']
      else match split1 c s' with
           | [] => [[x]]
           | w :: ws => (x :: w) :: ws
           end
  end.

(** [sep.join(ws)]. *)
Fixpoint join (sep : pystr) (ws : list pystr) : pystr :=
  match ws with
  | [] => []
  | [w] => w
  | w :: ws' => w ++ sep ++ join sep ws'
  end.

(** [s.replace(old, new)] for a non-empty [old]: scan left to right; after a
    match the next [length old - 1] characters are skipped. *)
Fixpoint replace_from (old new : pystr) (skip : nat) (s : pystr) : pystr :=
  match s with
  | [] => []
  | x :: s' =>
      match skip with
      | S k => replace_from old new k s'
      | 0 => if startswith s old
             then new ++ replace_from old new (length old - 1) s'
             else x :: replace_from old new 0 s'
      end
  end.

Definition replace (s old new : pystr) : pystr := replace_from old new 0 s.

(** The characters [str.strip()] and [int()] treat as white space. *)
Definition is_space (c : ascii) : bool :=
  let n := nat_of_ascii c in
  (9 <=? n) && (n <=? 13) || (n =? 32) || (28 <=? n) && (n <=? 31).

Fixpoint lstrip (s : pystr) : pystr :=
  match s with
  | [] => []
  | c :: s' => if is_space c then lstrip s' else s
  end.

Definition strip (s : pystr) : pystr := reverse (lstrip (reverse (lstrip s))).

(** [s.split()]: the words of [s]; [w] is the word being read. *)
Fixpoint words_from (w s : pystr) : list pystr :=
  match s with
  | [] => match w with [] => [] | _ => [w] end
  | c :: s' =>
      if is_space c then
        match w with [] => words_from [] s' | _ => w :: words_from [] s' end
      else words_from (w ++ [c]) s'
  end.
Definition words (s : pystr) : list pystr := words_from [] s.

(** [s[:s.rindex(c)]], when [c] occurs in [s]. *)
Fixpoint before_last (c : ascii) (s : pystr) : option pystr :=
  match s with
  | [] => None
  | x :: s' =>
      match before_last c s' with
      | Some p => Some (x :: p)
      | None => if (x =? c)%char then Some [] else None
      end
  end.

(** Decimal digits. *)
Definition digit (n : nat) : ascii := ascii_of_nat (48 + n).
Definition is_digit (c : ascii) : bool :=
  (48 <=? nat_of_ascii c) && (nat_of_ascii c <=? 57).
Definition digit_val (c : ascii) : nat := nat_of_ascii c - 48.

(** [str(n)] for a natural number; [fuel] bounds the number of digits. *)
Fixpoint str_nat_go (fuel n : nat) (acc : pystr) : pystr :=
  match fuel with
  | 0 => acc
  | S f => let acc' := digit (n mod 10) :: acc in
           if n <? 10 then acc' else str_nat_go f (n / 10) acc'
  end.

Definition str_nat (n : nat) : pystr := str_nat_go (S n) n [].

(** [repr(s)]: quotes, backslashes and characters that are not printable are escaped. *)
Definition char_repr (q c : ascii) : pystr :=
  let n := nat_of_ascii c in
  let hex k := if k <? 10 then digit k else ascii_of_nat (87 + k) in
  if (c =? q)%char || (c =? "\")%char then ["\"%char; c]
  else if n =? 9 then py"\t"
  else if n =? 10 then py"\n"
  else if n =? 13 then py"\r"
  else if (n <? 32) || (127 <=? n) && (n <=? 160) || (n =? 173)
  then py"\x" ++ [hex (n / 16); hex (n mod 16)]
  else [c].

Definition str_repr (s : pystr) : pystr :=
  let q := if existsb (λ c, (c =? "'")%char) s && negb (existsb (λ c, (c =? "034")%char) s)
           then "034"%char else "'"%char in
  [q] ++ concat (char_repr q <$> s) ++ [q].

(** [str(l)] of a list of texts. *)
Definition str_list (l : list pystr) : pystr := py"[" ++ join (py", ") (str_repr <$> l) ++ py"]".

(** [int(s)]: surrounding white space, an optional sign, then digits that may
    be grouped by single underscores; [None] is Python's [ValueError]. *)
Fixpoint int_digits (s : pystr) (acc : Z) : option Z :=
  match s with
  | [] => Some acc
  | c :: s' =>
      if is_digit c then int_digits s' (acc * 10 + Z.of_nat (digit_val c))%Z
      else if decide (c = "_"%char)
           then match s' with
                | d :: _ => if is_digit d then int_digits s' acc else None
                | [] => None
                end
           else None
  end.

Definition int_unsigned (s : pystr) : option Z :=
  match s with
  | c :: _ => if is_digit c then int_digits s 0 else None
  | [] => None
  end.

Definition py_int (s : pystr) : option Z :=
  match strip s with
  | c :: s' =>
      if decide (c = "-"%char) then Z.opp <$> int_unsigned s'
      else if decide (c = "+"%char) then int_unsigned s'
      else int_unsigned (c :: s')
  | [] => None
  end.

(** ** Lemmas: prefixes and substrings *)

Lemma startswith_spec s p : startswith s p = true ↔ p `prefix_of` s.
Proof.
  revert s; induction p as [|a p IH]; intros s; cbn.
  - split; [intros _; apply prefix_nil | by destruct s].
  - destruct s as [|b s]; [split; [done | by intros ?%prefix_nil_not]|].
    cbn; destruct (decide (a = b)) as [->|Hne]; [rewrite IH|]; split.
    + by apply prefix_cons.
    + by apply prefix_cons_inv_2.
    + done.
    + intros ?%prefix_cons_inv_1. done.
Qed.

Lemma startswith_app s k : startswith (s ++ k) s = true.
Proof. apply startswith_spec. by exists k. Qed.

Lemma startswith_nil s : startswith s [] = true.
Proof. by destruct s. Qed.

Lemma startswith_refl s : startswith s s = true.
Proof. by apply startswith_spec. Qed.

Lemma startswith_false s p : startswith s p = false ↔ ¬ p `prefix_of` s.
Proof. rewrite <-startswith_spec. by destruct (startswith s p). Qed.

#[export] Hint Rewrite startswith_app startswith_nil startswith_refl : pydb.

Lemma find_Some s sub i :
  find s sub = Some i →
  ∃ a b, s = a ++ sub ++ b ∧ length a = i ∧
    ∀ a' b', s = a' ++ sub ++ b' → i ≤ length a'.
Proof.
  revert i; induction s as [|c s IH]; intros i; cbn -[startswith];
    destruct (startswith _ sub) eqn:Hs.
  1,3: intros [= <-]; apply startswith_spec in Hs as [k Hk];
    exists [], k; repeat split; [done | intros; lia].
  - done.
  - intros (j & Hj & ->)%fmap_Some. destruct (IH _ Hj) as (a & b & -> & <- & Hmin).
    exists (c :: a), b; repeat split. intros [|c' a'] b' Heq.
    + exfalso. apply startswith_false in Hs. apply Hs. exists b'. done.
    + simplify_list_eq. pose proof (Hmin a' b' ltac:(done)). cbn. lia.
Qed.

Lemma find_None s sub : find s sub = None ↔ ∀ a b, s ≠ a ++ sub ++ b.
Proof.
  induction s as [|c s IH]; cbn -[startswith]; destruct (startswith _ sub) eqn:Hs.
  1,3: split; [done|]; intros H; apply startswith_spec in Hs as [k Hk];
    exfalso; by apply (H [] k).
  - split; [|done]. intros _ [|? ?] b Hb; [|done].
    apply startswith_false in Hs. apply Hs. by exists b.
  - rewrite fmap_None, IH. split.
    + intros H [|c' a] b Heq; cbn in *.
      * apply startswith_false in Hs. apply Hs. by exists b.
      * simplify_eq. by eapply H.
    + intros H a b ->. by apply (H (c :: a) b).
Qed.

Lemma find_is_Some s sub a b : s = a ++ sub ++ b → is_Some (find s sub).
Proof.
  intros ->. destruct (find _ sub) eqn:E; [eauto|].
  rewrite find_None in E. by destruct (E a b).
Qed.

Lemma contains_true s sub : contains s sub = true ↔ ∃ a b, s = a ++ sub ++ b.
Proof.
  unfold contains. destruct (find s sub) eqn:E.
  - split; [|done]. intros _. apply find_Some in E as (a & b & ? & _); eauto.
  - rewrite find_None in E. split; [done|]. intros (a & b & H). by destruct (E a b).
Qed.

Lemma contains_app_false a s sub : contains (a ++ s) sub = false → contains s sub = false.
Proof.
  intros H. apply not_true_is_false. intros (x & y & ->)%contains_true.
  assert (contains (a ++ x ++ sub ++ y) sub = true); [|congruence].
  apply contains_true. exists (a ++ x), y. by rewrite <-app_assoc.
Qed.

Lemma contains_char c s : contains s [c] = true ↔ c ∈ s.
Proof.
  rewrite contains_true. split.
  - intros (a & b & ->). set_solver.
  - intros (a & b & ->)%list_elem_of_split. by exists a, b.
Qed.

Lemma contains_char_false c s : contains s [c] = false ↔ c ∉ s.
Proof. rewrite <-contains_char. by destruct (contains s [c]). Qed.

(** ** Lemmas: [split] and [join] *)

Lemma split_nonnil c s : split c s ≠ [].
Proof. destruct s as [|x s]; cbn; repeat case_match; done. Qed.

Lemma split_not_elem c s : c ∉ s → split c s = [s].
Proof.
  induction s as [|x s IH]; intros Hc; [done|]. cbn.
  apply not_elem_of_cons in Hc as [? ?]. rewrite decide_False by done. by rewrite IH.
Qed.

Lemma split_app_sep c a s : c ∉ a → split c (a ++ c :: s) = a :: split c s.
Proof.
  induction a as [|x a IH]; intros Hc; cbn.
  - by rewrite decide_True.
  - apply not_elem_of_cons in Hc as [? ?]. rewrite decide_False by done. by rewrite IH.
Qed.

Lemma split_pieces c s : Forall (λ w, c ∉ w) (split c s).
Proof.
  induction s as [|x s IH]; cbn; [by repeat constructor; apply not_elem_of_nil|].
  case_decide; [by constructor; [apply not_elem_of_nil|]|].
  destruct (split c s) as [|w ws]; inversion IH; subst;
    repeat constructor; rewrite ?not_elem_of_cons; auto using not_elem_of_nil.
Qed.

Lemma join_cons sep w ws : ws ≠ [] → join sep (w :: ws) = w ++ sep ++ join sep ws.
Proof. by destruct ws. Qed.

Lemma join_split c s : join [c] (split c s) = s.
Proof.
  induction s as [|x s IH]; [done|]. cbn. pose proof (split_nonnil c s) as Hn.
  case_decide as Hx.
  - subst. rewrite join_cons by done. by rewrite IH.
  - destruct (split c s) as [|w [|w' ws]]; [done| |]; cbn in *; by rewrite IH.
Qed.

Lemma split_join c ws :
  ws ≠ [] → Forall (λ w, c ∉ w) ws → split c (join [c] ws) = ws.
Proof.
  induction ws as [|w ws IH]; [done|]. intros _ Hf. inversion Hf; subst.
  destruct ws as [|w' ws]; [by apply split_not_elem|].
  rewrite join_cons by done. cbn [app]. rewrite split_app_sep by done. by rewrite IH.
Qed.

Lemma join_snoc_nil sep w ws : join sep ((w :: ws) ++ [[]]) = join sep (w :: ws) ++ sep.
Proof.
  revert w; induction ws as [|x ws IH]; intros w; [cbn; by rewrite app_nil_r|].
  cbn [app] in *. rewrite (join_cons sep w (x :: ws ++ [[]])), (join_cons sep w (x :: ws)) by done.
  by rewrite IH, !app_assoc.
Qed.

(** The text up to the first separator determines the two parts. *)
Lemma app_sep_inj (c : ascii) (a b x y : pystr) : c ∉ a → c ∉ b → a ++ c :: x = b ++ c :: y → a = b ∧ x = y.
Proof.
  intros Ha Hb Heq. assert (Hs : split c (a ++ c :: x) = split c (b ++ c :: y)) by (by rewrite Heq).
  rewrite !split_app_sep in Hs by done. injection Hs as -> _.
  apply app_inv_head in Heq. by injection Heq.
Qed.

Lemma length_split_pos c s : 0 < length (split c s).
Proof. pose proof (split_nonnil c s). destruct (split c s); [done|cbn; lia]. Qed.

Lemma split_length_2 c s : c ∈ s → ∃ a b ws, split c s = a :: b :: ws.
Proof.
  intros (a & b & -> & Ha)%list_elem_of_split_l. rewrite split_app_sep by done.
  pose proof (split_nonnil c b). destruct (split c b) as [|w ws]; [done|]. by exists a, w, ws.
Qed.

Lemma join_elem sep ws x : x ∈ join sep ws → x ∈ sep ∨ ∃ w, w ∈ ws ∧ x ∈ w.
Proof.
  induction ws as [|w ws IH]; cbn; [set_solver|].
  destruct ws as [|w' ws]; [set_solver|]. rewrite !elem_of_app. set_solver.
Qed.

Lemma split1_not_elem c s : c ∉ s → split1 c s = [s].
Proof.
  induction s as [|x s IH]; intros Hc; [done|]. cbn.
  apply not_elem_of_cons in Hc as [? ?]. rewrite decide_False by done. by rewrite IH.
Qed.

Lemma split1_app_sep c a s : c ∉ a → split1 c (a ++ c :: s) = [a; s].
Proof.
  induction a as [|x a IH]; intros Hc; cbn.
  - by rewrite decide_True.
  - apply not_elem_of_cons in Hc as [? ?]. rewrite decide_False by done. by rewrite IH.
Qed.

(** ** Lemmas: [replace] *)

Lemma replace_from_skip old new k s :
  replace_from old new k s = replace_from old new 0 (drop k s).
Proof. revert s; induction k as [|k IH]; intros [|x s]; cbn; auto. Qed.

Lemma replace_hit old new s :
  old ≠ [] → replace (old ++ s) old new = new ++ replace s old new.
Proof.
  intros Hne. destruct old as [|c old]; [done|].
  unfold replace. cbn [app replace_from].
  change (c :: old ++ s) with ((c :: old) ++ s). rewrite startswith_app.
  f_equal. rewrite replace_from_skip. f_equal. cbn [length].
  by rewrite Nat.sub_1_r, Nat.pred_succ, drop_app_exact.
Qed.

Lemma replace_miss x s old new :
  startswith (x :: s) old = false → replace (x :: s) old new = x :: replace s old new.
Proof. intros Hs. unfold replace. cbn [replace_from]. by rewrite Hs. Qed.

Lemma replace_id s old new : contains s old = false → replace s old new = s.
Proof.
  unfold contains. intros Hc. assert (Hf : find s old = None) by (by destruct (find s old)).
  clear Hc. revert Hf. induction s as [|x s IH]; [done|].
  cbn -[startswith replace]. destruct (startswith (x :: s) old) eqn:Hs; [done|].
  intros Hf%fmap_None. rewrite replace_miss by done. by rewrite IH.
Qed.

Lemma replace_char_nil c s : replace s [c] [] = filter (λ x, x ≠ c) s.
Proof.
  induction s as [|x s IH]; [done|]. unfold replace. cbn [replace_from startswith].
  rewrite filter_cons. destruct (decide (c = x)) as [->|Hne].
  - rewrite decide_False by auto. exact IH.
  - rewrite decide_True by auto. f_equal. exact IH.
Qed.

Lemma replace_not_elem c s new : c ∉ s → replace s [c] new = s.
Proof. intros. by apply replace_id, contains_char_false. Qed.

Lemma replace_char_app c a b new :
  replace (a ++ b) [c] new = replace a [c] new ++ replace b [c] new.
Proof.
  induction a as [|x a IH]; [done|]. unfold replace in *. cbn [app replace_from startswith].
  case_decide; [|by rewrite IH]. cbn. by rewrite IH, <-app_assoc.
Qed.

(** ** Lemmas: decimal numbers *)

Lemma digit_is_digit n : n < 10 → is_digit (digit n) = true ∧ digit_val (digit n) = n.
Proof. intros. do 10 (destruct n as [|n]; [done|]). lia. Qed.

Lemma is_digit_inv c : is_digit c = true → c = digit (digit_val c) ∧ digit_val c < 10.
Proof.
  unfold is_digit, digit, digit_val. intros [H1%Nat.leb_le H2%Nat.leb_le]%andb_true_iff.
  split; [|lia]. replace (48 + (nat_of_ascii c - 48)) with (nat_of_ascii c) by lia.
  by rewrite ascii_nat_embedding.
Qed.

Lemma int_digits_str_nat_go fuel n acc :
  n < fuel → int_digits (str_nat_go fuel n acc) 0 = int_digits acc (Z.of_nat n).
Proof.
  revert n acc; induction fuel as [|f IH]; intros n acc Hn; [lia|]. cbn [str_nat_go].
  assert (Hm : n mod 10 < 10) by (apply Nat.mod_upper_bound; lia).
  destruct (digit_is_digit _ Hm) as [Hd Hv]. case_match eqn:Hlt.
  - apply Nat.ltb_lt in Hlt. cbn [int_digits]. rewrite Hd, Hv. f_equal.
    rewrite Nat.mod_small by done. lia.
  - apply Nat.ltb_ge in Hlt. rewrite IH by (apply Nat.Div0.div_lt_upper_bound; lia).
    cbn [int_digits]. rewrite Hd, Hv. f_equal. pose proof (Nat.div_mod_eq n 10). lia.
Qed.

Lemma str_nat_go_digits fuel n acc :
  Forall is_digit acc → Forall is_digit (str_nat_go fuel n acc).
Proof.
  revert n acc; induction fuel as [|f IH]; intros n acc Hacc; [done|]. cbn [str_nat_go].
  assert (Hm : n mod 10 < 10) by (apply Nat.mod_upper_bound; lia).
  assert (Forall is_digit (digit (n mod 10) :: acc)).
  { constructor; [|done]. by rewrite (proj1 (digit_is_digit _ Hm)). }
  case_match; auto.
Qed.

Lemma str_nat_digits n : Forall is_digit (str_nat n).
Proof. by apply str_nat_go_digits. Qed.

Lemma str_nat_go_nonnil fuel n acc : acc ≠ [] ∨ 0 < fuel → str_nat_go fuel n acc ≠ [].
Proof.
  revert n acc; induction fuel as [|f IH]; intros n acc H; cbn [str_nat_go].
  - destruct H; [done|lia].
  - case_match; [done|]. apply IH. by left.
Qed.

Lemma str_nat_nonnil n : str_nat n ≠ [].
Proof. apply str_nat_go_nonnil. right. lia. Qed.

Lemma digit_not_space c : is_digit c → is_space c = false.
Proof.
  intros Hc%Is_true_true. apply is_digit_inv in Hc as [Heq Hlt].
  rewrite Heq. revert Hlt. generalize (digit_val c). intros n Hlt.
  do 10 (destruct n as [|n]; [done|]). lia.
Qed.

Lemma lstrip_id s : Forall (λ c, is_space c = false) s → lstrip s = s.
Proof. destruct 1 as [|c s Hc]; [done|]. cbn. by rewrite Hc. Qed.

Lemma strip_id s : Forall (λ c, is_space c = false) s → strip s = s.
Proof.
  intros Hs. unfold strip. rewrite (lstrip_id s) by done.
  rewrite lstrip_id by (by apply Forall_reverse). apply reverse_involutive.
Qed.

Lemma py_int_str_nat n : py_int (str_nat n) = Some (Z.of_nat n).
Proof.
  unfold py_int. rewrite strip_id.
  2:{ eapply Forall_impl; [apply str_nat_digits | apply digit_not_space]. }
  pose proof (str_nat_digits n) as Hd. pose proof (str_nat_nonnil n) as Hn.
  assert (Hv : int_digits (str_nat n) 0 = Some (Z.of_nat n)).
  { unfold str_nat. rewrite int_digits_str_nat_go by lia. done. }
  destruct (str_nat n) as [|c s]; [done|]. inversion Hd as [|?? Hc _]; subst.
  rewrite !decide_False by (intros ->; done). cbn [int_unsigned].
  apply Is_true_true in Hc. by rewrite Hc.
Qed.

Lemma str_nat_inj n m : str_nat n = str_nat m → n = m.
Proof.
  intros H. pose proof (py_int_str_nat n) as Hn. rewrite H, py_int_str_nat in Hn.
  apply (inj Some) in Hn. lia.
Qed.

(** Characters that no decimal number contains. *)
Lemma str_nat_not_elem c n : is_digit c = false → c ∉ str_nat n.
Proof.
  intros Hc Hin. pose proof (str_nat_digits n) as Hf. rewrite Forall_forall in Hf.
  apply Hf, Is_true_true in Hin. congruence.
Qed.

Lemma str_nat_go_length fuel n acc (k : nat) :
  (Z.of_nat n < 10 ^ Z.of_nat k)%Z → length (str_nat_go fuel n acc) ≤ Nat.max 1 k + length acc.
Proof.
  revert n acc k; induction fuel as [|f IH]; intros n acc k Hn; cbn [str_nat_go]; [lia|].
  case_match eqn:Hlt; [cbn; lia|]. apply Nat.ltb_ge in Hlt.
  destruct k as [|[|k]]; [cbn in Hn; lia | cbn in Hn; lia |].
  etrans; [apply (IH _ _ (S k))|cbn; lia].
  rewrite Nat2Z.inj_div. apply Z.div_lt_upper_bound; [lia|].
  rewrite (Nat2Z.inj_succ (S k)), Z.pow_succ_r in Hn by lia. exact Hn.
Qed.

Lemma str_nat_length n (k : nat) :
  1 ≤ k → (Z.of_nat n < 10 ^ Z.of_nat k)%Z → length (str_nat n) ≤ k.
Proof.
  intros Hk Hn. pose proof (str_nat_go_length (S n) n [] k Hn). cbn [length] in *.
  unfold str_nat. lia.
Qed.

(** ** Words and the last separator *)

Lemma words_from_elem w s x : x ∈ words_from w s → ∀ c, c ∈ x → c ∈ w ∨ c ∈ s.
Proof.
  revert w; induction s as [|d s IH]; intros w; cbn.
  - destruct w as [|e w]; [by intros ?%not_elem_of_nil|]. intros ->%list_elem_of_singleton. auto.
  - destruct (is_space d).
    + destruct w as [|e w].
      * intros Hx c Hc. destruct (IH _ Hx c Hc) as [?%not_elem_of_nil|?]; [done|]. right. by constructor.
      * intros [->|Hx]%elem_of_cons c Hc; [auto|].
        destruct (IH _ Hx c Hc) as [?%not_elem_of_nil|?]; [done|]. right. by constructor.
    + intros Hx c Hc. destruct (IH _ Hx c Hc) as [H|?]; [|right; by constructor].
      apply elem_of_app in H as [?| ->%list_elem_of_singleton]; [auto|]. right. constructor.
Qed.

Lemma words_not_elem c s : c ∉ s → Forall (λ w, c ∉ w) (words s).
Proof.
  intros Hc. apply Forall_forall. intros w Hw Hin.
  by destruct (words_from_elem _ _ _ Hw c Hin) as [?%not_elem_of_nil|?].
Qed.

Lemma before_last_None c s : c ∉ s → before_last c s = None.
Proof.
  induction s as [|x s IH]; [done|]. intros [Hx Hs]%not_elem_of_cons. cbn. rewrite IH by done.
  by rewrite (proj2 (Ascii.eqb_neq x c)) by congruence.
Qed.

Lemma before_last_app c a b : c ∉ b → before_last c (a ++ c :: b) = Some a.
Proof.
  intros Hb. induction a as [|x a IH]; cbn; [|by rewrite IH].
  by rewrite before_last_None, Ascii.eqb_refl by done.
Qed.
