(* ===== verification/PyDict.v ===== *)
(** * Python dictionaries

    A [dict] keeps its insertion order, and the modelled code reads that order
    ([list(db.keys())[0]], [list(map_db.values())], [list(routes)[n]]): it is an
    association list whose keys are distinct ([dict_wf]).  Assignment to a
    present key keeps the position, assignment to a new key appends.  The
    refinement to a finite map, [dict_map], forgets the order. *)

From stdpp Require Import gmap.
From S2P Require Import Prelude.

Section dict.
Context {K V : Type} `{EqDecision K}.
Implicit Types (d : list (K * V)) (k : K) (v : V).

(** [d.get(k)]; [d[k]] raises [KeyError] where this is [None]. *)
Fixpoint dict_get (k : K) (d : list (K * V)) : option V :=
  match d with
  | [] => None
  | (k', v) :: d' => if decide (k' = k) then Some v else dict_get k d'
  end.

(** [d[k] = v]. *)
Fixpoint dict_set (k : K) (v : V) (d : list (K * V)) : list (K * V) :=
  match d with
  | [] => [(k, v)]
  | (k', v') :: d' =>
      if decide (k' = k) then (k', v) :: d' else (k', v') :: dict_set k v d'
  end.

(** [k in d]. *)
Definition dict_mem (k : K) (d : list (K * V)) : bool :=
  match dict_get k d with Some _ => true | None => false end.

(** [d[k]]. *)
Definition dict_lookup (k : K) (d : list (K * V)) : res V :=
  match dict_get k d with Some v => Ok v | None => Raise KeyError end.

Definition dict_wf (d : list (K * V)) : Prop := NoDup d.*1.

(** ** Lemmas *)

Lemma dict_get_set_eq k v d : dict_get k (dict_set k v d) = Some v.
Proof.
  induction d as [|[k' v'] d IH]; cbn; [by rewrite decide_True|].
  destruct (decide (k' = k)) as [->|Hne]; cbn; [by rewrite decide_True | by rewrite decide_False].
Qed.

Lemma dict_get_set_ne k k' v d : k ≠ k' → dict_get k' (dict_set k v d) = dict_get k' d.
Proof.
  intros Hne. induction d as [|[k1 v1] d IH]; cbn; [by rewrite decide_False|].
  destruct (decide (k1 = k)) as [->|?]; cbn; [by rewrite !decide_False by done|].
  by destruct (decide (k1 = k')).
Qed.

Lemma dict_get_set k k' v d :
  dict_get k' (dict_set k v d) = if decide (k = k') then Some v else dict_get k' d.
Proof.
  case_decide as H; [subst; apply dict_get_set_eq | by apply dict_get_set_ne].
Qed.

Lemma dict_get_None k d : dict_get k d = None ↔ k ∉ d.*1.
Proof.
  induction d as [|[k' v'] d IH]; cbn; [by split; [intros _; apply not_elem_of_nil|]|].
  rewrite not_elem_of_cons. destruct (decide (k' = k)) as [->|Hne]; [naive_solver|].
  rewrite IH. naive_solver.
Qed.

Lemma dict_get_elem k v d : dict_get k d = Some v → (k, v) ∈ d.
Proof.
  induction d as [|[k' v'] d IH]; cbn; [done|].
  destruct (decide (k' = k)) as [->|?]; [intros [= ->]; left|].
  intros; right; auto.
Qed.

Lemma dict_elem_get k v d : dict_wf d → (k, v) ∈ d → dict_get k d = Some v.
Proof.
  unfold dict_wf. induction d as [|[k' v'] d IH]; cbn; intros Hnd Hin; [set_solver|].
  apply NoDup_cons in Hnd as [Hk Hnd]. apply elem_of_cons in Hin as [[= -> ->]|Hin].
  - by rewrite decide_True.
  - rewrite decide_False; [by apply IH|]. intros ->. apply Hk.
    apply list_elem_of_fmap. by exists (k, v).
Qed.

Lemma dict_mem_true k d : dict_mem k d = true ↔ k ∈ d.*1.
Proof.
  unfold dict_mem. destruct (dict_get k d) eqn:E; split; intros H; try done.
  - apply dict_get_elem in E. apply list_elem_of_fmap. by exists (k, v).
  - by apply dict_get_None in E.
Qed.

Lemma dict_keys_set k v d :
  (dict_set k v d).*1 = if decide (k ∈ d.*1) then d.*1 else d.*1 ++ [k].
Proof.
  induction d as [|[k' v'] d IH]; cbn.
  - rewrite decide_False; [done|apply not_elem_of_nil].
  - destruct (decide (k' = k)) as [->|Hne]; cbn.
    + by rewrite decide_True by set_solver.
    + rewrite IH. destruct (decide (k ∈ d.*1)).
      * by rewrite decide_True by set_solver.
      * by rewrite decide_False by set_solver.
Qed.

Lemma dict_set_wf k v d : dict_wf d → dict_wf (dict_set k v d).
Proof.
  unfold dict_wf. rewrite dict_keys_set. case_decide; [done|].
  intros. apply NoDup_app; split_and!; [done | set_solver | apply NoDup_singleton].
Qed.

Lemma dict_set_new k v d : k ∉ d.*1 → dict_set k v d = d ++ [(k, v)].
Proof.
  induction d as [|[k' v'] d IH]; cbn; [done|]. rewrite not_elem_of_cons. intros [? ?].
  by rewrite decide_False, IH by done.
Qed.

Lemma dict_set_length k v d :
  length (dict_set k v d) = if decide (k ∈ d.*1) then length d else S (length d).
Proof.
  rewrite <-(length_fmap fst), dict_keys_set. case_decide.
  - by rewrite length_fmap.
  - rewrite length_app, length_fmap. cbn. lia.
Qed.

Lemma dict_values_set k v d v' : v' ∈ (dict_set k v d).*2 → v' = v ∨ v' ∈ d.*2.
Proof.
  induction d as [|[k1 v1] d IH]; cbn; [set_solver|].
  destruct (decide (k1 = k)); cbn; set_solver.
Qed.
End dict.

(** The finite map a dictionary denotes; [dict_set] is its [insert]. *)
Section refinement.
Context {K V : Type} `{Countable K}.

Definition dict_map (d : list (K * V)) : gmap K V := list_to_map d.

Lemma dict_map_get (k : K) (d : list (K * V)) : dict_map d !! k = dict_get k d.
Proof.
  induction d as [|[k' v] d IH]; cbn; [apply lookup_empty|].
  destruct (decide (k' = k)) as [->|Hne].
  - apply lookup_insert_eq.
  - rewrite lookup_insert_ne by done. exact IH.
Qed.

Lemma dict_map_set (k : K) (v : V) (d : list (K * V)) :
  dict_map (dict_set k v d) = <[k := v]> (dict_map d).
Proof.
  apply map_eq. intros i. rewrite dict_map_get, dict_get_set, lookup_insert, <-dict_map_get.
  reflexivity.
Qed.
End refinement.

#[export] Hint Resolve dict_set_wf : pydb.
#[export] Hint Rewrite @dict_get_set_eq : pydb.
