(* ===== verification/Json.v ===== *)
(** * The json module

    [json.dumps] and [json.loads] of the Python library, as far as the gNMI
    adapters use them: null, booleans, integers, strings, lists and
    dictionaries (no fractions).  Texts are Latin-1, so an escape for a
    character beyond it is outside the model and rejected like malformed text.
    The file has no counterpart under src/; its theorem is the round trip the
    adapters rely on when a value travels through a [TypedValue]. *)

From Stdlib Require Import Ascii String.
From S2P Require Import Prelude PyStr PyDict.

Inductive json :=
  | JNull
  | JBool (b : bool)
  | JInt (z : Z)
  | JStr (s : pystr)
  | JList (l : list json)
  | JDict (d : list (pystr * json)).

(** ** Printing *)

Definition str_Z (z : Z) : pystr :=
  if (z <? 0)%Z then py"-" ++ str_nat (Z.to_nat (- z)) else str_nat (Z.to_nat z).

Definition hex_digit (n : nat) : ascii :=
  if n <? 10 then digit n else ascii_of_nat (87 + n).

(** A character of a string literal; everything but printable ASCII is escaped. *)
Definition esc_char (c : ascii) : pystr :=
  let n := nat_of_ascii c in
  if (c =? "034")%char then ["\"; "034"]%char
  else if (c =? "\")%char then py"\\"
  else if n =? 10 then py"\n"
  else if n =? 13 then py"\r"
  else if n =? 9 then py"\t"
  else if n =? 8 then py"\b"
  else if n =? 12 then py"\f"
  else if (32 <=? n) && (n <=? 126) then [c]
  else py"\u00" ++ [hex_digit (n / 16); hex_digit (n mod 16)].

Definition dumps_str (s : pystr) : pystr := dquote ++ concat (esc_char <$> s) ++ dquote.

Fixpoint dumps (v : json) : pystr :=
  match v with
  | JNull => py"null"
  | JBool true => py"true"
  | JBool false => py"false"
  | JInt z => str_Z z
  | JStr s => dumps_str s
  | JList l => py"[" ++ join (py", ") (dumps <$> l) ++ py"]"
  | JDict d => py"{" ++ join (py", ") ((λ '(k, x), dumps_str k ++ py": " ++ dumps x) <$> d) ++ py"}"
  end.

(** ** Parsing *)

Definition is_ws (c : ascii) : bool :=
  let n := nat_of_ascii c in (n =? 32) || (n =? 9) || (n =? 10) || (n =? 13).

Fixpoint skip_ws (s : pystr) : pystr :=
  match s with
  | c :: s' => if is_ws c then skip_ws s' else s
  | [] => []
  end.

Definition hex_val (c : ascii) : option nat :=
  let n := nat_of_ascii c in
  if is_digit c then Some (digit_val c)
  else if (97 <=? n) && (n <=? 102) then Some (n - 87)
  else if (65 <=? n) && (n <=? 70) then Some (n - 55)
  else None.

Definition hex4 (a b c d : ascii) : option ascii :=
  match hex_val a, hex_val b, hex_val c, hex_val d with
  | Some 0, Some 0, Some x, Some y => Some (ascii_of_nat (16 * x + y))
  | _, _, _, _ => None
  end.

Definition unesc (c : ascii) : option ascii :=
  if (c =? "034")%char then Some "034"%char
  else if (c =? "\")%char then Some "\"%char
  else if (c =? "/")%char then Some "/"%char
  else if (c =? "b")%char then Some "008"%char
  else if (c =? "f")%char then Some "012"%char
  else if (c =? "n")%char then Some "010"%char
  else if (c =? "r")%char then Some "013"%char
  else if (c =? "t")%char then Some "009"%char
  else None.

Definition cons_fst (c : ascii) (o : option (pystr * pystr)) : option (pystr * pystr) :=
  match o with Some (a, b) => Some (c :: a, b) | None => None end.

(** The rest of a string literal, after its opening quote. *)
Fixpoint parse_str (s : pystr) : option (pystr * pystr) :=
  match s with
  | [] => None
  | c :: s1 =>
      if (c =? "034")%char then Some ([], s1)
      else if (c =? "\")%char then
        match s1 with
        | [] => None
        | e :: s2 =>
            if (e =? "u")%char then
              match s2 with
              | h1 :: h2 :: h3 :: h4 :: s3 =>
                  match hex4 h1 h2 h3 h4 with
                  | Some x => cons_fst x (parse_str s3)
                  | None => None
                  end
              | _ => None
              end
            else match unesc e with
                 | Some x => cons_fst x (parse_str s2)
                 | None => None
                 end
        end
      else if nat_of_ascii c <? 32 then None
      else cons_fst c (parse_str s1)
  end.

Fixpoint span_digits (s : pystr) : pystr * pystr :=
  match s with
  | c :: s' => if is_digit c then let '(a, b) := span_digits s' in (c :: a, b) else ([], s)
  | [] => ([], [])
  end.

(** An unsigned integer: no leading zeros, no fraction, no exponent. *)
Definition parse_nat (s : pystr) : option (Z * pystr) :=
  let '(ds, rest) :=
    match s with
    | c :: s' => if (c =? "0")%char then ([c], s') else span_digits s
    | [] => ([], [])
    end in
  match int_unsigned ds, rest with
  | Some z, c :: _ => if ((c =? ".") || (c =? "e") || (c =? "E"))%char then None else Some (z, rest)
  | Some z, [] => Some (z, [])
  | None, _ => None
  end.

Fixpoint parse_value (fuel : nat) (s : pystr) : option (json * pystr) :=
  match fuel with
  | 0 => None
  | S f =>
      match s with
      | [] => None
      | c :: s' =>
          if (c =? "034")%char then
            match parse_str s' with Some (x, r) => Some (JStr x, r) | None => None end
          else if (c =? "{")%char then
            match skip_ws s' with
            | q :: r =>
                if (q =? "}")%char then Some (JDict [], r)
                else match parse_members f [] (q :: r) with
                     | Some (d, r') => Some (JDict d, r')
                     | None => None
                     end
            | [] => None
            end
          else if (c =? "[")%char then
            match skip_ws s' with
            | q :: r =>
                if (q =? "]")%char then Some (JList [], r)
                else match parse_items f (q :: r) with
                     | Some (l, r') => Some (JList l, r')
                     | None => None
                     end
            | [] => None
            end
          else if startswith s (py"null") then Some (JNull, drop 4 s)
          else if startswith s (py"true") then Some (JBool true, drop 4 s)
          else if startswith s (py"false") then Some (JBool false, drop 5 s)
          else if (c =? "-")%char then
            match parse_nat s' with Some (z, r) => Some (JInt (- z), r) | None => None end
          else match parse_nat s with Some (z, r) => Some (JInt z, r) | None => None end
      end
  end
with parse_items (fuel : nat) (s : pystr) : option (list json * pystr) :=
  match fuel with
  | 0 => None
  | S f =>
      match parse_value f s with
      | Some (v, r) =>
          match skip_ws r with
          | c :: r' =>
              if (c =? ",")%char then
                match parse_items f (skip_ws r') with
                | Some (l, r'') => Some (v :: l, r'')
                | None => None
                end
              else if (c =? "]")%char then Some ([v], r')
              else None
          | [] => None
          end
      | None => None
      end
  end
with parse_members (fuel : nat) (acc : list (pystr * json)) (s : pystr)
    : option (list (pystr * json) * pystr) :=
  match fuel with
  | 0 => None
  | S f =>
      match s with
      | q :: s1 =>
          if (q =? "034")%char then
            match parse_str s1 with
            | Some (k, r) =>
                match skip_ws r with
                | c :: r1 =>
                    if (c =? ":")%char then
                      match parse_value f (skip_ws r1) with
                      | Some (v, r2) =>
                          match skip_ws r2 with
                          | e :: r3 =>
                              if (e =? ",")%char then parse_members f (dict_set k v acc) (skip_ws r3)
                              else if (e =? "}")%char then Some (dict_set k v acc, r3)
                              else None
                          | [] => None
                          end
                      | None => None
                      end
                    else None
                | [] => None
                end
            | None => None
            end
          else None
      | [] => None
      end
  end.

(** [json.loads(s)]; every nesting level and element takes a character. *)
Definition loads (s : pystr) : res json :=
  match parse_value (S (2 * length s)) (skip_ws s) with
  | Some (v, r) => if decide (skip_ws r = []) then Ok v else Raise ValueError
  | None => Raise ValueError
  end.

Example loads_ex :
  loads (py" {" ++ dquote ++ py"a" ++ dquote ++ py" : [1, -20,null] } ") =
    Ok (JDict [(py"a", JList [JInt 1; JInt (-20); JNull])]).
Proof. reflexivity. Qed.

(** ** Round trip *)

Lemma parse_str_esc c k : parse_str (esc_char c ++ k) = cons_fst c (parse_str k).
Proof.
  destruct c as [[] [] [] [] [] [] [] []]; reflexivity.
Qed.

Lemma parse_str_dumps s k : parse_str (concat (esc_char <$> s) ++ dquote ++ k) = Some (s, k).
Proof.
  induction s as [|c s IH]; [done|]. rewrite fmap_cons. cbn [concat].
  by rewrite <-app_assoc, parse_str_esc, IH.
Qed.

(** What may follow a number. *)
Definition num_end (k : pystr) : Prop :=
  match k with
  | c :: _ => is_digit c = false ∧ ((c =? ".") || (c =? "e") || (c =? "E"))%char = false
  | [] => True
  end.

Lemma span_digits_app ds k : Forall is_digit ds → num_end k → span_digits (ds ++ k) = (ds, k).
Proof.
  intros Hd Hk. induction Hd as [|c ds Hc _ IH]; cbn.
  - destruct k as [|c k]; [done|]. cbn. destruct Hk as [Hk _]. by rewrite Hk.
  - apply Is_true_true in Hc. by rewrite Hc, IH.
Qed.

Lemma str_nat_go_head fuel n acc c k :
  0 < n → n < fuel → str_nat_go fuel n acc = c :: k → (c =? "0")%char = false.
Proof.
  revert n acc; induction fuel as [|f IH]; intros n acc Hn Hf; [lia|]. cbn [str_nat_go].
  destruct (Nat.ltb_spec n 10) as [Hlt|Hge].
  - intros Heq. do 10 (destruct n as [|n]; [try lia; by injection Heq as <- <-|]). lia.
  - apply IH; [apply Nat.div_str_pos; lia|]. assert (n / 10 < n) by (apply Nat.div_lt; lia). lia.
Qed.

Lemma int_unsigned_str_nat n : int_unsigned (str_nat n) = Some (Z.of_nat n).
Proof.
  pose proof (str_nat_digits n) as Hd. pose proof (str_nat_nonnil n) as Hn.
  assert (Hv : int_digits (str_nat n) 0 = Some (Z.of_nat n)).
  { unfold str_nat. by rewrite int_digits_str_nat_go by lia. }
  unfold int_unsigned. destruct (str_nat n) as [|c k]; [done|].
  apply Forall_cons in Hd as [Hc%Is_true_true _]. by rewrite Hc.
Qed.

(** [int(str(z))]. *)
Lemma py_int_str_Z z : py_int (str_Z z) = Some z.
Proof.
  unfold str_Z. destruct (Z.ltb_spec z 0) as [Hz|Hz].
  - unfold py_int. rewrite strip_id.
    + py_norm. cbn [app]. rewrite decide_True, int_unsigned_str_nat by done. cbn. f_equal. lia.
    + apply Forall_app. split; [by repeat constructor|].
      eapply Forall_impl; [apply str_nat_digits | apply digit_not_space].
  - rewrite py_int_str_nat. f_equal. lia.
Qed.

Lemma parse_nat_str n k : num_end k → parse_nat (str_nat n ++ k) = Some (Z.of_nat n, k).
Proof.
  intros Hk. unfold parse_nat.
  assert (Hspan : (match str_nat n ++ k with
    | c :: s' => if (c =? "0")%char then ([c], s') else span_digits (str_nat n ++ k)
    | [] => ([], []) end) = (str_nat n, k)).
  { destruct (decide (n = 0)) as [->|Hn]; [done|].
    pose proof (str_nat_go_head (S n) n []) as Hh. fold (str_nat n) in Hh.
    pose proof (str_nat_nonnil n) as Hne. pose proof (span_digits_app _ _ (str_nat_digits n) Hk) as Hs.
    destruct (str_nat n) as [|c ds]; [done|]. cbn [app] in *.
    by rewrite (Hh c ds) by (done || lia). }
  rewrite Hspan, int_unsigned_str_nat. destruct k as [|c k]; [done|].
  destruct Hk as [_ Hk]. by rewrite Hk.
Qed.

Fixpoint json_wf (v : json) : Prop :=
  match v with
  | JList l => foldr (λ x P, json_wf x ∧ P) True l
  | JDict d => dict_wf d ∧ foldr (λ '(_, x) P, json_wf x ∧ P) True d
  | _ => True
  end.

(** The fuel [parse_value] needs for [dumps v]. *)
Fixpoint need (v : json) : nat :=
  match v with
  | JList l => 1 + foldr (λ x n, 1 + Nat.max (need x) n) 0 l
  | JDict d => 1 + foldr (λ '(_, x) n, 1 + Nat.max (need x) n) 0 d
  | _ => 1
  end.

(** Induction over values, with the hypothesis for every element. *)
Lemma json_ind' (P : json → Prop) :
  P JNull → (∀ b, P (JBool b)) → (∀ z, P (JInt z)) → (∀ s, P (JStr s)) →
  (∀ l, Forall P l → P (JList l)) → (∀ d, Forall (λ '(_, x), P x) d → P (JDict d)) →
  ∀ v, P v.
Proof.
  intros H1 H2 H3 H4 H5 H6. fix IH 1. intros [|b|z|s|l|d]; [done|apply H2|apply H3|apply H4| |].
  - apply H5. induction l as [|x l IHl]; constructor; [apply IH | apply IHl].
  - apply H6. induction d as [|[k x] d IHd]; constructor; [apply IH | apply IHd].
Qed.

Lemma digit_head n : ∃ c k, str_nat n = c :: k ∧ is_digit c = true.
Proof.
  pose proof (str_nat_digits n) as Hd. pose proof (str_nat_nonnil n).
  destruct (str_nat n) as [|c k]; [done|]. apply Forall_cons in Hd as [?%Is_true_true _]. by exists c, k.
Qed.

Lemma is_digit_neq c x : is_digit c = true → is_digit x = false → (c =? x)%char = false.
Proof. intros Hc Hx. apply Ascii.eqb_neq. intros ->. congruence. Qed.

(** A printed value starts neither with white space nor with a closing bracket. *)
Lemma dumps_head v :
  ∃ c k, dumps v = c :: k ∧ is_ws c = false ∧ (c =? "]")%char = false ∧ (c =? "}")%char = false.
Proof.
  destruct v as [|[]|z|s|l|d]; try (by eexists _, _). cbn [dumps]. unfold str_Z.
  destruct (z <? 0)%Z; [by eexists _, _|].
  destruct (digit_head (Z.to_nat z)) as (c & k & -> & Hc). exists c, k.
  split_and!; [done | | by apply is_digit_neq..].
  apply is_digit_inv in Hc as [Heq Hlt]. rewrite Heq. clear Heq. revert Hlt.
  generalize (digit_val c). intros n Hn.
  do 10 (destruct n as [|n]; [done|]). lia.
Qed.

Lemma skip_ws_dumps v k : skip_ws (dumps v ++ k) = dumps v ++ k.
Proof. destruct (dumps_head v) as (c & k' & -> & Hc & _). cbn. by rewrite Hc. Qed.

Lemma parse_items_dumps l :
  l ≠ [] →
  Forall (λ v, ∀ f k, need v ≤ f → num_end k → parse_value f (dumps v ++ k) = Some (v, k)) l →
  ∀ f k, foldr (λ x n, 1 + Nat.max (need x) n) 0 l ≤ f →
  parse_items f (join (py", ") (dumps <$> l) ++ py"]" ++ k) = Some (l, k).
Proof.
  intros Hne Hl. induction Hl as [|v l Hv Hl IH]; [done|].
  intros [|f] k; cbn [parse_items foldr]; intros Hf; [lia|]. destruct l as [|v2 l].
  - cbn [fmap list_fmap join]. by rewrite Hv by (done || lia).
  - rewrite fmap_cons, join_cons, <-app_assoc by done. rewrite <-app_assoc, Hv by (done || lia).
    assert (Hs : ∀ x, skip_ws (join (py", ") (dumps <$> v2 :: l) ++ x) =
      join (py", ") (dumps <$> v2 :: l) ++ x).
    { intros x. rewrite fmap_cons. destruct l as [|v3 l].
      - cbn [fmap list_fmap join]. apply skip_ws_dumps.
      - rewrite fmap_cons, join_cons, <-app_assoc by done. apply skip_ws_dumps. }
    change (skip_ws (py", " ++ ?x)) with (","%char :: " "%char :: x).
    cbn [skip_ws]. change (is_ws " ") with true. change ("," =? ",")%char with true.
    cbv iota. rewrite Hs, IH; [done | done | lia].
Qed.

Definition member (p : pystr * json) : pystr := let '(k, x) := p in dumps_str k ++ py": " ++ dumps x.

Lemma skip_ws_members p d x :
  skip_ws (join (py", ") (member <$> p :: d) ++ x) = join (py", ") (member <$> p :: d) ++ x.
Proof.
  destruct p as [k v]. rewrite fmap_cons. destruct d as [|q d]; [done|].
  by rewrite fmap_cons, join_cons.
Qed.

Lemma parse_members_dumps d :
  d ≠ [] →
  Forall (λ '(_, v), ∀ f k, need v ≤ f → num_end k → parse_value f (dumps v ++ k) = Some (v, k)) d →
  ∀ f acc k, dict_wf (acc ++ d) → foldr (λ '(_, x) n, 1 + Nat.max (need x) n) 0 d ≤ f →
  parse_members f acc (join (py", ") (member <$> d) ++ py"}" ++ k) = Some (acc ++ d, k).
Proof.
  intros Hne Hl. induction Hl as [|[key v] d Hv Hl IH]; [done|].
  intros [|f] acc k Hnd; cbn [parse_members foldr]; intros Hf; [lia|].
  assert (Hset : dict_set key v acc = acc ++ [(key, v)]).
  { apply dict_set_new. unfold dict_wf in Hnd. rewrite fmap_app in Hnd.
    apply NoDup_app in Hnd as (_ & Hd & _). intros Hin. apply (Hd key Hin). left. }
  assert (Hhead : ∀ x, member (key, v) ++ x =
    "034"%char :: concat (esc_char <$> key) ++ dquote ++ py": " ++ dumps v ++ x).
  { intros x. unfold member, dumps_str. by rewrite <-!app_assoc. }
  destruct d as [|p d].
  - cbn [fmap list_fmap join]. rewrite Hhead. change ("034" =? "034")%char with true. cbv iota.
    rewrite parse_str_dumps. cbn [skip_ws].
    change (skip_ws (py": " ++ ?x)) with (":"%char :: " "%char :: x). cbv iota.
    change (":" =? ":")%char with true. cbv iota. cbn [skip_ws]. change (is_ws " ") with true. cbv iota.
    rewrite skip_ws_dumps, Hv by (done || lia). by rewrite Hset.
  - rewrite fmap_cons, join_cons, <-app_assoc, Hhead by done.
    change ("034" =? "034")%char with true. cbv iota. rewrite parse_str_dumps.
    change (skip_ws (py": " ++ ?x)) with (":"%char :: " "%char :: x). cbv iota.
    change (":" =? ":")%char with true. cbv iota. cbn [skip_ws]. change (is_ws " ") with true. cbv iota.
    rewrite skip_ws_dumps, <-app_assoc, Hv by (done || lia).
    change (skip_ws (py", " ++ ?x)) with (","%char :: " "%char :: x). cbv iota.
    change ("," =? ",")%char with true. cbv iota. cbn [skip_ws]. change (is_ws " ") with true. cbv iota.
    rewrite skip_ws_members, Hset, IH; [by rewrite <-app_assoc | done | by rewrite <-app_assoc | lia].
Qed.

Lemma foldr_Forall {A} (P : A → Prop) l : foldr (λ x Q, P x ∧ Q) True l → Forall P l.
Proof. induction l as [|x l IH]; cbn; [constructor|]. intros [? ?]. constructor; auto. Qed.

Lemma parse_value_dumps v :
  json_wf v → ∀ f k, need v ≤ f → num_end k → parse_value f (dumps v ++ k) = Some (v, k).
Proof.
  induction v as [|b|z|s|l IH|d IH] using json_ind'; intros Hwf [|f] k Hf Hk; try (cbn in Hf; lia).
  - done.
  - by destruct b.
  - cbn [dumps]. unfold str_Z. destruct (Z.ltb_spec z 0) as [Hz|Hz].
    + rewrite <-app_assoc. pose proof (parse_nat_str (Z.to_nat (- z)) k Hk) as Hp.
      change (py"-" ++ ?x) with ("-"%char :: x). revert Hp.
      generalize (str_nat (Z.to_nat (- z)) ++ k). intros x Hp.
      cbn -[parse_nat]. rewrite Hp. do 3 f_equal. lia.
    + destruct (digit_head (Z.to_nat z)) as (c & r & Hs & Hc).
      pose proof (parse_nat_str (Z.to_nat z) k Hk) as Hp. rewrite Hs in *.
      cbn [app parse_value] in *. rewrite !(is_digit_neq c) by done.
      assert (Hsw : ∀ x p, is_digit x = false → startswith (c :: r ++ k) (x :: p) = false).
      { intros x p Hx. cbn. rewrite decide_False; [done|]. intros ->. congruence. }
      py_norm. rewrite !Hsw by done. rewrite Hp, Z2Nat.id by lia. done.
  - cbn [dumps]. unfold dumps_str. rewrite <-!app_assoc.
    change (dquote ++ ?x) with ("034"%char :: x) at 1. cbn [parse_value].
    change ("034" =? "034")%char with true. cbv iota. by rewrite parse_str_dumps.
  - assert (Hl : Forall (λ v, ∀ f k, need v ≤ f → num_end k →
      parse_value f (dumps v ++ k) = Some (v, k)) l).
    { cbn in Hwf. apply (foldr_Forall json_wf) in Hwf. rewrite Forall_forall in *. eauto. }
    destruct l as [|v l]; [done|]. cbn [dumps]. rewrite <-!app_assoc. cbn [need] in Hf.
    pose proof (parse_items_dumps (v :: l) ltac:(done) Hl f k ltac:(lia)) as Hp.
    destruct (dumps_head v) as (c & k' & Hd & Hws & Hc & _).
    assert (Hx : ∃ x, join (py", ") (dumps <$> v :: l) ++ py"]" ++ k = c :: x).
    { rewrite fmap_cons. destruct l as [|v2 l].
      - cbn [fmap list_fmap join]. rewrite Hd. by eexists.
      - rewrite fmap_cons, join_cons, Hd by done. by eexists. }
    destruct Hx as [x Hx]. change (dumps <$> v :: l) with (dumps v :: (dumps <$> l)) in *.
    rewrite Hx in *. change (py"[" ++ ?y) with ("["%char :: y). cbn [parse_value skip_ws].
    change ("[" =? "034")%char with false. change ("[" =? "{")%char with false.
    change ("[" =? "[")%char with true. cbv iota. rewrite Hws, Hc. by rewrite Hp.
  - assert (Hl : Forall (λ '(_, v), ∀ f k, need v ≤ f → num_end k →
      parse_value f (dumps v ++ k) = Some (v, k)) d).
    { destruct Hwf as [_ Hwf]. clear Hf. induction IH as [|[key v] d Hv Hd IHd]; constructor.
      - apply Hv. apply Hwf.
      - apply IHd. apply Hwf. }
    destruct d as [|p d]; [done|]. cbn [dumps need] in *. rewrite <-!app_assoc.
    pose proof (parse_members_dumps (p :: d) ltac:(done) Hl f [] k (proj1 Hwf) ltac:(lia)) as Hp.
    assert (Hx : ∃ x, join (py", ") (member <$> p :: d) ++ py"}" ++ k = "034"%char :: x).
    { destruct p as [key v]. rewrite fmap_cons. destruct d; [by eexists|].
      rewrite fmap_cons, join_cons by done. by eexists. }
    destruct Hx as [x Hx]. change ((λ '(k0, x0), dumps_str k0 ++ py": " ++ dumps x0) <$> p :: d)
      with (member <$> p :: d). rewrite Hx in *.
    change (py"{" ++ ?y) with ("{"%char :: y). cbn [parse_value skip_ws].
    change ("{" =? "034")%char with false. change ("{" =? "{")%char with true.
    change (is_ws "034") with false. change ("034" =? "}")%char with false. cbv iota. by rewrite Hp.
Qed.

Lemma need_items l :
  Forall (λ v, need v ≤ 2 * length (dumps v)) l →
  foldr (λ x n, 1 + Nat.max (need x) n) 0 l ≤ 1 + 2 * length (join (py", ") (dumps <$> l)).
Proof.
  induction 1 as [|v l Hv _ IH]; cbn [foldr]; [lia|]. destruct l as [|v2 l].
  - cbn [foldr fmap list_fmap join]. lia.
  - rewrite fmap_cons, join_cons, !length_app by done. change (length (py", ")) with 2. lia.
Qed.

Lemma need_members d :
  Forall (λ '(_, v), need v ≤ 2 * length (dumps v)) d →
  foldr (λ '(_, x) n, 1 + Nat.max (need x) n) 0 d ≤ 1 + 2 * length (join (py", ") (member <$> d)).
Proof.
  assert (Hm : ∀ k v, length (dumps v) ≤ length (member (k, v))).
  { intros k v. unfold member. rewrite !length_app. lia. }
  induction 1 as [|[k v] d Hv _ IH]; cbn [foldr]; [lia|]. specialize (Hm k v). destruct d as [|p d].
  - cbn [foldr fmap list_fmap join]. lia.
  - rewrite fmap_cons, join_cons, !length_app by done. change (length (py", ")) with 2. lia.
Qed.

Lemma need_length v : need v ≤ 2 * length (dumps v).
Proof.
  induction v as [|b|z|s|l IH|d IH] using json_ind'; cbn [need dumps].
  - vm_compute. lia.
  - destruct b; vm_compute; lia.
  - destruct (dumps_head (JInt z)) as (c & k & Hd & _). cbn [dumps] in Hd. rewrite Hd. cbn. lia.
  - unfold dumps_str. rewrite length_app. change (length dquote) with 1. lia.
  - apply need_items in IH. rewrite !length_app. change (length (py"[")) with 1.
    change (length (py"]")) with 1. lia.
  - apply need_members in IH. change ((λ '(k, x), dumps_str k ++ py": " ++ dumps x) <$> d)
      with (member <$> d). rewrite !length_app. change (length (py"{")) with 1.
    change (length (py"}")) with 1. lia.
Qed.

(** Loading a dumped value gives it back. *)
Lemma loads_dumps v : json_wf v → loads (dumps v) = Ok v.
Proof.
  intros Hwf. unfold loads. pose proof (skip_ws_dumps v []) as Hs. rewrite app_nil_r in Hs.
  rewrite Hs. pose proof (need_length v) as Hn.
  pose proof (parse_value_dumps v Hwf (S (2 * length (dumps v))) [] ltac:(lia) I) as Hp.
  rewrite app_nil_r in Hp. by rewrite Hp.
Qed.
