(* ===== verification/GnmiMsg.v ===== *)
(** * The gNMI protocol messages

    The messages of proto/gnmi.proto the modelled code builds and reads, as
    records with the fields the code uses.  Enumerations are integers (proto3
    enumerations are open, and clients do send values outside the list).  The
    Python classes are generated by the build; what they do with a [map] field,
    whose iteration order protobuf leaves open, is the class [ProtoMap]. *)

From Stdlib Require Import Ascii String.
From S2P Require Import Prelude PyDict.

(** The protobuf runtime: a [map<string,string>] field built from a dictionary
    holds its entries, and is iterated over in some order. *)
Class ProtoMap := {
  map_iter : list (pystr * pystr) → list (pystr * pystr);
  map_iter_perm : ∀ d, dict_wf d → map_iter d ≡ₚ d
}.

(** An implementation: the pure-Python runtime iterates in insertion order. *)
#[export] Program Instance insertion_order : ProtoMap := {| map_iter d := d |}.
Next Obligation. done. Qed.

(** A path element; [pe_key] holds the entries in iteration order. *)
Record PathElem := { pe_name : pystr; pe_key : list (pystr * pystr) }.

Record Path := { origin : pystr; elem : list PathElem; target : pystr }.

(** The message [Path()]. *)
Definition empty_path : Path := {| origin := []; elem := []; target := [] |}.

(** The [oneof value] of a [TypedValue]; [ValNotSet] when no field is set. *)
Inductive TypedValue :=
  | StringVal (s : pystr)
  | IntVal (z : Z)
  | UintVal (z : Z)
  | BoolVal (b : bool)
  | BytesVal (s : pystr)
  | FloatVal (bits : Z)
  | DoubleVal (bits : Z)
  | DecimalVal (digits precision : Z)
  | LeaflistVal (element : list TypedValue)
  | AnyVal (s : pystr)
  | JsonVal (s : pystr)
  | JsonIetfVal (s : pystr)
  | AsciiVal (s : pystr)
  | ProtoBytes (s : pystr)
  | ValNotSet.

Record Update := { up_path : Path; up_val : TypedValue }.

Record Notification := {
  timestamp : Z;
  prefix : Path;
  update : list Update;
  delete : list Path;
  atomic : bool
}.

(** The [oneof response] of a [SubscribeResponse]. *)
Inductive SubscribeResponse :=
  | RespUpdate (n : Notification)
  | RespSync (b : bool).

(** [enum Encoding]. *)
Definition JSON : Z := 0.
Definition BYTES : Z := 1.
Definition PROTO : Z := 2.
Definition ASCII : Z := 3.
Definition JSON_IETF : Z := 4.

(** [GetRequest.DataType]. *)
Definition DT_ALL : Z := 0.
Definition DT_CONFIG : Z := 1.
Definition DT_STATE : Z := 2.
Definition DT_OPERATIONAL : Z := 3.

(** [SubscriptionList.Mode]. *)
Definition STREAM : Z := 0.
Definition ONCE : Z := 1.
Definition POLL : Z := 2.

(** [SubscriptionMode]. *)
Definition TARGET_DEFINED : Z := 0.
Definition ON_CHANGE : Z := 1.

(** [UpdateResult.Operation]. *)
Definition OP_INVALID : Z := 0.
Definition OP_DELETE : Z := 1.
Definition OP_UPDATE : Z := 3.

Record Subscription := { sub_path : Path; sub_mode : Z }.

Record SubscriptionList := {
  sl_prefix : Path;
  sl_subscription : list Subscription;
  sl_qos : Z;
  sl_mode : Z;
  sl_allow_aggregation : bool;
  sl_encoding : Z;
  sl_updates_only : bool
}.

(** The [oneof request] of a [SubscribeRequest]. *)
Inductive SubscribeRequest :=
  | ReqSubscribe (l : SubscriptionList)
  | ReqPoll
  | ReqNotSet.

Record ModelData := { md_name : pystr; md_organization : pystr; md_version : pystr }.

Record CapabilityResponse := {
  supported_models : list ModelData;
  supported_encodings : list Z;
  gNMI_version : pystr
}.

Record GetRequest := {
  gr_prefix : Path; gr_path : list Path; gr_type : Z; gr_encoding : Z;
  gr_use_models : list ModelData
}.

Record SetRequest := {
  sr_prefix : Path; sr_delete : list Path; sr_replace : list Update; sr_update : list Update
}.

Record UpdateResult := { ur_timestamp : Z; ur_path : Path; ur_op : Z }.

Record SetResponse := {
  sp_prefix : Path; sp_response : list UpdateResult; sp_timestamp : Z
}.

(** ** Message equality

    Protobuf compares [map] fields as maps: the iteration order does not count. *)
Definition dict_eqb (d1 d2 : list (pystr * pystr)) : bool :=
  bool_decide (length d1 = length d2) &&
  forallb (λ '(k, v), bool_decide (dict_get k d2 = Some v)) d1.

Definition elem_eqb (e1 e2 : PathElem) : bool :=
  bool_decide (pe_name e1 = pe_name e2) && dict_eqb (pe_key e1) (pe_key e2).

Fixpoint elems_eqb (l1 l2 : list PathElem) : bool :=
  match l1, l2 with
  | [], [] => true
  | e1 :: l1', e2 :: l2' => elem_eqb e1 e2 && elems_eqb l1' l2'
  | _, _ => false
  end.

#[export] Instance elem_equiv : Equiv PathElem := λ e1 e2,
  pe_name e1 = pe_name e2 ∧ pe_key e1 ≡ₚ pe_key e2.

#[export] Instance path_equiv : Equiv Path := λ p1 p2,
  origin p1 = origin p2 ∧ target p1 = target p2 ∧ Forall2 (≡) (elem p1) (elem p2).

(** A key map has distinct keys. *)
Definition elem_wf (e : PathElem) : Prop := dict_wf (pe_key e).
Definition path_wf (p : Path) : Prop := Forall elem_wf (elem p).

#[export] Instance elem_equivalence : Equivalence (≡@{PathElem}).
Proof.
  split.
  - intros e. by split.
  - intros e1 e2 [? ?]. by split.
  - intros e1 e2 e3 [? ?] [? ?]. split; etrans; eauto.
Qed.

#[export] Instance path_equivalence : Equivalence (≡@{Path}).
Proof.
  split.
  - intros p. by split_and!.
  - intros p1 p2 (? & ? & ?). by split_and!.
  - intros p1 p2 p3 (? & ? & ?) (? & ? & ?). split_and!; etrans; eauto.
Qed.

Lemma dict_eqb_perm d1 d2 :
  dict_wf d1 → dict_wf d2 → dict_eqb d1 d2 = true ↔ d1 ≡ₚ d2.
Proof.
  intros H1 H2. unfold dict_eqb.
  rewrite andb_true_iff, bool_decide_eq_true, forallb_forall. split.
  - intros [Hlen Hall]. apply submseteq_length_Permutation; [|lia].
    apply NoDup_submseteq; [by eapply NoDup_fmap_1|]. intros [k v] Hin.
    apply list_elem_of_In in Hin. specialize (Hall _ Hin). cbn in Hall.
    apply bool_decide_eq_true in Hall. by apply dict_get_elem.
  - intros Hp. split; [by rewrite Hp|]. intros [k v] Hin%list_elem_of_In.
    apply bool_decide_eq_true. apply dict_elem_get; [done|]. by rewrite <-Hp.
Qed.

Lemma elem_eqb_equiv e1 e2 :
  elem_wf e1 → elem_wf e2 → elem_eqb e1 e2 = true ↔ e1 ≡ e2.
Proof.
  intros. unfold elem_eqb. rewrite andb_true_iff, bool_decide_eq_true.
  by rewrite dict_eqb_perm by done.
Qed.

Lemma elems_eqb_equiv l1 l2 :
  Forall elem_wf l1 → Forall elem_wf l2 → elems_eqb l1 l2 = true ↔ Forall2 (≡) l1 l2.
Proof.
  intros H1. revert l2. induction H1 as [|e1 l1 He1 Hl1 IH]; intros l2 H2;
    destruct l2 as [|e2 l2]; cbn; try (split; [done | by inversion 1]).
  apply Forall_cons in H2 as [??]. rewrite andb_true_iff, elem_eqb_equiv, IH by done.
  by rewrite Forall2_cons.
Qed.
