(* ===== verification/GnmiPath.v ===== *)
(** * Paths: confdgnmi/src/confd_gnmi_common.py

    The conversions between gNMI [Path] messages and string paths, prefix
    handling, and the option-to-enumeration tables.  Logging calls are left out. *)

From Stdlib Require Import Ascii String.
From S2P Require Import Prelude PyStr PyDict GnmiMsg.

Section paths.
Context `{PM : ProtoMap}.

(** ** Operations *)

(** The body of the loop over [ks[1:]] of [make_name_keys]. *)
Definition add_key (keys : list (pystr * pystr)) (k : pystr) : res (list (pystr * pystr)) :=
  if decide (k = []) then Ok keys
  else
    let key := split "=" (replace k (py"]") []) in
    v ← py_index key 1;
    n ← py_index key 0;
    Ok (dict_set n v keys).

Definition make_name_keys (elem_string : pystr) : res (pystr * list (pystr * pystr)) :=
  if contains elem_string (py"[") then
    let ks := split "[" elem_string in
    name ← py_index ks 0;
    keys ← res_fold add_key [] (drop 1 ks);
    Ok (name, keys)
  else Ok (elem_string, []).

(** [gnmi_pb2.PathElem(name=name, key=keys)]. *)
Definition new_elem (name : pystr) (keys : list (pystr * pystr)) : PathElem :=
  {| pe_name := name; pe_key := map_iter keys |}.

(** The elements of [make_gnmi_path], one per non-empty piece of the path. *)
Fixpoint make_elems (elem_strings : list pystr) : res (list PathElem) :=
  match elem_strings with
  | [] => Ok []
  | e :: es =>
      if decide (e = []) then make_elems es
      else
        '(name, keys) ← make_name_keys e;
        rest ← make_elems es;
        Ok (new_elem name keys :: rest)
  end.

(** An unset [origin] or [target] (Python's [None]) reads as the empty string. *)
Definition make_gnmi_path (xpath_string : pystr) (org tgt : option pystr) : res Path :=
  elems ← make_elems (split "/" xpath_string);
  Ok {| origin := default [] org; elem := elems; target := default [] tgt |}.

(** The local function [make_path] of [_make_string_path]: one key, one
    element, then the whole path. *)
Definition key_str (quote_val xpath : bool) (kv : pystr * pystr) : pystr :=
  let '(k, v) := kv in
  let val := if quote_val then dquote ++ v ++ dquote else v in
  if xpath then py"[" ++ k ++ py"=" ++ val ++ py"]" else py"{" ++ val ++ py"}".

Definition elem_str (quote_val xpath : bool) (e : PathElem) : pystr :=
  py"/" ++ pe_name e ++ concat (key_str quote_val xpath <$> pe_key e).

Definition make_path (quote_val xpath : bool) (p : Path) : pystr :=
  let path := concat (elem_str quote_val xpath <$> elem p) in
  if decide (path = []) then py"/" else path.

Definition _make_string_path (gnmi_path gnmi_prefix : option Path)
    (quote_val xpath : bool) : pystr :=
  let path_str :=
    match gnmi_prefix with
    | Some pre => if decide (0 < length (elem pre)) then make_path quote_val xpath pre else []
    | None => []
    end in
  match gnmi_path with
  | Some p => path_str ++ make_path quote_val xpath p
  | None => path_str
  end.

Definition make_xpath_path (gnmi_path gnmi_prefix : option Path) (quote_val : bool) : pystr :=
  _make_string_path gnmi_path gnmi_prefix quote_val true.

Definition make_formatted_path (gnmi_path : Path) (gnmi_prefix : option Path)
    (quote_val : bool) : pystr :=
  _make_string_path (Some gnmi_path) gnmi_prefix quote_val false.

Definition add_path_prefix (path pre : Path) : Path :=
  {| elem := elem pre ++ elem path; origin := origin path; target := target path |}.

Definition remove_path_prefix (path pre : Path) : res Path :=
  _ ← py_assert (elems_eqb (take (length (elem pre)) (elem path)) (elem pre));
  Ok {| elem := drop (length (elem pre)) (elem path);
        origin := origin path; target := target path |}.

Definition get_data_type (datatype_str : pystr) : res Z :=
  dict_lookup datatype_str
    [(py"ALL", DT_ALL); (py"CONFIG", DT_CONFIG);
     (py"STATE", DT_STATE); (py"OPERATIONAL", DT_OPERATIONAL)].

Definition get_sub_mode (mode_str : pystr) : res Z :=
  dict_lookup mode_str [(py"ONCE", ONCE); (py"POLL", POLL); (py"STREAM", STREAM)].

(** ** Well-formed paths: names and keys free of the delimiters *)

Definition free_of (cs s : pystr) : Prop := Forall (λ c, c ∉ s) cs.

Definition name_ok (s : pystr) : Prop := s ≠ [] ∧ free_of (py"/[") s.
Definition key_ok (s : pystr) : Prop := free_of (py"/[]=") s.
Definition elem_ok (e : PathElem) : Prop :=
  name_ok (pe_name e) ∧ dict_wf (pe_key e) ∧
  Forall (λ '(k, v), key_ok k ∧ key_ok v) (pe_key e).
Definition path_ok (p : Path) : Prop := Forall elem_ok (elem p).

#[export] Instance key_ok_dec s : Decision (key_ok s).
Proof. unfold key_ok, free_of. apply _. Defined.

#[export] Instance elem_ok_dec e : Decision (elem_ok e).
Proof.
  unfold elem_ok, name_ok, free_of, dict_wf.
  assert (∀ kv : pystr * pystr, Decision (let '(k, v) := kv in key_ok k ∧ key_ok v)).
  { intros [k v]. apply _. }
  apply _.
Defined.

#[export] Instance path_ok_dec p : Decision (path_ok p).
Proof. unfold path_ok. apply _. Defined.


(** ** Lemmas: parsing one element *)

Lemma free_of_elem cs s c : free_of cs s → c ∈ cs → c ∉ s.
Proof. unfold free_of. rewrite Forall_forall. auto. Qed.

(** Solves [c ∉ s] for a concrete [c] from a hypothesis that [s] is free of it. *)
Ltac free_solve :=
  eapply free_of_elem; [eassumption | vm_decide].

(** What follows the opening bracket of a key. *)
Definition key_tail (kv : pystr * pystr) : pystr := kv.1 ++ py"=" ++ kv.2 ++ py"]".

Lemma key_str_tail kv : key_str false true kv = py"[" ++ key_tail kv.
Proof. by destruct kv. Qed.

Lemma split_keys name d :
  "["%char ∉ name → Forall (λ kv, "["%char ∉ key_tail kv) d →
  split "[" (name ++ concat (key_str false true <$> d)) = name :: (key_tail <$> d).
Proof.
  intros Hname Hd. revert name Hname. induction Hd as [|kv d Hkv Hd IH]; intros name Hname.
  - cbn. rewrite app_nil_r. by apply split_not_elem.
  - rewrite fmap_cons. cbn [concat]. rewrite key_str_tail.
    change (py"[") with ["["%char]. cbn [app].
    rewrite split_app_sep by done. by rewrite IH.
Qed.

Lemma add_key_tail keys k v :
  key_ok k → key_ok v → add_key keys (key_tail (k, v)) = Ok (dict_set k v keys).
Proof.
  intros Hk Hv. unfold add_key, key_tail. cbn [fst snd]. py_norm.
  rewrite decide_False by (by destruct k).
  rewrite !replace_char_app, (replace_not_elem _ k), (replace_not_elem _ v) by free_solve.
  change (replace ["]"%char] ["]"%char] []) with ([] : pystr).
  change (replace ["="%char] ["]"%char] []) with ["="%char].
  rewrite app_nil_r. cbn [app].
  rewrite split_app_sep, split_not_elem by free_solve.
  done.
Qed.

Lemma add_keys_tail d keys :
  Forall (λ '(k, v), key_ok k ∧ key_ok v) d → dict_wf (keys ++ d) →
  res_fold add_key keys (key_tail <$> d) = Ok (keys ++ d).
Proof.
  intros Hd. revert keys. induction Hd as [|[k v] d [Hk Hv] Hd IH]; intros keys Hwf.
  - cbn. by rewrite app_nil_r.
  - rewrite fmap_cons. cbn [res_fold]. rewrite add_key_tail by done. cbn [mbind res_bind]. unfold dict_wf in Hwf.
    rewrite fmap_app, fmap_cons in Hwf. apply NoDup_app in Hwf as (? & Hni & ?).
    rewrite dict_set_new by (intros ?; eapply Hni; eauto; left).
    rewrite IH, <-app_assoc; [done|]. unfold dict_wf. rewrite <-app_assoc, fmap_app.
    apply NoDup_app; split_and!; done.
Qed.

Lemma key_tail_free d c :
  Forall (λ '(k, v), key_ok k ∧ key_ok v) d → c ∈ py"/[" → Forall (λ kv, c ∉ key_tail kv) d.
Proof.
  intros Hd Hc. eapply Forall_impl; [exact Hd|]. intros [k v] [Hk Hv].
  unfold key_tail. cbn [fst snd].
  assert ((c ∉ k) ∧ (c ∉ v)) as [??].
  { split; (eapply free_of_elem; [eassumption|]); py_norm; set_solver. }
  py_norm. set_solver.
Qed.

(** The text of an element without its leading slash. *)
Definition elem_text (e : PathElem) : pystr :=
  pe_name e ++ concat (key_str false true <$> pe_key e).

Lemma concat_not_elem {A} (f : A → pystr) (l : list A) c :
  Forall (λ x, c ∉ f x) l → c ∉ concat (f <$> l).
Proof. induction 1; cbn; set_solver. Qed.

Lemma elem_text_ok e : elem_ok e → elem_text e ≠ [] ∧ "/"%char ∉ elem_text e.
Proof.
  intros ([Hne Hn] & _ & Hk). unfold elem_text. split; [by destruct (pe_name e)|].
  rewrite not_elem_of_app. split; [free_solve|].
  apply concat_not_elem. eapply Forall_impl.
  - apply (key_tail_free _ "/"%char Hk). py_norm; set_solver.
  - intros kv Hkv. cbn in Hkv. rewrite key_str_tail. py_norm. set_solver.
Qed.

Lemma make_name_keys_text e :
  elem_ok e → make_name_keys (elem_text e) = Ok (pe_name e, pe_key e).
Proof.
  intros ([Hne Hn] & Hwf & Hk).
  assert (Hb : "["%char ∉ pe_name e) by free_solve.
  unfold make_name_keys, elem_text. destruct (pe_key e) as [|kv d] eqn:Hd.
  - cbn. rewrite app_nil_r. py_norm. rewrite (proj2 (contains_char_false _ _)) by done. done.
  - rewrite <-Hd in *. py_norm. rewrite (proj2 (contains_char _ _)).
    2:{ rewrite Hd, fmap_cons. cbn [concat]. rewrite key_str_tail. py_norm. set_solver. }
    rewrite split_keys by (done || by apply key_tail_free; [|py_norm; set_solver]).
    cbn. rewrite drop_0, add_keys_tail by done. done.
Qed.

Lemma make_elems_text es :
  Forall elem_ok es →
  make_elems (elem_text <$> es) = Ok ((λ e, new_elem (pe_name e) (pe_key e)) <$> es).
Proof.
  induction 1 as [|e es He Hes IH]; cbn; [done|].
  rewrite decide_False by (by apply elem_text_ok).
  rewrite make_name_keys_text by done. cbn. by rewrite IH.
Qed.

(** ** Lemmas: printing a path *)

Lemma elem_str_text e : elem_str false true e = "/"%char :: elem_text e.
Proof. done. Qed.

Lemma concat_elem_str es :
  es ≠ [] → concat (elem_str false true <$> es) = join (py"/") ([] :: (elem_text <$> es)).
Proof.
  induction es as [|e es IH]; [done|]. intros _. rewrite fmap_cons. cbn [concat].
  rewrite elem_str_text. destruct es as [|e' es]; [cbn; by rewrite app_nil_r|].
  rewrite IH by done. rewrite !fmap_cons, !join_cons by done. done.
Qed.

Lemma make_elems_skip es : make_elems ([] :: es) = make_elems es.
Proof. done. Qed.

Lemma texts_free es : Forall elem_ok es → Forall (λ w, "/"%char ∉ w) (elem_text <$> es).
Proof. intros H. apply Forall_fmap. eapply Forall_impl; [exact H|]. apply elem_text_ok. Qed.

Lemma split_elem_strs es :
  es ≠ [] → Forall elem_ok es →
  split "/" (concat (elem_str false true <$> es)) = [] :: (elem_text <$> es).
Proof.
  intros Hne Hok. rewrite concat_elem_str by done. py_norm. apply split_join; [done|].
  constructor; [set_solver | by apply texts_free].
Qed.

(** A trailing slash only adds an empty piece. *)
Lemma split_elem_strs_slash es :
  es ≠ [] → Forall elem_ok es →
  split "/" (concat (elem_str false true <$> es) ++ py"/") = [] :: (elem_text <$> es) ++ [[]].
Proof.
  intros Hne Hok. rewrite concat_elem_str by done. py_norm. rewrite <-join_snoc_nil.
  apply split_join; [done|]. constructor; [set_solver|].
  apply Forall_app. split; [by apply texts_free | by repeat constructor; set_solver].
Qed.

Lemma make_elems_app l1 l2 :
  make_elems (l1 ++ l2) = (es1 ← make_elems l1; es2 ← make_elems l2; Ok (es1 ++ es2)).
Proof.
  induction l1 as [|w l1 IH]; cbn.
  - by destruct (make_elems l2).
  - case_decide; [exact IH|]. destruct (make_name_keys w) as [[n ks]|]; cbn; [|done].
    rewrite IH. destruct (make_elems l1); cbn; [|done]. by destruct (make_elems l2).
Qed.

Lemma make_path_cons (q x : bool) p :
  elem p ≠ [] → make_path q x p = concat (elem_str q x <$> elem p).
Proof. unfold make_path. destruct (elem p); [done|]. intros _. by rewrite decide_False. Qed.

Lemma make_path_nil (q x : bool) p : elem p = [] → make_path q x p = py"/".
Proof. unfold make_path. by intros ->. Qed.

(** The elements a printed path is read back as. *)
Definition reread (es : list PathElem) : list PathElem :=
  (λ e, new_elem (pe_name e) (pe_key e)) <$> es.

Lemma make_elems_string_path p pre :
  path_ok p → path_ok pre →
  make_elems (split "/" (make_xpath_path (Some p) (Some pre) false)) =
    Ok (reread (elem pre ++ elem p)).
Proof.
  intros Hp Hpre. unfold make_xpath_path, _make_string_path.
  destruct (decide (elem pre = [])) as [Hn|Hn], (decide (elem p = [])) as [Hm|Hm].
  - rewrite decide_False by (rewrite Hn; cbn; lia).
    by rewrite make_path_nil, Hn, Hm by done.
  - rewrite decide_False by (rewrite Hn; cbn; lia).
    rewrite make_path_cons, Hn by done. cbn [app].
    rewrite split_elem_strs, make_elems_skip, make_elems_text by done. done.
  - rewrite decide_True by (destruct (elem pre); [done | cbn; lia]).
    rewrite (make_path_cons _ _ pre), make_path_nil, Hm, app_nil_r by done.
    rewrite split_elem_strs_slash, make_elems_skip, make_elems_app by done.
    rewrite make_elems_text, make_elems_skip by done. cbn. by rewrite app_nil_r.
  - rewrite decide_True by (destruct (elem pre); [done | cbn; lia]).
    rewrite !make_path_cons, <-concat_app, <-fmap_app by done.
    assert (Forall elem_ok (elem pre ++ elem p)) by (by apply Forall_app).
    rewrite split_elem_strs by (done || by destruct (elem pre)).
    rewrite make_elems_skip. by apply make_elems_text.
Qed.

Lemma new_elem_equiv e : elem_wf e → new_elem (pe_name e) (pe_key e) ≡ e.
Proof. intros. split; [done|]. cbn. by apply map_iter_perm. Qed.

Lemma reread_equiv es : Forall elem_wf es → Forall2 (≡) (reread es) es.
Proof. induction 1; constructor; [by apply new_elem_equiv | done]. Qed.

Lemma path_ok_wf p : path_ok p → path_wf p.
Proof. intros H. eapply Forall_impl; [exact H|]. by intros e (_ & ? & _). Qed.

Lemma xpath_elems (q : bool) p pre :
  elem p ≠ [] →
  make_xpath_path (Some p) (Some pre) q = concat (elem_str q true <$> elem pre ++ elem p).
Proof.
  intros Hne. unfold make_xpath_path, _make_string_path. rewrite (make_path_cons _ _ p) by done.
  rewrite fmap_app, concat_app. destruct (decide (elem pre = [])) as [Hn|Hn].
  - rewrite decide_False by (rewrite Hn; cbn; lia). by rewrite Hn.
  - rewrite decide_True by (destruct (elem pre); [done | cbn; lia]). by rewrite make_path_cons.
Qed.

Lemma xpath_prefix_elems (q : bool) pre :
  make_xpath_path None (Some pre) q = concat (elem_str q true <$> elem pre).
Proof.
  unfold make_xpath_path, _make_string_path. destruct (decide (elem pre = [])) as [Hn|Hn].
  - rewrite decide_False by (rewrite Hn; cbn; lia). by rewrite Hn.
  - rewrite decide_True by (destruct (elem pre); [done | cbn; lia]). by apply make_path_cons.
Qed.

Lemma make_gnmi_path_elems es :
  es ≠ [] → Forall elem_ok es →
  make_gnmi_path (concat (elem_str false true <$> es)) None None =
    Ok {| origin := []; elem := reread es; target := [] |}.
Proof.
  intros Hne Hok. unfold make_gnmi_path.
  rewrite split_elem_strs, make_elems_skip, make_elems_text by done. done.
Qed.

(** ** Lemmas: the errors of the parser *)

(** A key text that raises: non-empty and without an equals sign. *)
Definition bad_key (k : pystr) : Prop := k ≠ [] ∧ "="%char ∉ k.

Lemma add_key_error keys k e : add_key keys k = Raise e ↔ e = IndexError ∧ bad_key k.
Proof.
  unfold add_key, bad_key. case_decide as Hk; [naive_solver|]. py_norm.
  rewrite replace_char_nil. set (f := filter _ k).
  assert (Hf : "="%char ∈ f ↔ "="%char ∈ k).
  { subst f. rewrite list_elem_of_filter. naive_solver. }
  destruct (decide ("="%char ∈ k)) as [Hin|Hni].
  - destruct (split_length_2 _ _ (proj2 Hf Hin)) as (a & b & ws & ->). cbn. naive_solver.
  - rewrite split_not_elem by tauto. cbn. naive_solver.
Qed.

Lemma add_keys_error keys ks e :
  res_fold add_key keys ks = Raise e ↔ e = IndexError ∧ Exists bad_key ks.
Proof.
  revert keys. induction ks as [|k ks IH]; intros keys; cbn [res_fold].
  - rewrite Exists_nil. naive_solver.
  - rewrite Exists_cons. destruct (add_key keys k) as [keys'|e'] eqn:Hk; cbn [mbind res_bind].
    + rewrite IH. split; [naive_solver|]. intros (-> & [Hb|Hb]); [|done].
      exfalso. assert (add_key keys k = Raise IndexError) by (by apply add_key_error). congruence.
    + apply add_key_error in Hk as [-> Hb]. naive_solver.
Qed.

(** The key texts of an element string: the pieces after each bracket. *)
Definition key_texts (s : pystr) : list pystr := drop 1 (split "[" s).

Lemma make_name_keys_error s e :
  make_name_keys s = Raise e ↔ e = IndexError ∧ Exists bad_key (key_texts s).
Proof.
  unfold make_name_keys, key_texts. py_norm. destruct (contains s ["["%char]) eqn:Hc.
  - pose proof (split_nonnil "[" s). destruct (split "[" s) as [|w ws]; [done|].
    cbn [py_index lookup list_lookup mbind res_bind]. rewrite <-(add_keys_error [] (drop 1 (w :: ws)) e).
    destruct (res_fold add_key [] (drop 1 (w :: ws))); cbn; naive_solver.
  - apply contains_char_false in Hc. rewrite split_not_elem by done. cbn.
    rewrite Exists_nil. naive_solver.
Qed.

Lemma make_elems_error es e :
  make_elems es = Raise e ↔ e = IndexError ∧ Exists (λ w, Exists bad_key (key_texts w)) es.
Proof.
  induction es as [|w es IH]; cbn [make_elems].
  - rewrite Exists_nil. naive_solver.
  - rewrite Exists_cons. case_decide as Hw.
    { subst. cbn. rewrite Exists_nil. naive_solver. }
    destruct (make_name_keys w) as [[n ks]|e'] eqn:Hk; cbn [mbind res_bind].
    + assert (¬ Exists bad_key (key_texts w)) as Hnb.
      { intros Hb. pose proof (make_name_keys_error w IndexError) as [_ Hr].
        specialize (Hr (conj eq_refl Hb)). congruence. }
      destruct (make_elems es) as [es'|e'] eqn:He; cbn [mbind res_bind].
      * split; [done|]. intros (-> & [Hb|Hb]); [done|]. by pose proof (proj2 IH (conj eq_refl Hb)).
      * rewrite IH. naive_solver.
    + apply make_name_keys_error in Hk as [-> Hb]. naive_solver.
Qed.

Lemma remove_added_prefix p pre :
  path_wf pre → remove_path_prefix (add_path_prefix p pre) pre = Ok p.
Proof.
  intros Hpre. unfold remove_path_prefix, add_path_prefix. cbn [elem origin target].
  rewrite take_app_exact, drop_app_exact.
  rewrite (proj2 (elems_eqb_equiv _ _ Hpre Hpre)) by reflexivity. by destruct p.
Qed.

(** ** Properties *)

(** C1: printing a path relative to a prefix as an XPath string and parsing the
    string back gives the prefix's elements followed by the path's, for every
    path and prefix whose names, keys and values are free of the delimiters
    (slash, brackets, equals sign), whatever order the protobuf runtime
    iterates a key map in; messages are compared as protobuf compares them. *)
Theorem xpath_roundtrip (p pre : Path) :
  path_ok p → path_ok pre →
  ∃ p', make_gnmi_path (make_xpath_path (Some p) (Some pre) false)
          (Some (origin p)) (Some (target p)) = Ok p' ∧
        p' ≡ add_path_prefix p pre.
Proof.
  intros Hp Hpre. eexists. split.
  - unfold make_gnmi_path. by rewrite make_elems_string_path.
  - split_and!; [done..|]. cbn. apply reread_equiv, Forall_app.
    by split; apply path_ok_wf.
Qed.

(** C2: parsing an XPath string raises exactly when some bracketed key of some
    element is non-empty and has no equals sign, and the exception is then an
    [IndexError]; every other string yields a path. *)
Theorem make_gnmi_path_error (s : pystr) (org tgt : option pystr) (e : exn) :
  make_gnmi_path s org tgt = Raise e ↔
    e = IndexError ∧
    ∃ w k, w ∈ split "/" s ∧ k ∈ key_texts w ∧ k ≠ [] ∧ "="%char ∉ k.
Proof.
  assert (H : make_gnmi_path s org tgt = Raise e ↔ make_elems (split "/" s) = Raise e).
  { unfold make_gnmi_path. destruct (make_elems (split "/" s)); cbn; naive_solver. }
  rewrite H, make_elems_error. split.
  - intros (-> & (w & Hw & (k & Hk & ? & ?)%Exists_exists)%Exists_exists). eauto 10.
  - intros (-> & w & k & Hw & Hk & Hb). split; [done|]. apply Exists_exists. exists w.
    split; [done|]. apply Exists_exists. by exists k.
Qed.

(** Removing a prefix succeeds exactly when the path starts with elements
    equal to the prefix's as messages, and leaves the remaining elements with
    the path's origin and target; otherwise it is an [AssertionError]. *)
Theorem remove_path_prefix_spec (path pre : Path) :
  path_wf path → path_wf pre →
  (∀ p', remove_path_prefix path pre = Ok p' ↔
     ∃ l, Forall2 (≡) l (elem pre) ∧ path = add_path_prefix p' {| origin := []; elem := l; target := [] |}) ∧
  (∀ e, remove_path_prefix path pre = Raise e ↔
     e = AssertionError ∧ ¬ Forall2 (≡) (take (length (elem pre)) (elem path)) (elem pre)).
Proof.
  intros Hp Hpre. unfold remove_path_prefix.
  assert (Heq := elems_eqb_equiv (take (length (elem pre)) (elem path)) (elem pre)
    (Forall_take _ _ _ Hp) Hpre).
  destruct (elems_eqb _ _); cbn; (split; [intros p'|intros e]).
  - split.
    + intros [= <-]. exists (take (length (elem pre)) (elem path)). split; [by apply Heq|].
      unfold add_path_prefix. cbn. rewrite take_drop. by destruct path.
    + intros (l & Hl & ->). f_equal. cbn. apply Forall2_length in Hl.
      rewrite <-Hl, drop_app_exact. by destruct p'.
  - naive_solver.
  - split; [done|]. intros (l & Hl & ->). exfalso. cbn in Heq.
    rewrite <-(Forall2_length _ _ _ Hl), take_app_exact in Heq. by pose proof (proj2 Heq Hl).
  - naive_solver.
Qed.

(** Removing the prefix that was added gives the path back, and a string
    path relative to a prefix is the string path of the prefixed path, in both
    formats and with or without quotes, when the path has an element. *)
Theorem path_prefix_strings (p pre : Path) (quote_val xpath : bool) :
  elem p ≠ [] → path_wf p → path_wf pre →
  remove_path_prefix (add_path_prefix p pre) pre = Ok p ∧
  _make_string_path (Some p) (Some pre) quote_val xpath =
    _make_string_path (Some (add_path_prefix p pre)) None quote_val xpath.
Proof.
  intros Hne Hp Hpre. split.
  - by apply remove_added_prefix.
  - unfold _make_string_path. cbn [app].
    rewrite (make_path_cons _ _ (add_path_prefix p pre)) by (cbn; by destruct (elem pre)).
    rewrite (make_path_cons _ _ p) by done. cbn. rewrite fmap_app, concat_app.
    destruct (decide (elem pre = [])) as [Hn|Hn].
    + rewrite Hn. rewrite decide_False by (cbn; lia). done.
    + rewrite decide_True by (destruct (elem pre); [done|cbn; lia]). by rewrite make_path_cons.
Qed.
End paths.

(** ** Witnesses *)

Definition ex_prefix : Path :=
  {| origin := []; elem := [{| pe_name := py"ietf-interfaces:interfaces"; pe_key := [] |}];
     target := [] |}.

Definition ex_path : Path :=
  {| origin := []; target := py"dev";
     elem := [{| pe_name := py"interface"; pe_key := [(py"name", py"if_8"); (py"unit", py"0")] |};
              {| pe_name := py"type"; pe_key := [] |}] |}.

Lemma xpath_roundtrip_witness :
  make_xpath_path (Some ex_path) (Some ex_prefix) false =
    py"/ietf-interfaces:interfaces/interface[name=if_8][unit=0]/type" ∧
  ∃ p', make_gnmi_path (make_xpath_path (Some ex_path) (Some ex_prefix) false)
          (Some (origin ex_path)) (Some (target ex_path)) = Ok p' ∧
        p' ≡ add_path_prefix ex_path ex_prefix.
Proof. split; [reflexivity|]. apply (xpath_roundtrip ex_path ex_prefix); vm_decide. Defined.

Lemma remove_path_prefix_spec_witness :
  ∃ l, Forall2 (≡) l (elem ex_prefix) ∧
    add_path_prefix ex_path ex_prefix =
      add_path_prefix ex_path {| origin := []; elem := l; target := [] |}.
Proof.
  apply (remove_path_prefix_spec (add_path_prefix ex_path ex_prefix) ex_prefix).
  - apply path_ok_wf. vm_decide.
  - apply path_ok_wf. vm_decide.
  - reflexivity.
Defined.

Lemma path_prefix_strings_witness :
  remove_path_prefix (add_path_prefix ex_path ex_prefix) ex_prefix = Ok ex_path ∧
  _make_string_path (Some ex_path) (Some ex_prefix) true false =
    _make_string_path (Some (add_path_prefix ex_path ex_prefix)) None true false.
Proof.
  apply (path_prefix_strings ex_path ex_prefix true false);
    [discriminate | apply path_ok_wf; vm_decide | apply path_ok_wf; vm_decide].
Defined.
