(* ===== verification/Adapter.v ===== *)
(** * The adapter interface and the subscription handler

    confdgnmi/src/confd_gnmi_adapter.py: the abstract methods of
    [GnmiServerAdapter] and of its [SubscriptionHandler] as the classes
    [HandlerOps] and [AdapterOps], and the handler's own code: [sample],
    [changes], [put_event], [poll], [stop] and the generator [read], which is
    the event loop of a subscription.  [read] is a state machine whose steps
    interleave with the events that other threads put on its queue. *)

From Stdlib Require Import Ascii String.
From stdpp Require Import relations.
From S2P Require Import Prelude GnmiMsg.

(** ** Interfaces *)

(** The abstract methods of [SubscriptionHandler], over the state [W] of the
    adapter and handler that implement them. *)
Class HandlerOps (W : Type) := {
  get_sample : Path → Path → PyM W (list Update);
  add_path_for_monitoring : Path → Path → PyM W unit;
  get_subscription_notifications : SubscriptionList → PyM W (list Notification);
  start_monitoring : PyM W unit;
  stop_monitoring : PyM W unit
}.

(** [GnmiServerAdapter.CapabilityModel]. *)
Record CapabilityModel := {
  cm_name : pystr; cm_organization : pystr; cm_version : pystr; cm_schema : pystr
}.

(** The abstract methods of [GnmiServerAdapter]. *)
Class AdapterOps (W : Type) := {
  capabilities : PyM W (list CapabilityModel);
  encodings : PyM W (list Z);
  adapter_get : Path → list Path → Z → list ModelData → PyM W (list Notification);
  adapter_set : Path → list Update → PyM W (list (Path * Z));
  adapter_delete : Path → list Path → PyM W (list (Path * Z))
}.

(** [SubscriptionHandler.get_subscription_notifications] as the base class
    defines it, in terms of [get_monitored_changes]. *)
Definition base_get_subscription_notifications {W}
    (get_monitored_changes : PyM W (list Update)) (sl : SubscriptionList)
    : PyM W (list Notification) :=
  ups ← get_monitored_changes;
  mret [{| timestamp := 0; prefix := sl_prefix sl; update := ups; delete := []; atomic := false |}].

Inductive SubscriptionEvent := SAMPLE | SEND_CHANGES | FINISH.

#[export] Instance SubscriptionEvent_eq_dec : EqDecision SubscriptionEvent.
Proof. solve_decision. Defined.

(** ** The handler *)

Section handler.
Context {W : Type} `{HandlerOps W}.

Definition is_once (sl : SubscriptionList) : bool := bool_decide (sl_mode sl = ONCE).
Definition is_poll (sl : SubscriptionList) : bool := bool_decide (sl_mode sl = POLL).
Definition is_monitor_changes (sl : SubscriptionList) : bool := bool_decide (sl_mode sl = STREAM).

(** The loop of [sample] over the subscriptions. *)
Fixpoint sample_loop (sl : SubscriptionList) (monitor : bool) (subs : list Subscription)
    : PyM W (list Update) :=
  match subs with
  | [] => mret []
  | s :: subs' =>
      ups ← get_sample (sub_path s) (sl_prefix sl);
      _ ← (if monitor then add_path_for_monitoring (sub_path s) (sl_prefix sl) else mret tt);
      rest ← sample_loop sl monitor subs';
      mret (ups ++ rest)
  end.

Definition sample (sl : SubscriptionList) (monitor : bool) : PyM W SubscribeResponse :=
  ups ← sample_loop sl monitor (sl_subscription sl);
  _ ← (if monitor then start_monitoring else mret tt);
  mret (RespUpdate {| timestamp := 0; prefix := sl_prefix sl; update := ups;
                      delete := []; atomic := false |}).

Definition sync_response : SubscribeResponse := RespSync true.

Definition changes (sl : SubscriptionList) : PyM W (list SubscribeResponse) :=
  notifications ← get_subscription_notifications sl;
  mret (RespUpdate <$> notifications).

(** Where the generator [read] is: not started; at the top of its loop; after
    the [yield] of a sample; after the [yield] of the sync response; inside
    [yield from] with these responses left; at [read_queue.get()]; after the
    loop; returned; raised. *)
Inductive read_pc :=
  | PcStart
  | PcLoop (event : option SubscriptionEvent) (first_sample : bool)
  | PcSampled (first_sample : bool)
  | PcAfter
  | PcYield (responses : list SubscribeResponse)
  | PcWait
  | PcBreak
  | PcDone
  | PcFailed (e : exn).

(** A handler: its subscription list, its queue, the state of the adapter and
    where its generator is. *)
Record handler := {
  subscription_list : SubscriptionList;
  read_queue : option (list SubscriptionEvent);
  world : W;
  pc : read_pc
}.

Definition set_queue (q : option (list SubscriptionEvent)) (h : handler) : handler :=
  {| subscription_list := subscription_list h; read_queue := q; world := world h; pc := pc h |}.
Definition set_world (w : W) (h : handler) : handler :=
  {| subscription_list := subscription_list h; read_queue := read_queue h; world := w; pc := pc h |}.
Definition set_pc (p : read_pc) (h : handler) : handler :=
  {| subscription_list := subscription_list h; read_queue := read_queue h; world := world h; pc := p |}.

(** [SubscriptionHandler.__init__]. *)
Definition new_handler (sl : SubscriptionList) (w : W) : handler :=
  {| subscription_list := sl; read_queue := if is_once sl then None else Some [];
     world := w; pc := PcStart |}.

Definition put_event (e : SubscriptionEvent) (h : handler) : res unit * handler :=
  match read_queue h with
  | Some q => (Ok tt, set_queue (Some (q ++ [e])) h)
  | None => (Raise AssertionError, h)
  end.

Definition stop (h : handler) : res unit * handler := put_event FINISH h.
Definition poll (h : handler) : res unit * handler := put_event SAMPLE h.

(** Run a method of the adapter and continue at [k] of its result. *)
Definition call {A} (m : PyM W A) (h : handler) (k : A → list SubscribeResponse * read_pc)
    : list SubscribeResponse * handler :=
  match m (world h) with
  | (Ok a, w') => let '(out, p) := k a in (out, set_pc p (set_world w' h))
  | (Raise e, w') => ([], set_pc (PcFailed e) (set_world w' h))
  end.

(** One step of [read] with the responses it yields; [None] when the generator
    has ended or waits on the empty queue. *)
Definition read_step (h : handler) : option (list SubscribeResponse * handler) :=
  let sl := subscription_list h in
  match pc h with
  | PcStart =>
      if is_once sl then Some ([], set_pc (PcLoop None true) h)
      else match read_queue h with
           | Some _ => Some ([], set_pc (PcLoop None true) h)
           | None => Some ([], set_pc (PcFailed AssertionError) h)
           end
  | PcLoop event first_sample =>
      if first_sample || bool_decide (event = Some SAMPLE) then
        Some (call (sample sl (is_monitor_changes sl && first_sample)) h
                (λ response, ([response], PcSampled first_sample)))
      else if bool_decide (event = Some FINISH) then Some ([], set_pc PcBreak h)
      else if bool_decide (event = Some SEND_CHANGES) then
        Some (call (changes sl) h (λ responses, ([], PcYield responses)))
      else Some ([], set_pc PcBreak h)
  | PcSampled first_sample =>
      Some (if first_sample then [sync_response] else [], set_pc PcAfter h)
  | PcAfter => Some ([], set_pc (if is_once sl then PcBreak else PcWait) h)
  | PcYield (response :: rest) => Some ([response], set_pc (PcYield rest) h)
  | PcYield [] => Some ([], set_pc PcWait h)
  | PcWait =>
      match read_queue h with
      | Some (event :: q) => Some ([], set_pc (PcLoop (Some event) false) (set_queue (Some q) h))
      | Some [] => None
      | None => Some ([], set_pc (PcFailed AttributeError) h)
      end
  | PcBreak =>
      if is_monitor_changes sl then Some (call stop_monitoring h (λ _, ([], PcDone)))
      else Some ([], set_pc PcDone h)
  | PcDone | PcFailed _ => None
  end.

(** Iterating over the generator until it ends, blocks or [fuel] is used up. *)
Fixpoint read (fuel : nat) (h : handler) : list SubscribeResponse * handler :=
  match fuel with
  | 0 => ([], h)
  | S f =>
      match read_step h with
      | None => ([], h)
      | Some (out, h') => let '(out', h'') := read f h' in (out ++ out', h'')
      end
  end.

(** ** Interleavings

    The thread that iterates over [read] takes a step, another thread puts an
    event on the queue, or other threads change the adapter's state as [env]
    allows.  A step carries the responses it yields and the events it puts. *)
Inductive step (env : W → W → Prop) :
    handler → list SubscribeResponse → list SubscriptionEvent → handler → Prop :=
  | step_read h out h' : read_step h = Some (out, h') → step env h out [] h'
  | step_put h e h' : put_event e h = (Ok tt, h') → step env h [] [e] h'
  | step_env h w' : env (world h) w' → step env h [] [] (set_world w' h).

(** Executions from a handler, with what was yielded and put, in order. *)
Inductive exec (env : W → W → Prop) (h0 : handler) :
    list SubscribeResponse → list SubscriptionEvent → handler → Prop :=
  | exec_nil : exec env h0 [] [] h0
  | exec_snoc out evs h out' evs' h' :
      exec env h0 out evs h → step env h out' evs' h' →
      exec env h0 (out ++ out') (evs ++ evs') h'.

(** ** Specification: a session as a sequential program *)

Definition on_event (sl : SubscriptionList) (e : SubscriptionEvent)
    : PyM W (list SubscribeResponse) :=
  match e with
  | SAMPLE => r ← sample sl false; mret [r]
  | SEND_CHANGES => changes sl
  | FINISH => mret []
  end.

(** The first sample, the sync response, then the events in order. *)
Definition session_body (sl : SubscriptionList) (evs : list SubscriptionEvent)
    : PyM W (list SubscribeResponse) :=
  r ← sample sl (is_monitor_changes sl);
  outs ← M_map (on_event sl) evs;
  mret (r :: sync_response :: concat outs).

Definition session (sl : SubscriptionList) (evs : list SubscriptionEvent)
    : PyM W (list SubscribeResponse) :=
  out ← session_body sl evs;
  _ ← (if is_monitor_changes sl then stop_monitoring else mret tt);
  mret out.

(** The same program while other threads change the adapter's state between its calls,
    as [env] allows: a call of [m] after such changes. *)
Definition after_others (env : W → W → Prop) {A} (m : PyM W A) (w : W) (a : A) (w' : W) : Prop :=
  ∃ w1, rtc env w w1 ∧ m w1 = (Ok a, w').

Inductive body_among (env : W → W → Prop) (sl : SubscriptionList) (w0 : W) :
    list SubscriptionEvent → list SubscribeResponse → W → Prop :=
  | among_first r w :
      after_others env (sample sl (is_monitor_changes sl)) w0 r w → body_among env sl w0 [] [r; sync_response] w
  | among_event evs out w e o w' :
      body_among env sl w0 evs out w → e ≠ FINISH → after_others env (on_event sl e) w o w' →
      body_among env sl w0 (evs ++ [e]) (out ++ o) w'.

Definition session_among (env : W → W → Prop) (sl : SubscriptionList) (evs : list SubscriptionEvent)
    (w0 : W) (out : list SubscribeResponse) (w' : W) : Prop :=
  ∃ w, body_among env sl w0 evs out w ∧
    after_others env (if is_monitor_changes sl then stop_monitoring else mret tt) w tt w'.

(** ** Lemmas: the shape of the response stream *)

Definition is_update (r : SubscribeResponse) : bool :=
  match r with RespUpdate _ => true | RespSync _ => false end.

Lemma sample_update sl b w r w' : sample sl b w = (Ok r, w') → is_update r.
Proof.
  unfold sample. monad_unfold. destruct (sample_loop _ _ _ _) as [[ups|e] w1]; [|done].
  destruct ((if b then start_monitoring else _) w1) as [[u|e] w2]; by intros [= <- <-].
Qed.

Lemma changes_update sl w rs w' : changes sl w = (Ok rs, w') → Forall is_update rs.
Proof.
  unfold changes. monad_unfold. destruct (get_subscription_notifications _ _) as [[ns|e] w1];
    intros [= <- <-]. by apply Forall_fmap, Forall_true.
Qed.

(** The stream after the first sample: an update, the sync response, updates. *)
Definition synced (out : list SubscribeResponse) : Prop :=
  ∃ u us, out = u :: sync_response :: us ∧ is_update u ∧ Forall is_update us.

Lemma all_updates us : Forall is_update us → ∃ ns, us = RespUpdate <$> ns.
Proof.
  induction 1 as [|[n|] us Hn _ [ns ->]]; [by exists [] | by exists (n :: ns) | done].
Qed.

Lemma synced_updates out :
  synced out → ∃ u us, out = RespUpdate u :: RespSync true :: (RespUpdate <$> us).
Proof.
  intros ([u|] & us & -> & Hu & (ns & ->)%all_updates); [|done]. by exists u, ns.
Qed.

Definition shape (p : read_pc) (out : list SubscribeResponse) : Prop :=
  match p with
  | PcStart | PcLoop _ true => out = []
  | PcSampled true => ∃ u, out = [u] ∧ is_update u
  | PcFailed _ => out = [] ∨ synced out
  | PcYield rs => synced out ∧ Forall is_update rs
  | _ => synced out
  end.

Lemma synced_snoc out us : synced out → Forall is_update us → synced (out ++ us).
Proof.
  intros (u & us' & -> & ? & ?) ?. exists u, (us' ++ us). split_and!; [done..|].
  by apply Forall_app.
Qed.

Lemma shape_read_step h out out' h' :
  shape (pc h) out → read_step h = Some (out', h') → shape (pc h') (out ++ out').
Proof.
  unfold read_step. intros Hs. destruct (pc h) as [|ev first|first| |[|r rs]| | | |e] eqn:Hpc.
  - case_match; [|case_match]; intros [= <- <-]; cbn in *; subst; by auto.
  - destruct (first || _) eqn:Hor.
    + unfold call. destruct (sample _ _ _) as [[r|e] w'] eqn:Hsam; intros [= <- <-].
      * apply sample_update in Hsam. destruct first; cbn in *; [subst; by eauto|].
        apply synced_snoc; [done | by constructor].
      * destruct first; cbn in *; rewrite app_nil_r; by auto.
    + destruct first; [done|]. cbn in Hs. case_match; [intros [= <- <-]; by rewrite app_nil_r|].
      case_match; [|intros [= <- <-]; by rewrite app_nil_r].
      unfold call. destruct (changes _ _) as [[rs|e] w'] eqn:Hch; intros [= <- <-];
        rewrite app_nil_r; cbn; [|by auto]. split; [done | by apply changes_update in Hch].
  - intros [= <- <-]. destruct first; cbn in *; [|by rewrite app_nil_r].
    destruct Hs as (u & -> & ?). by exists u, [].
  - intros [= <- <-]. rewrite app_nil_r. cbn in *. by case_match.
  - intros [= <- <-]. rewrite app_nil_r. cbn in *. by destruct Hs.
  - intros [= <- <-]. destruct Hs as [? [? ?]%Forall_cons]. cbn. split; [|done].
    apply synced_snoc; [done | by constructor].
  - destruct (read_queue h) as [[|ev q]|]; intros [= <- <-]; rewrite app_nil_r; cbn in *; by auto.
  - case_match; [|intros [= <- <-]; by rewrite app_nil_r].
    unfold call. destruct (stop_monitoring _) as [[u|e] w'];
      intros [= <- <-]; rewrite app_nil_r; cbn in *; by auto.
  - done.
  - done.
Qed.

Lemma shape_exec env sl w out evs h :
  exec env (new_handler sl w) out evs h → shape (pc h) out.
Proof.
  induction 1 as [|out evs h out' evs' h' _ IH Hst]; [done|].
  destruct Hst as [h out' h' Hr | h e h' Hp | h w' _].
  - by eapply shape_read_step.
  - unfold put_event in Hp. destruct (read_queue h); simplify_eq. by rewrite app_nil_r.
  - by rewrite app_nil_r.
Qed.

Lemma subscription_list_exec env h0 out evs h :
  exec env h0 out evs h → subscription_list h = subscription_list h0.
Proof.
  induction 1 as [|out evs h out' evs' h' _ IH Hst]; [done|]. rewrite <-IH.
  destruct Hst as [h out' h' Hr | h e h' Hp | h w' _]; [|unfold put_event in Hp; by case_match; simplify_eq|done].
  unfold read_step, call in Hr. repeat (case_match; simplify_eq; try done).
Qed.

(** ** Lemmas: the session an execution performs *)

Lemma session_body_snoc sl evs e w0 out w o w' :
  session_body sl evs w0 = (Ok out, w) → on_event sl e w = (Ok o, w') →
  session_body sl (evs ++ [e]) w0 = (Ok (out ++ o), w').
Proof.
  unfold session_body. monad_unfold. destruct (sample _ _ _) as [[r|x] w1]; [|done].
  destruct (M_map _ evs w1) as [[outs|x] w2] eqn:Hm; [|done]. intros [= <- <-] He.
  rewrite (M_map_snoc _ _ _ _ _ _ _ _ Hm He), concat_app. cbn. by rewrite app_nil_r.
Qed.

Lemma body_among_no_finish env sl w0 evs out w : body_among env sl w0 evs out w → FINISH ∉ evs.
Proof. induction 1; set_solver. Qed.

Lemma after_nobody {A} (m : PyM W A) (env : W → W → Prop) w a w' :
  (∀ w w', ¬ env w w') → after_others env m w a w' → m w = (Ok a, w').
Proof. intros Hno (w1 & [->|(w2 & Hw & _)]%rtc_inv & Hm); [done|by destruct (Hno _ _ Hw)]. Qed.

(** Without other threads that change the state it is the sequential program. *)
Lemma session_among_nobody env sl evs w0 out w' :
  (∀ w w', ¬ env w w') → session_among env sl evs w0 out w' → session sl evs w0 = (Ok out, w').
Proof.
  intros Hno (w & Hb & Hst). apply (after_nobody _ _ _ _ _ Hno) in Hst.
  assert (session_body sl evs w0 = (Ok out, w)) as Hs.
  { clear Hst. induction Hb as [r w Hf|evs out w e o w1 _ IH _ He].
    - apply (after_nobody _ _ _ _ _ Hno) in Hf. unfold session_body. monad_unfold. by rewrite Hf.
    - apply (after_nobody _ _ _ _ _ Hno) in He. by eapply session_body_snoc. }
  unfold session. monad_unfold. rewrite Hs. by rewrite Hst.
Qed.

Context (env : W → W → Prop).

(** [evs] have been served with the responses [out], and state [w] reached since. *)
Definition served (sl : SubscriptionList) (w0 : W) (evs : list SubscriptionEvent)
    (out : list SubscribeResponse) (w : W) : Prop :=
  ∃ w1, body_among env sl w0 evs out w1 ∧ rtc env w1 w.

Lemma served_snoc sl w0 evs e out w o w' :
  served sl w0 evs out w → e ≠ FINISH → on_event sl e w = (Ok o, w') →
  served sl w0 (evs ++ [e]) (out ++ o) w'.
Proof.
  intros (w1 & Hb & Hw) Hne He. exists w'. split; [|done]. eapply among_event; [done|done|]. by exists w.
Qed.

(** What [read] has done of a session when [taken] are the events it took off
    its queue; nothing is claimed of a call that raised. *)
Definition progress (sl : SubscriptionList) (w0 : W) (p : read_pc)
    (taken : list SubscriptionEvent) (out : list SubscribeResponse) (w : W) : Prop :=
  match p with
  | PcStart => taken = [] ∧ out = [] ∧ rtc env w0 w
  | PcLoop event first =>
      if first then taken = [] ∧ out = [] ∧ rtc env w0 w
      else ∃ e evs, event = Some e ∧ taken = evs ++ [e] ∧ served sl w0 evs out w
  | PcSampled true => taken = [] ∧ ∃ r w1, out = [r] ∧
      after_others env (sample sl (is_monitor_changes sl)) w0 r w1 ∧ rtc env w1 w
  | PcSampled false | PcAfter | PcWait => served sl w0 taken out w
  | PcYield rs => served sl w0 taken (out ++ rs) w
  | PcBreak => ∃ evs, taken = evs ++ [FINISH] ∧ served sl w0 evs out w
  | PcDone => ∃ evs w1, taken = evs ++ [FINISH] ∧ session_among env sl evs w0 out w1 ∧ rtc env w1 w
  | PcFailed _ => True
  end.

Lemma served_env sl w0 evs out w w' : served sl w0 evs out w → env w w' → served sl w0 evs out w'.
Proof. intros (w1 & ? & ?) ?. exists w1. split; [done|by eapply rtc_r]. Qed.

Lemma progress_env sl w0 p taken out w w' :
  progress sl w0 p taken out w → env w w' → progress sl w0 p taken out w'.
Proof.
  intros Hp He. destruct p as [|ev [|]|[|]| |rs| | | |e]; cbn [progress] in *; try done;
    repeat match goal with
    | H : _ ∧ _ |- _ => destruct H
    | H : ∃ _, _ |- _ => destruct H
    end; eauto 10 using served_env, rtc_r.
Qed.

Definition queue (h : handler) : list SubscriptionEvent := default [] (read_queue h).

Lemma progress_read_step sl w0 h taken out out' h' :
  subscription_list h = sl → is_once sl = false →
  progress sl w0 (pc h) taken out (world h) → read_step h = Some (out', h') →
  ∃ t, queue h = t ++ queue h' ∧ progress sl w0 (pc h') (taken ++ t) (out ++ out') (world h').
Proof.
  intros Hsl Hno Hp. unfold read_step. rewrite Hsl, Hno.
  destruct (pc h) as [|ev first|first| |[|r rs]| | | |e] eqn:Hpc; cbn [progress] in Hp.
  - destruct Hp as (-> & -> & Hw). exists [].
    destruct (read_queue h); simplify_eq; by split.
  - destruct (first || _) eqn:Hor.
    + unfold call. destruct (sample _ _ _) as [[r|e] w'] eqn:Hsam;
        intros [= <- <-]; exists []; (split; [done|]); [|done].
      rewrite app_nil_r. destruct first; cbn.
      * destruct Hp as (-> & -> & Hw). split; [done|]. exists r, w'. rewrite andb_true_r in Hsam.
        split_and!; [done|by exists (world h)|done].
      * apply bool_decide_eq_true in Hor as ->. destruct Hp as (e & evs & [= <-] & -> & Hsv).
        eapply served_snoc; [done | done |]. cbn. monad_unfold.
        rewrite andb_false_r in Hsam. by rewrite Hsam.
    + destruct first; [done|]. destruct Hp as (e & evs & -> & -> & Hsv).
      destruct e; [done| |].
      * rewrite bool_decide_eq_false_2, bool_decide_eq_true_2 by done. unfold call.
        destruct (changes _ _) as [[rs|e] w'] eqn:Hch;
          intros [= <- <-]; exists []; (split; [done|]); [|done].
        rewrite !app_nil_r. cbn. by eapply served_snoc.
      * rewrite bool_decide_eq_true_2 by done. intros [= <- <-]. exists []. split; [done|].
        rewrite !app_nil_r. by exists evs.
  - intros [= <- <-]. exists []. split; [done|]. rewrite app_nil_r. destruct first; cbn.
    + destruct Hp as (-> & r & w1 & -> & Hsam & Hw). exists w1. split; [by apply among_first|done].
    + by rewrite app_nil_r.
  - intros [= <- <-]. exists []. split; [done|]. by rewrite !app_nil_r.
  - intros [= <- <-]. exists []. split; [done|]. cbn. rewrite !app_nil_r.
    by rewrite app_nil_r in Hp.
  - intros [= <- <-]. exists []. split; [done|]. cbn. by rewrite app_nil_r, <-app_assoc.
  - unfold queue. destruct (read_queue h) as [[|ev q]|] eqn:Hq; intros [= <- <-].
    + exists [ev]. split; [done|]. rewrite app_nil_r. by exists ev, taken.
    + exists []. cbn. by rewrite Hq.
  - destruct Hp as (evs & -> & w1 & Hb & Hw).
    assert (Hses : ∀ w', (if is_monitor_changes sl then stop_monitoring else mret tt) (world h) =
      (Ok tt, w') → session_among env sl evs w0 out w').
    { intros w' Hw'. exists w1. split; [done|]. by exists (world h). }
    destruct (is_monitor_changes sl).
    + unfold call. destruct (stop_monitoring _) as [[[]|e] w'] eqn:Hst;
        intros [= <- <-]; exists []; (split; [done|]); [|done].
      rewrite !app_nil_r. exists evs, w'. split_and!; [done|by apply Hses|done].
    + intros [= <- <-]. exists []. split; [done|]. rewrite !app_nil_r.
      exists evs, (world h). split_and!; [done|by apply Hses|done].
  - done.
  - done.
Qed.

Lemma read_step_queue h out h' :
  read_step h = Some (out, h') → read_queue h ≠ None → read_queue h' ≠ None.
Proof.
  unfold read_step, call. intros Hr Hq. repeat (case_match; simplify_eq; try done); cbn; congruence.
Qed.

Lemma progress_exec sl w0 out evs h :
  is_once sl = false → exec env (new_handler sl w0) out evs h →
  read_queue h ≠ None ∧
  ∃ taken, evs = taken ++ queue h ∧ progress sl w0 (pc h) taken out (world h).
Proof.
  intros Hno Hex. pose proof (subscription_list_exec _ _ _ _ _ Hex) as Hsl.
  induction Hex as [|out evs h out' evs' h' Hex IH Hst].
  { unfold queue. cbn. rewrite Hno. split; [done|]. by exists []. }
  destruct IH as (Hq & taken & -> & Hp).
  { by apply (subscription_list_exec _ _ _ _ _ Hex). }
  destruct Hst as [h out' h' Hr | h e h' Hpe | h w' He].
  - pose proof (subscription_list_exec _ _ _ _ _ Hex) as Hsl0.
    destruct (progress_read_step sl w0 h taken out out' h') as (t & Hqt & Hp'); [done..|].
    split; [by eapply read_step_queue|]. exists (taken ++ t). by rewrite Hqt, app_nil_r, app_assoc.
  - unfold put_event in Hpe. destruct (read_queue h) as [q|] eqn:Hq'; [|done].
    injection Hpe as <-. split; [done|]. exists taken. unfold queue. rewrite Hq', app_nil_r.
    cbn. by rewrite app_assoc.
  - split; [done|]. exists taken. rewrite !app_nil_r. split; [done|]. by eapply progress_env.
Qed.

End handler.
Arguments handler : clear implicits.

(** ** Lemmas: runs of [read] to the end *)

Section runs.
Context {W : Type} `{HandlerOps W}.
Local Abbreviation handler := (handler W).

(** Iterating from [h] ends in [h'] with [out], for every large enough fuel. *)
Definition ends (h : handler) (out : list SubscribeResponse) (h' : handler) : Prop :=
  ∃ n, ∀ fuel, n ≤ fuel → read fuel h = (out, h').

Lemma ends_stop h : read_step h = None → ends h [] h.
Proof. intros Hs. exists 0. intros [|f] _; cbn; [done|]. by rewrite Hs. Qed.

Lemma ends_step h out h1 out' h' :
  read_step h = Some (out, h1) → ends h1 out' h' → ends h (out ++ out') h'.
Proof.
  intros Hs [n Hn]. exists (S n). intros [|f] Hf; [lia|]. cbn. rewrite Hs, Hn by lia. done.
Qed.

Lemma ends_yield sl q w rs out h' :
  ends {| subscription_list := sl; read_queue := q; world := w; pc := PcWait |} out h' →
  ends {| subscription_list := sl; read_queue := q; world := w; pc := PcYield rs |} (rs ++ out) h'.
Proof.
  intros He. induction rs as [|r rs IH].
  - by eapply (ends_step _ []).
  - by eapply (ends_step _ [r]).
Qed.

(** The state in which a session whose events are all served ends. *)
Definition finished (sl : SubscriptionList) (q : option (list SubscriptionEvent)) (w : W) : handler :=
  {| subscription_list := sl; read_queue := q; world := w; pc := PcDone |}.

Lemma ends_break sl q w w' :
  (if is_monitor_changes sl then stop_monitoring else mret tt) w = (Ok tt, w') →
  ends {| subscription_list := sl; read_queue := q; world := w; pc := PcBreak |} [] (finished sl q w').
Proof.
  intros Hst. eapply (ends_step _ [] (finished sl q w') []); [|by apply ends_stop].
  unfold read_step. cbn. destruct (is_monitor_changes sl); [|by injection Hst as ->].
  unfold call. cbn. by rewrite Hst.
Qed.

Lemma ends_wait sl evs rest w outs w1 w' :
  is_once sl = false → FINISH ∉ evs → M_map (on_event sl) evs w = (Ok outs, w1) →
  (if is_monitor_changes sl then stop_monitoring else mret tt) w1 = (Ok tt, w') →
  ends {| subscription_list := sl; read_queue := Some (evs ++ FINISH :: rest); world := w;
          pc := PcWait |} (concat outs) (finished sl (Some rest) w').
Proof.
  intros Hno Hnf Hm Hst. revert w outs Hm. induction evs as [|e evs IH]; intros w outs Hm.
  - injection Hm as <- <-. eapply (ends_step _ []); [done|]. eapply (ends_step _ []); [done|].
    by apply ends_break.
  - apply not_elem_of_cons in Hnf as [Hne Hnf]. cbn in Hm. monad_unfold.
    destruct (on_event sl e w) as [[o|x] w2] eqn:He; [|done].
    destruct (M_map (on_event sl) evs w2) as [[outs'|x] w3] eqn:Hm'; [|done].
    injection Hm as <- <-. eapply (ends_step _ []); [done|].
    specialize (IH Hnf w2 outs' Hm'). destruct e; [| |done]; cbn in He; cbn [concat].
    + monad_unfold. destruct (sample sl false w) as [[r|x] w4] eqn:Hsam; [|done].
      injection He as <- <-. eapply (ends_step _ [r]).
      { unfold read_step. cbn. unfold call. cbn. by rewrite andb_false_r, Hsam. }
      eapply (ends_step _ []); [done|]. eapply (ends_step _ []); [done|].
      unfold set_pc, set_world, set_queue. cbn. by rewrite Hno.
    + eapply (ends_step _ []).
      { unfold read_step. cbn. unfold call. cbn. by rewrite He. }
      by apply ends_yield.
Qed.

(** A handler whose queue already holds the events of a whole session. *)
Definition queued (sl : SubscriptionList) (w : W) (evs : list SubscriptionEvent) : handler :=
  set_queue (Some evs) (new_handler sl w).

(** ** Lemmas: ONCE subscriptions *)

Definition once_inv (h : handler) (out : list SubscribeResponse) : Prop :=
  read_queue h = None ∧
  match pc h with
  | PcStart | PcLoop _ true | PcSampled true => True
  | PcAfter | PcBreak | PcDone => length out = 2
  | PcFailed _ => out = []
  | _ => False
  end.

Lemma once_inv_step h out out' h' :
  is_once (subscription_list h) = true → shape (pc h) out → once_inv h out →
  read_step h = Some (out', h') → once_inv h' (out ++ out').
Proof.
  unfold once_inv, read_step, call. intros Ho Hs [Hq Hp].
  assert (Hm : is_monitor_changes (subscription_list h) = false).
  { unfold is_once, is_monitor_changes in *. apply bool_decide_eq_true in Ho. by rewrite Ho. }
  rewrite Ho, Hm. destruct (pc h) as [|ev [|]|[|]| |rs| | | |e]; try done; cbn in *.
  - by intros [= <- <-].
  - destruct (sample _ _ _) as [[r|e] w']; intros [= <- <-]; by subst.
  - intros [= <- <-]. cbn. by destruct Hs as (u & -> & _).
  - intros [= <- <-]. cbn. by rewrite app_nil_r.
  - intros [= <- <-]. cbn. by rewrite app_nil_r.
Qed.

Lemma once_exec env sl w out evs h :
  is_once sl = true → exec env (new_handler sl w) out evs h → evs = [] ∧ once_inv h out.
Proof.
  intros Ho Hex. induction Hex as [|out evs h out' evs' h' Hex [-> IH] Hst].
  { split; [done|]. split; [|done]. cbn. by rewrite Ho. }
  pose proof (subscription_list_exec _ _ _ _ _ Hex) as Hsl.
  destruct Hst as [h out' h' Hr | h e h' Hp | h w' _].
  - split; [done|]. eapply once_inv_step; [by rewrite Hsl | by eapply shape_exec | done | done].
  - unfold put_event in Hp. destruct IH as [Hq _]. by rewrite Hq in Hp.
  - split; [done|]. rewrite app_nil_r. exact IH.
Qed.
End runs.

(** ** Instrumentation: the monitoring calls of a handler *)

Inductive monitor_call :=
  | CallAdd (p pre : Path)
  | CallStart
  | CallStop.

(** An implementation that keeps a record of the monitoring calls made to it. *)
#[export] Instance logged {W} (ops : HandlerOps W) : HandlerOps (W * list monitor_call) :=
  let on {A} (m : PyM W A) (c : list monitor_call) : PyM (W * list monitor_call) A :=
    λ '(w, log), let '(r, w') := m w in (r, (w', log ++ c)) in
  {| get_sample p pre := on (get_sample p pre) [];
     add_path_for_monitoring p pre := on (add_path_for_monitoring p pre) [CallAdd p pre];
     get_subscription_notifications sl := on (get_subscription_notifications sl) [];
     start_monitoring := on start_monitoring [CallStart];
     stop_monitoring := on stop_monitoring [CallStop] |}.

Section monitoring.
Context {W : Type} (ops : HandlerOps W).

(** Other threads do not make these calls. *)
Definition keeps_log (w w' : W * list monitor_call) : Prop := w'.2 = w.2.

(** The monitoring calls a subscription makes. *)
Definition added (sl : SubscriptionList) (subs : list Subscription) : list monitor_call :=
  (λ s, CallAdd (sub_path s) (sl_prefix sl)) <$> subs.

Definition start_calls (sl : SubscriptionList) : list monitor_call :=
  if is_monitor_changes sl then added sl (sl_subscription sl) ++ [CallStart] else [].
Definition all_calls (sl : SubscriptionList) : list monitor_call :=
  if is_monitor_changes sl then start_calls sl ++ [CallStop] else [].

Lemma sample_loop_calls sl b subs w log r w' log' :
  sample_loop (H := logged ops) sl b subs (w, log) = (r, (w', log')) →
  ∃ c, log' = log ++ c ∧ c `prefix_of` (if b then added sl subs else []) ∧
    (is_ok r → c = if b then added sl subs else []).
Proof.
  revert w log r w' log'; induction subs as [|s subs IH]; intros w log r w' log'; cbn; monad_unfold; cbn.
  { intros [= <- <- <-]. exists []. rewrite app_nil_r. by destruct b. }
  destruct (get_sample _ _ w) as [[ups|e] w1]; rewrite app_nil_r.
  2:{ intros [= <- <- <-]. exists []. rewrite app_nil_r. split_and!; [done | apply prefix_nil | done]. }
  destruct b; cbn.
  - destruct (add_path_for_monitoring _ _ w1) as [[[]|e] w2].
    + destruct (sample_loop _ _ _ _) as [r' [w3 log3]] eqn:Hl.
      apply IH in Hl as (c & -> & Hpre & Hok).
      intros Heq. exists (CallAdd (sub_path s) (sl_prefix sl) :: c).
      assert (log' = (log ++ [CallAdd (sub_path s) (sl_prefix sl)]) ++ c ∧ is_ok r = is_ok r')
        as [-> Hr] by (by destruct r'; simplify_eq).
      split_and!; [by rewrite <-app_assoc | by apply prefix_cons | ].
      rewrite Hr. intros ?. unfold added. cbn. by rewrite Hok.
    + intros [= <- <- <-]. eexists. split_and!; [done | | done]. apply prefix_cons, prefix_nil.
  - destruct (sample_loop _ _ _ _) as [r' [w3 log3]] eqn:Hl.
    apply IH in Hl as (c & -> & Hpre & Hok). intros Heq. exists c.
    destruct r'; simplify_eq; by split_and!.
Qed.

Lemma sample_calls sl b w r w' :
  sample (H := logged ops) sl b w = (r, w') →
  ∃ c, w'.2 = w.2 ++ c ∧
    c `prefix_of` (if b then added sl (sl_subscription sl) ++ [CallStart] else []) ∧
    (is_ok r → c = if b then added sl (sl_subscription sl) ++ [CallStart] else []).
Proof.
  destruct w as [w log], w' as [w' log']. unfold sample. monad_unfold. cbn [snd].
  destruct (sample_loop _ _ _ _) as [r1 [w1 log1]] eqn:Hl.
  apply sample_loop_calls in Hl as (c & -> & Hpre & Hok). destruct b; cbn in *.
  - destruct r1 as [ups|e].
    + rewrite (Hok I). destruct (start_monitoring w1) as [[[]|e] w2]; intros [= <- <- <-];
        (eexists; split_and!; [by rewrite <-app_assoc | done | done]).
    + intros [= <- <- <-]. exists c. split_and!; [done | by apply prefix_app_r | done].
  - apply prefix_nil_inv in Hpre as ->. rewrite app_nil_r.
    intros Heq. exists []. rewrite app_nil_r. destruct r1; simplify_eq; by split_and!.
Qed.

Lemma changes_calls sl w r w' : changes (H := logged ops) sl w = (r, w') → w'.2 = w.2.
Proof.
  destruct w as [w log], w' as [w' log']. unfold changes. monad_unfold. cbn.
  destruct (get_subscription_notifications _ _) as [[ns|e] w1]; rewrite app_nil_r; by intros [= <- <- <-].
Qed.

(** The monitoring calls made when the generator is at a point. *)
Definition calls_at (sl : SubscriptionList) (p : read_pc) (log : list monitor_call) : Prop :=
  match p with
  | PcStart => log = []
  | PcLoop _ first => log = if first then [] else start_calls sl
  | PcDone => log = all_calls sl
  | PcFailed _ => log `prefix_of` all_calls sl
  | _ => log = start_calls sl
  end.

Lemma start_calls_prefix sl : start_calls sl `prefix_of` all_calls sl.
Proof. unfold all_calls, start_calls. destruct (is_monitor_changes sl); [by apply prefix_app_r|done]. Qed.

Lemma calls_at_loop sl h event first :
  subscription_list h = sl → calls_at sl (PcLoop event first) (world h).2 →
  let h' := (call (sample (H := logged ops) sl (is_monitor_changes sl && first)) h
    (λ response, ([response], PcSampled first))).2 in
  calls_at sl (pc h') (world h').2.
Proof.
  intros Hsl Hc. unfold call. destruct (sample _ _ _) as [r w'] eqn:Hs.
  apply sample_calls in Hs as (c & Hw & Hpre & Hok). cbn in Hc. rewrite Hc in Hw.
  pose proof (start_calls_prefix sl) as Hsp.
  assert (Heq : (if is_monitor_changes sl && first then added sl (sl_subscription sl) ++ [CallStart]
    else []) = if first then start_calls sl else []).
  { unfold start_calls. by destruct (is_monitor_changes sl), first. }
  rewrite Heq in *. destruct r as [r|e]; cbn.
  - rewrite Hw, Hok by done. destruct first; [done | by rewrite app_nil_r].
  - rewrite Hw. destruct first; cbn; [by etrans|].
    apply prefix_nil_inv in Hpre as ->. by rewrite app_nil_r.
Qed.

Lemma calls_at_step sl h out h' :
  subscription_list h = sl → calls_at sl (pc h) (world h).2 →
  read_step (H := logged ops) h = Some (out, h') → calls_at sl (pc h') (world h').2.
Proof.
  intros Hsl Hc. pose proof (start_calls_prefix sl) as Hsp. unfold read_step. rewrite Hsl.
  destruct (pc h) as [|ev first|first| |[|r rs]| | | |e] eqn:Hpc;
    try (intros [= <- <-]; exact Hc).
  - cbn in Hc. case_match; [|case_match]; intros [= <- <-]; cbn; rewrite ?Hc; try done.
    apply prefix_nil.
  - destruct (first || _) eqn:Hor.
    + intros [= Heq]. pose proof (calls_at_loop sl h ev first Hsl Hc) as Hl. by rewrite Heq in Hl.
    + destruct first; [done|]. case_match; [by intros [= <- <-]|].
      case_match; [|by intros [= <- <-]]. unfold call.
      destruct (changes _ _) as [r w'] eqn:Hch. apply changes_calls in Hch.
      destruct r; intros [= <- <-]; cbn in *; rewrite Hch; [done | by rewrite Hc].
  - intros [= <- <-]. cbn. by case_match.
  - destruct (read_queue h) as [[|ev q]|]; intros [= <- <-]; cbn in *; by rewrite ?Hc.
  - cbn in Hc. unfold all_calls. destruct (is_monitor_changes sl) eqn:Hm.
    + unfold call. cbn. destruct (world h) as [w log]. destruct (stop_monitoring w) as [[u|e] w'];
        intros [= <- <-]; cbn in *; unfold all_calls; by rewrite Hm, Hc.
    + intros [= <- <-]. cbn. unfold all_calls. rewrite Hm, Hc. unfold start_calls. by rewrite Hm.
Qed.

Lemma calls_at_exec sl w out evs h :
  exec (H := logged ops) keeps_log (new_handler sl (w, [])) out evs h →
  calls_at sl (pc h) (world h).2.
Proof.
  intros Hex. induction Hex as [|out evs h out' evs' h' Hex IH Hst]; [done|].
  pose proof (subscription_list_exec _ _ _ _ _ Hex) as Hsl.
  destruct Hst as [h out' h' Hr | h e h' Hp | h w' Hk].
  - by eapply calls_at_step.
  - unfold put_event in Hp. destruct (read_queue h); by simplify_eq.
  - cbn. by rewrite Hk.
Qed.
End monitoring.

(** ** Properties *)

Section properties.
Context {W : Type} (ops : HandlerOps W).

(** C14: whatever the adapter does, whatever events arrive and however the threads
    interleave, the responses of a subscription are nothing, or one update, or
    an update followed by exactly one sync response followed by updates only. *)
Theorem subscribe_response_order (env : W → W → Prop) (sl : SubscriptionList) (w : W)
    (out : list SubscribeResponse) (evs : list SubscriptionEvent) (h : handler W) :
  exec env (new_handler sl w) out evs h →
  out = [] ∨ (∃ u, out = [RespUpdate u]) ∨
  (∃ u us, out = RespUpdate u :: RespSync true :: (RespUpdate <$> us)).
Proof.
  intros Hs%shape_exec. pose proof (synced_updates out) as Hy.
  destruct (pc h) as [|ev [|]|[|]| |rs| | | |e]; cbn in Hs; try naive_solver.
  destruct Hs as ([u|] & -> & ?); naive_solver.
Qed.

(** C15: a STREAM or POLL subscription that has ended served exactly the events
    put before the first FINISH, in the order they were put, whatever the
    interleaving, and whatever other threads (such as the one that watches for changes)
    do to the adapter's state between its calls: its responses are those of the
    sequential session with the same changes between its calls, and the events behind
    FINISH are still queued.  When no other thread changes the state, the session and
    its last state are those of the sequential program. *)
Theorem read_refines_session (env : W → W → Prop) (sl : SubscriptionList) (w : W)
    (out : list SubscribeResponse) (puts : list SubscriptionEvent) (h : handler W) :
  sl_mode sl ≠ ONCE → exec env (new_handler sl w) out puts h → pc h = PcDone →
  ∃ evs rest w', puts = evs ++ FINISH :: rest ∧ (FINISH ∉ evs) ∧ read_queue h = Some rest ∧
    session_among env sl evs w out w' ∧ rtc env w' (world h) ∧
    ((∀ w1 w2, ¬ env w1 w2) → session sl evs w = (Ok out, world h)).
Proof.
  intros Hm Hex Hpc. apply progress_exec in Hex as (Hq & taken & -> & Hp);
    [|by apply bool_decide_eq_false]. rewrite Hpc in Hp.
  destruct Hp as (evs & w' & -> & Hses & Hw). unfold queue.
  destruct (read_queue h) as [rest|]; [|done]. exists evs, rest, w'. rewrite <-app_assoc.
  split_and!; try done.
  - destruct Hses as (w1 & Hb & _). by eapply body_among_no_finish.
  - intros Hno. apply (session_among_nobody env); [done|].
    apply rtc_inv in Hw as [<-|(w2 & Hw & _)]; [done|by destruct (Hno _ _ Hw)].
Qed.

(** C16: the generator ends: when the methods of the adapter return on the events
    before a FINISH, iterating over [read] yields the session's responses and
    returns, for every large enough number of steps; a ONCE subscription yields
    its sample and the sync response and returns without any event. *)
Theorem read_terminates (sl : SubscriptionList) (w w' : W) (evs rest : list SubscriptionEvent)
    (out : list SubscribeResponse) :
  (sl_mode sl ≠ ONCE → FINISH ∉ evs → session sl evs w = (Ok out, w') →
     ends (queued sl w (evs ++ FINISH :: rest)) out (finished sl (Some rest) w')) ∧
  (sl_mode sl = ONCE → ∀ r, sample sl false w = (Ok r, w') →
     ends (new_handler sl w) [r; sync_response] (finished sl None w')).
Proof.
  split.
  - intros Hno%(bool_decide_eq_false_2 _) Hnf. fold (is_once sl) in Hno.
    unfold session, session_body. monad_unfold.
    destruct (sample _ _ _) as [[r|e] w1] eqn:Hs; [|done].
    destruct (M_map _ evs w1) as [[outs|e] w2] eqn:Hm; [|done].
    destruct ((if is_monitor_changes sl then stop_monitoring else _) w2) as [[[]|e] w3] eqn:Hst;
      intros [= <- <-].
    eapply (ends_step _ []); [unfold read_step; cbn; by rewrite Hno|].
    eapply (ends_step _ [r]).
    { unfold read_step. cbn. unfold call. cbn. by rewrite andb_true_r, Hs. }
    eapply (ends_step _ [sync_response]); [done|]. eapply (ends_step _ []); [done|].
    cbn. rewrite Hno. by eapply ends_wait.
  - intros Ho%(bool_decide_eq_true_2 _) r Hs. fold (is_once sl) in Ho.
    assert (Hm : is_monitor_changes sl = false).
    { unfold is_once, is_monitor_changes in *. apply bool_decide_eq_true in Ho. by rewrite Ho. }
    unfold new_handler. rewrite Ho.
    eapply (ends_step _ []); [unfold read_step; cbn; by rewrite Ho|].
    eapply (ends_step _ [r]); [unfold read_step, call; cbn; by rewrite Hm; cbn; rewrite Hs|].
    eapply (ends_step _ [sync_response] _ []); [done|]. eapply (ends_step _ [] _ []); [done|].
    cbn. rewrite Ho. apply ends_break. by rewrite Hm.
Qed.

(** A ONCE subscription has no queue and accepts no event; it never waits,
    and when it ends it has yielded exactly one update and the sync response. *)
Theorem once_two_responses (env : W → W → Prop) (sl : SubscriptionList) (w : W)
    (out : list SubscribeResponse) (evs : list SubscriptionEvent) (h : handler W) :
  sl_mode sl = ONCE → exec env (new_handler sl w) out evs h →
  evs = [] ∧ (∀ e, put_event e h = (Raise AssertionError, h)) ∧
  (read_step h = None → (pc h = PcDone ∧ ∃ u, out = [RespUpdate u; RespSync true]) ∨
                        ∃ e, pc h = PcFailed e ∧ out = []).
Proof.
  intros Ho Hex. pose proof (shape_exec _ _ _ _ _ _ Hex) as Hs.
  apply once_exec in Hex as [-> [Hq Hi]]; [|by apply bool_decide_eq_true].
  split_and!; [done | intros e; unfold put_event; by rewrite Hq |].
  unfold read_step. rewrite Hq. destruct (pc h) as [|ev [|]|[|]| |rs| | | |e];
    try done; try (by case_match).
  - intros _. left. split; [done|]. destruct Hs as ([u|] & [|] & -> & ? & ?); naive_solver.
  - intros _. right. by exists e.
Qed.

(** C18: the monitoring protocol: in every reachable state, whatever the
    interleaving, the monitoring calls the handler has made are an initial part
    of: one [add_path_for_monitoring] per subscription in order,
    [start_monitoring], [stop_monitoring]; all of them when the subscription has
    ended, and none at all unless its mode is STREAM. *)
Theorem monitoring_protocol (sl : SubscriptionList) (w : W)
    (out : list SubscribeResponse) (evs : list SubscriptionEvent)
    (h : handler (W * list monitor_call)) :
  exec (H := logged ops) keeps_log (new_handler sl (w, [])) out evs h →
  let calls := (λ s, CallAdd (sub_path s) (sl_prefix sl)) <$> sl_subscription sl in
  let all := if bool_decide (sl_mode sl = STREAM) then calls ++ [CallStart; CallStop] else [] in
  (world h).2 `prefix_of` all ∧ (pc h = PcDone → (world h).2 = all).
Proof.
  intros Hc%calls_at_exec calls all.
  assert (Ha : all_calls sl = all).
  { unfold all_calls, start_calls, all, is_monitor_changes. case_bool_decide; [|done].
    by rewrite <-app_assoc. }
  pose proof (start_calls_prefix sl) as Hsp. rewrite Ha in Hsp. split.
  - destruct (pc h) as [|ev [|]|[|]| |rs| | | |e]; cbn in Hc; rewrite ?Hc, ?Ha; try done;
      try apply prefix_nil.
  - intros Hpc. rewrite Hpc in Hc. cbn in Hc. congruence.
Qed.
End properties.

(** ** Witnesses

    A handler that counts: every sample reports the counter as an update, every
    report of changes resets it. *)

Definition count_update (n : nat) : Update := {| up_path := empty_path; up_val := IntVal (Z.of_nat n) |}.

Definition counting : HandlerOps nat :=
  {| get_sample p pre := n ← get; _ ← put (S n); mret [count_update n];
     add_path_for_monitoring p pre := mret tt;
     get_subscription_notifications :=
       base_get_subscription_notifications (n ← get; _ ← put 0; mret [count_update n]);
     start_monitoring := modify S;
     stop_monitoring := mret tt |}.

Definition ex_list (mode : Z) : SubscriptionList :=
  {| sl_prefix := empty_path;
     sl_subscription := [{| sub_path := empty_path; sub_mode := if decide (mode = STREAM) then ON_CHANGE else TARGET_DEFINED |}];
     sl_qos := 1; sl_mode := mode; sl_allow_aggregation := false; sl_encoding := JSON;
     sl_updates_only := false |}.

Definition ex_notif (n : nat) : Notification :=
  {| timestamp := 0; prefix := empty_path; update := [count_update n]; delete := []; atomic := false |}.

(** Every run of [read] is an execution. *)
Lemma read_exec {W} (ops : HandlerOps W) env h0 out evs h fuel :
  exec env h0 out evs h →
  exec env h0 (out ++ (read fuel h).1) evs (read fuel h).2.
Proof.
  revert out h; induction fuel as [|f IH]; intros out h Hex; cbn; [by rewrite app_nil_r|].
  destruct (read_step h) as [[o h']|] eqn:Hr; [|by rewrite app_nil_r].
  pose proof (exec_snoc _ _ _ _ _ _ _ _ Hex (step_read env _ _ _ Hr)) as Hs.
  rewrite app_nil_r in Hs. specialize (IH _ _ Hs).
  destruct (read f h') as [o' h'']. cbn in *. by rewrite app_assoc.
Qed.

(** Putting events one after the other is an execution. *)
Lemma puts_exec {W} (ops : HandlerOps W) env h0 out evs h q es :
  read_queue h = Some q → exec env h0 out evs h →
  exec env h0 out (evs ++ es) (set_queue (Some (q ++ es)) h).
Proof.
  intros Hq Hex. induction es as [|e es IH] using rev_ind.
  - rewrite !app_nil_r. destruct h. cbn in *. by subst.
  - rewrite !app_assoc. rewrite <-(app_nil_r out).
    by eapply exec_snoc; [exact IH | apply step_put].
Qed.

Definition ex_handler : handler nat := (read (H := counting) 3 (new_handler (ex_list STREAM) 5)).2.
Definition ex_out1 : list SubscribeResponse := (read (H := counting) 3 (new_handler (ex_list STREAM) 5)).1.
Definition ex_events : list SubscriptionEvent := [SEND_CHANGES; SAMPLE; FINISH; SAMPLE].

(** Three steps of [read], a change of the counter and four events from other threads,
    then [read] again. *)
Definition add_ten (n n' : nat) : Prop := n' = n + 10.

Definition ex_fed_handler : handler nat := set_queue (Some ex_events) (set_world 17 ex_handler).

Lemma ex_exec :
  let h := (read (H := counting) 20 ex_fed_handler).2 in
  let out := ex_out1 ++ (read (H := counting) 20 ex_fed_handler).1 in
  exec (H := counting) add_ten (new_handler (ex_list STREAM) 5) out ex_events h.
Proof.
  apply read_exec. apply (puts_exec counting add_ten _ _ [] (set_world 17 ex_handler) [] ex_events); [reflexivity|].
  rewrite <-(app_nil_r ex_out1). change (@nil SubscriptionEvent) with (@nil SubscriptionEvent ++ []).
  eapply exec_snoc; [apply (read_exec counting add_ten _ [] [] _ 3), exec_nil|]. apply step_env. reflexivity.
Defined.

Lemma subscribe_response_order_witness :
  let out := [RespUpdate (ex_notif 5); RespSync true; RespUpdate (ex_notif 17); RespUpdate (ex_notif 0)] in
  out = [] ∨ (∃ u, out = [RespUpdate u]) ∨
  (∃ u us, out = RespUpdate u :: RespSync true :: (RespUpdate <$> us)).
Proof. exact (subscribe_response_order counting add_ten (ex_list STREAM) 5 _ _ _ ex_exec). Defined.

Lemma read_refines_session_witness :
  ∃ evs rest w', ex_events = evs ++ FINISH :: rest ∧ (FINISH ∉ evs) ∧ Some [SAMPLE] = Some rest ∧
    session_among (H := counting) add_ten (ex_list STREAM) evs 5
      [RespUpdate (ex_notif 5); RespSync true; RespUpdate (ex_notif 17); RespUpdate (ex_notif 0)] w' ∧
    rtc add_ten w' 1 ∧
    ((∀ w1 w2, ¬ add_ten w1 w2) → session (H := counting) (ex_list STREAM) evs 5 =
      (Ok [RespUpdate (ex_notif 5); RespSync true; RespUpdate (ex_notif 17); RespUpdate (ex_notif 0)], 1)).
Proof.
  apply (read_refines_session counting add_ten (ex_list STREAM) 5 _ _ (read (H := counting) 20 ex_fed_handler).2);
    [discriminate | exact ex_exec | reflexivity].
Defined.

Lemma read_terminates_witness :
  ends (H := counting) (queued (ex_list STREAM) 5 ([SEND_CHANGES; SAMPLE] ++ FINISH :: [SAMPLE]))
    [RespUpdate (ex_notif 5); RespSync true; RespUpdate (ex_notif 7); RespUpdate (ex_notif 0)]
    (finished (ex_list STREAM) (Some [SAMPLE]) 1) ∧
  ends (H := counting) (new_handler (ex_list ONCE) 5) [RespUpdate (ex_notif 5); RespSync true]
    (finished (ex_list ONCE) None 6).
Proof.
  split.
  - apply (read_terminates counting (ex_list STREAM)); [discriminate | vm_decide | reflexivity].
  - eapply (read_terminates counting (ex_list ONCE) 5 6 [] [] []); reflexivity.
Defined.

Lemma once_two_responses_witness :
  let h := (read (H := counting) 9 (new_handler (ex_list ONCE) 5)).2 in
  let out := (read (H := counting) 9 (new_handler (ex_list ONCE) 5)).1 in
  @nil SubscriptionEvent = [] ∧ (∀ e, put_event e h = (Raise AssertionError, h)) ∧
  (read_step (H := counting) h = None →
     (pc h = PcDone ∧ ∃ u, out = [RespUpdate u; RespSync true]) ∨ ∃ e, pc h = PcFailed e ∧ out = []).
Proof.
  apply (once_two_responses counting add_ten (ex_list ONCE) 5); [reflexivity|].
  apply (read_exec counting add_ten _ [] [] _ 9). apply exec_nil.
Defined.

Lemma monitoring_protocol_witness :
  let h := (read (H := logged counting) 20 (set_queue (Some ex_events)
              (new_handler (ex_list STREAM) (5, [])))).2 in
  let all := [CallAdd empty_path empty_path; CallStart; CallStop] in
  (world h).2 `prefix_of` all ∧ (pc h = PcDone → (world h).2 = all).
Proof.
  eapply (monitoring_protocol counting (ex_list STREAM) 5).
  apply (read_exec (logged counting) keeps_log _ [] ex_events _ 20).
  apply (puts_exec (logged counting) keeps_log _ _ [] (new_handler (ex_list STREAM) (5, [])) [] ex_events);
    [reflexivity | apply exec_nil].
Defined.
