(* ===== verification/DemoAdapter.v ===== *)
(** * The demo adapter: confdgnmi/src/confd_gnmi_demo_adapter.py

    The in-memory databases and the operations get, set and delete on them, the
    subscription handler with its change queue, and the thread that simulates
    changes.  [demo_world] holds the attributes of the adapter (a singleton, so
    the class attributes too) and of one subscription handler. *)

From Stdlib Require Import Ascii String.
From S2P Require Import Prelude PyStr PyDict GnmiMsg GnmiPath Json Adapter.

(** ** Data *)

(** A dictionary from XPath strings to values. *)
Abbreviation database := (list (pystr * pystr)).

(** An element of [config["changes"]]: a change, a word ("send" or "break"), or
    the [None] of an XML element without text. *)
Inductive change_item :=
  | Change (path val : pystr)
  | Word (s : pystr)
  | NoText.

Inductive ChangeEvent := CE_ADD | CE_SEND | CE_FINISH.

(** The change thread: created, in its loop with its [add_count], or ended. *)
Inductive thread_state :=
  | Starting
  | Running (add_count : nat)
  | Ended.

Record demo_world := {
  demo_db : database;
  demo_state_db : database;
  config : option (list change_item * nat);
  monitored_paths : list pystr;
  change_db : list (pystr * pystr);
  change_thread : option thread_state;
  change_event_queue : option (list ChangeEvent);
  outbox : list SubscriptionEvent;  (* put on the handler's read queue *)
  draws : nat                       (* random numbers drawn so far *)
}.

Definition set_dbs (db sdb : database) (w : demo_world) : demo_world :=
  {| demo_db := db; demo_state_db := sdb; config := config w;
     monitored_paths := monitored_paths w; change_db := change_db w;
     change_thread := change_thread w; change_event_queue := change_event_queue w;
     outbox := outbox w; draws := draws w |}.
Definition set_config (c : option (list change_item * nat)) (w : demo_world) : demo_world :=
  {| demo_db := demo_db w; demo_state_db := demo_state_db w; config := c;
     monitored_paths := monitored_paths w; change_db := change_db w;
     change_thread := change_thread w; change_event_queue := change_event_queue w;
     outbox := outbox w; draws := draws w |}.
Definition set_monitored (l : list pystr) (w : demo_world) : demo_world :=
  {| demo_db := demo_db w; demo_state_db := demo_state_db w; config := config w;
     monitored_paths := l; change_db := change_db w;
     change_thread := change_thread w; change_event_queue := change_event_queue w;
     outbox := outbox w; draws := draws w |}.
Definition set_change_db (l : list (pystr * pystr)) (w : demo_world) : demo_world :=
  {| demo_db := demo_db w; demo_state_db := demo_state_db w; config := config w;
     monitored_paths := monitored_paths w; change_db := l;
     change_thread := change_thread w; change_event_queue := change_event_queue w;
     outbox := outbox w; draws := draws w |}.
Definition set_thread (t : option thread_state) (w : demo_world) : demo_world :=
  {| demo_db := demo_db w; demo_state_db := demo_state_db w; config := config w;
     monitored_paths := monitored_paths w; change_db := change_db w;
     change_thread := t; change_event_queue := change_event_queue w;
     outbox := outbox w; draws := draws w |}.
Definition set_change_queue (q : option (list ChangeEvent)) (w : demo_world) : demo_world :=
  {| demo_db := demo_db w; demo_state_db := demo_state_db w; config := config w;
     monitored_paths := monitored_paths w; change_db := change_db w;
     change_thread := change_thread w; change_event_queue := q;
     outbox := outbox w; draws := draws w |}.
Definition set_outbox (l : list SubscriptionEvent) (w : demo_world) : demo_world :=
  {| demo_db := demo_db w; demo_state_db := demo_state_db w; config := config w;
     monitored_paths := monitored_paths w; change_db := change_db w;
     change_thread := change_thread w; change_event_queue := change_event_queue w;
     outbox := l; draws := draws w |}.
Definition draw (w : demo_world) : demo_world :=
  {| demo_db := demo_db w; demo_state_db := demo_state_db w; config := config w;
     monitored_paths := monitored_paths w; change_db := change_db w;
     change_thread := change_thread w; change_event_queue := change_event_queue w;
     outbox := outbox w; draws := S (draws w) |}.

Definition NS_INTERFACES : pystr := py"ietf-interfaces:".
Definition NS_IANA : pystr := py"iana-if-type:".

Definition num_of_ifs : nat := 10.

(** ** XPath helpers *)

Definition _nsless_xpath (xpath : pystr) : pystr := replace xpath NS_INTERFACES [].

(** The text up to the first line feed, all that [.+] can match. *)
Fixpoint to_eol (s : pystr) : pystr :=
  match s with
  | [] => []
  | c :: s' => if decide (c = "010"%char) then [] else c :: to_eol s'
  end.

(** The leftmost match of a literal followed by what [k] finds behind it. *)
Fixpoint re_search (lit : pystr) (k : pystr → option pystr) (s : pystr) : option pystr :=
  match (if startswith s lit then k (drop (length lit) s) else None) with
  | Some r => Some r
  | None => match s with [] => None | _ :: s' => re_search lit k s' end
  end.

(** The group [(.+)] when it is not empty. *)
Definition non_empty (o : option pystr) : option pystr :=
  match o with Some [] => None | _ => o end.

(** [re.search('\\[name=(.+)\\]', xpath)], its group. *)
Definition _get_key_from_xpath (xpath : pystr) : option pystr :=
  re_search (py"[name=") (λ s, non_empty (before_last "]" (to_eol s))) xpath.

(** [re.search(']/(.+)', xpath)], its group. *)
Definition _get_elem_from_xpath (xpath : pystr) : option pystr :=
  re_search (py"]/") (λ s, non_empty (Some (to_eol s))) xpath.

(** A dictionary of the elements of one interface. *)
Abbreviation elem_map := (list (option pystr * pystr)).

Definition add_elem (map_db : list (option pystr * elem_map)) (pv : pystr * pystr)
    : list (option pystr * elem_map) :=
  let '(p, v) := pv in
  let key := _get_key_from_xpath p in
  let el := _get_elem_from_xpath p in
  let m := default [] (dict_get key map_db) in
  let v := if decide (el = Some (py"type")) then NS_IANA ++ v else v in
  dict_set key (dict_set el v m) map_db.

Definition _demo_db_to_key_elem_map (db : database) : list (option pystr * elem_map) :=
  foldl add_elem [] db.

(** ** Filling the databases *)

Fixpoint str_leb (a b : pystr) : bool :=
  match a, b with
  | [], _ => true
  | _ :: _, [] => false
  | x :: a', y :: b' =>
      if (nat_of_ascii x <? nat_of_ascii y) then true
      else if (nat_of_ascii y <? nat_of_ascii x) then false
      else str_leb a' b'
  end.

Fixpoint insert_sorted (x : pystr) (l : list pystr) : list pystr :=
  match l with
  | [] => [x]
  | y :: l' => if str_leb x y then x :: l else y :: insert_sorted x l'
  end.

(** [sorted] on strings. *)
Definition py_sorted (l : list pystr) : list pystr := foldr insert_sorted [] l.

Definition if_path (if_name : pystr) : pystr := py"/interfaces/interface[name=" ++ if_name ++ py"]".
Definition state_if_path (if_name : pystr) : pystr :=
  py"/interfaces-state/interface[name=" ++ if_name ++ py"]".

(** The body of the loop of [_fill_demo_db]. *)
Definition fill_if (dbs : database * database) (if_id : pystr) : database * database :=
  let '(db, sdb) := dbs in
  let if_name := py"if_" ++ if_id in
  let state_if_name := py"state_if_" ++ if_id in
  let path := if_path if_name in
  let state_path := state_if_path state_if_name in
  let db := dict_set (path ++ py"/name") if_name db in
  let sdb := dict_set (state_path ++ py"/name") state_if_name sdb in
  let db := dict_set (path ++ py"/type") (py"gigabitEthernet") db in
  let sdb := dict_set (state_path ++ py"/type") (py"gigabitEthernet") sdb in
  (db, sdb).

Definition _fill_demo_db (w : demo_world) : demo_world :=
  let ifs := py_sorted ((λ i, str_nat (i + 1)) <$> seq 0 num_of_ifs) in
  let '(db, sdb) := foldl fill_if (demo_db w, demo_state_db w) ifs in
  set_dbs db sdb w.

(** ** Configured changes *)

(** A parsed XML element, as xml.etree gives it. *)
Inductive element := Element (tag : pystr) (text : option pystr) (children : list element).

Definition tag (e : element) : pystr := let '(Element t _ _) := e in t.
Definition text (e : element) : option pystr := let '(Element _ t _) := e in t.
Definition children (e : element) : list element := let '(Element _ _ c) := e in c.

(** [root.findall("./a/b/...")]. *)
Fixpoint findall (path : list pystr) (e : element) : list element :=
  match path with
  | [] => [e]
  | t :: path' =>
      concat (findall path' <$> List.filter (λ c, bool_decide (tag c = t)) (children e))
  end.

(** [x.text.replace(...)] and the like: an element without text is [None]. *)
Definition text_of (e : element) : res pystr :=
  match text e with Some t => Ok t | None => Raise AttributeError end.

(** The body of the loop of [load_config_string]. *)
Definition load_element (el : element) : res (list change_item) :=
  match children el with
  | [path; val] =>
      p ← text_of path;
      v ← text_of val;
      Ok [Change (_nsless_xpath p) (replace v NS_IANA [])]
  | [] => Ok [match text el with Some t => Word t | None => NoText end]
  | _ => Ok []
  end.

Definition load_config_string (root : element) : PyM demo_world unit :=
  _ ← lift (py_assert (bool_decide (tag root = py"demo")));
  let changes := findall [py"subscription"; py"STREAM"; py"changes"; py"element"] root in
  if decide (changes = []) then mret tt
  else
    _ ← modify (λ w, match config w with Some _ => w | None => set_config (Some ([], 0)) w end);
    _ ← M_map (λ el,
           items ← lift (load_element el);
           modify (λ w, match config w with
                        | Some (cs, idx) => set_config (Some (cs ++ items, idx)) w
                        | None => w
                        end)) changes;
    mret tt.

(** ** Reading *)

(** A JSON object key: Python prints [None] as "null". *)
Definition json_key (o : option pystr) : pystr := default (py"null") o.
Definition json_elems (m : elem_map) : json := JDict ((λ '(k, v), (json_key k, JStr v)) <$> m).

Definition opt_lookup {V} (k : option pystr) (d : list (option pystr * V)) : res V := dict_lookup k d.

Section demo.
Context `{ProtoMap}.

(** The loop of [get_db_updates_for_path] over the matching paths, one entry per
    interface; [path_elem] is the element the request names. *)
Fixpoint iface_entries (map_db : list (option pystr * elem_map)) (path_elem : option pystr)
    (keys_done : list (option pystr)) (paths : list pystr) : res (list (pystr * json)) :=
  match paths with
  | [] => Ok []
  | p :: paths' =>
      let key := _get_key_from_xpath p in
      if decide (key ∈ keys_done) then iface_entries map_db path_elem keys_done paths'
      else
        elem_val ← opt_lookup key map_db;
        entry ← match path_elem with
                | Some el => v ← opt_lookup (Some el) elem_val; Ok (p, JStr v)
                | None => Ok (replace (replace p (py"/type") []) (py"/name") [], json_elems elem_val)
                end;
        rest ← iface_entries map_db path_elem (key :: keys_done) paths';
        Ok (entry :: rest)
  end.

Definition path_val_list (path_with_prefix : pystr) (db : database) : res (list (pystr * json)) :=
  let map_db := _demo_db_to_key_elem_map db in
  let ifaces := _nsless_xpath path_with_prefix in
  if bool_decide (ifaces = py"/interfaces") || bool_decide (ifaces = py"/interfaces-state") then
    first ← py_index db.*1 0;
    Ok (if startswith first ifaces
        then [(path_with_prefix, JDict [(py"interface", JList (json_elems <$> map_db.*2))])]
        else [])
  else
    let paths := List.filter (λ p, startswith (_nsless_xpath p) (_nsless_xpath path_with_prefix)) db.*1 in
    iface_entries map_db (_get_elem_from_xpath path_with_prefix) [] paths.

Definition json_update (path : pystr) (v : json) : res Update :=
  p ← make_gnmi_path path None None;
  Ok {| up_path := p; up_val := JsonIetfVal (dumps v) |}.

Definition get_db_updates_for_path (path prefix : Path) (db : database) : res (list Update) :=
  let path_with_prefix := make_xpath_path (Some path) (Some prefix) false in
  let prefix_str := make_xpath_path None (Some prefix) false in
  pvs ← path_val_list path_with_prefix db;
  res_map (λ '(p, v), json_update (drop (length (_nsless_xpath prefix_str)) p) v) pvs.

Definition get_updates (path prefix : Path) (data_type : Z) : PyM demo_world (list Update) :=
  w ← get;
  updates ← lift (if decide (data_type = DT_CONFIG ∨ data_type = DT_ALL)
                  then Some <$> get_db_updates_for_path path prefix (demo_db w)
                  else Ok None);
  updates ← lift (if decide (data_type = DT_CONFIG) then Ok updates
                  else Some <$> get_db_updates_for_path path prefix (demo_state_db w));
  lift (match updates with Some u => Ok u | None => Raise RuntimeError end).

Definition demo_get (prefix : Path) (paths : list Path) (data_type : Z) (use_models : list ModelData)
    : PyM demo_world (list Notification) :=
  ups ← M_map (λ path, get_updates path prefix data_type) paths;
  mret [{| timestamp := 1; prefix := prefix; update := concat ups; delete := []; atomic := true |}].

(** ** Writing *)

(** The text form of a protobuf message, [str.format] of a [TypedValue]. *)
Variable format_val : TypedValue → pystr.

(** The string a value stands for: the first of the fields that is not empty. *)
Definition update_string (val : TypedValue) : res pystr :=
  let of_json (s : pystr) :=
    v ← loads s;
    match v with JStr t => Ok t | _ => Raise AttributeError end in
  match val with
  | StringVal (c :: s) => Ok (c :: s)
  | JsonIetfVal (c :: s) => of_json (c :: s)
  | JsonVal (c :: s) => of_json (c :: s)
  | _ => Ok (format_val val)
  end.

Definition set_update (prefix path : Path) (val : TypedValue) : PyM demo_world Z :=
  let path_str := make_xpath_path (Some path) (Some prefix) false in
  w ← get;
  if dict_mem (_nsless_xpath path_str) (demo_db w) then
    s ← lift (update_string val);
    let str_val := replace s NS_IANA [] in
    _ ← modify (λ w, set_dbs (dict_set path_str str_val (demo_db w)) (demo_state_db w) w);
    mret OP_UPDATE
  else mret OP_INVALID.

Definition demo_set (prefix : Path) (updates : list Update) : PyM demo_world (list (Path * Z)) :=
  M_map (λ up, op ← set_update prefix (up_path up) (up_val up); mret (up_path up, op)) updates.

Definition demo_delete (prefix : Path) (paths : list Path) : PyM demo_world (list (Path * Z)) :=
  mret [].

Definition capability_list : list CapabilityModel :=
  [{| cm_name := py"http://tail-f.com/ns/aaa/1.1:tailf-aaa"; cm_organization := [];
      cm_version := py"2018-09-12"; cm_schema := [] |};
   {| cm_name := py"urn:ietf:params:xml:ns:yang:ietf-inet-types:ietf-inet-types";
      cm_organization := []; cm_version := py"2013-07-15"; cm_schema := [] |};
   {| cm_name := py"urn:ietf:params:xml:ns:yang:ietf-interfaces:ietf-interfaces";
      cm_organization := []; cm_version := py"2014-05-08"; cm_schema := [] |}].

#[global] Instance demo_adapter : AdapterOps demo_world :=
  {| capabilities := mret capability_list;
     encodings := mret [JSON; JSON_IETF];
     adapter_get := demo_get;
     adapter_set := demo_set;
     adapter_delete := demo_delete |}.

(** ** The subscription handler *)

Definition demo_get_sample (path prefix : Path) : PyM demo_world (list Update) :=
  w ← get;
  updates ← lift (get_db_updates_for_path path prefix (demo_db w));
  if decide (updates = []) then lift (get_db_updates_for_path path prefix (demo_state_db w))
  else mret updates.

(** One change of [get_monitored_changes], relative to the prefix. *)
Definition change_update (prefix : Path) (c : pystr * pystr) : res Update :=
  let prefix_str := _nsless_xpath (make_xpath_path None (Some prefix) false) in
  let p := _nsless_xpath c.1 in
  let p := if startswith p prefix_str then drop (length prefix_str) p else p in
  json_update p (JStr (NS_IANA ++ c.2)).

Definition get_monitored_changes (sl : SubscriptionList) : PyM demo_world (list Update) :=
  w ← get;
  _ ← lift (py_assert (0 <? length (change_db w)));
  update ← lift (res_map (change_update (sl_prefix sl)) (change_db w));
  _ ← modify (set_change_db []);
  mret update.

(** The random library: [random.sample] on a set (which Python 3.11 and later
    refuse) and [randint], as functions of the number of draws so far. *)
Variable rand_sample : nat → list pystr → nat → res (list pystr).
Variable randint : nat → Z → Z → Z.

(** [set.add] on a set kept as a list without duplicates. *)
Definition set_add (x : pystr) (l : list pystr) : list pystr := if decide (x ∈ l) then l else l ++ [x].

Definition candidate_paths (w : demo_world) : list pystr :=
  foldl (λ acc mp,
    foldl (λ acc p, if startswith p mp then set_add (replace p (py"/name") (py"/type")) acc else acc)
      acc (demo_db w).*1)
    [] (monitored_paths w).

Definition random_change (db : database) (path : pystr) : res change_item :=
  v ← dict_lookup path db;
  Ok (Change path (if decide (v = py"gigabitEthernet") then py"fastEther" else py"gigabitEthernet")).

Definition _get_random_changes : PyM demo_world (list change_item) :=
  w ← get;
  let cands := candidate_paths w in
  paths ← lift (rand_sample (draws w) cands (Nat.min (length cands) 4));
  _ ← modify draw;
  changes ← lift (res_map (random_change (demo_db w)) paths);
  w ← get;
  let r := randint (draws w) 0 9 in
  _ ← modify draw;
  mret (changes ++ [Word (if (r <? 8)%Z then py"send" else py"break")]).

(** The changes from an index up to and including the next word. *)
Fixpoint take_changes (cs : list change_item) : list change_item :=
  match cs with
  | [] => []
  | Word s :: _ => [Word s]
  | c :: cs' => c :: take_changes cs'
  end.

Definition _get_config_changes : PyM demo_world (list change_item) :=
  w ← get;
  match config w with
  | None => raise AssertionError
  | Some (cs, idx) =>
      let idx := if length cs <=? idx then 0 else idx in
      let changes := take_changes (drop idx cs) in
      _ ← modify (set_config (Some (cs, idx + length changes)));
      mret changes
  end.

(** One change of the loop in [process_changes]. *)
Definition apply_change (path val : pystr) : PyM demo_world unit :=
  c ← lift (py_index path 0);
  let path := if decide (c = "/"%char) then path else "/"%char :: path in
  w ← get;
  if existsb (startswith path) (monitored_paths w) then
    _ ← modify (λ w, set_change_db (change_db w ++ [(path, val)]) w);
    if dict_mem path (demo_db w) then
      modify (λ w, set_dbs (dict_set path val (demo_db w)) (demo_state_db w) w)
    else if dict_mem path (demo_state_db w) then
      modify (λ w, set_dbs (demo_db w) (dict_set path val (demo_state_db w)) w)
    else raise AssertionError
  else mret tt.

(** The loop over the changes; its result is [send]. *)
Fixpoint apply_changes (cs : list change_item) : PyM demo_world bool :=
  match cs with
  | [] => mret false
  | Word s :: _ =>
      _ ← lift (py_assert (bool_decide (s = py"send") || bool_decide (s = py"break")));
      mret (bool_decide (s = py"send"))
  | NoText :: _ => raise TypeError
  | Change path val :: cs' =>
      _ ← apply_change path val;
      apply_changes cs'
  end.

Definition put_change_event (e : ChangeEvent) : PyM demo_world unit :=
  w ← get;
  match change_event_queue w with
  | Some q => put (set_change_queue (Some (q ++ [e])) w)
  | None => raise AttributeError
  end.

(** The changes of an ADD event: configured ones if there are any. *)
Definition next_changes : PyM demo_world (list change_item) :=
  w ← get;
  match config w with Some _ => _get_config_changes | None => _get_random_changes end.

(** An event of [process_changes], apart from FINISH. *)
Definition process_change_event (e : ChangeEvent) : PyM demo_world unit :=
  match e with
  | CE_ADD =>
      changes ← next_changes;
      send ← apply_changes changes;
      w ← get;
      if send && (0 <? length (change_db w)) then put_change_event CE_SEND else mret tt
  | CE_SEND => modify (λ w, set_outbox (outbox w ++ [SEND_CHANGES]) w)
  | CE_FINISH => mret tt
  end.

(** The [except Empty] branch: nothing came for a second. *)
Definition process_timeout (add_count : nat) : PyM demo_world unit :=
  w ← get;
  if decide (add_count = 0) then
    let r := randint (draws w) 0 1 in
    _ ← modify draw;
    if decide (r = 0%Z) then modify (set_thread (Some (Running 1)))
    else _ ← modify (set_thread (Some (Running 0))); put_change_event CE_ADD
  else
    _ ← modify (set_thread (Some (Running 0)));
    put_change_event CE_ADD.

(** An exception other than [Empty] ends the thread. *)
Definition or_die (m : PyM demo_world unit) (w : demo_world) : demo_world :=
  match m w with
  | (Ok _, w') => w'
  | (Raise _, w') => set_thread (Some Ended) w'
  end.

(** The thread [process_changes] starts, takes an event or times out; [None]
    when there is no thread or it has ended. *)
Definition thread_step (w : demo_world) : option demo_world :=
  match change_thread w with
  | Some Starting =>
      Some (or_die (
        _ ← lift (py_assert (match change_event_queue w with Some _ => true | None => false end));
        _ ← lift (py_assert (length (change_db w) =? 0));
        modify (set_thread (Some (Running 0)))) w)
  | Some (Running n) =>
      match change_event_queue w with
      | Some (CE_FINISH :: q) => Some (set_thread (Some Ended) (set_change_queue (Some q) w))
      | Some (e :: q) => Some (or_die (process_change_event e) (set_change_queue (Some q) w))
      | Some [] => Some (or_die (process_timeout n) w)
      | None => Some (set_thread (Some Ended) w)
      end
  | Some Ended | None => None
  end.

(** [change_thread.join()]: the thread runs until it ends; [n] bounds its steps. *)
Fixpoint join_thread (n : nat) (w : demo_world) : demo_world :=
  match n with
  | 0 => w
  | S n' => match thread_step w with Some w' => join_thread n' w' | None => w end
  end.

Definition demo_add_path_for_monitoring (path prefix : Path) : PyM demo_world unit :=
  modify (λ w,
    let w := match change_event_queue w with Some _ => w | None => set_change_queue (Some []) w end in
    set_monitored (monitored_paths w ++ [_nsless_xpath (make_xpath_path (Some path) (Some prefix) false)]) w).

Definition demo_start_monitoring : PyM demo_world unit :=
  w ← get;
  _ ← lift (py_assert (match change_thread w with None => true | Some _ => false end));
  put (set_thread (Some Starting) w).

Definition demo_stop_monitoring : PyM demo_world unit :=
  w ← get;
  _ ← match change_thread w with
      | None => mret tt
      | Some _ =>
          _ ← put_change_event CE_FINISH;
          w ← get;
          _ ← put (join_thread (2 + length (default [] (change_event_queue w))) w);
          w ← get;
          _ ← lift (py_assert (match change_event_queue w with Some [] => true | _ => false end));
          modify (λ w, set_change_queue None (set_thread None w))
      end;
  modify (set_monitored []).

#[global] Instance demo_handler : HandlerOps demo_world :=
  {| get_sample := demo_get_sample;
     add_path_for_monitoring := demo_add_path_for_monitoring;
     get_subscription_notifications sl :=
       base_get_subscription_notifications (get_monitored_changes sl) sl;
     start_monitoring := demo_start_monitoring;
     stop_monitoring := demo_stop_monitoring |}.
End demo.

(** The world before the adapter is created. *)
Definition empty_world : demo_world :=
  {| demo_db := []; demo_state_db := []; config := None; monitored_paths := []; change_db := [];
     change_thread := None; change_event_queue := None; outbox := []; draws := 0 |}.

(** [GnmiDemoServerAdapter()]: the databases are filled. *)
Definition initial_world : demo_world := _fill_demo_db empty_world.

Definition ex_type_path : Path :=
  {| origin := []; target := [];
     elem := [{| pe_name := py"interfaces"; pe_key := [] |};
              {| pe_name := py"interface"; pe_key := [(py"name", py"if_8")] |};
              {| pe_name := py"type"; pe_key := [] |}] |}.

Example get_type_ex :
  get_db_updates_for_path ex_type_path empty_path (demo_db initial_world) =
    Ok [{| up_path := ex_type_path;
           up_val := JsonIetfVal (dumps (JStr (py"iana-if-type:gigabitEthernet"))) |}].
Proof. vm_compute. reflexivity. Qed.

(** ** Lemmas: the regular expressions on leaf paths *)

(** The path of a leaf of an interface under one of the two containers. *)
Definition leaf (top k e : pystr) : pystr := top ++ py"/interface[name=" ++ k ++ py"]/" ++ e.

Definition is_top (top : pystr) : Prop := top = py"/interfaces" ∨ top = py"/interfaces-state".
Definition is_leaf_name (e : pystr) : Prop := e = py"name" ∨ e = py"type".

(** An interface name: not empty, no delimiter and no line feed. *)
Definition if_name_ok (k : pystr) : Prop := k ≠ [] ∧ Forall (λ c, c ∉ k) (nl ++ py"/[]=:").

#[export] Instance if_name_ok_dec k : Decision (if_name_ok k).
Proof. unfold if_name_ok. apply _. Defined.

Lemma if_name_not k c : if_name_ok k → c ∈ nl ++ py"/[]=:" → c ∉ k.
Proof. intros [_ Hf] Hc. rewrite Forall_forall in Hf. auto. Qed.

Lemma re_search_skip c lit k a s :
  c ∉ a → re_search (c :: lit) k (a ++ s) = re_search (c :: lit) k s.
Proof.
  induction a as [|x a IH]; [done|]. intros [Hx Ha]%not_elem_of_cons. cbn [app re_search startswith].
  rewrite decide_False by done. by apply IH.
Qed.

Lemma re_search_hit lit k s r : lit ≠ [] → k s = Some r → re_search lit k (lit ++ s) = Some r.
Proof.
  intros Hne Hk. destruct lit as [|c lit]; [done|]. cbn [app re_search].
  change (c :: lit ++ s) with ((c :: lit) ++ s). by rewrite startswith_app, drop_app_exact, Hk.
Qed.

Lemma to_eol_id s : "010"%char ∉ s → to_eol s = s.
Proof.
  induction s as [|c s IH]; [done|]. intros [? ?]%not_elem_of_cons. cbn.
  rewrite decide_False by auto. by rewrite IH.
Qed.

Lemma leaf_name_not e c : is_leaf_name e → c ∈ nl ++ py"/[]=:" → c ∉ e.
Proof.
  intros He Hc. py_norm. destruct He as [-> | ->]; py_norm; set_solver.
Qed.

Ltac leaf_solve :=
  repeat match goal with
  | |- _ ∉ _ ++ _ => rewrite not_elem_of_app; split
  | H : is_top ?t |- _ ∉ ?t => destruct H as [-> | ->]; vm_decide
  | H : if_name_ok ?k |- _ ∉ ?k => apply (if_name_not _ _ H); vm_decide
  | H : is_leaf_name ?k |- _ ∉ ?k => apply (leaf_name_not _ _ H); vm_decide
  | |- _ ∉ py_of_string _ => vm_decide
  end.

Lemma key_of_leaf top k e :
  is_top top → if_name_ok k → is_leaf_name e → _get_key_from_xpath (leaf top k e) = Some k.
Proof.
  intros Ht Hk He. unfold _get_key_from_xpath, leaf.
  change (py"/interface[name=" ++ ?x) with (py"/interface" ++ py"[name=" ++ x).
  rewrite app_assoc. change (py"[name=") with ("["%char :: py"name=") at 1.
  rewrite re_search_skip by leaf_solve. change ("["%char :: py"name=") with (py"[name=").
  apply re_search_hit; [done|]. rewrite to_eol_id by leaf_solve.
  change (py"]/" ++ e) with ("]"%char :: (py"/" ++ e)).
  rewrite before_last_app by leaf_solve. destruct Hk as [Hk _]. by destruct k.
Qed.

Lemma elem_of_leaf top k e :
  is_top top → if_name_ok k → is_leaf_name e → _get_elem_from_xpath (leaf top k e) = Some e.
Proof.
  intros Ht Hk He. unfold _get_elem_from_xpath, leaf. rewrite !app_assoc, <-app_assoc.
  change (py"]/") with ("]"%char :: py"/") at 1. rewrite re_search_skip by leaf_solve.
  change ("]"%char :: py"/") with (py"]/"). apply re_search_hit; [done|].
  rewrite to_eol_id by leaf_solve. by destruct He as [-> | ->].
Qed.

Lemma leaf_prefix top k e k' e' :
  if_name_ok k → if_name_ok k' → is_leaf_name e → is_leaf_name e' →
  leaf top k e `prefix_of` leaf top k' e' → k = k' ∧ e = e'.
Proof.
  intros Hk Hk' He He' [x Hx]. unfold leaf in Hx. rewrite <-!app_assoc in Hx.
  apply app_inv_head, app_inv_head in Hx.
  change (py"]/" ++ ?y) with ("]"%char :: (py"/" ++ y)) in Hx.
  apply app_sep_inj in Hx as [-> Hx]; [| by leaf_solve..].
  split; [done|]. apply app_inv_head in Hx. by destruct He as [-> | ->], He' as [-> | ->].
Qed.

Lemma nsless_leaf top k e :
  is_top top → if_name_ok k → is_leaf_name e → _nsless_xpath (leaf top k e) = leaf top k e.
Proof.
  intros Ht Hk He. apply replace_id. apply not_true_is_false. intros (a & b & Hab)%contains_true.
  assert (":"%char ∈ leaf top k e) as Hin by (rewrite Hab; unfold NS_INTERFACES; py_norm; set_solver).
  revert Hin. unfold leaf. change (":"%char ∉ top ++ py"/interface[name=" ++ k ++ py"]/" ++ e).
  leaf_solve.
Qed.

(** ** The invariant of a database *)

(** Every key is the path of a name or type leaf of an interface. *)
Definition key_shape (top p : pystr) : Prop :=
  ∃ k e, p = leaf top k e ∧ if_name_ok k ∧ is_leaf_name e.

Definition db_ok (top : pystr) (db : database) : Prop :=
  is_top top ∧ dict_wf db ∧ Forall (key_shape top) db.*1.

(** The value of a leaf as it is reported. *)
Definition reported (e v : pystr) : pystr := if decide (e = py"type") then NS_IANA ++ v else v.

Definition lookup2 (k e : pystr) (m : list (option pystr * elem_map)) : option pystr :=
  match dict_get (Some k) m with Some m' => dict_get (Some e) m' | None => None end.

Lemma lookup2_add top k e k' e' v m :
  is_top top → if_name_ok k' → is_leaf_name e' →
  lookup2 k e (add_elem m (leaf top k' e', v)) =
    if decide (k' = k ∧ e' = e) then Some (reported e v) else lookup2 k e m.
Proof.
  intros Ht Hk' He'. unfold lookup2, add_elem. rewrite key_of_leaf, elem_of_leaf by done.
  rewrite dict_get_set. destruct (decide (k' = k)) as [->|Hne].
  - rewrite decide_True by done. rewrite dict_get_set. destruct (decide (e' = e)) as [->|Hne'].
    + rewrite decide_True by done. rewrite (decide_True (P := k = k ∧ e = e)) by done.
      unfold reported. destruct (decide (e = py"type")) as [->|Hn].
      * by rewrite decide_True by done.
      * by rewrite decide_False by congruence.
    + rewrite decide_False by congruence. rewrite decide_False by naive_solver.
      by destruct (dict_get (Some k) m).
  - rewrite decide_False by congruence. by rewrite decide_False by naive_solver.
Qed.

Lemma lookup2_map top db k e :
  db_ok top db → if_name_ok k → is_leaf_name e →
  lookup2 k e (_demo_db_to_key_elem_map db) = reported e <$> dict_get (leaf top k e) db.
Proof.
  intros (Ht & Hnd & Hsh) Hk He. unfold _demo_db_to_key_elem_map.
  assert (Hg : ∀ m, lookup2 k e (foldl add_elem m db) =
    match dict_get (leaf top k e) db with Some v => Some (reported e v) | None => lookup2 k e m end).
  { induction db as [|[p v] db IH]; intros m; [done|]. unfold dict_wf in Hnd. cbn in Hnd, Hsh.
    apply NoDup_cons in Hnd as [Hp Hnd].
    apply Forall_cons in Hsh as [(k' & e' & -> & Hk' & He') Hsh]. cbn [foldl dict_get].
    rewrite IH, (lookup2_add top) by done.
    destruct (decide (leaf top k' e' = leaf top k e)) as [Heq|Hne].
    - rewrite <-Heq. apply dict_get_None in Hp. rewrite Hp.
      destruct (leaf_prefix top k' e' k e) as [-> ->]; [done..| by rewrite Heq |].
      by rewrite decide_True.
    - rewrite (decide_False (P := k' = k ∧ e' = e)) by (intros [-> ->]; done). done. }
  rewrite Hg. by destruct (dict_get _ db).
Qed.

Lemma filter_leaf top db k e :
  db_ok top db → if_name_ok k → is_leaf_name e →
  List.filter (λ p, startswith (_nsless_xpath p) (_nsless_xpath (leaf top k e))) db.*1 =
    if dict_mem (leaf top k e) db then [leaf top k e] else [].
Proof.
  intros (Ht & Hnd & Hsh) Hk He. rewrite (nsless_leaf top k e) by done.
  unfold dict_mem. induction db as [|[p v] db IH]; [done|]. unfold dict_wf in Hnd. cbn in Hnd, Hsh.
  apply NoDup_cons in Hnd as [Hp Hnd]. apply Forall_cons in Hsh as [(k' & e' & -> & Hk' & He') Hsh].
  specialize (IH Hnd Hsh). rewrite fmap_cons. cbn [List.filter fst]. rewrite nsless_leaf by done.
  cbn [dict_get]. destruct (decide (leaf top k' e' = leaf top k e)) as [Heq|Hne].
  - rewrite Heq, startswith_refl, IH. apply dict_get_None in Hp. by rewrite <-Heq, Hp.
  - assert (Hs : startswith (leaf top k' e') (leaf top k e) = false).
    { apply startswith_false. intros [-> ->]%leaf_prefix; done. }
    rewrite Hs. exact IH.
Qed.

Lemma not_iface_leaf top k e :
  is_top top → if_name_ok k → is_leaf_name e →
  bool_decide (leaf top k e = py"/interfaces") || bool_decide (leaf top k e = py"/interfaces-state") = false.
Proof.
  intros Ht Hk He.
  assert (Hin : "["%char ∈ leaf top k e) by (unfold leaf; py_norm; set_solver).
  rewrite !bool_decide_eq_false_2; [done | intros Heq; rewrite Heq in Hin; revert Hin; vm_decide ..].
Qed.

Lemma path_val_list_leaf top db k e :
  db_ok top db → if_name_ok k → is_leaf_name e →
  path_val_list (leaf top k e) db = Ok (match dict_get (leaf top k e) db with
                                        | Some v => [(leaf top k e, JStr (reported e v))]
                                        | None => []
                                        end).
Proof.
  intros Hdb Hk He. pose proof Hdb as (Ht & _ & _). unfold path_val_list.
  rewrite (filter_leaf top) by done. rewrite nsless_leaf, not_iface_leaf, elem_of_leaf by done.
  pose proof (lookup2_map top db k e Hdb Hk He) as Hl. unfold dict_mem.
  destruct (dict_get (leaf top k e) db) as [v|]; [|done].
  cbn [iface_entries]. rewrite key_of_leaf by done. rewrite decide_False by set_solver.
  unfold lookup2 in Hl. unfold opt_lookup, dict_lookup.
  destruct (dict_get (Some k) (_demo_db_to_key_elem_map db)) as [m|]; [|done]. cbn [mbind res_bind].
  cbn [fmap option_fmap option_map] in Hl. by rewrite Hl.
Qed.

(** ** Lemmas: requests for a leaf *)

Definition top_name (b : bool) : pystr := if b then py"interfaces-state" else py"interfaces".
Definition top_path (b : bool) : pystr := py"/" ++ top_name b.

(** The elements of the path of a leaf; [b] selects the state container. *)
Definition leaf_elems (b : bool) (k e : pystr) : list PathElem :=
  [{| pe_name := top_name b; pe_key := [] |};
   {| pe_name := py"interface"; pe_key := [(py"name", k)] |};
   {| pe_name := e; pe_key := [] |}].

Lemma is_top_path b : is_top (top_path b).
Proof. destruct b; [by right | by left]. Qed.

Lemma leaf_elems_str b k e : concat (elem_str false true <$> leaf_elems b k e) = leaf (top_path b) k e.
Proof.
  unfold leaf_elems, leaf, top_path, elem_str, key_str. cbn [fmap list_fmap concat pe_name pe_key].
  rewrite !app_nil_r, <-!app_assoc. by destruct b.
Qed.

Lemma leaf_elems_ok b k e : if_name_ok k → is_leaf_name e → Forall elem_ok (leaf_elems b k e).
Proof.
  intros Hk He. repeat constructor; cbn; leaf_solve; try (by destruct b; vm_decide); try vm_decide.
  by destruct He as [-> | ->].
Qed.

Section leaf_requests.
Context `{ProtoMap}.

Lemma reread_single (es : list PathElem) : Forall (λ e, length (pe_key e) ≤ 1) es → reread es = es.
Proof.
  intros Hf. induction Hf as [|[n d] es He _ IH]; [done|]. unfold reread in *. rewrite fmap_cons, IH.
  f_equal. unfold new_elem. cbn in *. f_equal. destruct d as [|p [|q d]]; [| |cbn in He; lia].
  - apply Permutation_nil_r. apply map_iter_perm. constructor.
  - apply Permutation_singleton_r. apply map_iter_perm. apply NoDup_singleton.
Qed.

Lemma get_db_updates_leaf b db path prefix k e :
  db_ok (top_path b) db → if_name_ok k → is_leaf_name e →
  elem prefix ++ elem path = leaf_elems b k e → elem path ≠ [] →
  get_db_updates_for_path path prefix db =
    Ok (match dict_get (leaf (top_path b) k e) db with
        | Some v => [{| up_path := {| origin := []; elem := elem path; target := [] |};
                        up_val := JsonIetfVal (dumps (JStr (reported e v))) |}]
        | None => []
        end).
Proof.
  intros Hdb Hk He Hel Hne. unfold get_db_updates_for_path.
  rewrite xpath_elems by done. rewrite Hel, leaf_elems_str, xpath_prefix_elems.
  rewrite path_val_list_leaf by done. cbn [mbind res_bind].
  destruct (dict_get _ db) as [v|]; [|done]. cbn [res_map]. unfold json_update.
  pose proof (leaf_elems_ok b k e Hk He) as Hok. rewrite <-Hel in Hok.
  assert (Hstr : leaf (top_path b) k e =
    concat (elem_str false true <$> elem prefix) ++ concat (elem_str false true <$> elem path)).
  { by rewrite <-concat_app, <-fmap_app, Hel, leaf_elems_str. }
  assert (Hns : _nsless_xpath (concat (elem_str false true <$> elem prefix)) =
    concat (elem_str false true <$> elem prefix)).
  { apply replace_id. apply not_true_is_false. intros (x & y & Hxy)%contains_true.
    pose proof (nsless_leaf (top_path b) k e (is_top_path b) Hk He) as Hn.
    assert (":"%char ∈ leaf (top_path b) k e) as Hin.
    { rewrite Hstr, Hxy. unfold NS_INTERFACES. py_norm. set_solver. }
    revert Hin. unfold leaf. pose proof (is_top_path b) as Ht.
    change (":"%char ∉ top_path b ++ py"/interface[name=" ++ k ++ py"]/" ++ e). leaf_solve. }
  rewrite Hns. rewrite Hstr at 1. rewrite drop_app_exact.
  apply Forall_app in Hok as [_ Hok]. rewrite make_gnmi_path_elems by done. cbn [mbind res_bind].
  rewrite reread_single; [done|].
  assert (Hall : Forall (λ e, length (pe_key e) ≤ 1) (leaf_elems b k e)) by (repeat constructor).
  rewrite <-Hel in Hall. by apply Forall_app in Hall as [_ ?].
Qed.
End leaf_requests.

(** The initial databases satisfy the invariant. *)
Definition world_ok (w : demo_world) : Prop :=
  db_ok (top_path false) (demo_db w) ∧ db_ok (top_path true) (demo_state_db w).

Lemma key_shape_set top db p v : db_ok top db → key_shape top p → db_ok top (dict_set p v db).
Proof.
  intros (Ht & Hnd & Hsh) Hp. split_and!; [done | by apply dict_set_wf |].
  rewrite dict_keys_set. case_decide; [done|]. apply Forall_app. by split; [|constructor].
Qed.

(** A set of a key that is there changes values only. *)
Lemma db_ok_update top db p v : db_ok top db → dict_mem p db = true → db_ok top (dict_set p v db).
Proof.
  intros Hdb Hm. apply key_shape_set; [done|]. destruct Hdb as (_ & _ & Hsh).
  apply dict_mem_true in Hm. rewrite Forall_forall in Hsh. auto.
Qed.

Lemma initial_world_ok : world_ok initial_world.
Proof.
  assert (Hshape : ∀ b p, existsb (λ i, bool_decide (p = leaf (top_path b)
      ((if b then py"state_if_" else py"if_") ++ str_nat (i + 1)) (py"name")) ||
    bool_decide (p = leaf (top_path b)
      ((if b then py"state_if_" else py"if_") ++ str_nat (i + 1)) (py"type"))) (seq 0 10) →
    key_shape (top_path b) p).
  { intros b p (i & Hi & Hp)%Is_true_true%existsb_exists. apply in_seq in Hi.
    assert (Hn : if_name_ok ((if b then py"state_if_" else py"if_") ++ str_nat (i + 1))).
    { do 10 (destruct i as [|i]; [destruct b; vm_decide|]). lia. }
    apply orb_true_iff in Hp as [Hp|Hp]; apply bool_decide_eq_true in Hp; subst;
      (eexists _, _; split_and!; [done | done |]); [by left | by right]. }
  split; (split_and!; [apply is_top_path | vm_decide |]).
  - eapply Forall_impl; [|apply (Hshape false)]. vm_decide.
  - eapply Forall_impl; [|apply (Hshape true)]. vm_decide.
Qed.

(** ** Lemmas: changes *)

(** A change path as it is looked up: with a leading slash. *)
Definition norm_path (path : pystr) : pystr :=
  match path with
  | c :: _ => if decide (c = "/"%char) then path else "/"%char :: path
  | [] => []
  end.

(** The changes before the first word that concern a monitored path. *)
Fixpoint applied (mon : list pystr) (cs : list change_item) : list (pystr * pystr) :=
  match cs with
  | Change path val :: cs' =>
      if existsb (startswith (norm_path path)) mon
      then (norm_path path, val) :: applied mon cs' else applied mon cs'
  | _ => []
  end.

(** Writing a list of changes into the databases. *)
Definition write_change (dbs : database * database) (c : pystr * pystr) : database * database :=
  if dict_mem c.1 dbs.1 then (dict_set c.1 c.2 dbs.1, dbs.2) else (dbs.1, dict_set c.1 c.2 dbs.2).

Lemma set_dbs_id w : set_dbs (demo_db w) (demo_state_db w) w = w.
Proof. by destruct w. Qed.

Lemma apply_change_Ok path val w w' :
  apply_change path val w = (Ok tt, w') →
  let cs := applied (monitored_paths w) [Change path val] in
  let dbs := foldl write_change (demo_db w, demo_state_db w) cs in
  w' = set_dbs dbs.1 dbs.2 (set_change_db (change_db w ++ cs) w) ∧
  Forall (λ c, dict_mem c.1 (demo_db w) = true ∨ dict_mem c.1 (demo_state_db w) = true) cs.
Proof.
  unfold apply_change. monad_unfold. destruct path as [|c path]; [done|].
  cbn [py_index lookup list_lookup]. cbn [applied norm_path].
  set (p := if decide (c = "/"%char) then c :: path else "/"%char :: c :: path).
  destruct (existsb (startswith p) (monitored_paths w)); cbn [foldl].
  - unfold write_change. cbn [fst snd]. destruct (dict_mem p (demo_db w)) eqn:Hm.
    + intros [= <-]. split; [done|]. constructor; [by left | done].
    + destruct (dict_mem p (demo_state_db w)) eqn:Hm2; [|done].
      intros [= <-]. split; [done|]. constructor; [by right | done].
  - intros [= <-]. split; [by rewrite app_nil_r; destruct w | done].
Qed.

Lemma write_change_mem dbs c p :
  dict_mem c.1 dbs.1 = true ∨ dict_mem c.1 dbs.2 = true →
  dict_mem p (write_change dbs c).1 = dict_mem p dbs.1 ∧
  dict_mem p (write_change dbs c).2 = dict_mem p dbs.2.
Proof.
  intros Hc. unfold write_change. destruct (dict_mem c.1 dbs.1) eqn:Hm; cbn.
  - split; [|done]. unfold dict_mem in *. rewrite dict_get_set. case_decide; [subst|done].
    by destruct (dict_get c.1 dbs.1).
  - destruct Hc as [?|Hc]; [done|]. split; [done|]. unfold dict_mem in *. rewrite dict_get_set.
    case_decide; [subst|done]. by destruct (dict_get c.1 dbs.2).
Qed.

Lemma apply_changes_Ok cs w send w' :
  apply_changes cs w = (Ok send, w') →
  let l := applied (monitored_paths w) cs in
  let dbs := foldl write_change (demo_db w, demo_state_db w) l in
  w' = set_dbs dbs.1 dbs.2 (set_change_db (change_db w ++ l) w) ∧
  Forall (λ c, dict_mem c.1 (demo_db w) = true ∨ dict_mem c.1 (demo_state_db w) = true) l.
Proof.
  revert w; induction cs as [|c cs IH]; intros w; cbn [apply_changes].
  { intros [= <- <-]. split; [by cbn; rewrite app_nil_r; destruct w | constructor]. }
  destruct c as [path val|s|]; monad_unfold.
  - destruct (apply_change path val w) as [[[]|e] w1] eqn:H1; [|done].
    apply apply_change_Ok in H1 as [-> Hc]. intros Hr. apply IH in Hr as [-> Hl].
    cbn [set_dbs set_change_db monitored_paths demo_db demo_state_db change_db] in *.
    assert (Happ : applied (monitored_paths w) (Change path val :: cs) =
      applied (monitored_paths w) [Change path val] ++ applied (monitored_paths w) cs).
    { cbn. by destruct (existsb _ _). }
    rewrite Happ, foldl_app. cbn zeta.
    set (l1 := applied (monitored_paths w) [Change path val]) in *.
    destruct (foldl write_change (demo_db w, demo_state_db w) l1) as [d1 d2] eqn:Hd. cbn [fst snd] in *.
    split; [by rewrite <-app_assoc|]. apply Forall_app. split; [done|].
    assert (Hmem : ∀ p, dict_mem p d1 = dict_mem p (demo_db w) ∧ dict_mem p d2 = dict_mem p (demo_state_db w)).
    { intros p. subst l1. cbn in Hd, Hc. destruct (existsb _ _); cbn in Hd, Hc.
      - apply Forall_cons in Hc as [Hc _].
        pose proof (write_change_mem (demo_db w, demo_state_db w) (norm_path path, val) p Hc) as Hw.
        by rewrite Hd in Hw.
      - by injection Hd as <- <-. }
    eapply Forall_impl; [exact Hl|]. intros c. cbn. by rewrite !(proj1 (Hmem _)), !(proj2 (Hmem _)).
  - destruct (bool_decide _ || bool_decide _); [|done]. intros [= <- <-].
    split; [by cbn; rewrite app_nil_r; destruct w | constructor].
  - done.
Qed.

(** The current value of a path, in whichever database holds it. *)
Definition stored (dbs : database * database) (p : pystr) : option pystr :=
  match dict_get p dbs.1 with Some v => Some v | None => dict_get p dbs.2 end.

Lemma stored_write dbs c p :
  stored (write_change dbs c) p = if decide (c.1 = p) then Some c.2 else stored dbs p.
Proof.
  unfold stored, write_change, dict_mem. destruct dbs as [d1 d2], c as [q v]. cbn.
  destruct (dict_get q d1) eqn:Hq; cbn; rewrite dict_get_set; case_decide; subst; try done.
  by rewrite Hq.
Qed.

(** The last value a list of changes gives a path. *)
Definition last_change (l : list (pystr * pystr)) (p : pystr) : option pystr :=
  foldl (λ acc c, if decide (c.1 = p) then Some c.2 else acc) None l.

Lemma foldl_last {A} (g : A → option pystr) (f : A → pystr * pystr → A) p l a :
  (∀ a c, g (f a c) = if decide (c.1 = p) then Some c.2 else g a) →
  g (foldl f a l) = foldl (λ acc c, if decide (c.1 = p) then Some c.2 else acc) (g a) l.
Proof. intros Hg. revert a; induction l as [|c l IH]; intros a; [done|]. cbn. by rewrite IH, Hg. Qed.

Lemma foldl_last_default (l : list (pystr * pystr)) p o :
  foldl (λ acc c, if decide (c.1 = p) then Some c.2 else acc) o l =
    match last_change l p with Some v => Some v | None => o end.
Proof.
  unfold last_change. revert o; induction l as [|c l IH]; intros o; [done|]. cbn.
  rewrite IH, (IH (if decide (c.1 = p) then Some c.2 else None)).
  destruct (foldl _ None l); [done|]. by case_decide.
Qed.

Lemma stored_writes dbs l p :
  stored (foldl write_change dbs l) p =
    match last_change l p with Some v => Some v | None => stored dbs p end.
Proof.
  rewrite (foldl_last (λ d, stored d p) write_change p).
  - apply foldl_last_default.
  - intros a c. apply stored_write.
Qed.

Lemma write_changes_ok l dbs :
  db_ok (top_path false) dbs.1 → db_ok (top_path true) dbs.2 →
  Forall (λ c, dict_mem c.1 dbs.1 = true ∨ dict_mem c.1 dbs.2 = true) l →
  db_ok (top_path false) (foldl write_change dbs l).1 ∧
  db_ok (top_path true) (foldl write_change dbs l).2.
Proof.
  revert dbs; induction l as [|c l IH]; intros dbs H1 H2 Hl; [done|].
  apply Forall_cons in Hl as [Hc Hl]. cbn [foldl]. apply IH.
  - unfold write_change. destruct (dict_mem c.1 dbs.1) eqn:Hm; [by apply db_ok_update | done].
  - unfold write_change. destruct (dict_mem c.1 dbs.1) eqn:Hm; [done|]. destruct Hc as [Hc|Hc]; [done|].
    by apply db_ok_update.
  - eapply Forall_impl; [exact Hl|]. intros x. cbn.
    by rewrite !(proj1 (write_change_mem dbs c _ Hc)), !(proj2 (write_change_mem dbs c _ Hc)).
Qed.

(** ** Lemmas: the change thread *)

Lemma take_changes_spec cs :
  ∃ rest, cs = take_changes cs ++ rest ∧
    (cs ≠ [] → take_changes cs ≠ []) ∧
    ((∃ l s, take_changes cs = l ++ [Word s] ∧ Forall (λ c, ∀ s, c ≠ Word s) l) ∨
     (rest = [] ∧ Forall (λ c, ∀ s, c ≠ Word s) cs)).
Proof.
  induction cs as [|c cs (rest & Heq & Hne & Hcase)]; cbn [take_changes].
  { exists []. split_and!; [done | done | by right]. }
  assert (Hgo : (∀ s, c ≠ Word s) → ∃ rest0, c :: cs = (c :: take_changes cs) ++ rest0 ∧
    (c :: cs ≠ [] → c :: take_changes cs ≠ []) ∧
    ((∃ l s, c :: take_changes cs = l ++ [Word s] ∧ Forall (λ c, ∀ s, c ≠ Word s) l) ∨
     (rest0 = [] ∧ Forall (λ c, ∀ s, c ≠ Word s) (c :: cs)))).
  { intros Hc. exists rest. split_and!; [by rewrite Heq at 1 | done |].
    destruct Hcase as [(l & s & Hl & Hf) | [-> Hf]]; [left|right].
    - exists (c :: l), s. split; [by rewrite Hl | by constructor].
    - split; [done | by constructor]. }
  destruct c as [p v|s|]; [by apply Hgo | | by apply Hgo].
  exists cs. split_and!; [done | done |]. left. by exists [], s.
Qed.

Section thread.
Context (rand_sample : nat → list pystr → nat → res (list pystr)) (randint : nat → Z → Z → Z).

(** What a step of the thread keeps: its own state, and its queue but for
    events added at the end. *)
Definition keeps (w w' : demo_world) : Prop :=
  change_thread w' = change_thread w ∧
  ∃ x, change_event_queue w' = (λ q, q ++ x) <$> change_event_queue w.

Lemma keeps_refl w w' :
  change_thread w' = change_thread w → change_event_queue w' = change_event_queue w → keeps w w'.
Proof.
  intros H1 H2. split; [done|]. exists []. rewrite H2.
  destruct (change_event_queue w); cbn; [by rewrite app_nil_r | done].
Qed.

Lemma keeps_trans w1 w2 w3 : keeps w1 w2 → keeps w2 w3 → keeps w1 w3.
Proof.
  intros [H1 [x Hx]] [H2 [y Hy]]. split; [congruence|]. exists (x ++ y). rewrite Hy, Hx.
  destruct (change_event_queue w1); cbn; [by rewrite app_assoc | done].
Qed.

Lemma apply_change_keeps path val w : keeps w (apply_change path val w).2.
Proof.
  unfold apply_change. monad_unfold. destruct (py_index path 0) as [c|e]; [|by apply keeps_refl].
  destruct (existsb _ _); [|by apply keeps_refl].
  destruct (dict_mem _ (demo_db w)); [by apply keeps_refl|].
  destruct (dict_mem _ (demo_state_db w)); by apply keeps_refl.
Qed.

Lemma apply_changes_keeps cs w : keeps w (apply_changes cs w).2.
Proof.
  revert w; induction cs as [|[p v|s|] cs IH]; intros w; cbn [apply_changes]; monad_unfold;
    [by apply keeps_refl | | |by apply keeps_refl].
  - pose proof (apply_change_keeps p v w) as Hk. destruct (apply_change p v w) as [[[]|e] w1]; [|done].
    by eapply keeps_trans.
  - destruct (_ || _); by apply keeps_refl.
Qed.

Lemma changes_keeps w : keeps w (next_changes rand_sample randint w).2.
Proof.
  unfold next_changes, get, mbind, PyM_bind. destruct (config w) as [[cs idx]|] eqn:Hc.
  - unfold _get_config_changes. monad_unfold. rewrite Hc. by apply keeps_refl.
  - unfold _get_random_changes. monad_unfold.
    destruct (rand_sample _ _ _) as [ps|e]; [|by apply keeps_refl].
    destruct (res_map _ ps) as [xs|e]; by apply keeps_refl.
Qed.

Lemma process_change_event_keeps e w : keeps w (process_change_event rand_sample randint e w).2.
Proof.
  destruct e; cbn [process_change_event]; monad_unfold; try (by apply keeps_refl).
  pose proof (changes_keeps w) as H1.
  destruct (next_changes _ _ w) as [[cs|x] w1]; [|done].
  pose proof (apply_changes_keeps cs w1) as H2. destruct (apply_changes cs w1) as [[send|x] w2].
  2:{ by eapply keeps_trans. }
  eapply keeps_trans; [exact H1|]. eapply keeps_trans; [exact H2|]. cbn.
  destruct (send && _); [|by apply keeps_refl]. unfold put_change_event. monad_unfold.
  destruct (change_event_queue w2) as [q|] eqn:Hq; [|by apply keeps_refl].
  split; [done|]. exists [CE_SEND]. by rewrite Hq.
Qed.

Lemma join_thread_ended n w : change_thread w = Some Ended → join_thread rand_sample randint n w = w.
Proof. intros Ht. destruct n; [done|]. cbn. unfold thread_step. by rewrite Ht. Qed.

Lemma join_running q n w x :
  (∃ c, change_thread w = Some (Running c)) → change_event_queue w = Some (q ++ CE_FINISH :: x) →
  length q < n → change_thread (join_thread rand_sample randint n w) = Some Ended.
Proof.
  revert n w x; induction q as [|e q IH]; intros [|n] w x [c Ht] Hq Hn; try (cbn in Hn; lia);
    cbn [join_thread]; unfold thread_step; rewrite Ht, Hq; cbn [app].
  - by rewrite join_thread_ended.
  - assert (Hgo : change_thread (join_thread rand_sample randint n
      (or_die (process_change_event rand_sample randint e)
        (set_change_queue (Some (q ++ CE_FINISH :: x)) w))) = Some Ended).
    { unfold or_die. pose proof (process_change_event_keeps e
        (set_change_queue (Some (q ++ CE_FINISH :: x)) w)) as [Hk [y Hy]].
      destruct (process_change_event _ _ e _) as [[u|er] w1]; [|by rewrite join_thread_ended].
      cbn in Hk, Hy. apply (IH n w1 (x ++ y)); [exists c; by rewrite Hk | | cbn in Hn; lia].
      by rewrite Hy, <-app_assoc. }
    destruct e; [exact Hgo | exact Hgo | by rewrite join_thread_ended].
Qed.

Lemma join_S n w w' :
  thread_step rand_sample randint w = Some w' →
  join_thread rand_sample randint (S n) w = join_thread rand_sample randint n w'.
Proof. intros Hs. cbn. by rewrite Hs. Qed.

(** The thread has ended when [join] returns, after at most one step per event. *)
Lemma join_thread_ends w q :
  change_thread w ≠ None → change_event_queue w = Some (q ++ [CE_FINISH]) →
  change_thread (join_thread rand_sample randint (2 + length (q ++ [CE_FINISH])) w) = Some Ended.
Proof.
  intros Ht Hq. destruct (change_thread w) as [[|c|]|] eqn:Hth; [| | |done].
  - change (2 + length (q ++ [CE_FINISH])) with (S (1 + length (q ++ [CE_FINISH]))).
    erewrite join_S; [|unfold thread_step; by rewrite Hth]. rewrite Hq. unfold or_die. monad_unfold.
    destruct (length (change_db w) =? 0); [|by rewrite join_thread_ended].
    eapply (join_running q _ _ []); [by exists 0 | by cbn; rewrite Hq |]. rewrite length_app. cbn. lia.
  - apply (join_running q _ _ []); [by exists c | done |]. rewrite length_app. cbn. lia.
  - by rewrite join_thread_ended.
Qed.

(** Events other than ADD only announce changes. *)
Lemma join_sends q n w c :
  change_thread w = Some (Running c) → change_event_queue w = Some (q ++ [CE_FINISH]) →
  Forall (λ e, e = CE_SEND) q → length q < n →
  join_thread rand_sample randint n w =
    set_outbox (outbox w ++ replicate (length q) SEND_CHANGES)
      (set_change_queue (Some []) (set_thread (Some Ended) w)).
Proof.
  revert n w; induction q as [|e q IH]; intros [|n] w Ht Hq Hf Hn; try (cbn in Hn; lia);
    cbn [join_thread]; unfold thread_step; rewrite Ht, Hq; cbn [app length replicate].
  - rewrite join_thread_ended by done. rewrite app_nil_r. by destruct w.
  - apply Forall_cons in Hf as [-> Hf]. unfold or_die. cbn [process_change_event]. monad_unfold.
    rewrite IH; [|done | done | done | cbn in Hn; lia]. cbn. rewrite <-app_assoc. by destruct w.
Qed.
End thread.

(** ** Lemmas: get *)

(** The updates a request for a leaf gets. *)
Definition leaf_updates (b : bool) (db : database) (path : Path) (k e : pystr) : list Update :=
  match dict_get (leaf (top_path b) k e) db with
  | Some v => [{| up_path := {| origin := []; elem := elem path; target := [] |};
                  up_val := JsonIetfVal (dumps (JStr (reported e v))) |}]
  | None => []
  end.

(** A request for a leaf, split anywhere between prefix and path. *)
Definition asks_leaf (b : bool) (prefix path : Path) (k e : pystr) : Prop :=
  elem prefix ++ elem path = leaf_elems b k e ∧ elem path ≠ [] ∧ if_name_ok k ∧ is_leaf_name e.

Lemma other_top b k e k' e' : startswith (leaf (top_path (negb b)) k' e') (leaf (top_path b) k e) = false.
Proof. by destruct b. Qed.

Section demo_requests.
Context `{ProtoMap}.

Lemma get_db_updates_other b db path prefix k e :
  db_ok (top_path (negb b)) db → asks_leaf b prefix path k e →
  get_db_updates_for_path path prefix db = Ok [].
Proof.
  intros (Ht & Hnd & Hsh) (Hel & Hne & Hk & He). unfold get_db_updates_for_path.
  rewrite xpath_elems by done. rewrite Hel, leaf_elems_str. unfold path_val_list.
  pose proof (is_top_path b) as Htb. rewrite nsless_leaf, not_iface_leaf by done.
  assert (Hf : List.filter (λ p, startswith (_nsless_xpath p) (leaf (top_path b) k e)) db.*1 = []).
  { clear Hnd. revert Hsh. generalize (db.*1). intros l Hl.
    induction Hl as [|p l (k' & e' & -> & Hk' & He') _ IH]; [done|]. cbn [List.filter].
    by rewrite nsless_leaf, other_top by done. }
  by rewrite Hf.
Qed.

Lemma get_updates_leaf w b data_type path prefix k e :
  world_ok w → asks_leaf b prefix path k e →
  get_updates path prefix data_type w =
    (Ok (if decide (b = bool_decide (data_type ≠ DT_CONFIG))
         then leaf_updates b (if b then demo_state_db w else demo_db w) path k e else []), w).
Proof.
  intros [Hc Hs] Ha. pose proof Ha as (Hel & Hne & Hk & He). unfold get_updates. monad_unfold.
  assert (Hcfg : get_db_updates_for_path path prefix (demo_db w) =
    Ok (if b then [] else leaf_updates false (demo_db w) path k e)).
  { destruct b; [by apply (get_db_updates_other true _ _ _ k e) | by apply get_db_updates_leaf]. }
  assert (Hst : get_db_updates_for_path path prefix (demo_state_db w) =
    Ok (if b then leaf_updates true (demo_state_db w) path k e else [])).
  { destruct b; [by apply get_db_updates_leaf | by apply (get_db_updates_other false _ _ _ k e)]. }
  rewrite Hcfg, Hst. destruct (decide (data_type = DT_CONFIG)) as [->|Hd].
  - rewrite decide_True by auto. cbn. by destruct b.
  - rewrite bool_decide_eq_true_2 by done. case_decide; cbn; by destruct b.
Qed.

(** The world after a leaf was set to the string [s]. *)
Definition set_leaf (k e s : pystr) (w : demo_world) : demo_world :=
  set_dbs (dict_set (leaf (top_path false) k e) (replace s NS_IANA []) (demo_db w)) (demo_state_db w) w.

Lemma update_string_json format_val s :
  update_string format_val (JsonIetfVal (dumps (JStr s))) = Ok s.
Proof.
  unfold update_string. pose proof (loads_dumps (JStr s) I) as Hl.
  destruct (dumps_head (JStr s)) as (c & k' & Hd & _). rewrite Hd in *. by rewrite Hl.
Qed.

Lemma demo_set_leaf format_val w prefix path k e s :
  asks_leaf false prefix path k e →
  demo_set format_val prefix [{| up_path := path; up_val := JsonIetfVal (dumps (JStr s)) |}] w =
    if dict_mem (leaf (top_path false) k e) (demo_db w)
    then (Ok [(path, OP_UPDATE)], set_leaf k e s w) else (Ok [(path, OP_INVALID)], w).
Proof.
  intros (Hel & Hne & Hk & He). unfold demo_set. cbn [M_map up_path up_val].
  unfold set_update. monad_unfold. rewrite xpath_elems by done. rewrite Hel, leaf_elems_str.
  rewrite nsless_leaf by (done || apply is_top_path).
  destruct (dict_mem _ (demo_db w)); [|done]. by rewrite update_string_json.
Qed.

Lemma set_leaf_ok w k e s :
  world_ok w → dict_mem (leaf (top_path false) k e) (demo_db w) = true → world_ok (set_leaf k e s w).
Proof. intros [Hc Hs] Hm. split; [by apply db_ok_update | done]. Qed.

Lemma get_set_leaf w prefix path k e s :
  world_ok (set_leaf k e s w) → asks_leaf false prefix path k e →
  get_updates path prefix DT_CONFIG (set_leaf k e s w) =
    (Ok [{| up_path := {| origin := []; elem := elem path; target := [] |};
            up_val := JsonIetfVal (dumps (JStr (reported e (replace s NS_IANA [])))) |}],
     set_leaf k e s w).
Proof.
  intros Hw Ha. rewrite (get_updates_leaf _ false DT_CONFIG path prefix k e) by done.
  rewrite decide_True by done. unfold leaf_updates. cbn [demo_db set_leaf set_dbs].
  by rewrite dict_get_set_eq.
Qed.

Lemma json_update_leaf k e v :
  if_name_ok k → is_leaf_name e →
  json_update (leaf (top_path false) k e) v =
    Ok {| up_path := {| origin := []; elem := leaf_elems false k e; target := [] |};
          up_val := JsonIetfVal (dumps v) |}.
Proof.
  intros Hk He. unfold json_update. rewrite <-leaf_elems_str.
  rewrite make_gnmi_path_elems by (done || by apply leaf_elems_ok). cbn [mbind res_bind].
  by rewrite reread_single by (repeat constructor).
Qed.

Lemma change_update_leaf k e v :
  if_name_ok k → is_leaf_name e →
  change_update empty_path (leaf (top_path false) k e, v) =
    Ok {| up_path := {| origin := []; elem := leaf_elems false k e; target := [] |};
          up_val := JsonIetfVal (dumps (JStr (NS_IANA ++ v))) |}.
Proof.
  intros Hk He. unfold change_update. cbn [fst snd].
  change (_nsless_xpath (make_xpath_path None (Some empty_path) false)) with (@nil ascii).
  rewrite nsless_leaf by (done || apply is_top_path). rewrite startswith_nil. cbn [length].
  rewrite drop_0. by apply json_update_leaf.
Qed.
End demo_requests.

(** ** Properties *)

Section demo_properties.
Context `{ProtoMap}.

(** a Get of interface leaves answers with one notification that holds, for
    each path in order, the stored value of exactly that leaf (with the
    identity prefix on a type), relative to the prefix, and nothing for a leaf
    that does not exist: configuration leaves for the type CONFIG, state leaves
    for every other type. *)
Theorem demo_get_leaves (w : demo_world) (b : bool) (data_type : Z) (prefix : Path)
    (reqs : list (Path * pystr * pystr)) (use_models : list ModelData) :
  world_ok w → (data_type = DT_CONFIG ↔ b = false) →
  Forall (λ '(path, k, e), asks_leaf b prefix path k e) reqs →
  demo_get prefix ((λ '(path, _, _), path) <$> reqs) data_type use_models w =
    (Ok [{| timestamp := 1; prefix := prefix;
            update := concat ((λ '(path, k, e),
              leaf_updates b (if b then demo_state_db w else demo_db w) path k e) <$> reqs);
            delete := []; atomic := true |}], w).
Proof.
  intros Hw Hb Hreqs. unfold demo_get. monad_unfold.
  assert (Hbd : b = bool_decide (data_type ≠ DT_CONFIG)).
  { case_bool_decide; destruct b; naive_solver. }
  assert (Hm : M_map (λ path, get_updates path prefix data_type) ((λ '(path, _, _), path) <$> reqs) w =
    (Ok ((λ '(path, k, e), leaf_updates b (if b then demo_state_db w else demo_db w) path k e) <$> reqs), w)).
  { induction Hreqs as [|[[path k] e] reqs Ha _ IH]; [done|].
    rewrite !fmap_cons. cbn [M_map]. monad_unfold.
    rewrite (get_updates_leaf w b data_type path prefix k e) by done.
    rewrite decide_True by done. by rewrite IH. }
  by rewrite Hm.
Qed.

(** C19: a Set of an existing configuration leaf to a JSON string stores that
    string without the identity prefix, keeps the databases well formed and
    every other leaf as it was, reports UPDATE, and the next Get of type CONFIG
    returns the new value; a Set of a leaf that does not exist reports INVALID
    and changes nothing. *)
Theorem demo_set_then_get (format_val : TypedValue → pystr) (w : demo_world)
    (prefix path : Path) (k e s : pystr) :
  world_ok w → asks_leaf false prefix path k e →
  let key := leaf (top_path false) k e in
  let '(r, w') := demo_set format_val prefix
    [{| up_path := path; up_val := JsonIetfVal (dumps (JStr s)) |}] w in
  if dict_mem key (demo_db w) then
    r = Ok [(path, OP_UPDATE)] ∧ world_ok w' ∧ demo_state_db w' = demo_state_db w ∧
    (∀ p, p ≠ key → dict_get p (demo_db w') = dict_get p (demo_db w)) ∧
    get_updates path prefix DT_CONFIG w' =
      (Ok [{| up_path := {| origin := []; elem := elem path; target := [] |};
              up_val := JsonIetfVal (dumps (JStr (reported e (replace s NS_IANA [])))) |}], w')
  else r = Ok [(path, OP_INVALID)] ∧ w' = w.
Proof.
  intros Hw Ha key. rewrite (demo_set_leaf _ _ _ _ k e) by done. fold key.
  destruct (dict_mem key (demo_db w)) eqn:Hm; [|done].
  pose proof (set_leaf_ok w k e s Hw Hm) as Hw'. split_and!; [done | done | done | |].
  - intros p Hp. cbn. by rewrite dict_get_set_ne.
  - by apply get_set_leaf.
Qed.

(** the changes of an ADD event: those that concern a monitored path, up to
    the first word, are appended to the list of changes to report, in order,
    and written to the databases, so that the last value reported for a path is
    the value stored; the databases keep their keys and stay well formed, and
    paths without a change keep their value. *)
Theorem apply_changes_consistent (cs : list change_item) (w w' : demo_world) (send : bool) :
  world_ok w → apply_changes cs w = (Ok send, w') →
  let l := applied (monitored_paths w) cs in
  change_db w' = change_db w ++ l ∧ world_ok w' ∧
  ∀ p, stored (demo_db w', demo_state_db w') p =
    match last_change l p with Some v => Some v | None => stored (demo_db w, demo_state_db w) p end.
Proof.
  intros [Hc Hs] Ha l. apply apply_changes_Ok in Ha as [-> Hl]. fold l in Hl. fold l.
  pose proof (write_changes_ok l (demo_db w, demo_state_db w) Hc Hs Hl) as Hok.
  cbn [set_dbs set_change_db change_db demo_db demo_state_db]. split_and!; [done | exact Hok |].
  intros p. rewrite <-surjective_pairing. apply stored_writes.
Qed.

(** The configured changes are replayed in order and for ever: a call takes
    the items from the current index (from the start when the index is at the
    end) up to and including the next word, or to the end of the list; it takes
    at least one item unless the list is empty, and moves the index behind the
    items it took. *)
Theorem config_changes_replay (w : demo_world) (cs : list change_item) (idx : nat) :
  config w = Some (cs, idx) →
  ∃ seg rest, let i := if length cs <=? idx then 0 else idx in
    _get_config_changes w = (Ok seg, set_config (Some (cs, i + length seg)) w) ∧
    drop i cs = seg ++ rest ∧ (cs ≠ [] → seg ≠ []) ∧
    ((∃ l s, seg = l ++ [Word s] ∧ Forall (λ c, ∀ s, c ≠ Word s) l) ∨
     (rest = [] ∧ Forall (λ c, ∀ s, c ≠ Word s) seg)).
Proof.
  intros Hc. set (i := if length cs <=? idx then 0 else idx).
  destruct (take_changes_spec (drop i cs)) as (rest & Heq & Hne & Hcase).
  exists (take_changes (drop i cs)), rest. split_and!.
  - unfold _get_config_changes. monad_unfold. by rewrite Hc.
  - done.
  - intros Hcs. apply Hne. intros Hd%(f_equal length). rewrite length_drop in Hd. subst i.
    destruct cs as [|c cs]; [done|]. destruct (Nat.leb_spec (length (c :: cs)) idx); cbn in *; lia.
  - destruct Hcase as [?|[-> Hf]]; [by left|]. right. rewrite app_nil_r in Heq. by rewrite <-Heq.
Qed.

(** [stop_monitoring] always ends the change thread; when the thread runs and
    only SEND events are waiting, they are all announced to the reader, the
    queue and the thread are gone and no path is monitored any more, so that
    monitoring can be started again. *)
Theorem stop_monitoring_ends rand_sample randint (w : demo_world) (q : list ChangeEvent) :
  change_event_queue w = Some q → change_thread w ≠ None →
  (let w1 := set_change_queue (Some (q ++ [CE_FINISH])) w in
   change_thread (join_thread rand_sample randint (2 + length (q ++ [CE_FINISH])) w1) = Some Ended) ∧
  (∀ c, change_thread w = Some (Running c) → Forall (λ e, e = CE_SEND) q →
     demo_stop_monitoring rand_sample randint w =
       (Ok tt, set_monitored [] (set_change_queue None (set_thread None
         (set_outbox (outbox w ++ replicate (length q) SEND_CHANGES) w))))).
Proof.
  intros Hq Ht. split; [by apply join_thread_ends|].
  intros c Hc Hf. unfold demo_stop_monitoring, put_change_event. monad_unfold.
  rewrite Hc, Hq. cbn [set_change_queue change_event_queue default].
  rewrite (join_sends rand_sample randint q _ _ c) by (done || (cbn; rewrite length_app; lia)).
  cbn. by destruct w.
Qed.

(** A report of the monitored changes has one update per change, in order, and
    empties the list; it is an [AssertionError] that keeps the list when there
    is no change. *)
Theorem monitored_changes_report (w : demo_world) (sl : SubscriptionList)
    (ks : list (pystr * pystr * pystr)) :
  sl_prefix sl = empty_path →
  Forall (λ '(k, e, _), if_name_ok k ∧ is_leaf_name e) ks →
  change_db w = (λ '(k, e, v), (leaf (top_path false) k e, v)) <$> ks →
  get_monitored_changes sl w =
    if decide (ks = []) then (Raise AssertionError, w)
    else (Ok ((λ '(k, e, v),
           {| up_path := {| origin := []; elem := leaf_elems false k e; target := [] |};
              up_val := JsonIetfVal (dumps (JStr (NS_IANA ++ v))) |}) <$> ks), set_change_db [] w).
Proof.
  intros Hp Hks Hdb. unfold get_monitored_changes. monad_unfold. rewrite Hdb, length_fmap.
  destruct (decide (ks = [])) as [->|Hne]; [done|].
  destruct (Nat.ltb_spec 0 (length ks)) as [Hpos|]; [|by destruct ks; [|cbn in *; lia]].
  rewrite Hp.
  assert (Hr : res_map (change_update empty_path) ((λ '(k, e, v), (leaf (top_path false) k e, v)) <$> ks) =
    Ok ((λ '(k, e, v),
           {| up_path := {| origin := []; elem := leaf_elems false k e; target := [] |};
              up_val := JsonIetfVal (dumps (JStr (NS_IANA ++ v))) |}) <$> ks)).
  { clear Hdb Hne Hpos. induction Hks as [|[[k e] v] ks [Hk He] _ IH]; [done|].
    rewrite !fmap_cons. cbn [res_map]. rewrite change_update_leaf by done. by rewrite IH. }
  by rewrite Hr.
Qed.
End demo_properties.

(** ** Witnesses *)

Definition ex_names : list (pystr * pystr) := [(py"if_8", py"type"); (py"if_10", py"name"); (py"if_77", py"name")].

Definition ex_reqs : list (Path * pystr * pystr) :=
  (λ '(k, e), ({| origin := []; elem := drop 1 (leaf_elems false k e); target := [] |}, k, e)) <$> ex_names.

Definition ex_if_prefix : Path :=
  {| origin := []; elem := [{| pe_name := py"interfaces"; pe_key := [] |}]; target := [] |}.

Lemma ex_reqs_ask : Forall (λ '(path, k, e), asks_leaf false ex_if_prefix path k e) ex_reqs.
Proof. repeat constructor; try vm_decide; (by left) || (by right). Qed.

Lemma demo_get_leaves_witness :
  demo_get ex_if_prefix ((λ '(path, _, _), path) <$> ex_reqs) DT_CONFIG [] initial_world =
    (Ok [{| timestamp := 1; prefix := ex_if_prefix;
            update := concat ((λ '(path, k, e),
              leaf_updates false (demo_db initial_world) path k e) <$> ex_reqs);
            delete := []; atomic := true |}], initial_world).
Proof.
  apply (demo_get_leaves initial_world false DT_CONFIG ex_if_prefix ex_reqs []);
    [apply initial_world_ok | split; reflexivity | apply ex_reqs_ask].
Defined.

Lemma demo_set_then_get_witness :
  let '(r, w') := demo_set (λ _, []) empty_path
    [{| up_path := ex_type_path; up_val := JsonIetfVal (dumps (JStr (py"iana-if-type:fastEther"))) |}]
    initial_world in
  r = Ok [(ex_type_path, OP_UPDATE)] ∧ world_ok w' ∧ demo_state_db w' = demo_state_db initial_world ∧
  (∀ p, p ≠ leaf (top_path false) (py"if_8") (py"type") →
     dict_get p (demo_db w') = dict_get p (demo_db initial_world)) ∧
  get_updates ex_type_path empty_path DT_CONFIG w' =
    (Ok [{| up_path := ex_type_path;
            up_val := JsonIetfVal (dumps (JStr (py"iana-if-type:fastEther"))) |}], w').
Proof.
  apply (demo_set_then_get (λ _, []) initial_world empty_path ex_type_path (py"if_8") (py"type")
    (py"iana-if-type:fastEther")); [apply initial_world_ok|].
  split_and!; [reflexivity | discriminate | vm_decide | by right].
Defined.

Definition ex_changes : list change_item :=
  [Change (py"interfaces/interface[name=if_8]/type") (py"fastEther");
   Change (py"/interfaces/interface[name=if_8]/type") (py"other");
   Change (py"/other") (py"x"); Word (py"send"); Change (py"/not") (py"reached")].

Definition ex_monitoring : demo_world :=
  set_monitored [py"/interfaces/interface[name=if_8]"] (set_change_queue (Some []) initial_world).

Lemma apply_changes_consistent_witness :
  let w' := (apply_changes ex_changes ex_monitoring).2 in
  let l := [(py"/interfaces/interface[name=if_8]/type", py"fastEther");
            (py"/interfaces/interface[name=if_8]/type", py"other")] in
  change_db w' = [] ++ l ∧ world_ok w' ∧
  ∀ p, stored (demo_db w', demo_state_db w') p =
    match last_change l p with
    | Some v => Some v
    | None => stored (demo_db ex_monitoring, demo_state_db ex_monitoring) p
    end.
Proof.
  apply (apply_changes_consistent ex_changes ex_monitoring _ true);
    [apply initial_world_ok | vm_compute; reflexivity].
Defined.

Lemma config_changes_replay_witness :
  ∃ seg rest, let i := if length ex_changes <=? 4 then 0 else 4 in
    _get_config_changes (set_config (Some (ex_changes, 4)) ex_monitoring) =
      (Ok seg, set_config (Some (ex_changes, i + length seg)) (set_config (Some (ex_changes, 4)) ex_monitoring)) ∧
    drop i ex_changes = seg ++ rest ∧ (ex_changes ≠ [] → seg ≠ []) ∧
    ((∃ l s, seg = l ++ [Word s] ∧ Forall (λ c, ∀ s, c ≠ Word s) l) ∨
     (rest = [] ∧ Forall (λ c, ∀ s, c ≠ Word s) seg)).
Proof.
  apply (config_changes_replay (set_config (Some (ex_changes, 4)) ex_monitoring) ex_changes 4).
  reflexivity.
Defined.

Definition ex_sample (n : nat) (l : list pystr) (k : nat) : res (list pystr) := Ok (take k l).
Definition ex_randint (n : nat) (a b : Z) : Z := a.

Definition ex_running : demo_world :=
  set_thread (Some (Running 0)) (set_change_queue (Some [CE_SEND]) ex_monitoring).

Lemma stop_monitoring_ends_witness :
  demo_stop_monitoring ex_sample ex_randint ex_running =
    (Ok tt, set_monitored [] (set_change_queue None (set_thread None
       (set_outbox (outbox ex_running ++ replicate 1 SEND_CHANGES) ex_running)))).
Proof.
  apply (stop_monitoring_ends ex_sample ex_randint ex_running [CE_SEND]) with (c := 0);
    [reflexivity | discriminate | reflexivity | by repeat constructor].
Defined.

Lemma monitored_changes_report_witness :
  let w := set_change_db [(py"/interfaces/interface[name=if_8]/type", py"fastEther")] initial_world in
  get_monitored_changes (ex_list STREAM) w =
    (Ok [{| up_path := ex_type_path;
            up_val := JsonIetfVal (dumps (JStr (py"iana-if-type:fastEther"))) |}], set_change_db [] w).
Proof.
  apply (monitored_changes_report _ (ex_list STREAM) [(py"if_8", py"type", py"fastEther")]);
    [reflexivity | | reflexivity].
  constructor; [|constructor]. split; [vm_decide | by right].
Defined.

(** ** Limits of the adapter *)

(** A Get of type ALL for a configuration leaf finds nothing: the state database
    replaces the result of the configuration database. *)
Lemma get_all_hides_config :
  (demo_get empty_path [ex_type_path] DT_CONFIG [] initial_world).1 ≠
    (demo_get empty_path [ex_type_path] DT_ALL [] initial_world).1 ∧
  update <$> default [] (match (demo_get empty_path [ex_type_path] DT_ALL [] initial_world).1 with
                         | Ok l => Some l | _ => None end) = [[]].
Proof. split; [by vm_compute | by vm_compute]. Qed.

(** A Set through a path with the module name stores a second entry beside the one of the
    leaf; it is the one that Get shows from then on, so that a change of the leaf itself
    is not seen any more. *)
Lemma set_namespaced_hides :
  let path := {| origin := []; target := [];
    elem := {| pe_name := py"ietf-interfaces:interfaces"; pe_key := [] |} ::
            drop 1 (leaf_elems false (py"if_8") (py"type")) |} in
  let fast := JsonIetfVal (dumps (JStr (py"iana-if-type:fastEther"))) in
  let '(r, w') := demo_set (λ _, []) empty_path [{| up_path := path; up_val := fast |}] initial_world in
  let w1 := set_monitored [py"/interfaces"] w' in
  let w2 := (apply_change (py"/interfaces/interface[name=if_8]/type") (py"gigabitEthernet") w1).2 in
  let seen w := match (get_updates ex_type_path empty_path DT_CONFIG w).1 with Ok us => up_val <$> us | _ => [] end in
  r = Ok [(path, OP_UPDATE)] ∧ length (demo_db w') = S (length (demo_db initial_world)) ∧
  dict_get (py"/interfaces/interface[name=if_8]/type") (demo_db w2) = Some (py"gigabitEthernet") ∧
  seen w' = [fast] ∧ seen w2 = [fast].
Proof. vm_compute. done. Qed.

(** Two reports of changes that were announced before the first was served: the
    second one finds no change and its [AssertionError] ends the subscription. *)
Lemma second_report_fails :
  let w := set_change_db [(py"/interfaces/interface[name=if_8]/type", py"fastEther")] initial_world in
  let h := set_pc PcWait (set_queue (Some [SEND_CHANGES; SEND_CHANGES]) (new_handler (ex_list STREAM) w)) in
  let '(out, h') := read (H := demo_handler ex_sample ex_randint) 20 h in
  length out = 1 ∧ pc h' = PcFailed AssertionError.
Proof. vm_compute. done. Qed.

(** An ADD event still queued when monitoring is stopped can leave its SEND event
    behind FINISH; the check that the queue is empty then fails. *)
Lemma stop_monitoring_assertion :
  let w := set_config (Some (ex_changes, 0)) (set_thread (Some (Running 0))
    (set_change_queue (Some [CE_ADD]) ex_monitoring)) in
  (demo_stop_monitoring ex_sample ex_randint w).1 = Raise AssertionError.
Proof. vm_compute. done. Qed.
