(* ===== verification/Server.v ===== *)
(** * The gNMI server: confdgnmi/src/confd_gnmi_server.py

    [ConfDgNMIServicer] over any adapter that implements the interface of
    Adapter.v: the authentication data of a call, the encoding checks, the
    handlers Capabilities, Get, Set and Subscribe, and the thread that feeds
    the requests of a subscription to its handler. *)

From Stdlib Require Import Ascii String.
From stdpp Require Import relations.
From S2P Require Import Prelude PyStr PyDict GnmiMsg GnmiPath Json Adapter DemoAdapter.

Inductive AdapterType := DEMO | API | NETCONF.

#[export] Instance AdapterType_eq_dec : EqDecision AdapterType.
Proof. solve_decision. Defined.

(** The status code a handler sets on its context. *)
Inductive StatusCode := UNIMPLEMENTED.

(** What a handler sees: the metadata of the call, the status set on the
    context, and the adapter's state. *)
Record rpc (W : Type) := {
  invocation_metadata : list (pystr * pystr);
  status : option (StatusCode * pystr);
  adapter : W
}.
Arguments invocation_metadata {_} _.
Arguments status {_} _.
Arguments adapter {_} _.

Definition set_status {W} (c : StatusCode) (d : pystr) (s : rpc W) : rpc W :=
  {| invocation_metadata := invocation_metadata s; status := Some (c, d); adapter := adapter s |}.
Definition set_adapter {W} (w : W) (s : rpc W) : rpc W :=
  {| invocation_metadata := invocation_metadata s; status := status s; adapter := w |}.

(** A method of the adapter, called from a handler. *)
Definition on_adapter {W A} (m : PyM W A) : PyM (rpc W) A :=
  λ s, let '(r, w') := m (adapter s) in (r, set_adapter w' s).

(** What the server relies on: the encodings of an adapter are fixed, and asking
    for them changes nothing. *)
Class AdapterLaws (W : Type) `{AdapterOps W} := {
  supported : list Z;
  encodings_fixed : ∀ w : W, encodings w = (Ok supported, w)
}.

(** [dict(context.invocation_metadata())]: the last of equal keys counts. *)
Definition dict_of (l : list (pystr * pystr)) : list (pystr * pystr) :=
  foldl (λ d '(k, v), dict_set k v d) [] l.

Section server.
Context {W : Type} `{AdapterOps W}.

(** The servicer's attribute, and [connect] of the API adapter. *)
Variable adapter_type : AdapterType.
Variable connect : pystr → pystr → PyM W unit.

Definition extract_user_metadata : PyM (rpc W) (pystr * pystr) :=
  s ← get;
  let metadict := dict_of (invocation_metadata s) in
  username ← lift (dict_lookup (py"username") metadict);
  password ← lift (dict_lookup (py"password") metadict);
  mret (username, password).

(** The result says whether there is an adapter ([None] in the source else). *)
Definition get_and_connect_adapter (username password : pystr) : PyM (rpc W) bool :=
  match adapter_type with
  | DEMO => mret true
  | API => _ ← on_adapter (connect username password); mret true
  | NETCONF => mret false
  end.

Definition get_connected_adapter : PyM (rpc W) bool :=
  '(username, password) ← extract_user_metadata;
  get_and_connect_adapter username password.

(** A method of the adapter object, which may be [None]. *)
Definition method {A} (present : bool) (m : PyM W A) : PyM (rpc W) A :=
  if present then on_adapter m else raise AttributeError.

Definition get_val_encoding (val : TypedValue) : option Z :=
  match val with
  | JsonVal _ => Some JSON
  | JsonIetfVal _ => Some JSON_IETF
  | AsciiVal _ => Some ASCII
  | BytesVal _ => Some BYTES
  | StringVal _ | IntVal _ | UintVal _ | BoolVal _ | FloatVal _ | LeaflistVal _ => Some PROTO
  | DoubleVal _ | DecimalVal _ _ | AnyVal _ | ProtoBytes _ | ValNotSet => None
  end.

(** The text of an encoding in the error message. *)
Definition encoding_text (encoding : option Z) : pystr :=
  match encoding with Some z => str_Z z | None => py"None" end.

(** [encoding in encs], where [encoding] may be [None]. *)
Definition encoding_in (encoding : option Z) (encs : list Z) : bool :=
  match encoding with Some z => bool_decide (z ∈ encs) | None => false end.

Definition _ensure_encoding_supported (present : bool) (encoding : option Z) : PyM (rpc W) unit :=
  encs ← method present encodings;
  if encoding_in encoding encs then mret tt
  else
    let text := py"gNMI: unsupported encoding: " ++ encoding_text encoding in
    _ ← modify (set_status UNIMPLEMENTED text);
    raise NotImplementedError.

Definition verify_updates_encoding_supported (present : bool) (updates : list Update)
    : PyM (rpc W) unit :=
  _ ← M_map (λ u, _ensure_encoding_supported present (get_val_encoding (up_val u))) updates;
  mret tt.

Definition verify_encoding_supported (present : bool) (encoding : Z) : PyM (rpc W) unit :=
  let encoding := if decide (encoding = 0%Z) then JSON else encoding in
  _ensure_encoding_supported present (Some encoding).

Definition Capabilities : PyM (rpc W) CapabilityResponse :=
  a ← get_connected_adapter;
  caps ← method a capabilities;
  encs ← method a encodings;
  mret {| supported_models := (λ c, {| md_name := cm_name c; md_organization := cm_organization c;
                                       md_version := cm_version c |}) <$> caps;
          supported_encodings := encs;
          gNMI_version := py"proto3" |}.

Definition Get (request : GetRequest) : PyM (rpc W) (list Notification) :=
  a ← get_connected_adapter;
  _ ← verify_encoding_supported a (gr_encoding request);
  method a (adapter_get (gr_prefix request) (gr_path request) (gr_type request) (gr_use_models request)).

Definition Set_ (request : SetRequest) : PyM (rpc W) SetResponse :=
  a ← get_connected_adapter;
  _ ← verify_updates_encoding_supported a (sr_update request);
  ops ← method a (adapter_set (sr_prefix request) (sr_update request));
  ops' ← method a (adapter_delete (sr_prefix request) (sr_delete request));
  mret {| sp_prefix := sr_prefix request;
          sp_response := (λ '(path, op), {| ur_timestamp := 0; ur_path := path; ur_op := op |}) <$>
                           (ops ++ ops');
          sp_timestamp := 0 |}.

(** ** Subscribe *)

(** The list of a first request; protobuf gives the empty list when the request
    is of another kind. *)
Definition empty_list : SubscriptionList :=
  {| sl_prefix := empty_path; sl_subscription := []; sl_qos := 0; sl_mode := STREAM;
     sl_allow_aggregation := false; sl_encoding := JSON; sl_updates_only := false |}.
Definition request_list (r : SubscribeRequest) : SubscriptionList :=
  match r with ReqSubscribe l => l | _ => empty_list end.

(** The part of Subscribe up to the creation of the handler. *)
Definition subscribe_start (request : SubscribeRequest) : PyM (rpc W) (handler W) :=
  a ← get_connected_adapter;
  _ ← verify_encoding_supported a (sl_encoding (request_list request));
  if (a : bool) then s ← get; mret (new_handler (request_list request) (adapter s))
  else raise AttributeError.
End server.

(** A Subscribe call in progress: the handler, the requests its thread has still
    to read, whether that thread runs, whether the call was terminated. *)
Record subscribe (W : Type) := {
  sub_handler : handler W;
  requests : list SubscribeRequest;
  thread_running : bool;
  rpc_done : bool
}.
Arguments sub_handler {_} _.
Arguments requests {_} _.
Arguments thread_running {_} _.
Arguments rpc_done {_} _.

(** The call after the handler was created: a thread unless the mode is ONCE. *)
Definition start_subscribe {W} (h : handler W) (reqs : list SubscribeRequest) : subscribe W :=
  {| sub_handler := h; requests := reqs;
     thread_running := negb (is_once (subscription_list h)); rpc_done := false |}.

(** One iteration of [_read_sub_request], or its end; [hasattr(req, "poll")] holds
    for every protobuf request. *)
Definition _read_sub_request {W} (s : subscribe W) : option (res unit * subscribe W) :=
  if thread_running s then
    match requests s with
    | _ :: rs =>
        let '(r, h') := poll (sub_handler s) in
        Some (r, {| sub_handler := h'; requests := rs;
                    thread_running := is_ok r; rpc_done := rpc_done s |})
    | [] =>
        let '(r, h') := if is_poll (subscription_list (sub_handler s))
                        then stop (sub_handler s) else (Ok tt, sub_handler s) in
        Some (r, {| sub_handler := h'; requests := []; thread_running := false; rpc_done := rpc_done s |})
    end
  else None.

(** The callback for the end of the call. *)
Definition subscribe_rpc_done {W} (s : subscribe W) : res unit * subscribe W :=
  let '(r, h') := if is_once (subscription_list (sub_handler s))
                  then (Ok tt, sub_handler s) else stop (sub_handler s) in
  (r, {| sub_handler := h'; requests := requests s; thread_running := thread_running s; rpc_done := true |}).

(** The interleavings of the response loop, the request thread, the end of the call,
    which comes at most once, and the other threads: the adapter's change thread of a
    STREAM subscription announces changes or, when it fails, ends the subscription, and
    the adapter's state changes as [env] allows. *)
Definition set_sub_handler {W} (h : handler W) (s : subscribe W) : subscribe W :=
  {| sub_handler := h; requests := requests s; thread_running := thread_running s; rpc_done := rpc_done s |}.

Inductive sub_step {W} `{HandlerOps W} (env : W → W → Prop) :
    subscribe W → list SubscribeResponse → subscribe W → Prop :=
  | sub_read s out h' :
      read_step (sub_handler s) = Some (out, h') → sub_step env s out (set_sub_handler h' s)
  | sub_request s r s' : _read_sub_request s = Some (r, s') → sub_step env s [] s'
  | sub_done s r s' : rpc_done s = false → subscribe_rpc_done s = (r, s') → sub_step env s [] s'
  | sub_notify s e h' :
      is_monitor_changes (subscription_list (sub_handler s)) = true → e ≠ SAMPLE →
      put_event e (sub_handler s) = (Ok tt, h') → sub_step env s [] (set_sub_handler h' s)
  | sub_change s w' :
      env (world (sub_handler s)) w' → sub_step env s [] (set_sub_handler (set_world w' (sub_handler s)) s).

Inductive sub_exec {W} `{HandlerOps W} (env : W → W → Prop) (s0 : subscribe W) :
    list SubscribeResponse → subscribe W → Prop :=
  | sub_exec_nil : sub_exec env s0 [] s0
  | sub_exec_snoc out s out' s' :
      sub_exec env s0 out s → sub_step env s out' s' → sub_exec env s0 (out ++ out') s'.

(** ** Lemmas: the encoding checks *)

Section checks.
Context {W : Type} `{AdapterLaws W}.

(** The credentials of a call. *)
Definition credentials (s : rpc W) : option (pystr * pystr) :=
  match dict_get (py"username") (dict_of (invocation_metadata s)),
        dict_get (py"password") (dict_of (invocation_metadata s)) with
  | Some u, Some p => Some (u, p)
  | _, _ => None
  end.

Lemma extract_user_metadata_spec (s : rpc W) :
  extract_user_metadata s =
    (match credentials s with Some up => Ok up | None => Raise KeyError end, s).
Proof.
  unfold extract_user_metadata, credentials, dict_lookup. monad_unfold.
  destruct (dict_get (py"username") _); [|done]. by destruct (dict_get (py"password") _).
Qed.

Definition refused (encoding : option Z) (s : rpc W) : rpc W :=
  set_status UNIMPLEMENTED (py"gNMI: unsupported encoding: " ++ encoding_text encoding) s.

Lemma ensure_encoding_spec (encoding : option Z) (s : rpc W) :
  _ensure_encoding_supported true encoding s =
    if encoding_in encoding supported then (Ok tt, s)
    else (Raise NotImplementedError, refused encoding s).
Proof.
  unfold _ensure_encoding_supported, method, on_adapter. monad_unfold. rewrite encodings_fixed.
  assert (Hs : set_adapter (adapter s) s = s) by (by destruct s). rewrite Hs.
  by destruct (encoding_in encoding supported).
Qed.

(** The first update whose value has an unsupported encoding. *)
Fixpoint first_refused (updates : list Update) : option (option Z) :=
  match updates with
  | [] => None
  | u :: us => if encoding_in (get_val_encoding (up_val u)) supported then first_refused us
               else Some (get_val_encoding (up_val u))
  end.

Lemma first_refused_spec updates :
  match first_refused updates with
  | Some enc => ∃ u, u ∈ updates ∧ get_val_encoding (up_val u) = enc ∧ encoding_in enc supported = false
  | None => Forall (λ u, encoding_in (get_val_encoding (up_val u)) supported = true) updates
  end.
Proof.
  induction updates as [|u us IH]; cbn [first_refused]; [constructor|].
  destruct (encoding_in (get_val_encoding (up_val u)) supported) eqn:He.
  - destruct (first_refused us); [|by constructor]. destruct IH as (v & ? & ?). exists v.
    split; [by right | done].
  - exists u. split; [by left | done].
Qed.

Lemma verify_updates_spec updates (s : rpc W) :
  verify_updates_encoding_supported true updates s =
    match first_refused updates with
    | None => (Ok tt, s)
    | Some enc => (Raise NotImplementedError, refused enc s)
    end.
Proof.
  unfold verify_updates_encoding_supported. monad_unfold.
  assert (Hm : M_map (λ u, _ensure_encoding_supported true (get_val_encoding (up_val u))) updates s =
    match first_refused updates with
    | None => (Ok (replicate (length updates) tt), s)
    | Some enc => (Raise NotImplementedError, refused enc s)
    end).
  { induction updates as [|u us IH]; [done|]. cbn [M_map first_refused]. monad_unfold.
    rewrite ensure_encoding_spec. destruct (encoding_in _ supported); [|done]. rewrite IH.
    by destruct (first_refused us). }
  rewrite Hm. by destruct (first_refused updates).
Qed.

Lemma connected_adapter t connect (s : rpc W) :
  get_connected_adapter t connect s =
    match credentials s with
    | None => (Raise KeyError, s)
    | Some (u, p) =>
        match t with
        | DEMO => (Ok true, s)
        | NETCONF => (Ok false, s)
        | API => match connect u p (adapter s) with
                 | (Ok _, w) => (Ok true, set_adapter w s)
                 | (Raise e, w) => (Raise e, set_adapter w s)
                 end
        end
    end.
Proof.
  unfold get_connected_adapter. monad_unfold. rewrite extract_user_metadata_spec.
  destruct (credentials s) as [[u p]|]; [|done]. destruct t; [done| |done].
  unfold get_and_connect_adapter, on_adapter. monad_unfold. by destruct (connect u p (adapter s)) as [[[]|e] w].
Qed.

Lemma connected_demo connect (s : rpc W) :
  get_connected_adapter DEMO connect s =
    (match credentials s with Some _ => Ok true | None => Raise KeyError end, s).
Proof.
  rewrite connected_adapter. by destruct (credentials s) as [[u p]|].
Qed.
End checks.

(** The demo adapter satisfies the laws. *)
#[export] Instance demo_laws `{ProtoMap} format_val : AdapterLaws demo_world (H := demo_adapter format_val).
Proof. by refine {| supported := [JSON; JSON_IETF] |}. Defined.

(** ** Lemmas: subscriptions *)

Section subscriptions.
Context {W : Type} `{HandlerOps W} (env : W → W → Prop).

(** The events the request thread has put, when it is [c] requests on. *)
Definition thread_puts (sl : SubscriptionList) (c : nat) (running : bool) : list SubscriptionEvent :=
  replicate c SAMPLE ++ (if negb running && is_poll sl then [FINISH] else []).

(** The requests among events, and the events that are not from the change thread. *)
Definition samples (evs : list SubscriptionEvent) : nat := length (filter (λ e, e = SAMPLE) evs).
Definition not_changes (evs : list SubscriptionEvent) : list SubscriptionEvent := filter (λ e, e ≠ SEND_CHANGES) evs.

Lemma samples_app a b : samples (a ++ b) = samples a + samples b.
Proof. unfold samples. by rewrite filter_app, length_app. Qed.
Lemma not_changes_app a b : not_changes (a ++ b) = not_changes a ++ not_changes b.
Proof. apply filter_app. Qed.

Lemma not_changes_samples evs : FINISH ∉ evs → not_changes evs = replicate (samples evs) SAMPLE.
Proof.
  induction evs as [|e evs IH]; [done|]. intros [Hne Hnf]%not_elem_of_cons. specialize (IH Hnf).
  change (e :: evs) with ([e] ++ evs). rewrite not_changes_app, samples_app, IH. by destruct e.
Qed.

(** What a Subscribe call of mode other than ONCE has done. *)
Definition sub_inv (sl : SubscriptionList) (w : W) (n : nat) (out : list SubscribeResponse)
    (s : subscribe W) : Prop :=
  ∃ puts, exec env (new_handler sl w) out puts (sub_handler s) ∧
    samples puts + length (requests s) = n ∧
    (thread_running s = false → requests s = []) ∧
    (is_poll sl = true → rpc_done s = false → not_changes puts = thread_puts sl (samples puts) (thread_running s)) ∧
    (is_monitor_changes sl = false → SEND_CHANGES ∉ puts).

Lemma exec_queue sl (w : W) out puts h :
  is_once sl = false → exec env (new_handler sl w) out puts h →
  ∃ q, read_queue h = Some q ∧ subscription_list h = sl.
Proof.
  intros Hno Hex. pose proof (subscription_list_exec _ _ _ _ _ Hex) as Hsl.
  apply progress_exec in Hex as [Hq _]; [|done]. destruct (read_queue h) as [q|]; [|done]. by exists q.
Qed.

Lemma exec_put sl (w : W) out puts h e :
  is_once sl = false → exec env (new_handler sl w) out puts h →
  ∃ h', put_event e h = (Ok tt, h') ∧ exec env (new_handler sl w) out (puts ++ [e]) h'.
Proof.
  intros Hno Hex. destruct (exec_queue _ _ _ _ _ Hno Hex) as (q & Hq & _).
  unfold put_event. rewrite Hq. eexists. split; [done|].
  rewrite <-(app_nil_r out). eapply exec_snoc; [done|]. apply step_put. unfold put_event. by rewrite Hq.
Qed.

Lemma exec_silent sl (w : W) out puts h h' :
  exec env (new_handler sl w) out puts h → step env h [] [] h' → exec env (new_handler sl w) out puts h'.
Proof. intros Hex Hst. rewrite <-(app_nil_r out), <-(app_nil_r puts). by eapply exec_snoc. Qed.

Lemma sub_inv_step sl w n out s out' s' :
  is_once sl = false → sub_inv sl w n out s → sub_step env s out' s' → sub_inv sl w n (out ++ out') s'.
Proof.
  intros Hno (puts & Hex & Hc & Hth & Hp & Hch) Hst.
  destruct (exec_queue _ _ _ _ _ Hno Hex) as (q & Hq & Hsl).
  destruct Hst as [s out' h' Hr | s r s' Hr | s r s' Hd Hr | s e h' Hm He Hput | s w' He].
  - exists puts. split_and!; [|done..]. rewrite <-(app_nil_r puts).
    eapply exec_snoc; [done | by apply step_read].
  - rewrite app_nil_r. unfold _read_sub_request in Hr. destruct (thread_running s) eqn:Hrun; [|done].
    destruct (requests s) as [|req rs] eqn:Hreq.
    + rewrite Hsl in Hr. destruct (is_poll sl) eqn:Hpoll.
      * unfold stop in Hr. destruct (exec_put _ _ _ _ _ FINISH Hno Hex) as (h' & Hput & Hex').
        rewrite Hput in Hr. injection Hr as <- <-. exists (puts ++ [FINISH]).
        rewrite samples_app, not_changes_app. cbn [sub_handler requests thread_running rpc_done].
        change (samples [FINISH]) with 0.
        split_and!; [done | cbn in *; lia | done | | set_solver].
        intros _ Hd. rewrite (Hp eq_refl Hd). unfold thread_puts. rewrite Hpoll. by rewrite app_nil_r, Nat.add_0_r.
      * injection Hr as <- <-. exists puts. split_and!; [done | done | done | congruence | done].
    + unfold poll in Hr. destruct (exec_put _ _ _ _ _ SAMPLE Hno Hex) as (h' & Hput & Hex').
      rewrite Hput in Hr. injection Hr as <- <-. exists (puts ++ [SAMPLE]).
      rewrite samples_app, not_changes_app. cbn [sub_handler requests thread_running rpc_done].
      change (samples [SAMPLE]) with 1. rewrite Nat.add_1_r.
      split_and!; [done | cbn in *; lia | done | | set_solver].
      intros Hpoll Hd. cbn in Hd. rewrite (Hp Hpoll Hd). unfold thread_puts. cbn [negb andb is_ok].
      rewrite !app_nil_r. by rewrite replicate_S_end.
  - rewrite app_nil_r. unfold subscribe_rpc_done in Hr. rewrite Hsl, Hno in Hr. unfold stop in Hr.
    destruct (exec_put _ _ _ _ _ FINISH Hno Hex) as (h' & Hput & Hex').
    rewrite Hput in Hr. injection Hr as <- <-. exists (puts ++ [FINISH]).
    rewrite samples_app. cbn [sub_handler requests thread_running rpc_done].
    change (samples [FINISH]) with 0. rewrite Nat.add_0_r.
    split_and!; [done | done | done | done | set_solver].
  - rewrite app_nil_r. destruct (exec_put _ _ _ _ _ e Hno Hex) as (h2 & Hput2 & Hex').
    rewrite Hput in Hput2. injection Hput2 as <-. rewrite Hsl in Hm. exists (puts ++ [e]).
    rewrite samples_app. cbn [sub_handler requests thread_running rpc_done set_sub_handler].
    assert (samples [e] = 0) as -> by (by destruct e). rewrite Nat.add_0_r.
    split_and!; [done | done | done | | congruence].
    intros Hpoll. unfold is_monitor_changes, is_poll in *. apply bool_decide_eq_true in Hm.
    apply bool_decide_eq_true in Hpoll. rewrite Hm in Hpoll. discriminate.
  - rewrite app_nil_r. exists puts. split_and!; [|done..]. eapply exec_silent; [done|by apply step_env].
Qed.

Lemma sub_inv_exec sl w reqs out s :
  is_once sl = false → sub_exec env (start_subscribe (new_handler sl w) reqs) out s →
  sub_inv sl w (length reqs) out s.
Proof.
  intros Hno. induction 1 as [|out s out' s' _ IH Hst]; [|by eapply sub_inv_step].
  exists []. unfold start_subscribe. cbn [sub_handler requests thread_running rpc_done].
  split_and!; [constructor | done | by cbn; rewrite Hno | | set_solver].
  intros _ _. unfold thread_puts. cbn. by rewrite Hno.
Qed.

(** The responses of a session: those of the first sample, then for each event its own,
    which is one for a request. *)
Definition responses_of (evs : list SubscriptionEvent) (out : list SubscribeResponse) : Prop :=
  ∃ first outs, out = first :: sync_response :: concat outs ∧
    Forall2 (λ e o, e = SAMPLE → length o = 1) evs outs.

Lemma body_responses sl w evs out w' : body_among env sl w evs out w' → responses_of evs out.
Proof.
  induction 1 as [r w1 _|evs out w1 e o w2 _ (first & outs & -> & Hf) _ (w3 & _ & He)]; [by exists r, []|].
  exists first, (outs ++ [o]). split; [by rewrite concat_app; cbn; rewrite app_nil_r|].
  apply Forall2_app; [done|]. constructor; [|done]. intros ->. cbn [on_event] in He. revert He. monad_unfold.
  destruct (sample sl false w3) as [[r|x] w4]; [|done]. by intros [= <- <-].
Qed.

Lemma responses_length m out : responses_of (replicate m SAMPLE) out → length out = m + 2.
Proof.
  intros (first & outs & -> & Hf). cbn. revert outs Hf. induction m as [|m IH]; intros outs Hf; cbn in Hf.
  - by apply Forall2_nil_inv_l in Hf as ->.
  - apply Forall2_cons_inv_l in Hf as (o & outs' & Ho & Hf & ->). cbn [concat].
    specialize (IH outs' Hf). rewrite length_app, Ho by done. lia.
Qed.

(** The first end of a session is where the requests end. *)
Lemma finish_position m c rest :
  replicate m SAMPLE ++ FINISH :: rest = replicate c SAMPLE ++ [FINISH] → m = c.
Proof.
  revert c. induction m as [|m IH]; intros [|c] [=]; [done|]. f_equal. by eapply IH.
Qed.

(** Without announced changes the events before the end are requests. *)
Lemma poll_samples evs : FINISH ∉ evs → SEND_CHANGES ∉ evs → evs = replicate (samples evs) SAMPLE.
Proof.
  intros Hnf Hns. rewrite <-not_changes_samples by done. unfold not_changes. clear Hnf.
  induction evs as [|e evs IH]; [done|]. apply not_elem_of_cons in Hns as [? ?].
  rewrite filter_cons_True by auto. f_equal. by apply IH.
Qed.

(** What an ended call has answered. *)
Lemma sub_done_session sl (w : W) reqs out s :
  sl_mode sl ≠ ONCE → sub_exec env (start_subscribe (new_handler sl w) reqs) out s →
  pc (sub_handler s) = PcDone →
  ∃ evs w', samples evs ≤ length reqs ∧ session_among env sl evs w out w' ∧ rtc env w' (world (sub_handler s)) ∧
    responses_of evs out ∧
    (sl_mode sl = POLL → evs = replicate (samples evs) SAMPLE ∧ length out = samples evs + 2 ∧
       (rpc_done s = false → samples evs = length reqs ∧ requests s = [] ∧ thread_running s = false)).
Proof.
  intros Hm Hex Hpc. assert (Hno : is_once sl = false) by (by apply bool_decide_eq_false).
  apply sub_inv_exec in Hex as (puts & Hex & Hc & Hth & Hp & Hch); [|done].
  apply progress_exec in Hex as (_ & taken & -> & Hpr); [|done]. rewrite Hpc in Hpr.
  destruct Hpr as (evs & w' & -> & Hses & Hw). exists evs, w'. rewrite !samples_app in Hc.
  destruct Hses as (w1 & Hb & Hst). pose proof (body_among_no_finish _ _ _ _ _ _ Hb) as Hnf.
  pose proof (body_responses _ _ _ _ _ Hb) as Hout.
  split_and!; [lia | by exists w1 | done | done | intros Hpoll; split_and!].
  - apply poll_samples; [done|]. intros Hin. apply Hch; [unfold is_monitor_changes; rewrite Hpoll; by vm_compute|].
    set_solver.
  - assert (evs = replicate (samples evs) SAMPLE) as He; [|rewrite He in Hout; by apply responses_length in Hout].
    apply poll_samples; [done|]. intros Hin. apply Hch; [unfold is_monitor_changes; rewrite Hpoll; by vm_compute|].
    set_solver.
  - intros Hd. assert (is_poll sl = true) as Hip by (by apply bool_decide_eq_true).
    specialize (Hp Hip Hd). revert Hc. rewrite <-!samples_app. revert Hp.
    generalize (samples ((evs ++ [FINISH]) ++ queue (sub_handler s))). intros c Hp Hc.
    unfold thread_puts in Hp. rewrite !not_changes_app, (not_changes_samples evs), <-app_assoc in Hp by done.
    change (not_changes [FINISH]) with [FINISH] in Hp. cbn [app] in Hp. set (m := samples evs) in *.
    rewrite Hip, andb_true_r in Hp. destruct (thread_running s) eqn:Hrun; cbn [negb] in Hp.
    + exfalso. rewrite app_nil_r in Hp. assert (Hin : FINISH ∈ replicate c SAMPLE).
      { rewrite <-Hp. set_solver. } by apply elem_of_replicate_inv in Hin.
    + rewrite (Hth eq_refl) in Hc. cbn [length] in Hc. split_and!; [|by apply Hth | done].
      enough (m = c) by lia. by apply finish_position in Hp.
Qed.
End subscriptions.

(** ** Properties *)

Section server_properties.
Context {W : Type} `{AdapterLaws W} (connect : pystr → pystr → PyM W unit).

(** What getting the adapter does to its state: only the API adapter is connected. *)
Definition connection (t : AdapterType) (u p : pystr) (w : W) : res unit * W :=
  match t with API => connect u p w | DEMO | NETCONF => (Ok tt, w) end.

(** C22: a Set is checked before the adapter's [set] and [delete] are called: without
    credentials it is a [KeyError]; then the adapter is connected, which only the API
    adapter needs and which may change its state and fail; and if the value of any
    update has an encoding the adapter does not support the Set is refused with the
    status UNIMPLEMENTED for the first such encoding.  In all three cases the state of
    the adapter is what the connection left, which with the demo adapter is the state
    before.  The type NETCONF has no adapter and is an AttributeError. *)
Theorem set_checked_first (t : AdapterType) (request : SetRequest) (s : rpc W) :
  let '(r, s') := Set_ t connect request s in
  match credentials s with
  | None => r = Raise KeyError ∧ s' = s
  | Some (u, p) =>
      match t, connection t u p (adapter s), first_refused (sr_update request) with
      | NETCONF, _, _ => r = Raise AttributeError ∧ s' = s
      | _, (Raise e, w), _ => r = Raise e ∧ s' = set_adapter w s
      | _, (Ok _, w), Some enc => r = Raise NotImplementedError ∧ adapter s' = w ∧
          status s' = Some (UNIMPLEMENTED, py"gNMI: unsupported encoding: " ++ encoding_text enc) ∧
          ∃ u, u ∈ sr_update request ∧ get_val_encoding (up_val u) = enc ∧ encoding_in enc supported = false
      | _, (Ok _, _), None =>
          Forall (λ u, encoding_in (get_val_encoding (up_val u)) supported = true) (sr_update request)
      end
  end.
Proof.
  destruct (Set_ t connect request s) as [r s'] eqn:Hset. revert Hset.
  unfold Set_. monad_unfold. rewrite (connected_adapter t connect).
  destruct (credentials s) as [[u p]|]; [|by intros [= <- <-]].
  pose proof (first_refused_spec (sr_update request)) as Hf. destruct t; cbn [connection].
  - rewrite verify_updates_spec. destruct (first_refused (sr_update request)) as [enc|]; [|done].
    intros [= <- <-]. by split_and!.
  - destruct (connect u p (adapter s)) as [[[]|e] w]; cbn; [|by intros [= <- <-]].
    rewrite verify_updates_spec. destruct (first_refused (sr_update request)) as [enc|]; [|done].
    intros [= <- <-]. by split_and!.
  - by destruct (sr_update request) as [|v us]; intros [= <- <-].
Qed.

(** A Set that passes the checks is the updates followed by the deletes, on
    the adapter's state, and its response lists their results in that order; an
    exception of either leaves the state the adapter left. *)
Theorem set_updates_then_deletes (request : SetRequest) (s : rpc W) :
  credentials s ≠ None → first_refused (sr_update request) = None →
  Set_ DEMO connect request s =
    match adapter_set (sr_prefix request) (sr_update request) (adapter s) with
    | (Raise e, w1) => (Raise e, set_adapter w1 s)
    | (Ok ops, w1) =>
        match adapter_delete (sr_prefix request) (sr_delete request) w1 with
        | (Raise e, w2) => (Raise e, set_adapter w2 s)
        | (Ok ops', w2) =>
            (Ok {| sp_prefix := sr_prefix request;
                   sp_response := (λ '(path, op), {| ur_timestamp := 0; ur_path := path; ur_op := op |}) <$>
                                    (ops ++ ops');
                   sp_timestamp := 0 |}, set_adapter w2 s)
        end
    end.
Proof.
  intros Hc Hf. unfold Set_. monad_unfold. rewrite connected_demo.
  destruct (credentials s) as [up|]; [|done]. rewrite verify_updates_spec, Hf.
  unfold method, on_adapter. destruct (adapter_set _ _ _) as [[ops|e] w1]; [|done].
  cbn [adapter set_adapter]. by destruct (adapter_delete _ _ w1) as [[ops'|e] w2].
Qed.

(** A Get changes the adapter's state only through the adapter's own [get],
    which it calls exactly when the caller is known and the encoding (JSON when
    it is not given) is supported. *)
Theorem get_checked_first (request : GetRequest) (s : rpc W) :
  let enc := if decide (gr_encoding request = 0%Z) then JSON else gr_encoding request in
  Get DEMO connect request s =
    match credentials s with
    | None => (Raise KeyError, s)
    | Some _ =>
        if decide (enc ∈ supported) then
          let '(r, w') := adapter_get (gr_prefix request) (gr_path request) (gr_type request)
                            (gr_use_models request) (adapter s) in
          (r, set_adapter w' s)
        else (Raise NotImplementedError, refused (Some enc) s)
    end.
Proof.
  intros enc. unfold Get. monad_unfold. rewrite connected_demo.
  destruct (credentials s) as [up|]; [|done]. unfold verify_encoding_supported. fold enc.
  rewrite ensure_encoding_spec. cbn [encoding_in]. by case_bool_decide; case_decide.
Qed.
End server_properties.

Section subscribe_properties.
Context {W : Type} `{HandlerOps W}.

End subscribe_properties.

(** a Set of an existing leaf of the demo adapter followed by a Get of it,
    both through the server, returns the value that was set. *)
Theorem server_set_get_demo `{ProtoMap} (format_val : TypedValue → pystr)
    (connect : pystr → pystr → PyM demo_world unit) (s : rpc demo_world)
    (prefix path : Path) (k e v : pystr) :
  credentials s ≠ None → world_ok (adapter s) → asks_leaf false prefix path k e →
  dict_mem (leaf (top_path false) k e) (demo_db (adapter s)) = true →
  ∃ s', Set_ (H := demo_adapter format_val) DEMO connect
      {| sr_prefix := prefix; sr_delete := []; sr_replace := [];
         sr_update := [{| up_path := path; up_val := JsonIetfVal (dumps (JStr v)) |}] |} s =
    (Ok {| sp_prefix := prefix; sp_timestamp := 0;
           sp_response := [{| ur_timestamp := 0; ur_path := path; ur_op := OP_UPDATE |}] |}, s') ∧
  Get (H := demo_adapter format_val) DEMO connect
      {| gr_prefix := prefix; gr_path := [path]; gr_type := DT_CONFIG; gr_encoding := JSON_IETF;
         gr_use_models := [] |} s' =
    (Ok [{| timestamp := 1; GnmiMsg.prefix := prefix; delete := []; atomic := true;
            update := [{| up_path := {| origin := []; elem := elem path; target := [] |};
                          up_val := JsonIetfVal (dumps (JStr (reported e (replace v NS_IANA [])))) |}] |}],
     s').
Proof.
  intros Hc Hw Ha Hm. exists (set_adapter (set_leaf k e v (adapter s)) s). split.
  - unfold Set_. monad_unfold. rewrite connected_demo. destruct (credentials s) as [up|]; [|done].
    rewrite verify_updates_spec. change (first_refused _) with (@None (option Z)).
    unfold method, on_adapter. cbn [adapter_set demo_adapter sr_prefix sr_update sr_delete].
    rewrite (demo_set_leaf _ _ _ _ k e) by done. by rewrite Hm.
  - unfold Get. monad_unfold. rewrite connected_demo. unfold credentials in *.
    cbn [invocation_metadata set_adapter] in *.
    destruct (dict_get (py"username") _) as [u|]; [|done].
    destruct (dict_get (py"password") _) as [p|]; [|done].
    unfold verify_encoding_supported. rewrite ensure_encoding_spec.
    change (encoding_in _ supported) with true. unfold method, on_adapter.
    cbn [adapter_get demo_adapter gr_prefix gr_path gr_type adapter set_adapter].
    unfold demo_get. monad_unfold. cbn [M_map]. monad_unfold.
    rewrite (get_set_leaf _ _ _ k e) by (done || by apply set_leaf_ok). done.
Qed.

(** ** Witnesses *)

Definition ex_rpc : rpc demo_world :=
  {| invocation_metadata := [(py"username", py"admin"); (py"password", py"admin")];
     status := None; adapter := initial_world |}.

Definition no_connect (u p : pystr) : PyM demo_world unit := mret tt.

Definition ex_set : SetRequest :=
  {| sr_prefix := empty_path; sr_delete := [ex_type_path]; sr_replace := [];
     sr_update := [{| up_path := ex_type_path; up_val := JsonVal (dumps (JStr (py"fastEther"))) |}] |}.

Lemma set_updates_then_deletes_witness :
  (Set_ (H := demo_adapter (λ _, [])) DEMO no_connect ex_set ex_rpc).1 =
    Ok {| sp_prefix := empty_path; sp_timestamp := 0;
          sp_response := [{| ur_timestamp := 0; ur_path := ex_type_path; ur_op := OP_UPDATE |}] |}.
Proof.
  rewrite (set_updates_then_deletes (W := demo_world) (H := demo_adapter (λ _, [])) no_connect ex_set ex_rpc);
    [vm_compute; reflexivity | discriminate | reflexivity].
Defined.

Lemma server_set_get_demo_witness :
  ∃ s', Set_ (H := demo_adapter (λ _, [])) DEMO no_connect
      {| sr_prefix := empty_path; sr_delete := []; sr_replace := [];
         sr_update := [{| up_path := ex_type_path; up_val := JsonIetfVal (dumps (JStr (py"fastEther"))) |}] |}
      ex_rpc =
    (Ok {| sp_prefix := empty_path; sp_timestamp := 0;
           sp_response := [{| ur_timestamp := 0; ur_path := ex_type_path; ur_op := OP_UPDATE |}] |}, s') ∧
  Get (H := demo_adapter (λ _, [])) DEMO no_connect
      {| gr_prefix := empty_path; gr_path := [ex_type_path]; gr_type := DT_CONFIG;
         gr_encoding := JSON_IETF; gr_use_models := [] |} s' =
    (Ok [{| timestamp := 1; GnmiMsg.prefix := empty_path; delete := []; atomic := true;
            update := [{| up_path := ex_type_path;
                          up_val := JsonIetfVal (dumps (JStr (py"iana-if-type:fastEther"))) |}] |}], s').
Proof.
  apply (server_set_get_demo (λ _, []) no_connect ex_rpc empty_path ex_type_path (py"if_8") (py"type")
    (py"fastEther")); [discriminate | apply initial_world_ok | | vm_compute; reflexivity].
  split_and!; [reflexivity | discriminate | vm_decide | by right].
Defined.

(** Running the request thread to its end, then the response loop. *)
Definition ex_call : subscribe nat := start_subscribe (new_handler (ex_list POLL) 5) [ReqPoll; ReqPoll].

Definition ex_fed : subscribe nat :=
  {| sub_handler := set_queue (Some [SAMPLE; SAMPLE; FINISH]) (new_handler (ex_list POLL) 5);
     requests := []; thread_running := false; rpc_done := false |}.

(** Iterating over the responses is an execution. *)
Lemma read_sub_exec {W} (ops : HandlerOps W) env (s0 s : subscribe W) out n :
  sub_exec env s0 out s →
  sub_exec env s0 (out ++ (read n (sub_handler s)).1) (set_sub_handler (read n (sub_handler s)).2 s).
Proof.
  revert s out. induction n as [|n IH]; intros s out Hex; cbn.
  { rewrite app_nil_r. by destruct s. }
  destruct (read_step (sub_handler s)) as [[o h']|] eqn:Hr; [|rewrite app_nil_r; by destruct s].
  pose proof (sub_exec_snoc _ _ _ _ _ _ Hex (sub_read _ _ _ _ Hr)) as Hs. apply IH in Hs. cbn in Hs.
  destruct (read n h') as [o' h'']. cbn in *. by rewrite app_assoc.
Qed.

Lemma silent_sub_exec {W} (ops : HandlerOps W) env (s0 s s' : subscribe W) out :
  sub_exec env s0 out s → sub_step env s [] s' → sub_exec env s0 out s'.
Proof. intros Hex Hst. rewrite <-(app_nil_r out). by eapply sub_exec_snoc. Qed.

Lemma ex_sub_exec env :
  ∃ s, sub_exec (H := counting) env ex_call
    [RespUpdate (ex_notif 5); RespSync true; RespUpdate (ex_notif 6); RespUpdate (ex_notif 7)] s ∧
    pc (sub_handler s) = PcDone ∧ rpc_done s = false.
Proof.
  assert (Hfed : sub_exec (H := counting) env ex_call [] ex_fed).
  { eapply silent_sub_exec; [eapply silent_sub_exec; [eapply silent_sub_exec; [apply sub_exec_nil|]|]|];
      by eapply sub_request. }
  eexists. split; [exact (read_sub_exec counting env ex_call ex_fed [] 40 Hfed) | by vm_compute].
Qed.

(** A STREAM call: after the first responses a change is announced, the counter is
    changed, a request is read, and then the client ends the call. *)
Definition ex_stream : subscribe nat := start_subscribe (new_handler (ex_list STREAM) 5) [ReqPoll].
Definition ex_stream_end : subscribe nat :=
  {| sub_handler := (read (H := counting) 40 (set_queue (Some [SEND_CHANGES; SAMPLE; FINISH])
       (set_world 17 (read (H := counting) 4 (sub_handler ex_stream)).2))).2;
     requests := []; thread_running := true; rpc_done := true |}.

Lemma ex_stream_exec :
  sub_exec (H := counting) add_ten ex_stream
    [RespUpdate (ex_notif 5); RespSync true; RespUpdate (ex_notif 17); RespUpdate (ex_notif 0)] ex_stream_end.
Proof.
  assert (sub_exec (H := counting) add_ten ex_stream [RespUpdate (ex_notif 5); RespSync true]
    {| sub_handler := set_queue (Some [SEND_CHANGES; SAMPLE; FINISH]) (set_world 17 (read (H := counting) 4 (sub_handler ex_stream)).2);
       requests := []; thread_running := true; rpc_done := true |}) as Hex.
  { eapply silent_sub_exec; [eapply silent_sub_exec; [eapply silent_sub_exec; [eapply silent_sub_exec|]|]|].
    - exact (read_sub_exec counting add_ten ex_stream ex_stream [] 4 (sub_exec_nil _ _)).
    - by apply (sub_notify _ _ SEND_CHANGES).
    - by apply (sub_change _ _ 17).
    - by eapply sub_request.
    - by eapply sub_done. }
  exact (read_sub_exec counting add_ten ex_stream _ _ 40 Hex).
Qed.

