(* ===== verification/Client.v ===== *)
(** * The gNMI client: confdgnmi/src/confd_gnmi_client.py

    The requests the client builds, the loop that reads the responses of a
    subscription, and the main program.  The gRPC stub is a parameter; what is
    printed is a list of structured lines, one per [print]. *)

From Stdlib Require Import Ascii String.
From S2P Require Import Prelude PyStr PyDict GnmiMsg GnmiPath Json Adapter Server.

(** ** Requests *)

Definition make_subscription_list (prefix : Path) (paths : list Path) (mode encoding : Z)
    : SubscriptionList :=
  {| sl_prefix := prefix;
     sl_subscription := (λ path, {| sub_path := path;
       sub_mode := if decide (mode = STREAM) then ON_CHANGE else TARGET_DEFINED |}) <$> paths;
     sl_qos := 1; sl_mode := mode; sl_allow_aggregation := false;
     sl_encoding := encoding; sl_updates_only := false |}.

Definition make_poll_subscription : SubscribeRequest := ReqPoll.

(** The requests of the generator; its pauses are not modelled. *)
Definition generate_subscriptions (subscription_list : SubscriptionList) (poll_count : nat)
    : list SubscribeRequest :=
  ReqSubscribe subscription_list ::
  (if decide (sl_mode subscription_list = POLL) then replicate poll_count make_poll_subscription else []).

(** ** Printing *)

(** The value of an update as it is printed. *)
Inductive shown :=
  | ShownJson (v : json)
  | ShownText (v : TypedValue).

(** The arguments of the [print] calls. *)
Inductive line :=
  | LNotification (timestamp : Z) (prefix : pystr) (atomic : bool)
  | LUpdates
  | LUpdate (path : pystr) (value : shown)
  | LResponse (read_count : Z)
  | LText (s : pystr)
  | LModel (name organization version : pystr)
  | LEncodings (names : list pystr)
  | LSet (timestamp : Z) (prefix : pystr)
  | LResult (timestamp op : Z) (path : pystr).

Definition update_value (val : TypedValue) : res shown :=
  match val with
  | JsonVal (c :: s) => ShownJson <$> loads (c :: s)
  | JsonIetfVal (c :: s) => ShownJson <$> loads (c :: s)
  | _ => Ok (ShownText val)
  end.

(** Printing, with the lines printed before an exception. *)
Definition out_lines : Type := list line.
Definition print (l : line) : PyM out_lines unit := modify (λ o, o ++ [l]).

Fixpoint M_iter {S A} (f : A → PyM S unit) (l : list A) : PyM S unit :=
  match l with
  | [] => mret tt
  | x :: l' => _ ← f x; M_iter f l'
  end.

Definition print_notification (n : Notification) : PyM out_lines unit :=
  let pfx_str := make_xpath_path None (Some (prefix n)) false in
  _ ← print (LNotification (timestamp n) pfx_str (atomic n));
  _ ← print LUpdates;
  M_iter (λ u,
    value ← lift (update_value (up_val u));
    print (LUpdate (pfx_str ++ make_xpath_path (Some (up_path u)) None false) value)) (update n).

(** [response.update]: the default message for a sync response. *)
Definition empty_notification : Notification :=
  {| timestamp := 0; prefix := empty_path; update := []; delete := []; atomic := false |}.
Definition response_update (r : SubscribeResponse) : Notification :=
  match r with RespUpdate n => n | RespSync _ => empty_notification end.

(** The loop over the responses; the result is the number of responses read. *)
Fixpoint read_loop (responses : list SubscribeResponse) (read_count : Z) : PyM out_lines nat :=
  match responses with
  | [] => mret 0
  | response :: rest =>
      _ ← print (LResponse read_count);
      _ ← print_notification (response_update response);
      if (0 <? read_count)%Z then
        if decide (read_count - 1 = 0)%Z then mret 1
        else n ← read_loop rest (read_count - 1); mret (S n)
      else n ← read_loop rest read_count; mret (S n)
  end.

(** How the stream of responses ends: normally, or with an [RpcError] that may
    carry the text EOF in its details. *)
Inductive stream_end := EndOk | EndEof | EndError.

(** The responses are read, then the call is cancelled; an error of the stream
    is raised unless it is the EOF of the server or reading stopped before. *)
Definition read_subscribe_responses (responses : list SubscribeResponse) (fin : stream_end)
    (read_count : Z) : PyM out_lines nat :=
  num_read ← read_loop responses read_count;
  if ((0 <? read_count)%Z && (Z.to_nat read_count <=? num_read)) then mret num_read
  else match fin with EndError => raise PyException | _ => mret num_read end.

(** ** The main program *)

(** The gRPC stub. *)
Record stub := {
  stub_Capabilities : res CapabilityResponse;
  stub_Get : GetRequest → res (list Notification);
  stub_Set : SetRequest → res SetResponse;
  stub_Subscribe : list SubscribeRequest → list SubscribeResponse * stream_end
}.

Definition client_get (st : stub) (prefix : Path) (paths : list Path) (get_type encoding : Z)
    : res (list Notification) :=
  stub_Get st {| gr_prefix := prefix; gr_path := paths; gr_type := get_type;
                 gr_encoding := encoding; gr_use_models := [] |}.

Definition client_set (st : stub) (prefix : Path) (path_vals : list (Path * TypedValue))
    : res SetResponse :=
  stub_Set st {| sr_prefix := prefix; sr_delete := []; sr_replace := [];
                 sr_update := (λ '(p, v), {| up_path := p; up_val := v |}) <$> path_vals |}.

Definition client_delete (st : stub) (prefix : Path) (paths : list Path) : res SetResponse :=
  stub_Set st {| sr_prefix := prefix; sr_delete := paths; sr_replace := []; sr_update := [] |}.

Definition client_subscribe (st : stub) (l : SubscriptionList) (poll_count : nat) (read_count : Z)
    : PyM out_lines nat :=
  let '(responses, fin) := stub_Subscribe st (generate_subscriptions l poll_count) in
  read_subscribe_responses responses fin read_count.

Definition encoding_int_to_str (encoding : Z) (no_error : bool) : res pystr :=
  if decide (encoding = 0%Z) then Ok (py"JSON")
  else if decide (encoding = 1%Z) then Ok (py"BYTES")
  else if decide (encoding = 2%Z) then Ok (py"PROTO")
  else if decide (encoding = 3%Z) then Ok (py"ASCII")
  else if decide (encoding = 4%Z) then Ok (py"JSON_IETF")
  else if no_error then Ok (py"UNKNOWN(" ++ str_Z encoding ++ py")")
  else Raise ValueError.

(** The options [parse_args] returns; times are in milliseconds. *)
Record options := {
  o_operation : pystr; o_prefix : pystr; o_paths : list pystr; o_vals : list pystr;
  o_datatype : pystr; o_submode : pystr; o_pollcount : nat; o_pollinterval : Z; o_interactivepoll : bool;
  o_subscription_end_delay : Z; o_readcount : Z; o_servercrt : option pystr; o_username : pystr;
  o_password : pystr; o_encoding : pystr
}.

(** The options of an empty command line, and the choices the parser accepts. *)
Definition default_options : options := {|
  o_operation := py"capabilities"; o_prefix := []; o_paths := []; o_datatype := py"CONFIG";
  o_vals := []; o_submode := py"ONCE"; o_pollcount := 5; o_pollinterval := 500; o_interactivepoll := false;
  o_subscription_end_delay := 0; o_readcount := 4; o_servercrt := None; o_username := py"admin";
  o_password := py"admin"; o_encoding := py"JSON_IETF"
|}.

Definition options_accepted (o : options) : bool :=
  bool_decide (o_operation o ∈ [py"capabilities"; py"set"; py"get"; py"delete"; py"subscribe"]) &&
  bool_decide (o_datatype o ∈ [py"ALL"; py"CONFIG"; py"STATE"; py"OPERATIONAL"]) &&
  bool_decide (o_submode o ∈ [py"ONCE"; py"POLL"; py"STREAM"]) &&
  bool_decide (o_encoding o ∈ [py"JSON"; py"JSON_IETF"]).

Lemma default_options_accepted : options_accepted default_options = true.
Proof. reflexivity. Qed.

(** The requests of the printed results of a Set. *)
Definition print_set_response (r : SetResponse) : PyM out_lines unit :=
  _ ← print (LText (py"Set - UpdateResult:"));
  _ ← print (LSet (sp_timestamp r) (make_xpath_path (Some (sp_prefix r)) None false));
  M_iter (λ u, print (LResult (ur_timestamp u) (ur_op u) (make_xpath_path (Some (ur_path u)) None false)))
    (sp_response r).

Section main.
Context `{ProtoMap}.

(** The option [--prefix] is read but the prefix sent is always empty. *)
Definition main (st : stub) (opt : options) : PyM out_lines unit :=
  let prefix := empty_path in
  paths ← lift (res_map (λ p, make_gnmi_path p None None) (o_paths opt));
  let vals := JsonIetfVal <$> o_vals opt in
  datatype ← lift (get_data_type (o_datatype opt));
  subscription_mode ← lift (get_sub_mode (o_submode opt));
  let read_count := if decide (o_submode opt = py"STREAM") then o_readcount opt else (-1)%Z in
  encoding ← lift (dict_lookup (o_encoding opt) [(py"JSON", JSON); (py"JSON_IETF", JSON_IETF)]);
  let subscription_list := make_subscription_list prefix paths subscription_mode encoding in
  if decide (o_operation opt = py"capabilities") then
    caps ← lift (stub_Capabilities st);
    _ ← print (LText (py"Capabilities:"));
    _ ← print (LText (py"  supported models:"));
    _ ← M_iter (λ m, print (LModel (md_name m) (md_organization m) (md_version m))) (supported_models caps);
    names ← lift (res_map (λ e, encoding_int_to_str e true) (supported_encodings caps));
    print (LEncodings names)
  else if decide (o_operation opt = py"subscribe") then
    _ ← print (LText (py"Starting subscription ...."));
    _ ← client_subscribe st subscription_list (o_pollcount opt) read_count;
    print (LText (py".... subscription done"))
  else if decide (o_operation opt = py"get") then
    notification ← lift (client_get st prefix paths datatype encoding);
    _ ← print (LText (py"Get - Notifications:"));
    M_iter print_notification notification
  else if decide (o_operation opt = py"set") then
    if decide (length paths = length vals) then
      response ← lift (client_set st prefix (zip paths vals));
      print_set_response response
    else raise RuntimeError
  else if decide (o_operation opt = py"delete") then
    response ← lift (client_delete st prefix paths);
    print_set_response response
  else mret tt.
End main.

(** ** Lemmas *)

(** Every value of the response can be shown. *)
Definition printable (r : SubscribeResponse) : Prop :=
  Forall (λ u, is_ok (update_value (up_val u))) (update (response_update r)).

(** The lines of a notification. *)
Definition notification_lines (n : Notification) : list line :=
  let pfx_str := make_xpath_path None (Some (prefix n)) false in
  LNotification (timestamp n) pfx_str (atomic n) :: LUpdates ::
  ((λ u, LUpdate (pfx_str ++ make_xpath_path (Some (up_path u)) None false)
           (match update_value (up_val u) with Ok v => v | Raise _ => ShownText (up_val u) end)) <$> update n).

Lemma M_iter_print {A} (f : A → PyM out_lines unit) (g : A → line) l o :
  Forall (λ x, ∀ o, f x o = (Ok tt, o ++ [g x])) l → M_iter f l o = (Ok tt, o ++ (g <$> l)).
Proof.
  intros Hf. revert o; induction Hf as [|x l Hx _ IH]; intros o; cbn; [by rewrite app_nil_r|].
  monad_unfold. rewrite Hx, IH, <-app_assoc. done.
Qed.

Lemma print_notification_ok r o :
  printable r →
  print_notification (response_update r) o = (Ok tt, o ++ notification_lines (response_update r)).
Proof.
  intros Hp. unfold print_notification, print. monad_unfold.
  erewrite M_iter_print; [by rewrite <-!app_assoc|].
  eapply Forall_impl; [exact Hp|]. intros u Hu o'. cbn in Hu.
  by destruct (update_value (up_val u)).
Qed.

(** The lines printed for responses read with a given [read_count]. *)
Fixpoint response_lines (responses : list SubscribeResponse) (read_count : Z) : list line :=
  match responses with
  | [] => []
  | r :: rest =>
      LResponse read_count :: notification_lines (response_update r) ++
      (if (0 <? read_count)%Z then
         if decide (read_count - 1 = 0)%Z then [] else response_lines rest (read_count - 1)
       else response_lines rest read_count)
  end.

Lemma read_loop_spec responses read_count o :
  Forall printable responses →
  read_loop responses read_count o =
    (Ok (if (0 <? read_count)%Z then Nat.min (Z.to_nat read_count) (length responses)
         else length responses), o ++ response_lines responses read_count).
Proof.
  intros Hp. revert read_count o. induction Hp as [|r rest Hr _ IH]; intros c o;
    cbn [read_loop response_lines length].
  - monad_unfold. rewrite app_nil_r, Nat.min_0_r. by destruct (0 <? c)%Z.
  - unfold print at 1. monad_unfold. rewrite print_notification_ok by done.
    destruct (Z.ltb_spec 0 c) as [Hc|Hc].
    + case_decide as H1.
      * rewrite <-!app_assoc. replace (Z.to_nat c) with 1 by lia. cbn [app].
        by rewrite app_nil_r.
      * rewrite IH. destruct (Z.ltb_spec 0 (c - 1)); [|lia]. cbn [fst snd].
        rewrite <-!app_assoc. do 2 f_equal. lia.
    + rewrite IH. destruct (Z.ltb_spec 0 c); [lia|]. by rewrite <-!app_assoc.
Qed.

(** ** Properties *)

(** The client reads exactly as many responses of a subscription as it was
    asked to (all of them when no positive count is given, or when there are
    fewer), prints each of them in order, and ignores what comes after. *)
Theorem read_subscribe_responses_count (responses : list SubscribeResponse) (fin : stream_end)
    (read_count : Z) (o : out_lines) :
  Forall printable responses → fin ≠ EndError ∨ (0 < read_count ≤ Z.of_nat (length responses))%Z →
  let n := if (0 <? read_count)%Z then Nat.min (Z.to_nat read_count) (length responses)
           else length responses in
  read_subscribe_responses responses fin read_count o =
    (Ok n, o ++ response_lines (take n responses) read_count).
Proof.
  intros Hp Hf n. unfold read_subscribe_responses. monad_unfold. rewrite read_loop_spec by done.
  fold n. cbn [fst snd].
  assert (Hlines : response_lines responses read_count = response_lines (take n responses) read_count).
  { clear Hf. subst n. destruct (Z.ltb_spec 0 read_count) as [Hc|Hc]; [|by rewrite take_ge].
    revert read_count Hc. induction Hp as [|r rest Hr _ IH]; intros c Hc; [by rewrite take_nil|].
    replace (Nat.min (Z.to_nat c) (length (r :: rest))) with
      (S (Nat.min (Z.to_nat (c - 1)) (length rest))) by (cbn; lia).
    cbn [take response_lines]. destruct (Z.ltb_spec 0 c); [|lia]. case_decide; [done|].
    rewrite IH by lia. done. }
  rewrite Hlines. destruct ((0 <? read_count)%Z && (Z.to_nat read_count <=? n)) eqn:Hb; [done|].
  destruct fin; [done | done |]. destruct Hf as [?|Hc]; [done|]. exfalso. subst n.
  destruct (Z.ltb_spec 0 read_count); [|lia].
  destruct (Nat.leb_spec (Z.to_nat read_count) (Nat.min (Z.to_nat read_count) (length responses))); [done|lia].
Qed.

(** C29: a POLL subscription of the client with a poll count, served by the server
    to its end: the client receives and prints two responses more than the poll
    count (the first sample, the sync response, one sample per poll), whatever
    the interleaving on the server and whatever other threads do to the adapter's state
    between its calls. *)
Theorem poll_end_to_end {W} (ops : HandlerOps W) (env : W → W → Prop) (w : W) (prefix : Path) (paths : list Path)
    (encoding : Z) (poll_count : nat) (out : list SubscribeResponse) (s : subscribe W) (o : out_lines) :
  let l := make_subscription_list prefix paths POLL encoding in
  let reqs := generate_subscriptions l poll_count in
  sub_exec env (start_subscribe (new_handler (request_list (default ReqNotSet (head reqs))) w) (tail reqs)) out s →
  pc (sub_handler s) = PcDone → rpc_done s = false → Forall printable out →
  read_subscribe_responses out EndOk (-1) o = (Ok (poll_count + 2), o ++ response_lines out (-1)).
Proof.
  intros l reqs Hex Hpc Hd Hp.
  apply sub_done_session in Hex as (evs & w' & _ & _ & _ & _ & Hpoll); [|done|done].
  destruct (Hpoll eq_refl) as (_ & Hlen & Hfin). destruct (Hfin Hd) as (Hm & _ & _). rewrite Hm in Hlen.
  assert (Hr : length (tail reqs) = poll_count).
  { unfold reqs, generate_subscriptions. rewrite decide_True by done. apply length_replicate. }
  unfold read_subscribe_responses. monad_unfold. rewrite read_loop_spec by done. cbn.
  by rewrite Hlen, Hr.
Qed.

(** ** Witnesses *)

Definition ex_responses : list SubscribeResponse :=
  [RespUpdate (ex_notif 5); RespSync true; RespUpdate (ex_notif 6); RespUpdate (ex_notif 7)].

Lemma read_subscribe_responses_count_witness :
  read_subscribe_responses ex_responses EndError 3 [] =
    (Ok 3, [] ++ response_lines (take 3 ex_responses) 3).
Proof.
  apply (read_subscribe_responses_count ex_responses EndError 3 []); [by repeat constructor|].
  right. vm_compute. split; congruence.
Defined.

Lemma poll_end_to_end_witness :
  read_subscribe_responses ex_responses EndOk (-1) [] = (Ok (2 + 2), [] ++ response_lines ex_responses (-1)).
Proof.
  destruct (ex_sub_exec add_ten) as (s & Hex & Hpc & Hd).
  apply (poll_end_to_end counting add_ten 5 empty_path [empty_path] JSON 2 ex_responses s []);
    [exact Hex | exact Hpc | exact Hd | by repeat constructor].
Defined.
