(* ===== verification/NetconfFraming.v ===== *)
(** * NETCONF framing: confd-sync-py/app/netconf_console.py, lines 30 to 424

    The transport classes [NetconfSSHLikeTransport] and [NetconfSSH]: both
    message framings (end-of-message marker and chunked), the receive buffer
    that has to cope with any segmentation of the byte stream, and the send
    buffer.  In this file a Python [str] is represented by its UTF-8 encoding,
    so that [encode] is the identity, [decode] is a check and [len] counts
    characters; the peer and the socket are the list of receive events. *)

From Stdlib Require Import Ascii String.
From S2P Require Import Prelude PyStr.

(** ** UTF-8 text *)

(** The state of the decoder: how many continuation bytes are due and the range
    of the next one. *)
Fixpoint utf8_go (need lo hi : nat) (s : pystr) : bool :=
  match s with
  | [] => need =? 0
  | c :: s' =>
      let n := nat_of_ascii c in
      match need with
      | S k => (lo <=? n) && (n <=? hi) && utf8_go k 128 191 s'
      | 0 =>
          if n <? 128 then utf8_go 0 128 191 s'
          else if (194 <=? n) && (n <=? 223) then utf8_go 1 128 191 s'
          else if n =? 224 then utf8_go 2 160 191 s'
          else if n =? 237 then utf8_go 2 128 159 s'
          else if (225 <=? n) && (n <=? 239) then utf8_go 2 128 191 s'
          else if n =? 240 then utf8_go 3 144 191 s'
          else if (241 <=? n) && (n <=? 243) then utf8_go 3 128 191 s'
          else if n =? 244 then utf8_go 3 128 143 s'
          else false
      end
  end.

Definition utf8_valid (s : pystr) : bool := utf8_go 0 128 191 s.

(** A byte that starts a character. *)
Definition is_lead (c : ascii) : bool :=
  negb ((128 <=? nat_of_ascii c) && (nat_of_ascii c <=? 191)).

(** [len] of a [str]. *)
Definition str_len (s : pystr) : nat := length (List.filter is_lead s).

(** [s[:n]] and [s[n:]] of a [str]. *)
Fixpoint str_split_at (n : nat) (s : pystr) : pystr * pystr :=
  match s with
  | [] => ([], [])
  | c :: s' =>
      if is_lead c
      then match n with
           | 0 => ([], s)
           | S k => let '(a, b) := str_split_at k s' in (c :: a, b)
           end
      else let '(a, b) := str_split_at n s' in (c :: a, b)
  end.

(** A Python value that is a [str] or a [bytes]. *)
Inductive pybuf :=
  | BStr (s : pystr)
  | BBytes (s : pystr).

Definition raw (b : pybuf) : pystr := match b with BStr s | BBytes s => s end.

(** [a + b]: only values of the same type can be concatenated. *)
Definition buf_add (a b : pybuf) : res pybuf :=
  match a, b with
  | BStr x, BStr y => Ok (BStr (x ++ y))
  | BBytes x, BBytes y => Ok (BBytes (x ++ y))
  | _, _ => Raise TypeError
  end.

Definition buf_len (b : pybuf) : nat :=
  match b with BStr s => str_len s | BBytes s => length s end.

(** [(b[:n], b[n:])]. *)
Definition buf_split_at (n : nat) (b : pybuf) : pybuf * pybuf :=
  match b with
  | BStr s => let '(x, y) := str_split_at n s in (BStr x, BStr y)
  | BBytes s => (BBytes (take n s), BBytes (drop n s))
  end.

Definition bin_data (buf : pybuf) : pybuf := BBytes (raw buf).

Definition str_data (buf : pybuf) : res pystr :=
  match buf with
  | BStr s => Ok s
  | BBytes s => if utf8_valid s then Ok s else Raise UnicodeDecodeError
  end.

(** ** Constants *)

Definition BUFSIZ : nat := Z.to_nat 16384.
Definition MAX_UINT32 : Z := 2 ^ 32 - 1.
Definition FRAMING_1_0 : Z := 0.
Definition FRAMING_1_1 : Z := 1.

Definition EOM_1_0 : pystr := py"]]>]]>".
Definition EOM_1_1 : pystr := nl ++ py"##" ++ nl.

(** ** Receiving *)

(** What the socket does next: deliver some bytes ([Data []] is the end of the
    stream), or stay quiet for longer than the timeout.  Past the last event
    the stream has ended, and every further read says so. *)
Inductive recv_event :=
  | Data (s : pystr)
  | Quiet.

#[export] Instance recv_event_eq_dec : EqDecision recv_event.
Proof. solve_decision. Defined.

(** [self._recv(BUFSIZ)]: without a timeout a quiet socket is waited for, with one
    [recv] raises. *)
Fixpoint _recv (tmo : option Z) (inc : list recv_event) : res pystr * list recv_event :=
  match inc with
  | [] => (Ok [], [])
  | Data x :: inc' => (Ok x, inc')
  | Quiet :: inc' => match tmo with None => _recv tmo inc' | Some _ => (Raise SocketTimeout, inc') end
  end.

(** [NetconfSSHLikeTransport]: its attributes, the timeout set on the channel
    and the events to come. *)
Record transport := {
  buf_bytes : pystr;
  framing : Z;
  eom_found : bool;
  timeout : option Z;
  incoming : list recv_event
}.

Definition __init__ (inc : list recv_event) : transport :=
  {| buf_bytes := []; framing := FRAMING_1_0; eom_found := false;
     timeout := None; incoming := inc |}.

Definition _get_eom (framing : Z) : pystr :=
  if decide (framing = FRAMING_1_0) then EOM_1_0
  else if decide (framing = FRAMING_1_1) then EOM_1_1
  else [].

(** The loops [while len(bytes) < n: x = self._recv(BUFSIZ) ...]: [true] when
    [n] bytes are there, [false] when the stream ended first. *)
Fixpoint fill_go (fuel : nat) (tmo : option Z) (n : Z) (bytes : pystr) (inc : list recv_event)
    : res (bool * pystr) * list recv_event :=
  if (n <=? Z.of_nat (length bytes))%Z then (Ok (true, bytes), inc)
  else match fuel with
       | 0 => (Raise OutOfFuel, inc)
       | S k =>
           match _recv tmo inc with
           | (Raise e, inc') => (Raise e, inc')
           | (Ok x, inc') =>
               if decide (x = []) then (Ok (false, bytes), inc')
               else fill_go k tmo n (bytes ++ x) inc'
           end
       end.

(** A read for each event, and one that finds the end of the stream. *)
Definition fill (tmo : option Z) (n : Z) (bytes : pystr) (inc : list recv_event) :=
  fill_go (S (length inc)) tmo n bytes inc.

(** The attributes written back when a receive call ends. *)
Definition leave (t : transport) (buf : pystr) (eom : bool) (inc : list recv_event) : transport :=
  {| buf_bytes := buf; framing := framing t; eom_found := eom;
     timeout := timeout t; incoming := inc |}.

Definition recv_chunk_bytes_framing_1_0 (t : transport) : res (Z * pystr) * transport :=
  if eom_found t then (Ok (0%Z, []), leave t (buf_bytes t) false (incoming t))
  else
    match fill (timeout t) 6 (buf_bytes t) (incoming t) with
    | (Raise e, inc) => (Raise e, leave t [] false inc)
    | (Ok (false, bytes), inc) => (Ok ((-1)%Z, bytes), leave t [] false inc)
    | (Ok (true, bytes), inc) =>
        match find bytes EOM_1_0 with
        | Some idx => (Ok (1%Z, take idx bytes), leave t (drop (idx + 6) bytes) true inc)
        | None =>
            let keep := length bytes - 5 in
            (Ok (1%Z, take keep bytes), leave t (drop keep bytes) false inc)
        end
    end.

(** The loop that reads the chunk size of the 1.1 framing. *)
Inductive size_result :=
  | Sized (sz : Z) (bytes : pystr)
  | EndOfMessage (rest : pystr)
  | BadFrame (bytes : pystr)
  | SizeEof (bytes : pystr).

(** The body of that loop once the terminating line feed is at [idx]. *)
Definition scan_size (bytes : pystr) (idx : nat) : size_result :=
  if 12 <? idx then BadFrame bytes
  else
    let field := take (idx - 2) (drop 2 bytes) in
    match py_int field with
    | Some sz =>
        if ((sz <? 1) || (MAX_UINT32 <? sz))%Z then BadFrame bytes
        else Sized sz (drop (idx + 1) bytes)
    | None =>
        if decide (field = py"#") then EndOfMessage (drop (idx + 1) bytes)
        else BadFrame bytes
    end.

Fixpoint read_size_go (fuel : nat) (tmo : option Z) (bytes : pystr) (inc : list recv_event)
    : res size_result * list recv_event :=
  match find (drop 2 bytes) nl with
  | Some i => (Ok (scan_size bytes (2 + i)), inc)
  | None =>
      match fuel with
      | 0 => (Raise OutOfFuel, inc)
      | S k =>
          match _recv tmo inc with
          | (Raise e, inc') => (Raise e, inc')
          | (Ok x, inc') =>
              if decide (x = []) then (Ok (SizeEof bytes), inc')
              else read_size_go k tmo (bytes ++ x) inc'
          end
      end
  end.

Definition read_size (tmo : option Z) (bytes : pystr) (inc : list recv_event) :=
  read_size_go (S (length inc)) tmo bytes inc.

Definition recv_chunk_bytes_framing_1_1 (t : transport) : res (Z * pystr) * transport :=
  let out (r : res (Z * pystr)) (buf : pystr) (inc : list recv_event) :=
    (r, leave t buf (eom_found t) inc) in
  match fill (timeout t) 4 (buf_bytes t) (incoming t) with
  | (Raise e, inc) => out (Raise e) [] inc
  | (Ok (false, bytes), inc) => out (Ok ((-1)%Z, bytes)) [] inc
  | (Ok (true, bytes), inc) =>
      if decide (take 2 bytes = nl ++ py"#") then
        match read_size (timeout t) bytes inc with
        | (Raise e, inc) => out (Raise e) [] inc
        | (Ok (SizeEof bytes), inc) => out (Ok ((-1)%Z, bytes)) [] inc
        | (Ok (BadFrame bytes), inc) => out (Ok ((-2)%Z, bytes)) [] inc
        | (Ok (EndOfMessage rest), inc) => out (Ok (0%Z, [])) rest inc
        | (Ok (Sized sz bytes), inc) =>
            match fill (timeout t) sz bytes inc with
            | (Raise e, inc) => out (Raise e) [] inc
            | (Ok (false, bytes), inc) => out (Ok ((-1)%Z, bytes)) [] inc
            | (Ok (true, bytes), inc) =>
                let n := Z.to_nat sz in
                out (Ok (1%Z, take n bytes)) (drop n bytes) inc
            end
        end
      else out (Ok ((-2)%Z, bytes)) [] inc
  end.

Definition set_timeout (tmo : option Z) (t : transport) : transport :=
  {| buf_bytes := buf_bytes t; framing := framing t; eom_found := eom_found t;
     timeout := tmo; incoming := incoming t |}.

Definition recv_chunk_bytes (tmo : option Z) (t : transport) : res (Z * pystr) * transport :=
  let t := set_timeout tmo t in
  if decide (framing t = FRAMING_1_0) then recv_chunk_bytes_framing_1_0 t
  else if decide (framing t = FRAMING_1_1) then recv_chunk_bytes_framing_1_1 t
  else (Raise PyException, t).

Definition recv_chunk (tmo : option Z) (t : transport) : res (Z * pystr) * transport :=
  match recv_chunk_bytes tmo t with
  | (Ok (flag, bytes), t') =>
      match str_data (BBytes bytes) with
      | Ok s => (Ok (flag, s), t')
      | Raise e => (Raise e, t')
      end
  | (Raise e, t') => (Raise e, t')
  end.

(** The loop of [recv_msg]; [fuel] bounds the number of chunks. *)
Fixpoint recv_msg_go (fuel : nat) (tmo : option Z) (msg : pystr) (t : transport)
    : res pystr * transport :=
  match fuel with
  | 0 => (Raise OutOfFuel, t)
  | S f =>
      match recv_chunk tmo t with
      | (Raise e, t') => (Raise e, t')
      | (Ok (code, bytes), t') =>
          if decide (code = 1%Z) then recv_msg_go f tmo (msg ++ bytes) t'
          else if decide (code = 0%Z) then (Ok msg, t')
          else (Ok (msg ++ bytes), t')
      end
  end.

(** The bytes delivered by a list of events. *)
Definition ev_data (ev : recv_event) : pystr := match ev with Data s => s | Quiet => [] end.
Definition inc_data (inc : list recv_event) : pystr := concat (ev_data <$> inc).

(** Every chunk with data takes a byte from the stream, so this fuel is enough
    ([recv_msg_terminates]). *)
Definition recv_msg (tmo : option Z) (t : transport) : res pystr * transport :=
  recv_msg_go (2 + length (buf_bytes t) + length (inc_data (incoming t))) tmo [] t.

(** ** Sending *)

(** [NetconfSSH]: the text not yet sent, whether the channel is up, and the
    blocks handed to [chan.sendall]. *)
Record sender := {
  saved : pybuf;
  s_framing : Z;
  chan_up : bool;
  sent : list pybuf
}.

Definition set_saved (b : pybuf) (s : sender) : sender :=
  {| saved := b; s_framing := s_framing s; chan_up := chan_up s; sent := sent s |}.

(** [self.chan.sendall(block)] with [saved] set to [b] afterwards, and to
    [on_err] when it raises [socket.error], which is caught and printed. *)
Definition sendall (block b on_err : pybuf) (s : sender) : sender :=
  if chan_up s
  then {| saved := b; s_framing := s_framing s; chan_up := true; sent := sent s ++ [block] |}
  else set_saved on_err s.

Definition _send (buf : pybuf) (s : sender) : res unit * sender :=
  match (if decide (raw (saved s) = []) then Ok buf else buf_add (saved s) buf) with
  | Raise e => (Raise e, s)
  | Ok buf =>
      if buf_len buf <? BUFSIZ then (Ok tt, set_saved buf s)
      else
        let '(block, rest) := buf_split_at BUFSIZ buf in
        (Ok tt, sendall block rest (saved s) s)
  end.

Definition _send_eom (s : sender) : res unit * sender :=
  match buf_add (saved s) (BStr (_get_eom (s_framing s))) with
  | Raise e => (Raise e, s)
  | Ok block => (Ok tt, sendall block (BStr []) (BStr []) s)
  end.

Definition _flush (s : sender) : res unit * sender :=
  (Ok tt, sendall (saved s) (BStr []) (BStr []) s).

(** A chunk of the 1.1 framing: the size, then the text. *)
Definition chunk (n : nat) (text : pystr) : pystr :=
  nl ++ py"#" ++ str_nat n ++ nl ++ text.

Definition send (request : pybuf) (s : sender) : res unit * sender :=
  if decide (s_framing s = FRAMING_1_1) then
    match str_data request with
    | Raise e => (Raise e, s)
    | Ok text => _send (BStr (chunk (buf_len request) text)) s
    end
  else _send request s.

Definition send_msg (request : pybuf) (s : sender) : res unit * sender :=
  match send request s with
  | (Raise e, s') => (Raise e, s')
  | (Ok _, s') => _send_eom s'
  end.

(** ** Lemmas: text *)

Definition is_ascii7 (c : ascii) : bool := nat_of_ascii c <? 128.

Lemma utf8_ascii s : Forall is_ascii7 s → utf8_valid s = true.
Proof.
  unfold utf8_valid. induction 1 as [|c s Hc _ IH]; [done|]. cbn -[Nat.ltb].
  apply Is_true_true in Hc. unfold is_ascii7 in Hc. by rewrite Hc.
Qed.

Lemma utf8_go_app need lo hi a b : utf8_go need lo hi a = true → utf8_go need lo hi (a ++ b) = utf8_valid b.
Proof.
  revert need lo hi. induction a as [|c a IH]; intros need lo hi; cbn [app utf8_go].
  - intros ->%Nat.eqb_eq. unfold utf8_valid. by destruct b.
  - destruct need; [|rewrite !andb_true_iff; intros [[-> ->] Ha]; by apply IH].
    repeat match goal with |- context [if ?x then _ else _] => destruct x end; try done; apply IH.
Qed.

Lemma utf8_app a b : utf8_valid a = true → utf8_valid b = true → utf8_valid (a ++ b) = true.
Proof. intros Ha Hb. unfold utf8_valid in *. rewrite utf8_go_app by done. exact Hb. Qed.

Lemma is_lead_ascii c : is_ascii7 c → is_lead c = true.
Proof.
  unfold is_ascii7, is_lead. intros Hc%Is_true_true%Nat.ltb_lt.
  destruct (Nat.leb_spec 128 (nat_of_ascii c)); [lia|done].
Qed.

Lemma str_len_ascii s : Forall is_ascii7 s → str_len s = length s.
Proof.
  unfold str_len. induction 1 as [|c s Hc _ IH]; [done|]. cbn.
  rewrite (is_lead_ascii _ Hc). cbn. by rewrite IH.
Qed.

Lemma str_split_at_app n s : (str_split_at n s).1 ++ (str_split_at n s).2 = s.
Proof.
  revert n; induction s as [|c s IH]; intros n; [done|]. cbn.
  destruct (is_lead c); [destruct n as [|k]; [done|]|].
  - specialize (IH k). destruct (str_split_at k s). cbn in *. by rewrite IH.
  - specialize (IH n). destruct (str_split_at n s). cbn in *. by rewrite IH.
Qed.

Lemma str_data_ascii s : Forall is_ascii7 s → str_data (BBytes s) = Ok s.
Proof. intros. cbn. by rewrite utf8_ascii. Qed.

(** ** Lemmas: the receive loops *)

Lemma _recv_shorter tmo inc : length (_recv tmo inc).2 < length inc ∨ inc = [].
Proof.
  induction inc as [|[x|] inc IH]; [by right|left; cbn; lia|]. left. cbn [_recv].
  destruct tmo; [cbn; lia|]. destruct IH as [IH|IH]; [cbn [length]; lia|by subst; cbn; lia].
Qed.

(** More fuel than there are events does not matter. *)
Lemma fill_go_fuel k k' tmo n bytes inc :
  length inc < k → length inc < k' → fill_go k tmo n bytes inc = fill_go k' tmo n bytes inc.
Proof.
  revert k' bytes inc. induction k as [|k IH]; intros [|k'] bytes inc Hk Hk'; try lia. cbn [fill_go].
  destruct (_ <=? _)%Z; [done|]. pose proof (_recv_shorter tmo inc) as Hs.
  destruct (_recv tmo inc) as [[x|e] inc'] eqn:Hr; [|done]. case_decide; [done|].
  cbn [snd] in Hs. destruct Hs as [Hs|Hs]; [apply IH; lia|]. subst inc. by injection Hr as <-.
Qed.

Lemma read_size_go_fuel k k' tmo bytes inc :
  length inc < k → length inc < k' → read_size_go k tmo bytes inc = read_size_go k' tmo bytes inc.
Proof.
  revert k' bytes inc. induction k as [|k IH]; intros [|k'] bytes inc Hk Hk'; try lia. cbn [read_size_go].
  destruct (find _ _); [done|]. pose proof (_recv_shorter tmo inc) as Hs.
  destruct (_recv tmo inc) as [[x|e] inc'] eqn:Hr; [|done]. case_decide; [done|].
  cbn [snd] in Hs. destruct Hs as [Hs|Hs]; [apply IH; lia|]. subst inc. by injection Hr as <-.
Qed.

(** The loops, one event at a time. *)
Lemma fill_eq tmo n bytes inc :
  fill tmo n bytes inc =
    if (n <=? Z.of_nat (length bytes))%Z then (Ok (true, bytes), inc)
    else match inc with
         | [] => (Ok (false, bytes), [])
         | Data x :: inc' => if decide (x = []) then (Ok (false, bytes), inc') else fill tmo n (bytes ++ x) inc'
         | Quiet :: inc' => match tmo with None => fill tmo n bytes inc' | Some _ => (Raise SocketTimeout, inc') end
         end.
Proof.
  unfold fill at 1. cbn [fill_go]. destruct (_ <=? _)%Z eqn:Hn; [done|]. destruct inc as [|[x|] inc]; [done| |].
  - cbn [_recv]. case_decide; [done|]. apply fill_go_fuel; cbn [length]; lia.
  - cbn [_recv]. destruct tmo; [done|]. unfold fill. cbn [fill_go]. rewrite Hn.
    pose proof (_recv_shorter None inc) as Hs. destruct (_recv None inc) as [[x|e] inc'] eqn:Hr; [|done].
    case_decide; [done|]. cbn [snd] in Hs. destruct Hs as [Hs|Hs]; [apply fill_go_fuel; cbn [length]; lia|].
    subst inc. by injection Hr as <-.
Qed.

Lemma read_size_eq tmo bytes inc :
  read_size tmo bytes inc =
    match find (drop 2 bytes) nl with
    | Some i => (Ok (scan_size bytes (2 + i)), inc)
    | None =>
        match inc with
        | [] => (Ok (SizeEof bytes), [])
        | Data x :: inc' => if decide (x = []) then (Ok (SizeEof bytes), inc') else read_size tmo (bytes ++ x) inc'
        | Quiet :: inc' => match tmo with None => read_size tmo bytes inc' | Some _ => (Raise SocketTimeout, inc') end
        end
    end.
Proof.
  unfold read_size at 1. cbn [read_size_go]. destruct (find _ _) eqn:Hn; [done|]. destruct inc as [|[x|] inc]; [done| |].
  - cbn [_recv]. case_decide; [done|]. apply read_size_go_fuel; cbn [length]; lia.
  - cbn [_recv]. destruct tmo; [done|]. unfold read_size. cbn [read_size_go]. rewrite Hn.
    pose proof (_recv_shorter None inc) as Hs. destruct (_recv None inc) as [[x|e] inc'] eqn:Hr; [|done].
    case_decide; [done|]. cbn [snd] in Hs. destruct Hs as [Hs|Hs]; [apply read_size_go_fuel; cbn [length]; lia|].
    subst inc. by injection Hr as <-.
Qed.

(** Events without an end of stream; a quiet socket only without a timeout. *)
Definition live (tmo : option Z) (inc : list recv_event) : Prop :=
  Forall (λ ev, match ev with Data s => s ≠ [] | Quiet => tmo = None end) inc.

(** Events without an end of stream. *)
Definition sound (inc : list recv_event) : Prop := Data [] ∉ inc.

(** A quiet socket, with a timeout. *)
Definition late (tmo : option Z) (inc : list recv_event) : Prop := tmo ≠ None ∧ Quiet ∈ inc.

Lemma live_sound tmo inc : live tmo inc ↔ sound inc ∧ ¬ late tmo inc.
Proof.
  unfold live, sound, late. rewrite Forall_forall. split.
  - intros Hl. split; [by intros Hin%Hl|]. intros [Ht Hq%Hl]. done.
  - intros [Hs Hq] [x|] Hin; [by intros ->|]. destruct tmo; [|done]. destruct Hq. by split.
Qed.

Lemma sound_suffix inc' inc : inc' `suffix_of` inc → sound inc → sound inc'.
Proof. intros [p ->] Hs Hin. apply Hs, elem_of_app. by right. Qed.

Lemma late_suffix tmo inc' inc : inc' `suffix_of` inc → late tmo inc' → late tmo inc.
Proof. intros [p ->] [Ht Hq]. split; [done|]. apply elem_of_app. by right. Qed.

Lemma live_suffix tmo inc' inc : inc' `suffix_of` inc → live tmo inc → live tmo inc'.
Proof.
  intros Hs. rewrite !live_sound. intros [H1 H2]. split; [by eapply sound_suffix|]. intros H3. apply H2. by eapply late_suffix.
Qed.

Lemma inc_data_cons ev inc : inc_data (ev :: inc) = ev_data ev ++ inc_data inc.
Proof. done. Qed.

(** The loop ends with enough bytes, or in a timeout. *)
Lemma fill_outcome tmo n bytes inc :
  sound inc → (n ≤ Z.of_nat (length (bytes ++ inc_data inc)))%Z →
  (∃ bytes' inc', fill tmo n bytes inc = (Ok (true, bytes'), inc') ∧ inc' `suffix_of` inc ∧
    (n ≤ Z.of_nat (length bytes'))%Z ∧ bytes' ++ inc_data inc' = bytes ++ inc_data inc) ∨
  (∃ inc', fill tmo n bytes inc = (Raise SocketTimeout, inc') ∧ late tmo inc).
Proof.
  revert bytes. induction inc as [|ev inc IH]; intros bytes Hl Hn; rewrite fill_eq;
    destruct (Z.leb_spec n (Z.of_nat (length bytes))) as [Hle|Hgt].
  1,3: left; by eexists _, _.
  - rewrite app_nil_r in Hn. lia.
  - assert (inc `suffix_of` ev :: inc) as Hsuf by (by exists [ev]).
    specialize (λ bytes, IH bytes (sound_suffix _ _ Hsuf Hl)).
    rewrite inc_data_cons in *. destruct ev as [x|]; cbn [ev_data] in *.
    + rewrite decide_False by (intros ->; apply Hl; left). rewrite app_assoc in *.
      destruct (IH (bytes ++ x) Hn) as [(b' & i' & ? & ? & ? & ?)|(i' & ? & ?)].
      * left. exists b', i'. split_and!; [done|by etrans|done..].
      * right. exists i'. split; [done|by eapply late_suffix].
    + destruct tmo as [z|]; [right; exists inc; split; [done|split; [done|left]]|].
      destruct (IH bytes Hn) as [(b' & i' & ? & ? & ? & ?)|(i' & ? & ?)].
      * left. exists b', i'. split_and!; [done|by etrans|done..].
      * right. exists i'. split; [done|by eapply late_suffix].
Qed.

(** Whatever happens, the loops do not invent bytes. *)
Lemma fill_data tmo n bytes inc :
  match fill tmo n bytes inc with
  | (Ok (_, bytes'), inc') => bytes' ++ inc_data inc' = bytes ++ inc_data inc
  | (Raise _, inc') => length (inc_data inc') ≤ length (inc_data inc)
  end.
Proof.
  revert bytes; induction inc as [|[x|] inc IH]; intros bytes; rewrite fill_eq;
    destruct (Z.leb_spec n (Z.of_nat (length bytes))); try done.
  - case_decide as Hx; [by subst|]. specialize (IH (bytes ++ x)).
    rewrite inc_data_cons. cbn [ev_data].
    destruct (fill tmo n (bytes ++ x) inc) as [[[b b']|e] i]; cbn in *.
    + by rewrite IH, app_assoc.
    + rewrite length_app. lia.
  - destruct tmo; [done|]. apply IH.
Qed.

Lemma fill_true_len tmo n bytes inc bytes' inc' :
  fill tmo n bytes inc = (Ok (true, bytes'), inc') → (n ≤ Z.of_nat (length bytes'))%Z.
Proof.
  revert bytes; induction inc as [|[x|] inc IH]; intros bytes; rewrite fill_eq;
    destruct (Z.leb_spec n (Z.of_nat (length bytes))); intros Heq; simplify_eq; try done.
  - case_decide; simplify_eq. eauto.
  - destruct tmo; simplify_eq. eauto.
Qed.

(** ** Lemmas: the 1.0 framing *)

(** The marker does not occur in the message, not even across its end. *)
Definition no_eom (msg : pystr) : Prop :=
  contains (msg ++ take 5 EOM_1_0) EOM_1_0 = false.

Lemma no_eom_first msg rest a b :
  no_eom msg → msg ++ EOM_1_0 ++ rest = a ++ EOM_1_0 ++ b → length msg ≤ length a.
Proof.
  intros Hno Heq. destruct (decide (length msg ≤ length a)) as [|Hlt]; [done|exfalso].
  assert (Hp : a ++ EOM_1_0 `prefix_of` msg ++ take 5 EOM_1_0).
  { apply (prefix_by_length _ _ (msg ++ EOM_1_0 ++ rest)).
    - exists b. by rewrite Heq, app_assoc.
    - exists (drop 5 EOM_1_0 ++ rest). by rewrite <-app_assoc, (app_assoc (take 5 _)), take_drop.
    - rewrite !length_app, length_take. change (length EOM_1_0) with 6. lia. }
  destruct Hp as [k Hk]. assert (contains (msg ++ take 5 EOM_1_0) EOM_1_0 = true) as Ht.
  { apply contains_true. exists a, k. by rewrite Hk, <-app_assoc. }
  unfold no_eom in Hno. congruence.
Qed.

(** The transport's unread bytes. *)
Definition stream (t : transport) : pystr := buf_bytes t ++ inc_data (incoming t).

(** What a receive call keeps of the transport. *)
Definition same_link (t t' : transport) : Prop :=
  framing t' = framing t ∧ timeout t' = timeout t ∧ incoming t' `suffix_of` incoming t.

(** A call that ran into a timeout. *)
Definition timed_out {A} (r : res A * transport) (t : transport) : Prop :=
  r.1 = Raise SocketTimeout ∧ late (timeout t) (incoming t).

Lemma chunk_1_0 t msg rest :
  eom_found t = false → sound (incoming t) →
  stream t = msg ++ EOM_1_0 ++ rest → no_eom msg →
  timed_out (recv_chunk_bytes_framing_1_0 t) t ∨
  ∃ c t', recv_chunk_bytes_framing_1_0 t = (Ok (1%Z, c), t') ∧ same_link t t' ∧
    ((c = msg ∧ eom_found t' = true ∧ stream t' = rest) ∨
     (∃ msg', msg = c ++ msg' ∧ c ≠ [] ∧ eom_found t' = false ∧ no_eom msg' ∧
        stream t' = msg' ++ EOM_1_0 ++ rest)).
Proof.
  intros Hf Hl Hs Hno. unfold recv_chunk_bytes_framing_1_0. rewrite Hf.
  destruct (fill_outcome (timeout t) 6 (buf_bytes t) (incoming t) Hl) as
    [(bytes & inc & -> & Hl' & Hlen & Hdata)|(inc & -> & Hlate)]; [|right|by left].
  { fold (stream t). rewrite Hs, !length_app. change (length EOM_1_0) with 6. lia. }
  fold (stream t) in Hdata. rewrite Hs in Hdata.
  destruct (find bytes EOM_1_0) as [idx|] eqn:Hfind.
  - apply find_Some in Hfind as (a & b & -> & <- & Hmin).
    assert (Hle : length msg ≤ length a).
    { apply (no_eom_first msg rest a (b ++ inc_data inc)); [done|].
      by rewrite <-Hdata, <-!app_assoc. }
    assert (Hge : length a ≤ length msg).
    { destruct (prefix_by_length (msg ++ EOM_1_0) (a ++ EOM_1_0 ++ b) (msg ++ EOM_1_0 ++ rest))
        as [k Hk].
      - exists rest. by rewrite <-app_assoc.
      - by exists (inc_data inc).
      - rewrite !length_app. lia.
      - apply (Hmin msg k). by rewrite Hk, <-app_assoc. }
    rewrite <-!app_assoc in Hdata. apply app_inj_1 in Hdata as [-> Hd]; [|lia].
    apply app_inv_head in Hd. eexists _, _. split_and!; [done..|]. left.
    rewrite take_app_exact. split_and!; [done..|]. unfold stream. cbn [leave buf_bytes incoming].
    change 6 with (length EOM_1_0). rewrite <-length_app, app_assoc, drop_app_exact. done.
  - assert (Hsmall : length bytes - 5 ≤ length msg).
    { destruct (decide (length bytes - 5 ≤ length msg)) as [|Hbig]; [done|exfalso].
      destruct (prefix_by_length (msg ++ EOM_1_0) bytes (msg ++ EOM_1_0 ++ rest)) as [k Hk].
      - exists rest. by rewrite <-app_assoc.
      - by exists (inc_data inc).
      - rewrite length_app. change (length EOM_1_0) with 6. lia.
      - rewrite find_None in Hfind. apply (Hfind msg k). by rewrite Hk, <-app_assoc. }
    set (n := length bytes - 5) in *.
    assert (Hn : take n msg = take n bytes).
    { apply (f_equal (take n)) in Hdata. rewrite !take_app_le in Hdata by (subst n; lia). done. }
    eexists _, _. split_and!; [done..|]. right. exists (drop n msg). split_and!.
    + by rewrite <-Hn, take_drop.
    + intros Hnil%(f_equal length). rewrite length_take in Hnil. cbn in Hnil. lia.
    + done.
    + unfold no_eom in *. rewrite <-(take_drop n msg), <-app_assoc in Hno.
      by apply contains_app_false in Hno.
    + unfold stream. cbn [leave buf_bytes incoming]. apply (f_equal (drop n)) in Hdata.
      rewrite !drop_app_le in Hdata by (subst n; lia). done.
Qed.

(** ** Lemmas: the 1.1 framing *)

Lemma find_nl_app field tail :
  "010"%char ∉ field → find (field ++ nl ++ tail) nl = Some (length field).
Proof.
  intros Hni. induction field as [|c field IH]; [done|].
  apply not_elem_of_cons in Hni as [Hc Hni]. cbn -[nl]. cbn [startswith nl].
  rewrite decide_False by auto. by rewrite IH.
Qed.

Lemma find_nl_None s : "010"%char ∉ s → find s nl = None.
Proof.
  intros Hni. apply find_None. intros a b ->. apply Hni. unfold nl. set_solver.
Qed.

Lemma read_size_spec tmo bytes inc field tail :
  sound inc → 2 ≤ length bytes → "010"%char ∉ field →
  bytes ++ inc_data inc = nl ++ py"#" ++ field ++ nl ++ tail →
  (∃ bytes' inc', read_size tmo bytes inc = (Ok (scan_size bytes' (2 + length field)), inc') ∧
    inc' `suffix_of` inc ∧ bytes' ++ inc_data inc' = nl ++ py"#" ++ field ++ nl ++ tail ∧
    3 + length field ≤ length bytes') ∨
  (∃ inc', read_size tmo bytes inc = (Raise SocketTimeout, inc') ∧ late tmo inc).
Proof.
  revert bytes. induction inc as [|ev inc IH]; intros bytes Hl H2 Hni Hs; rewrite read_size_eq.
  - rewrite app_nil_r in Hs. subst bytes. left. exists (nl ++ py"#" ++ field ++ nl ++ tail), [].
    assert (Hd : ∀ x, drop 2 (nl ++ py"#" ++ x) = x) by done.
    rewrite Hd, find_nl_app by done.
    split_and!; [done | done | by rewrite app_nil_r | ].
    rewrite !length_app. cbn [length nl]. change (length (py"#")) with 1. lia.
  - destruct (decide (3 + length field ≤ length bytes)) as [Hge|Hlt].
    + destruct (prefix_by_length (nl ++ py"#" ++ field ++ nl) bytes
        (nl ++ py"#" ++ field ++ nl ++ tail)) as [k Hk].
      { exists tail. by rewrite <-!app_assoc. }
      { by exists (inc_data (ev :: inc)). }
      { rewrite !length_app. cbn [length nl]. change (length (py"#")) with 1. lia. }
      assert (Hf : find (drop 2 bytes) nl = Some (length field)).
      { rewrite Hk. rewrite <-!app_assoc. change (drop 2 (nl ++ py"#" ++ field ++ nl ++ k))
          with (field ++ nl ++ k). by apply find_nl_app. }
      rewrite Hf. left. exists bytes, (ev :: inc). split_and!; done.
    + assert (Hf : find (drop 2 bytes) nl = None).
      { apply find_nl_None. apply (f_equal (take (length bytes))) in Hs.
        rewrite take_app_exact in Hs. rewrite Hs.
        change (nl ++ py"#" ++ field ++ nl ++ tail) with
          ("010"%char :: "#"%char :: field ++ nl ++ tail).
        destruct (length bytes) as [|[|n]]; [lia..|]. cbn [take drop]. rewrite drop_0.
        rewrite take_app_le by lia. intros Hin%(subseteq_take). done. }
      rewrite Hf. rewrite inc_data_cons in Hs.
      assert (inc `suffix_of` ev :: inc) as Hsuf by (by exists [ev]).
      assert (∀ bytes', 2 ≤ length bytes' → bytes' ++ inc_data inc = nl ++ py"#" ++ field ++ nl ++ tail →
        (∃ b i, read_size tmo bytes' inc = (Ok (scan_size b (2 + length field)), i) ∧ i `suffix_of` ev :: inc ∧
          b ++ inc_data i = nl ++ py"#" ++ field ++ nl ++ tail ∧ 3 + length field ≤ length b) ∨
        (∃ i, read_size tmo bytes' inc = (Raise SocketTimeout, i) ∧ late tmo (ev :: inc))) as IH'.
      { intros bytes' H2' Hs'. destruct (IH bytes' (sound_suffix _ _ Hsuf Hl) H2' Hni Hs') as [(b & i & ? & ? & ? & ?)|(i & ? & ?)].
        - left. exists b, i. split_and!; [done|by etrans|done..].
        - right. exists i. split; [done|by eapply late_suffix]. }
      destruct ev as [x|]; cbn [ev_data] in *.
      * rewrite decide_False by (intros ->; apply Hl; left). rewrite app_assoc in Hs.
        apply IH'; [rewrite length_app; lia | done].
      * destruct tmo; [right; eexists; split; [done|split; [done|left]]|]. by apply IH'.
Qed.

Lemma take2_header bytes k field :
  4 ≤ length bytes → bytes ++ k = nl ++ py"#" ++ field → take 2 bytes = nl ++ py"#".
Proof.
  intros Hlen Hs. apply (f_equal (take 2)) in Hs.
  rewrite take_app_le in Hs by lia. by rewrite Hs.
Qed.

(** The header of a chunk or of an end marker, up to the decision on its field. *)
Lemma header_1_1 t field tail :
  sound (incoming t) → "010"%char ∉ field → field ≠ [] →
  stream t = nl ++ py"#" ++ field ++ nl ++ tail →
  timed_out (recv_chunk_bytes_framing_1_1 t) t ∨
  ∃ bytes1 inc1 bytes inc,
    fill (timeout t) 4 (buf_bytes t) (incoming t) = (Ok (true, bytes1), inc1) ∧
    take 2 bytes1 = nl ++ py"#" ∧
    read_size (timeout t) bytes1 inc1 = (Ok (scan_size bytes (2 + length field)), inc) ∧
    inc `suffix_of` incoming t ∧ take (length field) (drop 2 bytes) = field ∧
    drop (2 + length field + 1) bytes ++ inc_data inc = tail.
Proof.
  intros Hl Hni Hne Hs.
  destruct (fill_outcome (timeout t) 4 (buf_bytes t) (incoming t) Hl) as
    [(bytes1 & inc1 & Hfill & Hl1 & Hlen & Hdata)|(inc & Hfill & Hlate)].
  { fold (stream t). rewrite Hs, !length_app. cbn [length nl].
    change (length (py"#")) with 1. destruct field; [done|]. cbn. lia. }
  2:{ left. unfold recv_chunk_bytes_framing_1_1. by rewrite Hfill. }
  fold (stream t) in Hdata. rewrite Hs in Hdata.
  assert (take 2 bytes1 = nl ++ py"#") as H2 by (eapply take2_header; [lia|done]).
  destruct (read_size_spec (timeout t) bytes1 inc1 field tail) as
    [(bytes & inc & Hread & Hl2 & Hdata2 & Hlen2)|(inc & Hread & Hlate)];
    [by eapply sound_suffix | lia | done | done | |].
  2:{ left. unfold recv_chunk_bytes_framing_1_1. rewrite Hfill, decide_True, Hread by done.
      split; [done|by eapply late_suffix]. }
  right. exists bytes1, inc1, bytes, inc. split_and!; [done | done | done | by etrans | |].
  - apply (f_equal (λ l, take (length field) (drop 2 l))) in Hdata2.
    rewrite drop_app_le, take_app_le in Hdata2 by (rewrite ?length_drop; lia).
    rewrite Hdata2. change (drop 2 (nl ++ py"#" ++ field ++ nl ++ tail))
      with (field ++ nl ++ tail). apply take_app_exact.
  - apply (f_equal (drop (2 + length field + 1))) in Hdata2.
    rewrite drop_app_le in Hdata2 by lia. rewrite Hdata2.
    change (nl ++ py"#" ++ field ++ nl ++ tail) with
      ((nl ++ py"#") ++ field ++ nl ++ tail).
    rewrite !app_assoc, <-(app_assoc _ field nl).
    replace (2 + length field + 1) with (length ((nl ++ py"#") ++ field ++ nl)).
    + apply drop_app_exact.
    + rewrite !length_app. change (length (py"#")) with 1. cbn. lia.
Qed.

Lemma chunk_1_1 t c tail :
  sound (incoming t) → c ≠ [] → (Z.of_nat (length c) ≤ MAX_UINT32)%Z →
  stream t = chunk (length c) c ++ tail →
  timed_out (recv_chunk_bytes_framing_1_1 t) t ∨
  ∃ t', recv_chunk_bytes_framing_1_1 t = (Ok (1%Z, c), t') ∧ same_link t t' ∧ eom_found t' = eom_found t ∧ stream t' = tail.
Proof.
  intros Hl Hne Hmax Hs. unfold chunk in Hs. rewrite <-!app_assoc in Hs.
  destruct (header_1_1 t (str_nat (length c)) (c ++ tail)) as
    [?|(bytes1 & inc1 & bytes & inc & Hfill & H2 & Hread & Hl2 & Hfield & Hrest)].
  { done. } { by apply str_nat_not_elem. } { apply str_nat_nonnil. } { done. } { by left. }
  unfold recv_chunk_bytes_framing_1_1. rewrite Hfill, decide_True by done. rewrite Hread.
  assert (Hlen : length (str_nat (length c)) ≤ 10).
  { apply str_nat_length; [lia|]. unfold MAX_UINT32 in Hmax. cbn in *. lia. }
  unfold scan_size. replace (12 <? 2 + length (str_nat (length c))) with false
    by (symmetry; apply Nat.ltb_ge; lia).
  replace (2 + length (str_nat (length c)) - 2) with (length (str_nat (length c))) by lia.
  rewrite Hfield, py_int_str_nat.
  assert (Hpos : 0 < length c) by (destruct c; [done | cbn; lia]).
  replace ((Z.of_nat (length c) <? 1)%Z || (MAX_UINT32 <? Z.of_nat (length c))%Z) with false.
  2:{ symmetry. apply orb_false_intro; [apply Z.ltb_ge | apply Z.ltb_ge]; lia. }
  destruct (fill_outcome (timeout t) (Z.of_nat (length c))
    (drop (2 + length (str_nat (length c)) + 1) bytes) inc) as
    [(bytes3 & inc3 & -> & Hl3 & Hlen3 & Hdata3)|(inc3 & -> & Hlate)].
  { by eapply sound_suffix. } { rewrite Hrest, length_app. lia. }
  2:{ left. split; [done|by eapply late_suffix]. }
  right. rewrite Hrest in Hdata3. rewrite Nat2Z.id.
  assert (Hc : take (length c) bytes3 = c).
  { apply (f_equal (take (length c))) in Hdata3.
    by rewrite take_app_exact, take_app_le in Hdata3 by lia. }
  rewrite Hc. eexists. split; [reflexivity|]. split; [split_and!; [done|done|by etrans]|]. split; [done|].
  unfold stream. cbn [leave buf_bytes incoming]. apply (f_equal (drop (length c))) in Hdata3.
  by rewrite drop_app_exact, drop_app_le in Hdata3 by lia.
Qed.

Lemma eom_1_1 t tail :
  sound (incoming t) → stream t = EOM_1_1 ++ tail →
  timed_out (recv_chunk_bytes_framing_1_1 t) t ∨
  ∃ t', recv_chunk_bytes_framing_1_1 t = (Ok (0%Z, []), t') ∧ same_link t t' ∧ eom_found t' = eom_found t ∧ stream t' = tail.
Proof.
  intros Hl Hs. destruct (header_1_1 t (py"#") tail) as
    [?|(bytes1 & inc1 & bytes & inc & Hfill & H2 & Hread & Hl2 & Hfield & Hrest)];
    [done | vm_decide | done | done | by left |]. right.
  unfold recv_chunk_bytes_framing_1_1. rewrite Hfill, decide_True by done. rewrite Hread.
  unfold scan_size. change (2 + length (py"#")) with 3 in *. change (length (py"#")) with 1 in *.
  change (12 <? 3) with false. change (3 - 2) with 1. rewrite Hfield.
  change (py_int (py"#")) with (@None Z). rewrite decide_True by done.
  eexists. split_and!; [done | split_and!; done | done | done].
Qed.

(** ** Lemmas: whole messages *)

(** The chunks of a message, as successive calls of [recv_chunk] return them. *)
Inductive receives (tmo : option Z) : transport → list pystr → transport → Prop :=
  | receives_end t t' : recv_chunk tmo t = (Ok (0%Z, []), t') → receives tmo t [] t'
  | receives_chunk t c t1 cs t' :
      recv_chunk tmo t = (Ok (1%Z, c), t1) → receives tmo t1 cs t' → receives tmo t (c :: cs) t'.

Lemma recv_msg_go_receives tmo t cs t' fuel acc :
  receives tmo t cs t' → length cs < fuel → recv_msg_go fuel tmo acc t = (Ok (acc ++ concat cs), t').
Proof.
  intros Hr. revert fuel acc. induction Hr as [t t' Hc | t c t1 cs t' Hc _ IH]; intros [|f] acc Hf;
    cbn in Hf; try lia; cbn [recv_msg_go]; rewrite Hc.
  - rewrite decide_False, decide_True by done. by rewrite app_nil_r.
  - rewrite decide_True by done. rewrite IH by lia. cbn. by rewrite app_assoc.
Qed.

(** The same for any end: the chunks, and the exception that ended the calls, if any. *)
Inductive reads (tmo : option Z) : transport → list pystr → res unit → transport → Prop :=
  | reads_end t t' : recv_chunk tmo t = (Ok (0%Z, []), t') → reads tmo t [] (Ok tt) t'
  | reads_raise t e t' : recv_chunk tmo t = (Raise e, t') → reads tmo t [] (Raise e) t'
  | reads_chunk t c t1 cs r t' :
      recv_chunk tmo t = (Ok (1%Z, c), t1) → reads tmo t1 cs r t' → reads tmo t (c :: cs) r t'.

Lemma reads_receives tmo t cs t' : reads tmo t cs (Ok tt) t' → receives tmo t cs t'.
Proof.
  remember (Ok tt) as r eqn:Hr. induction 1; simplify_eq; [by apply receives_end|].
  eapply receives_chunk; [done|by apply IHreads].
Qed.

Lemma recv_msg_go_reads tmo t cs r t' fuel acc :
  reads tmo t cs r t' → length cs < fuel →
  recv_msg_go fuel tmo acc t = (match r with Ok _ => Ok (acc ++ concat cs) | Raise e => Raise e end, t').
Proof.
  intros Hr. revert fuel acc. induction Hr as [t t' Hc | t e t' Hc | t c t1 cs r t' Hc _ IH]; intros [|f] acc Hf;
    cbn in Hf; try lia; cbn [recv_msg_go]; rewrite Hc; [|done|].
  - rewrite decide_False, decide_True by done. by rewrite app_nil_r.
  - rewrite decide_True by done. rewrite IH by lia. cbn. by rewrite app_assoc.
Qed.

(** What [recv_chunk] makes of a call on the bytes. *)
Lemma recv_chunk_1_0 tmo t :
  framing t = FRAMING_1_0 →
  recv_chunk tmo t =
    match recv_chunk_bytes_framing_1_0 (set_timeout tmo t) with
    | (Ok (flag, bytes), t') => (if utf8_valid bytes then Ok (flag, bytes) else Raise UnicodeDecodeError, t')
    | (Raise e, t') => (Raise e, t')
    end.
Proof.
  intros Hf. unfold recv_chunk, recv_chunk_bytes. rewrite decide_True by done.
  destruct (recv_chunk_bytes_framing_1_0 _) as [[[flag b]|e] t']; [|done]. cbn. by destruct (utf8_valid b).
Qed.

Lemma recv_chunk_1_1 tmo t :
  framing t = FRAMING_1_1 →
  recv_chunk tmo t =
    match recv_chunk_bytes_framing_1_1 (set_timeout tmo t) with
    | (Ok (flag, bytes), t') => (if utf8_valid bytes then Ok (flag, bytes) else Raise UnicodeDecodeError, t')
    | (Raise e, t') => (Raise e, t')
    end.
Proof.
  intros Hf. unfold recv_chunk, recv_chunk_bytes. rewrite decide_False, decide_True by (cbn; by rewrite ?Hf).
  destruct (recv_chunk_bytes_framing_1_1 _) as [[[flag b]|e] t']; [|done]. cbn. by destruct (utf8_valid b).
Qed.

(** A message of the 1.0 framing: the chunks, or why it cannot be read. *)
Lemma reads_1_0 tmo t msg rest :
  framing t = FRAMING_1_0 → eom_found t = false → sound (incoming t) →
  stream t = msg ++ EOM_1_0 ++ rest → no_eom msg →
  ∃ cs r t', reads tmo t cs r t' ∧ length cs ≤ 1 + length msg ∧
    match r with
    | Ok _ => concat cs = msg ∧ utf8_valid msg = true ∧ framing t' = FRAMING_1_0 ∧ eom_found t' = false ∧
        incoming t' `suffix_of` incoming t ∧ stream t' = rest
    | Raise e => (e = UnicodeDecodeError ∧ ¬ Forall is_ascii7 msg) ∨ (e = SocketTimeout ∧ late tmo (incoming t))
    end.
Proof.
  remember (length msg) as n eqn:Hn. revert t msg Hn. induction (lt_wf n) as [n _ IH].
  intros t msg Hn Hfr Heom Hl Hs Hno. pose proof (recv_chunk_1_0 tmo t Hfr) as Hrc.
  destruct (chunk_1_0 (set_timeout tmo t) msg rest) as
    [[Hto Hlate]|(c & t1 & Hc & (Hfr1 & Ht1 & Hl1) & Hcase)]; [done..| |].
  { destruct (recv_chunk_bytes_framing_1_0 _) as [r t']. cbn in Hto. subst r.
    exists [], (Raise SocketTimeout), t'. split; [by apply reads_raise|]. split; [cbn; lia|]. by right. }
  cbn [set_timeout framing timeout incoming] in Hfr1, Ht1, Hl1. rewrite Hc in Hrc.
  destruct (utf8_valid c) eqn:Hu.
  2:{ exists [], (Raise UnicodeDecodeError), t1. split; [by apply reads_raise|]. split; [cbn; lia|]. left. split; [done|].
      intros Ha. rewrite utf8_ascii in Hu; [done|].
      destruct Hcase as [(-> & _)|(msg' & -> & _)]; [done|by apply Forall_app in Ha as [? _]]. }
  destruct Hcase as [(-> & Heom1 & Hs1) | (msg' & -> & Hne & Heom1 & Hno1 & Hs1)].
  - exists [msg], (Ok tt), (leave (set_timeout tmo t1) (buf_bytes t1) false (incoming t1)). split_and!.
    + eapply reads_chunk; [done|]. apply reads_end. rewrite recv_chunk_1_0 by congruence.
      unfold recv_chunk_bytes_framing_1_0. cbn [set_timeout eom_found buf_bytes incoming]. by rewrite Heom1.
    + cbn. lia.
    + cbn. by rewrite app_nil_r.
    + done.
    + cbn. congruence.
    + done.
    + done.
    + done.
  - rewrite length_app in Hn. assert (0 < length c) by (destruct c; [done|cbn; lia]).
    destruct (IH (length msg') ltac:(lia) t1 msg') as (cs & r & t' & Hr & Hlen & Hres);
      [done | congruence | done | by eapply sound_suffix | done.. |].
    exists (c :: cs), r, t'. split; [by eapply reads_chunk|]. split; [cbn; lia|]. destruct r as [[]|e].
    + destruct Hres as (Hcc & Hv & ? & ? & Hsuf & ?). split_and!; try done; [cbn; by rewrite Hcc|by apply utf8_app|by etrans].
    + destruct Hres as [[-> Ha]|[-> Hlate]]; [left|right]; (split; [done|]).
      * intros Ha'. apply Ha. by apply Forall_app in Ha' as [_ ?].
      * by eapply late_suffix.
Qed.

Lemma receives_1_0 tmo t msg rest :
  framing t = FRAMING_1_0 → eom_found t = false → live tmo (incoming t) →
  stream t = msg ++ EOM_1_0 ++ rest → no_eom msg → Forall is_ascii7 msg →
  ∃ cs t', receives tmo t cs t' ∧ concat cs = msg ∧ length cs ≤ 1 + length msg ∧
    framing t' = FRAMING_1_0 ∧ eom_found t' = false ∧ live tmo (incoming t') ∧ stream t' = rest.
Proof.
  intros Hfr He Hl Hs Hno Ha. pose proof (proj1 (live_sound _ _) Hl) as [Hso Hla].
  destruct (reads_1_0 tmo t msg rest) as (cs & [[]|e] & t' & Hr & Hlen & Hres); [done..| |].
  - destruct Hres as (? & _ & ? & ? & ? & ?). exists cs, t'. split_and!; try done; [by apply reads_receives|by eapply live_suffix].
  - by destruct Hres as [[_ ?]|[_ ?]].
Qed.

(** The bytes of a message sent as these chunks. *)
Definition chunks_1_1 (cs : list pystr) : pystr := concat ((λ c, chunk (length c) c) <$> cs).

(** A chunk of a size the framing can express, and one of ASCII text. *)
Definition chunk_sized (c : pystr) : Prop := c ≠ [] ∧ (Z.of_nat (length c) ≤ MAX_UINT32)%Z.
Definition chunk_ok (c : pystr) : Prop :=
  c ≠ [] ∧ (Z.of_nat (length c) ≤ MAX_UINT32)%Z ∧ Forall is_ascii7 c.

(** A message of the 1.1 framing: its chunks, or why it cannot be read. *)
Lemma reads_1_1 cs tmo t rest :
  framing t = FRAMING_1_1 → sound (incoming t) → Forall chunk_sized cs →
  stream t = chunks_1_1 cs ++ EOM_1_1 ++ rest →
  ∃ cs' r t', reads tmo t cs' r t' ∧ length cs' ≤ length cs ∧
    match r with
    | Ok _ => cs' = cs ∧ Forall (λ c, utf8_valid c = true) cs ∧ framing t' = FRAMING_1_1 ∧ eom_found t' = eom_found t ∧
        incoming t' `suffix_of` incoming t ∧ stream t' = rest
    | Raise e => (e = UnicodeDecodeError ∧ ¬ Forall (λ c, utf8_valid c = true) cs) ∨ (e = SocketTimeout ∧ late tmo (incoming t))
    end.
Proof.
  revert t; induction cs as [|c cs IH]; intros t Hfr Hl Hok Hs; pose proof (recv_chunk_1_1 tmo t Hfr) as Hrc.
  - destruct (eom_1_1 (set_timeout tmo t) rest) as [[Hto Hlate]|(t' & Hc & (H1 & H2 & H3) & H4 & Hs')]; [done..| |].
    + destruct (recv_chunk_bytes_framing_1_1 _) as [r t']. cbn in Hto. subst r.
      exists [], (Raise SocketTimeout), t'. split; [by apply reads_raise|]. split; [done|]. by right.
    + rewrite Hc in Hrc. exists [], (Ok tt), t'. split; [by apply reads_end|]. split; [done|].
      cbn [set_timeout framing eom_found incoming] in *. split_and!; [done|constructor|congruence|done|done|done].
  - apply Forall_cons in Hok as [(Hne & Hmax) Hok].
    unfold chunks_1_1 in Hs. cbn [fmap list_fmap concat] in Hs. rewrite <-app_assoc in Hs.
    destruct (chunk_1_1 (set_timeout tmo t) c (chunks_1_1 cs ++ EOM_1_1 ++ rest)) as
      [[Hto Hlate]|(t1 & Hc & (H1 & H2 & H3) & H4 & Hs')]; [done..| |].
    { destruct (recv_chunk_bytes_framing_1_1 _) as [r t']. cbn in Hto. subst r.
      exists [], (Raise SocketTimeout), t'. split; [by apply reads_raise|]. split; [cbn; lia|]. by right. }
    cbn [set_timeout framing eom_found incoming] in *. rewrite Hc in Hrc. destruct (utf8_valid c) eqn:Hu.
    2:{ exists [], (Raise UnicodeDecodeError), t1. split; [by apply reads_raise|]. split; [cbn; lia|]. left. split; [done|].
        intros [Hv _]%Forall_cons. congruence. }
    destruct (IH t1) as (cs' & r & t' & Hr & Hlen & Hres); [congruence | by eapply sound_suffix | done.. |].
    exists (c :: cs'), r, t'. split; [by eapply reads_chunk|]. split; [cbn; lia|]. destruct r as [[]|e].
    + destruct Hres as (-> & Hv & ? & ? & Hsuf & ?). split_and!; try done; [by constructor|congruence|by etrans].
    + destruct Hres as [[-> Hv]|[-> Hlate]]; [left|right]; (split; [done|]).
      * intros [_ Hv']%Forall_cons. done.
      * by eapply late_suffix.
Qed.

Lemma receives_1_1 cs tmo t rest :
  framing t = FRAMING_1_1 → live tmo (incoming t) → Forall chunk_ok cs →
  stream t = chunks_1_1 cs ++ EOM_1_1 ++ rest →
  ∃ t', receives tmo t cs t' ∧ framing t' = FRAMING_1_1 ∧ eom_found t' = eom_found t ∧
    live tmo (incoming t') ∧ stream t' = rest.
Proof.
  intros Hfr Hl Hok Hs. pose proof (proj1 (live_sound _ _) Hl) as [Hso Hla].
  destruct (reads_1_1 cs tmo t rest) as (cs' & [[]|e] & t' & Hr & Hlen & Hres); [done|done| |done| |].
  - eapply Forall_impl; [exact Hok|]. by intros c (? & ? & _).
  - destruct Hres as (-> & _ & ? & ? & ? & ?). exists t'. split_and!; try done; [by apply reads_receives|by eapply live_suffix].
  - destruct Hres as [[_ Hv]|[_ ?]]; [|done]. destruct Hv. eapply Forall_impl; [exact Hok|].
    intros c (_ & _ & ?). by apply utf8_ascii.
Qed.

(** ** Lemmas: progress of the receiver *)

Lemma fill_no_fuel tmo n bytes inc e inc' :
  fill tmo n bytes inc = (Raise e, inc') → e = SocketTimeout.
Proof.
  revert bytes; induction inc as [|[x|] inc IH]; intros bytes; rewrite fill_eq;
    destruct (Z.leb_spec n (Z.of_nat (length bytes))); intros Heq; simplify_eq.
  - case_decide; simplify_eq. eauto.
  - destruct tmo; simplify_eq; eauto.
Qed.

Lemma scan_size_sized bytes i sz bytes' :
  scan_size bytes i = Sized sz bytes' → (1 ≤ sz)%Z ∧ length bytes' ≤ length bytes.
Proof.
  unfold scan_size. destruct (12 <? i); [done|].
  destruct (py_int _) as [z|]; [|by case_decide].
  destruct (Z.ltb_spec z 1); [done|]. destruct (MAX_UINT32 <? z)%Z; [done|].
  intros [= <- <-]. rewrite length_drop. lia.
Qed.

Lemma read_size_data tmo bytes inc :
  match read_size tmo bytes inc with
  | (Ok (Sized sz bytes'), inc') =>
      (1 ≤ sz)%Z ∧ length (bytes' ++ inc_data inc') ≤ length (bytes ++ inc_data inc)
  | (Ok _, _) => True
  | (Raise e, _) => e = SocketTimeout
  end.
Proof.
  revert bytes; induction inc as [|ev inc IH]; intros bytes; rewrite read_size_eq;
    destruct (find (drop 2 bytes) nl) as [i|]; try done.
  1,2: destruct (scan_size bytes (2 + i)) eqn:Hs; try done;
    apply scan_size_sized in Hs; rewrite !length_app; lia.
  rewrite inc_data_cons. destruct ev as [x|]; cbn [ev_data].
  - case_decide as Hx; [done|]. specialize (IH (bytes ++ x)). rewrite <-app_assoc in IH. exact IH.
  - destruct tmo; [done|]. apply IH.
Qed.

(** A chunk with data takes at least one byte from the stream. *)
Lemma recv_chunk_progress tmo t :
  match recv_chunk tmo t with
  | (Ok (code, _), t') => code = 1%Z → length (stream t') < length (stream t)
  | (Raise e, _) => e ≠ OutOfFuel
  end.
Proof.
  assert (Hb : match recv_chunk_bytes tmo t with
    | (Ok (code, _), t') => code = 1%Z → length (stream t') < length (stream t)
    | (Raise e, _) => e ≠ OutOfFuel end).
  { unfold recv_chunk_bytes. repeat case_decide; [| |done].
    - unfold recv_chunk_bytes_framing_1_0. cbn [set_timeout eom_found buf_bytes incoming timeout].
      destruct (eom_found t); [done|]. pose proof (fill_data tmo 6 (buf_bytes t) (incoming t)) as Hd.
      destruct (fill _ _ _ _) as [[[[] b]|e] inc] eqn:Hf.
      + apply fill_true_len in Hf. apply (f_equal length) in Hd. fold (stream t) in Hd.
        rewrite length_app in Hd.
        destruct (find b EOM_1_0); intros _; unfold stream at 1; cbn [leave buf_bytes incoming];
          rewrite length_app, length_drop; lia.
      + done.
      + by apply fill_no_fuel in Hf as ->.
    - unfold recv_chunk_bytes_framing_1_1. cbn [set_timeout eom_found buf_bytes incoming timeout].
      pose proof (fill_data tmo 4 (buf_bytes t) (incoming t)) as Hd.
      destruct (fill _ _ _ _) as [[[[] b]|e] inc] eqn:Hf;
        [|done|by apply fill_no_fuel in Hf as ->].
      case_decide; [|done]. fold (stream t) in Hd.
      pose proof (read_size_data tmo b inc) as Hr. rewrite Hd in Hr.
      destruct (read_size _ _ _) as [[[sz b2| | |]|e] inc2]; try done; [|by subst].
      destruct Hr as [Hsz Hlen]. pose proof (fill_data tmo sz b2 inc2) as Hd2.
      destruct (fill _ sz _ _) as [[[[] b3]|e] inc3] eqn:Hf2;
        [|done|by apply fill_no_fuel in Hf2 as ->].
      intros _. apply fill_true_len in Hf2. apply (f_equal length) in Hd2.
      unfold stream at 1; cbn [leave buf_bytes incoming].
      rewrite length_app, length_drop. rewrite !length_app in Hd2. rewrite length_app in Hlen. lia. }
  unfold recv_chunk. destruct (recv_chunk_bytes tmo t) as [[[code b]|e] t']; [|done].
  cbn [str_data]. by destruct (utf8_valid b).
Qed.

Lemma recv_msg_go_fuel fuel tmo acc t :
  length (stream t) < fuel → (recv_msg_go fuel tmo acc t).1 ≠ Raise OutOfFuel.
Proof.
  revert acc t; induction fuel as [|f IH]; intros acc t Hf; [lia|]. cbn [recv_msg_go].
  pose proof (recv_chunk_progress tmo t) as Hp.
  destruct (recv_chunk tmo t) as [[[code b]|e] t']; [|cbn; congruence].
  case_decide as Hc; [|by case_decide]. apply IH. specialize (Hp Hc). lia.
Qed.

(** ** Lemmas: the sender *)

(** Everything handed to the sender so far, sent or saved. *)
Definition accepted (s : sender) : pystr := concat (raw <$> sent s) ++ raw (saved s).

Definition is_str (b : pybuf) : bool := match b with BStr _ => true | _ => false end.

(** A sender in use: the channel is up and only text is saved. *)
Definition sender_ok (s : sender) : Prop := chan_up s = true ∧ is_str (saved s) = true.

Lemma accepted_sendall block b on_err s :
  chan_up s = true →
  accepted (sendall block b on_err s) = concat (raw <$> sent s) ++ raw block ++ raw b.
Proof.
  intros Hc. unfold accepted, sendall. rewrite Hc. cbn.
  rewrite fmap_app, concat_app. cbn. by rewrite app_nil_r, <-!app_assoc.
Qed.

Lemma _send_str text s :
  sender_ok s → ∃ s', _send (BStr text) s = (Ok tt, s') ∧ sender_ok s' ∧
    s_framing s' = s_framing s ∧ accepted s' = accepted s ++ text.
Proof.
  intros [Hc Hs]. destruct (saved s) as [sv|] eqn:Hsv; [|done].
  unfold _send. rewrite Hsv. cbn [raw buf_add].
  assert (Hb : (if decide (sv = []) then Ok (BStr text) else Ok (BStr (sv ++ text)))
    = Ok (BStr (sv ++ text))) by (case_decide; by subst).
  rewrite Hb. cbn [buf_len buf_split_at]. destruct (str_len (sv ++ text) <? BUFSIZ).
  - eexists. split_and!; [done | by split | done |].
    unfold accepted. cbn. by rewrite Hsv, <-app_assoc.
  - pose proof (str_split_at_app BUFSIZ (sv ++ text)) as Happ.
    destruct (str_split_at BUFSIZ (sv ++ text)) as [x y]. eexists. split_and!; [done | | |].
    + unfold sendall. rewrite Hc. by split.
    + unfold sendall. by rewrite Hc.
    + rewrite accepted_sendall by done. cbn [raw]. cbn in Happ. rewrite Happ.
      unfold accepted. by rewrite Hsv, <-app_assoc.
Qed.

Lemma _send_eom_str s :
  sender_ok s → ∃ s', _send_eom s = (Ok tt, s') ∧ sender_ok s' ∧
    s_framing s' = s_framing s ∧ saved s' = BStr [] ∧
    concat (raw <$> sent s') = accepted s ++ _get_eom (s_framing s).
Proof.
  intros [Hc Hs]. destruct (saved s) as [sv|] eqn:Hsv; [|done].
  unfold _send_eom, sendall. rewrite Hsv, Hc. cbn [buf_add]. eexists.
  split_and!; [done | by split | done | done |].
  cbn. rewrite fmap_app, concat_app. unfold accepted. rewrite Hsv. cbn.
  by rewrite app_nil_r, app_assoc.
Qed.

(** The bytes one [send] of a text contributes under a framing. *)
Definition framed (fr : Z) (text : pystr) : pystr :=
  if decide (fr = FRAMING_1_1) then chunk (str_len text) text else text.

(** Several [send] calls in a row. *)
Fixpoint send_all (texts : list pystr) (s : sender) : res unit * sender :=
  match texts with
  | [] => (Ok tt, s)
  | text :: texts' =>
      match send (BStr text) s with
      | (Raise e, s') => (Raise e, s')
      | (Ok _, s') => send_all texts' s'
      end
  end.

Lemma send_all_str texts s :
  sender_ok s → ∃ s', send_all texts s = (Ok tt, s') ∧ sender_ok s' ∧
    s_framing s' = s_framing s ∧
    accepted s' = accepted s ++ concat (framed (s_framing s) <$> texts).
Proof.
  revert s; induction texts as [|text texts IH]; intros s Hok; cbn [send_all].
  - exists s. split_and!; [done..|]. cbn. by rewrite app_nil_r.
  - assert (Hsend : send (BStr text) s = _send (BStr (framed (s_framing s) text)) s).
    { unfold send, framed. by case_decide. }
    rewrite Hsend. destruct (_send_str (framed (s_framing s) text) s Hok) as
      (s1 & -> & Hok1 & Hf1 & Ha1).
    destruct (IH s1 Hok1) as (s2 & -> & Hok2 & Hf2 & Ha2). exists s2.
    split_and!; [done | done | congruence |]. rewrite Ha2, Ha1, Hf1, <-app_assoc. done.
Qed.

Lemma framed_1_1 texts :
  Forall (Forall is_ascii7) texts →
  concat (framed FRAMING_1_1 <$> texts) = chunks_1_1 texts.
Proof.
  unfold chunks_1_1. intros Ha. f_equal. apply list_fmap_ext. intros i c Hi.
  unfold framed. rewrite decide_True by done. rewrite str_len_ascii; [done|].
  by eapply Forall_lookup_1 in Ha.
Qed.

Lemma framed_1_0 texts : concat (framed FRAMING_1_0 <$> texts) = concat texts.
Proof. f_equal. rewrite <-(list_fmap_id texts) at 2. by apply list_fmap_ext. Qed.

(** A sender that has sent nothing yet. *)
Definition new_sender (fr : Z) : sender :=
  {| saved := BStr []; s_framing := fr; chan_up := true; sent := [] |}.

(** The transport of a peer that has read nothing yet. *)
Definition new_transport (fr : Z) (inc : list recv_event) : transport :=
  {| buf_bytes := []; framing := fr; eom_found := false; timeout := None; incoming := inc |}.

Lemma length_chunks_1_1 cs : length cs ≤ length (chunks_1_1 cs).
Proof.
  unfold chunks_1_1. induction cs as [|c cs IH]; [done|].
  cbn [fmap list_fmap concat]. rewrite length_app. unfold chunk at 1. rewrite length_app.
  cbn [length nl]. lia.
Qed.

Lemma wire_eom s fr texts :
  s = new_sender fr → ∃ s', send_all texts s = (Ok tt, s') ∧
    ∃ s'', _send_eom s' = (Ok tt, s'') ∧
      concat (raw <$> sent s'') = concat (framed fr <$> texts) ++ _get_eom fr.
Proof.
  intros ->. destruct (send_all_str texts (new_sender fr)) as (s1 & H1 & Hok1 & Hf1 & Ha1); [done|].
  destruct (_send_eom_str s1 Hok1) as (s2 & H2 & _ & _ & _ & Hw).
  exists s1. split; [done|]. exists s2. split; [done|]. by rewrite Hw, Ha1, Hf1.
Qed.

(** ** Properties *)

(** C5: with the end-of-message framing, on a stream that is not closed before the
    marker, and for a message in which the marker does not occur: however the bytes are
    cut into socket reads and whether or not a part of them is already buffered,
    [recv_msg] returns the message up to the marker, which is then valid UTF-8, and
    exactly the bytes after the marker stay for the next call; or it raises a
    UnicodeDecodeError, only if some character is not ASCII (a read can cut it in two);
    or the timeout of the socket, only if one is set and the peer makes a pause. *)
Theorem recv_msg_1_0_correct (tmo : option Z) (t : transport) (msg rest : pystr) :
  framing t = FRAMING_1_0 → eom_found t = false → sound (incoming t) →
  stream t = msg ++ EOM_1_0 ++ rest → no_eom msg →
  match recv_msg tmo t with
  | (Ok text, t') => text = msg ∧ utf8_valid msg = true ∧ framing t' = FRAMING_1_0 ∧ eom_found t' = false ∧
      sound (incoming t') ∧ stream t' = rest
  | (Raise e, _) => (e = UnicodeDecodeError ∧ ¬ Forall is_ascii7 msg) ∨ (e = SocketTimeout ∧ late tmo (incoming t))
  end.
Proof.
  intros Hfr Heom Hl Hs Hno. unfold recv_msg. rewrite <-Nat.add_assoc, <-length_app. fold (stream t).
  destruct (reads_1_0 tmo t msg rest) as (cs & r & t' & Hr & Hlen & Hres); [done..|].
  rewrite (recv_msg_go_reads _ _ _ _ _ _ _ Hr) by (rewrite Hs, !length_app; lia). destruct r as [[]|e]; [|done].
  destruct Hres as (Hcc & ? & ? & ? & ? & ?). split_and!; try done. by eapply sound_suffix.
Qed.

(** C6: with the chunked framing, on a stream that is not closed before the end marker,
    and for every cutting of the stream into reads: [recv_msg] returns the
    concatenation of the chunks up to the end marker, and exactly the bytes after it
    stay, if every chunk is valid UTF-8; it raises a UnicodeDecodeError only if one is
    not, and the timeout of the socket only if one is set and the peer makes a pause;
    for chunks of a size the framing can express. *)
Theorem recv_msg_1_1_correct (tmo : option Z) (t : transport) (cs : list pystr) (rest : pystr) :
  framing t = FRAMING_1_1 → sound (incoming t) → Forall chunk_sized cs →
  stream t = chunks_1_1 cs ++ EOM_1_1 ++ rest →
  match recv_msg tmo t with
  | (Ok text, t') => text = concat cs ∧ Forall (λ c, utf8_valid c = true) cs ∧ framing t' = FRAMING_1_1 ∧
      eom_found t' = eom_found t ∧ sound (incoming t') ∧ stream t' = rest
  | (Raise e, _) =>
      (e = UnicodeDecodeError ∧ ¬ Forall (λ c, utf8_valid c = true) cs) ∨ (e = SocketTimeout ∧ late tmo (incoming t))
  end.
Proof.
  intros Hfr Hl Hok Hs. unfold recv_msg. rewrite <-Nat.add_assoc, <-length_app. fold (stream t).
  destruct (reads_1_1 cs tmo t rest) as (cs' & r & t' & Hr & Hlen & Hres); [done..|].
  rewrite (recv_msg_go_reads _ _ _ _ _ _ _ Hr) by (rewrite Hs, !length_app; pose proof (length_chunks_1_1 cs); lia).
  destruct r as [[]|e]; [|done]. destruct Hres as (-> & ? & ? & ? & ? & ?). split_and!; try done. by eapply sound_suffix.
Qed.

(** C7: [recv_msg] returns or raises a Python exception for every state of the
    transport and every peer that sends finitely often before it closes the connection,
    after which every read returns no bytes: the loops that read up to the marker, the
    chunk size or the end of a chunk stop at the end of the stream, and so does the loop
    over the chunks, after at most one more iteration than there are bytes. *)
Theorem recv_msg_terminates (tmo : option Z) (t : transport) :
  (recv_msg tmo t).1 ≠ Raise OutOfFuel.
Proof.
  unfold recv_msg. apply recv_msg_go_fuel. unfold stream. rewrite length_app. lia.
Qed.

(** C8: a message handed to the sender in any number of pieces and ended with the
    end-of-message marker is received as the concatenation of the pieces, through the
    send buffer and for every cutting of the sent bytes into socket reads, and what
    follows on the stream is left for the next message: under the chunked framing for
    ASCII pieces of a size it can express, under the other one for any text in which
    the marker does not occur.  Instead of a message there is an exception only for a
    character that is not ASCII, under the end-of-message framing, and for a pause of the
    peer when a timeout is set. *)
Theorem send_recv_roundtrip (fr : Z) (texts : list pystr) (rest : pystr)
    (tmo : option Z) (inc : list recv_event) (s1 s2 : sender) :
  (fr = FRAMING_1_0 ∧ no_eom (concat texts)) ∨ (fr = FRAMING_1_1 ∧ Forall chunk_ok texts) → sound inc →
  send_all texts (new_sender fr) = (Ok tt, s1) → _send_eom s1 = (Ok tt, s2) →
  inc_data inc = concat (raw <$> sent s2) ++ rest →
  match recv_msg tmo (new_transport fr inc) with
  | (Ok text, t') => text = concat texts ∧ stream t' = rest
  | (Raise e, _) =>
      (e = UnicodeDecodeError ∧ fr = FRAMING_1_0 ∧ ¬ Forall is_ascii7 (concat texts)) ∨ (e = SocketTimeout ∧ late tmo inc)
  end.
Proof.
  intros Hfr Hl H1 H2 Hinc.
  destruct (wire_eom (new_sender fr) fr texts eq_refl) as (s1' & H1' & s2' & H2' & Hw).
  rewrite H1 in H1'. injection H1' as <-. rewrite H2 in H2'. injection H2' as <-.
  unfold recv_msg. cbn [new_transport buf_bytes incoming].
  rewrite <-Nat.add_assoc, <-length_app. cbn [app].
  rewrite Hw, <-app_assoc in Hinc. destruct Hfr as [[-> Hno]|[-> Hok]].
  - rewrite framed_1_0 in Hinc.
    destruct (reads_1_0 tmo (new_transport FRAMING_1_0 inc) (concat texts) rest) as (cs & r & t' & Hr & Hlen & Hres); [done..|].
    rewrite (recv_msg_go_reads _ _ _ _ _ _ _ Hr) by (rewrite Hinc, length_app; lia). destruct r as [[]|e].
    + by destruct Hres as (? & _ & _ & _ & _ & ?).
    + destruct Hres as [[? ?]|?]; [by left|by right].
  - rewrite framed_1_1 in Hinc by (eapply Forall_impl; [done | by intros ? (?&?&?)]).
    destruct (reads_1_1 texts tmo (new_transport FRAMING_1_1 inc) rest) as (cs & r & t' & Hr & Hlen & Hres); [done|done| |done|].
    { eapply Forall_impl; [exact Hok|]. by intros c (? & ? & _). }
    rewrite (recv_msg_go_reads _ _ _ _ _ _ _ Hr) by (rewrite Hinc, length_app; pose proof (length_chunks_1_1 texts); lia).
    destruct r as [[]|e].
    + by destruct Hres as (-> & _ & _ & _ & _ & ?).
    + destruct Hres as [[_ Hv]|?]; [|by right]. destruct Hv. eapply Forall_impl; [exact Hok|].
      intros c (_ & _ & ?). by apply utf8_ascii.
Qed.

(** ** Witnesses *)

Definition ex_events : list recv_event :=
  [Data (py"<ok/>]]"); Quiet; Data (py">"); Data (py"]]>"); Data (py"<rpc/>")].

Lemma recv_msg_1_0_correct_witness :
  let '(r, t') := recv_msg None (__init__ ex_events) in
  sound ex_events ∧ no_eom (py"<ok/>") ∧ r = Ok (py"<ok/>") ∧ stream t' = py"<rpc/>".
Proof.
  assert (sound ex_events) as Hs by (unfold sound; vm_decide).
  pose proof (recv_msg_1_0_correct None (__init__ ex_events) (py"<ok/>") (py"<rpc/>") eq_refl eq_refl Hs eq_refl eq_refl) as H.
  assert (is_ok (recv_msg None (__init__ ex_events)).1 = true) as Hr by reflexivity.
  destruct (recv_msg None (__init__ ex_events)) as [[text|e] t']; [|discriminate Hr].
  destruct H as (-> & _ & _ & _ & _ & H). by split_and!.
Defined.

(** The chunks have a character of two bytes, cut by the reads. *)
Definition ex_chunks : list pystr := [py"<a>" ++ ["195"; "169"]%char; py"</a>"].
Definition ex_chunk_events : list recv_event :=
  [Data (nl ++ py"#5" ++ nl ++ py"<a"); Data (py">" ++ ["195"%char]); Data (["169"%char] ++ nl); Data (py"#4" ++ nl);
   Data (py"</a>"); Data (nl ++ py"##"); Data (nl ++ nl ++ py"#1")].

Lemma recv_msg_1_1_correct_witness :
  let '(r, t') := recv_msg (Some 5%Z) (new_transport FRAMING_1_1 ex_chunk_events) in
  sound ex_chunk_events ∧ Forall chunk_sized ex_chunks ∧ r = Ok (concat ex_chunks) ∧ stream t' = nl ++ py"#1".
Proof.
  assert (sound ex_chunk_events) as Hs by (unfold sound; vm_decide). assert (Forall chunk_sized ex_chunks) as Hc by vm_decide.
  pose proof (recv_msg_1_1_correct (Some 5%Z) (new_transport FRAMING_1_1 ex_chunk_events) ex_chunks (nl ++ py"#1")
    eq_refl Hs Hc eq_refl) as H.
  assert (is_ok (recv_msg (Some 5%Z) (new_transport FRAMING_1_1 ex_chunk_events)).1 = true) as Hr by reflexivity.
  destruct (recv_msg (Some 5%Z) (new_transport FRAMING_1_1 ex_chunk_events)) as [[text|e] t']; [|discriminate Hr].
  destruct H as (-> & _ & _ & _ & _ & H). by split_and!.
Defined.

Definition ex_reads : list recv_event := [Data (chunk 5 (py"<rpc>")); Data (chunk 6 (py"</rpc>") ++ EOM_1_1)].

Lemma send_recv_roundtrip_witness :
  ∃ s1 s2, send_all [py"<rpc>"; py"</rpc>"] (new_sender FRAMING_1_1) = (Ok tt, s1) ∧ _send_eom s1 = (Ok tt, s2) ∧
  let '(r, t') := recv_msg None (new_transport FRAMING_1_1 ex_reads) in r = Ok (py"<rpc></rpc>") ∧ stream t' = [].
Proof.
  eexists _, _. split; [reflexivity|]. split; [reflexivity|].
  assert (Forall chunk_ok [py"<rpc>"; py"</rpc>"]) as Hok by vm_decide. assert (sound ex_reads) as Hs by (unfold sound; vm_decide).
  pose proof (send_recv_roundtrip FRAMING_1_1 [py"<rpc>"; py"</rpc>"] [] None ex_reads _ _
    (or_intror (conj eq_refl Hok)) Hs eq_refl eq_refl eq_refl) as H.
  assert (is_ok (recv_msg None (new_transport FRAMING_1_1 ex_reads)).1 = true) as Hr by reflexivity.
  destruct (recv_msg None (new_transport FRAMING_1_1 ex_reads)) as [[text|e] t']; [|discriminate Hr].
  destruct H as [-> H]. by split.
Defined.

(** ** Limits of the transport *)

(** A chunk boundary of the 1.0 framing inside a UTF-8 character is a
    [UnicodeDecodeError], because each chunk is decoded on its own. *)
Lemma recv_split_character :
  (recv_msg None (__init__ [Data (["195"; "169"]%char ++ py"<a/>" ++ EOM_1_0)])).1 =
    Ok (["195"; "169"]%char ++ py"<a/>") ∧
  (recv_msg None (__init__ [Data (["195"; "169"]%char ++ py"<a/>"); Data EOM_1_0])).1 =
    Raise UnicodeDecodeError.
Proof. split; reflexivity. Qed.

(** A timeout discards what was read of a message: the bytes are neither
    returned nor kept. *)
Lemma recv_timeout_discards :
  let '(r, t') := recv_chunk (Some 1%Z) (__init__ [Data (py"<a/"); Quiet; Data (py">]]>]]>")]) in
  r = Raise SocketTimeout ∧ stream t' = py">]]>]]>".
Proof. by split. Qed.

(** The size of a chunk is counted in characters: a text with a two-byte
    character is announced one byte short and cannot be read back. *)
Lemma send_counts_characters :
  let '(_, s) := send_msg (BStr ["195"; "169"]%char) (new_sender FRAMING_1_1) in
  raw <$> sent s = [nl ++ py"#1" ++ nl ++ ["195"; "169"]%char ++ EOM_1_1] ∧
  (recv_msg None (new_transport FRAMING_1_1 [Data (concat (raw <$> sent s))])).1 =
    Raise UnicodeDecodeError.
Proof. by split. Qed.

(** The contents of a file, read as bytes, cannot follow saved text under the
    1.0 framing. *)
Lemma send_file_bytes_TypeError :
  (send (BBytes (py"<a/>")) (send (BStr (py"<rpc>")) (new_sender FRAMING_1_0)).2).1 =
    Raise TypeError.
Proof. reflexivity. Qed.
