(* ===== verification/Xml.v ===== *)
(** * Formatted XML text

    Python's [str.format] on templates with numbered fields, and a scanner that
    decides whether the tags of an XML text are balanced: what the NETCONF
    message templates promise to their server.  No counterpart under src/. *)

From Stdlib Require Import Ascii String.
From S2P Require Import Prelude PyStr.

(** ** Templates *)

(** A literal in which a back quote stands for a double quote. *)
Definition xq_of_string (s : string) : pystr :=
  (λ c, if (c =? "`")%char then "034"%char else c) <$> py_of_string s.
Arguments xq_of_string _%_string : simpl never.
Notation "'xq' s" := (xq_of_string s) (at level 1, s at level 0, format "'xq' s") : py_scope.

Inductive piece :=
  | Lit (s : pystr)
  | Arg (i : nat).

Definition add_lit (c : ascii) (l : list piece) : list piece :=
  match l with
  | Lit s :: l' => Lit (c :: s) :: l'
  | _ => Lit [c] :: l
  end.

(** The pieces of a template: text, and fields of one digit in braces. *)
Fixpoint pieces (t : pystr) : list piece :=
  match t with
  | [] => []
  | c :: t' =>
      match t' with
      | d :: e :: t'' =>
          if (c =? "{")%char && is_digit d && (e =? "}")%char
          then Arg (digit_val d) :: pieces t'' else add_lit c (pieces t')
      | _ => add_lit c (pieces t')
      end
  end.

(** [t.format(args)]. *)
Definition fmt_piece (args : list pystr) (p : piece) : pystr :=
  match p with Lit s => s | Arg i => default [] (args !! i) end.
Definition fmt (t : pystr) (args : list pystr) : pystr := concat (fmt_piece args <$> pieces t).

Example fmt_ex : fmt (py"<{0}>{1}</{0}>") [py"a"; py"x"] = py"<a>x</a>".
Proof. reflexivity. Qed.

(** ** Balanced tags *)

(** Where the scanner is: in text; after an opening angle bracket; in the name of
    a start tag; in its attributes; in a quoted attribute value; after the slash
    of an empty-element tag; in the name of an end tag; in a declaration. *)
Inductive scan_mode :=
  | Content
  | TagStart
  | OpenName (name : pystr)
  | InTag (name : pystr)
  | Quoted (name : pystr) (quote : ascii)
  | SelfClose
  | CloseName (name : pystr)
  | Decl.

(** The mode and the names of the open elements, innermost first. *)
Definition scan_state : Type := scan_mode * list pystr.

Fixpoint str_eqb (a b : pystr) : bool :=
  match a, b with
  | [], [] => true
  | x :: a', y :: b' => (x =? y)%char && str_eqb a' b'
  | _, _ => false
  end.

Definition is_name_char (c : ascii) : bool :=
  negb (is_space c) &&
  negb (existsb (λ x, (c =? x)%char) ["/"; ">"; "<"; "="; "034"; "'"; "?"; "!"]%char).

Definition scan_char (s : scan_state) (c : ascii) : option scan_state :=
  let '(m, stack) := s in
  match m with
  | Content =>
      if (c =? "<")%char then Some (TagStart, stack)
      else match stack with
           | [] => if is_space c then Some s else None
           | _ => Some s
           end
  | TagStart =>
      if (c =? "/")%char then Some (CloseName [], stack)
      else if (c =? "?")%char then Some (Decl, stack)
      else if is_name_char c then Some (OpenName [c], stack)
      else None
  | OpenName n =>
      if is_name_char c then Some (OpenName (n ++ [c]), stack)
      else if is_space c then Some (InTag n, stack)
      else if (c =? "/")%char then Some (SelfClose, stack)
      else if (c =? ">")%char then Some (Content, n :: stack)
      else None
  | InTag n =>
      if (c =? "034")%char || (c =? "'")%char then Some (Quoted n c, stack)
      else if (c =? "/")%char then Some (SelfClose, stack)
      else if (c =? ">")%char then Some (Content, n :: stack)
      else if (c =? "<")%char then None
      else Some s
  | Quoted n q =>
      if (c =? q)%char then Some (InTag n, stack)
      else if (c =? "<")%char then None
      else Some s
  | SelfClose => if (c =? ">")%char then Some (Content, stack) else None
  | CloseName n =>
      if is_name_char c then Some (CloseName (n ++ [c]), stack)
      else if (c =? ">")%char then
        match stack with
        | top :: stack' => if str_eqb top n then Some (Content, stack') else None
        | [] => None
        end
      else None
  | Decl => if (c =? ">")%char then Some (Content, stack) else Some s
  end.

Fixpoint scan (s : scan_state) (t : pystr) : option scan_state :=
  match t with
  | [] => Some s
  | c :: t' => match scan_char s c with Some s' => scan s' t' | None => None end
  end.

(** Every element that is opened is closed, in the right order, and there is no
    text but white space outside of elements. *)
Definition balanced (t : pystr) : bool :=
  match scan (Content, []) t with Some (Content, []) => true | _ => false end.

(** Text that leaves the scanner in the content of the element it was in. *)
Definition closed (t : pystr) : Prop :=
  ∀ n stack, scan (Content, n :: stack) t = Some (Content, n :: stack).

(** ** Lemmas *)

Lemma scan_app s a b : scan s (a ++ b) = match scan s a with Some s' => scan s' b | None => None end.
Proof.
  revert s; induction a as [|c a IH]; intros s; [done|]. cbn. by destruct (scan_char s c).
Qed.

Lemma document_balanced t : scan (Content, []) t = Some (Content, []) → balanced t = true.
Proof. intros Ht. unfold balanced. by rewrite Ht. Qed.

Lemma closed_nil : closed [].
Proof. done. Qed.

Lemma closed_app a b : closed a → closed b → closed (a ++ b).
Proof. intros Ha Hb n s. by rewrite scan_app, Ha. Qed.

Lemma closed_concat l : Forall closed l → closed (concat l).
Proof. induction 1; cbn; [apply closed_nil | by apply closed_app]. Qed.

(** Text without markup. *)
Definition plain (t : pystr) : Prop := "<"%char ∉ t.

#[export] Instance plain_dec t : Decision (plain t).
Proof. unfold plain. apply _. Defined.

Lemma plain_closed t : plain t → closed t.
Proof.
  unfold plain, closed. intros Hp n stack. induction t as [|c t IH]; [done|].
  apply not_elem_of_cons in Hp as [Hc Hp]. cbn.
  rewrite (proj2 (Ascii.eqb_neq c "<")) by congruence. auto.
Qed.

(** A tag name. *)
Definition is_name (t : pystr) : Prop := t ≠ [] ∧ Forall (λ c, is_name_char c = true) t.

#[export] Instance is_name_dec t : Decision (is_name t).
Proof. unfold is_name. apply _. Defined.

Lemma scan_open_name n t stack :
  Forall (λ c, is_name_char c = true) t → scan (OpenName n, stack) t = Some (OpenName (n ++ t), stack).
Proof.
  intros Ht. revert n; induction Ht as [|c t Hc _ IH]; intros n; cbn; [by rewrite app_nil_r|].
  rewrite Hc, IH, <-app_assoc. done.
Qed.

Lemma scan_name t stack : is_name t → scan (TagStart, stack) t = Some (OpenName t, stack).
Proof.
  intros [Hne Ht]. destruct t as [|c t]; [done|]. apply Forall_cons in Ht as [Hc Ht]. cbn.
  destruct (Ascii.eqb_spec c "/") as [->|_]; [done|]. destruct (Ascii.eqb_spec c "?") as [->|_]; [done|].
  rewrite Hc. by rewrite scan_open_name.
Qed.

Lemma scan_close_go n t stack :
  Forall (λ c, is_name_char c = true) t → scan (CloseName n, stack) t = Some (CloseName (n ++ t), stack).
Proof.
  intros Ht. revert n; induction Ht as [|c t Hc _ IH]; intros n; cbn; [by rewrite app_nil_r|].
  rewrite Hc, IH, <-app_assoc. done.
Qed.

Lemma str_eqb_refl t : str_eqb t t = true.
Proof. induction t as [|c t IH]; [done|]. cbn. by rewrite Ascii.eqb_refl, IH. Qed.

(** An element with closed content. *)
Lemma closed_elem n t : is_name n → closed t → closed (py"<" ++ n ++ py">" ++ t ++ py"</" ++ n ++ py">").
Proof.
  intros Hn Ht m stack. rewrite scan_app.
  change (scan (Content, m :: stack) (py"<")) with (Some (TagStart, m :: stack)).
  cbv iota. rewrite scan_app, scan_name by done. rewrite scan_app.
  change (scan (OpenName n, m :: stack) (py">")) with (Some (Content, n :: m :: stack)). cbv iota.
  rewrite scan_app, Ht, scan_app.
  change (scan (Content, n :: m :: stack) (py"</")) with (Some (CloseName [], n :: m :: stack)). cbv iota.
  rewrite scan_app, scan_close_go by apply Hn. py_norm. cbn. by rewrite str_eqb_refl.
Qed.

(** A value between quotes. *)
Definition quotable (q : ascii) (t : pystr) : Prop := (q ∉ t) ∧ plain t.

#[export] Instance quotable_dec q t : Decision (quotable q t).
Proof. unfold quotable. apply _. Defined.

Lemma scan_quoted n q t stack :
  quotable q t → scan (Quoted n q, stack) t = Some (Quoted n q, stack).
Proof.
  intros [Hq Hp]. induction t as [|c t IH]; [done|].
  apply not_elem_of_cons in Hq as [Hcq Hq]. unfold plain in *. apply not_elem_of_cons in Hp as [Hc Hp].
  cbn. rewrite (proj2 (Ascii.eqb_neq c q)), (proj2 (Ascii.eqb_neq c "<")) by congruence. auto.
Qed.

(** Attributes inside a start tag. *)
Definition attributes (t : pystr) : Prop :=
  ∀ n stack, scan (InTag n, stack) t = Some (InTag n, stack).

(** An element with attributes and closed content. *)
Lemma closed_elem_attr n a t :
  is_name n → attributes a → closed t →
  closed (py"<" ++ n ++ py" " ++ a ++ py">" ++ t ++ py"</" ++ n ++ py">").
Proof.
  intros Hn Ha Ht m stack. rewrite scan_app.
  change (scan (Content, m :: stack) (py"<")) with (Some (TagStart, m :: stack)).
  cbv iota. rewrite scan_app, scan_name by done. rewrite scan_app.
  change (scan (OpenName n, m :: stack) (py" ")) with (Some (InTag n, m :: stack)). cbv iota.
  rewrite scan_app, Ha, scan_app.
  change (scan (InTag n, m :: stack) (py">")) with (Some (Content, n :: m :: stack)). cbv iota.
  rewrite scan_app, Ht, scan_app.
  change (scan (Content, n :: m :: stack) (py"</")) with (Some (CloseName [], n :: m :: stack)). cbv iota.
  rewrite scan_app, scan_close_go by apply Hn. py_norm. cbn. by rewrite str_eqb_refl.
Qed.

Lemma closed_empty_elem n : is_name n → closed (py"<" ++ n ++ py"/>").
Proof.
  intros Hn m stack. rewrite scan_app.
  change (scan (Content, m :: stack) (py"<")) with (Some (TagStart, m :: stack)).
  cbv iota. by rewrite scan_app, scan_name.
Qed.

Lemma spaces_plain n : plain (replicate n " "%char).
Proof. unfold plain. intros [H _]%elem_of_replicate. done. Qed.

(** ** Tactics *)

(** Replace a template by its pieces. *)
Ltac fmt_norm :=
  unfold fmt;
  repeat match goal with
  | |- context [pieces ?t] =>
      let l := eval vm_compute in (pieces t) in change (pieces t) with l
  end;
  cbn [fmap list_fmap fmt_piece concat lookup list_lookup default from_option id].

(** One step of scanning a text made of literals and fields. *)
Ltac scan_step :=
  match goal with
  | |- context [scan ?s (?a ++ ?b)] => rewrite (scan_app s a b)
  | H : plain ?t |- context [scan (Content, ?n :: ?st) ?t] => rewrite (plain_closed t H n st)
  | H : closed ?t |- context [scan (Content, ?n :: ?st) ?t] => rewrite (H n st)
  | H : is_name ?t |- context [scan (TagStart, ?st) ?t] => rewrite (scan_name t st H)
  | H : quotable ?q ?t |- context [scan (Quoted ?n ?q, ?st) ?t] => rewrite (scan_quoted n q t st H)
  | H : attributes ?t |- context [scan (InTag ?n, ?st) ?t] => rewrite (H n st)
  | |- context [scan ?s ?t] =>
      let r := eval vm_compute in (scan s t) in
      match r with Some ?x => change (scan s t) with (Some x) | None => change (scan s t) with (@None scan_state) end
  end; cbv iota.

Ltac scan_closed := intros ?top ?stack; fmt_norm; repeat scan_step; try reflexivity.
Ltac scan_document := fmt_norm; repeat scan_step; try reflexivity.
