(* ===== verification/NetconfMsgs.v ===== *)
(** * NETCONF messages: confd-sync-py/app/netconf_console.py, lines 436 to 1255

    The message templates, the choice of the message from the command line
    options, the negotiation of the framing from the server's hello, the request
    sent from a file, and the loop that receives a reply. *)

From Stdlib Require Import Ascii String.
From S2P Require Import Prelude PyStr Xml NetconfFraming.

(** ** Constants *)

Definition NC_NS : pystr := py"urn:ietf:params:xml:ns:netconf:base:1.0".
Definition NMDA_NS : pystr := py"urn:ietf:params:xml:ns:yang:ietf-netconf-nmda".
Definition NMDA_DS_NS : pystr := py"urn:ietf:params:xml:ns:yang:ietf-datastores".
Definition BASE_1_0 : pystr := py"urn:ietf:params:netconf:base:1.0".
Definition BASE_1_1 : pystr := py"urn:ietf:params:netconf:base:1.1".

(** ** The options *)

Record opts := {
  version : option pystr; debug : bool; username : pystr; password : pystr; proto : pystr;
  host : pystr; port : Z; listen : bool; listen_address : pystr; listen_port : Z; iter : Z;
  interactive : bool; style : pystr; privKeyType : pystr; privKeyFile : pystr;
  groups : pystr; supgroups : pystr; hello : bool; get_ : bool;
  getConfig : option pystr; getData : option pystr; max_depth : pystr;
  config_filter : option pystr; subtree_filter : pystr; db : pystr; wdefaults : pystr;
  winactive : bool; xpath : pystr; kill_session : pystr; discard_changes : bool;
  commit : bool; validate : bool; copy_running_to_startup : bool; copy : pystr;
  edit : pystr; edit_data : pystr; get_schema : option pystr;
  create_subscription : option pystr; establish_subscription : option pystr; rpc : pystr;
  start_time : pystr; stop_time : pystr; rpc_attribute : pystr
}.

(** What the parser returns for an empty command line: the defaults of the
    options; a flag that is not given is [None], which is false, and the
    attributes of --get-config and --get-data are absent until given. *)
Definition default_opts : opts := {|
  version := None; debug := false; username := py"admin"; password := py"admin"; proto := py"ssh";
  host := py"localhost"; port := 2022; listen := false; listen_address := py"0.0.0.0";
  listen_port := 4334; iter := 1; interactive := false; style := py"default"; privKeyType := [];
  privKeyFile := []; groups := []; supgroups := []; hello := false; get_ := false;
  getConfig := None; getData := None; max_depth := []; config_filter := None; subtree_filter := [];
  db := py"running"; wdefaults := []; winactive := false; xpath := []; kill_session := [];
  discard_changes := false; commit := false; validate := false; copy_running_to_startup := false;
  copy := []; edit := []; edit_data := []; get_schema := None; create_subscription := None;
  establish_subscription := None; rpc := []; start_time := []; stop_time := []; rpc_attribute := []
|}.

(** ** Templates *)

Definition hello_msg (versions : list pystr) : pystr :=
  fmt (xq"<?xml version=`1.0` encoding=`UTF-8`?>
<hello xmlns=`{0}`>
  <capabilities>
") [NC_NS] ++
  (if decide (py"1.0" ∈ versions) then fmt (py"    <capability>{0}</capability>
") [BASE_1_0] else []) ++
  (if decide (py"1.1" ∈ versions) then fmt (py"    <capability>{0}</capability>
") [BASE_1_1] else []) ++
  py"
    </capabilities>
</hello>".

Definition close_msg : pystr :=
  fmt (xq"<?xml version=`1.0` encoding=`UTF-8`?>
    <rpc xmlns=`{0}` message-id=`0`>
        <close-session/>
    </rpc>") [NC_NS].

Definition mk_filter_str (xpath : pystr) : pystr :=
  if contains xpath (py"'") then fmt (xq"<filter type='xpath' select=`{0}`/>") [xpath]
  else fmt (py"<filter type='xpath' select='{0}'/>") [xpath].

Definition mk_filter_subnotif_str (filter_field filter_content : pystr) : pystr :=
  if contains filter_content (py"'") then fmt (xq"<{0}>`{1}`<{0}>") [filter_field; filter_content]
  else fmt (py"<{0}>'{1}'<{0}>") [filter_field; filter_content].

(** [repr] of a bytes object, which is how [str.format] shows it. *)
Definition byte_repr (q c : ascii) : pystr :=
  let n := nat_of_ascii c in
  if (c =? q)%char || (c =? "\")%char then ["\"%char; c]
  else if n =? 9 then py"\t"
  else if n =? 10 then py"\n"
  else if n =? 13 then py"\r"
  else if (32 <=? n) && (n <=? 126) then [c]
  else
    let hex k := if k <? 10 then digit k else ascii_of_nat (87 + k) in
    py"\x" ++ [hex (n / 16); hex (n mod 16)].

Definition bytes_repr (s : pystr) : pystr :=
  let q := if decide ("'"%char ∈ s ∧ "034"%char ∉ s) then "034"%char else "'"%char in
  py"b" ++ [q] ++ concat (byte_repr q <$> s) ++ [q].

Section messages.
(** The contents of the file with a name: text for standard input, bytes else. *)
Variable read_file : pystr → res pybuf.

Definition file_text (b : pybuf) : pystr := match b with BStr s => s | BBytes s => bytes_repr s end.

Definition with_defaults_elem (cmd with_defaults : pystr) : pystr :=
  if decide (with_defaults ∈ [py"explicit"; py"trim"; py"report-all"; py"report-all-tagged"]) then
    if decide (cmd = py"get-data") then fmt (py"<with-defaults>{0}</with-defaults>") [with_defaults]
    else fmt (py"<with-defaults xmlns='{0}'>{1}</with-defaults>")
           [py"urn:ietf:params:xml:ns:yang:ietf-netconf-with-defaults"; with_defaults]
  else [].

Definition get_data_op (db : pystr) (o : opts) (delem welem : pystr) : res pystr :=
  subtree ← (if decide (subtree_filter o = []) then Ok []
             else f ← read_file (subtree_filter o);
                  Ok (fmt (py"<subtree-filter>{0}</subtree-filter>") [file_text f]));
  let config_false :=
    if decide (config_filter o = Some (py"false")) then py"<config-filter>false</config-filter>"
    else if decide (config_filter o = Some (py"true")) then py"<config-filter>true</config-filter>"
    else [] in
  let xpath_filter :=
    if decide (xpath o = []) then [] else fmt (py"<xpath-filter>{0}</xpath-filter>") [xpath o] in
  let depth :=
    if decide (max_depth o = []) then [] else fmt (py"<max-depth>{0}</max-depth>") [max_depth o] in
  Ok (fmt (xq"<get-data xmlns=`{0}` xmlns:ds=`{1}`>
                 <datastore>ds:{2}</datastore>
                 {3}
                 {4}
                 {5}
                 {6}
                 {7}
                 {8}
                 </get-data>")
    [NMDA_NS; NMDA_DS_NS; db; subtree; xpath_filter; config_false; depth; delem; welem]).

Definition get_msg (cmd db : pystr) (o : opts) : res pystr :=
  let fstr := if decide (xpath o = []) then [] else mk_filter_str (xpath o) in
  let delem := with_defaults_elem cmd (wdefaults o) in
  let welem :=
    if winactive o
    then fmt (py"<with-inactive xmlns='{0}'/>") [py"http://tail-f.com/ns/netconf/inactive/1.0"] else [] in
  op ← (if decide (cmd = py"get-config") then
          Ok (fmt (py"<get-config><source><{0}/></source>{1}{2}{3}</get-config>") [db; fstr; delem; welem])
        else if decide (cmd = py"get-data") then get_data_op db o delem welem
        else Ok (fmt (py"<get>{0}{1}{2}</get>") [fstr; delem; welem]));
  let dattr :=
    if decide (wdefaults o ∈ [py"true"; py"false"])
    then fmt (xq" with-defaults=`{0}`") [wdefaults o] else [] in
  Ok (fmt (xq"<?xml version=`1.0` encoding=`UTF-8`?>
<rpc xmlns=`{0}`{1} message-id=`1` {2}>
    {3}
</rpc>") [NC_NS; dattr; rpc_attribute o; op]).

Definition kill_session_msg (id : pystr) : pystr :=
  fmt (xq"<?xml version=`1.0` encoding=`UTF-8`?>
<rpc xmlns=`{0}` message-id=`1`>
    <kill-session><session-id>{1}</session-id></kill-session>
</rpc>") [NC_NS; id].

Definition discard_changes_msg : pystr :=
  fmt (xq"<?xml version=`1.0` encoding=`UTF-8`?>
<rpc xmlns=`{0}` message-id=`1`>
    <discard-changes/>
</rpc>") [NC_NS].

Definition commit_msg : pystr :=
  fmt (xq"<?xml version=`1.0` encoding=`UTF-8`?>
<rpc xmlns=`{0}` message-id=`1`>
    <commit/>
</rpc>") [NC_NS].

Definition validate_msg (db : pystr) : pystr :=
  fmt (xq"<?xml version=`1.0` encoding=`UTF-8`?>
<rpc xmlns=`{0}` message-id=`1`>
    <validate><source><{1}/></source></validate>
</rpc>") [NC_NS; db].

Definition copy_running_to_startup_msg : pystr :=
  fmt (xq"<?xml version=`1.0` encoding=`UTF-8`?>
<rpc xmlns=`{0}` message-id=`1`>
    <copy-config>
      <target>
        <startup/>
      </target>
      <source>
        <running/>
      </source>
    </copy-config>
</rpc>") [NC_NS].

Definition get_schema_msg (identifier : pystr) : pystr :=
  fmt (xq"<?xml version=`1.0` encoding=`UTF-8`?>
<rpc xmlns=`{0}` message-id=`1`>
    <get-schema xmlns=`urn:ietf:params:xml:ns:yang:ietf-netconf-monitoring`>
      <identifier>{1}</identifier>
    </get-schema>
</rpc>") [NC_NS; identifier].

Definition start_str (start : pystr) : pystr :=
  if decide (start = []) then [] else fmt (py"<startTime>{0}+00:00</startTime>") [start].
Definition stop_str (stop : pystr) : pystr :=
  if decide (stop = []) then [] else fmt (py"<stopTime>{0}+00:00</stopTime>") [stop].

Definition create_subscription_msg (stream xpath start stop : pystr) : pystr :=
  let fstr := if decide (xpath = []) then [] else mk_filter_str xpath in
  fmt (xq"<?xml version=`1.0` encoding=`UTF-8`?>
<rpc xmlns=`{0}` message-id=`1`>
  <create-subscription xmlns=`urn:ietf:params:xml:ns:netconf:notification:1.0`>
    <stream>{1}</stream>
    {2}
    {3}
    {4}
  </create-subscription>
</rpc>") [NC_NS; stream; fstr; start_str start; stop_str stop].

Definition establish_subscription_msg (stream xpath start stop : pystr) : pystr :=
  let fstr := if decide (xpath = []) then []
              else mk_filter_subnotif_str (py"stream-xpath-filter") xpath in
  fmt (xq"<?xml version=`1.0` encoding=`UTF-8`?>
<rpc xmlns=`{0}` message-id=`1`>
  <establish-subscription
        xmlns=`urn:ietf:params:xml:ns:yang:ietf-subscribed-notifications`>
    <stream>{1}</stream>
    {2}
    {3}
    {4}
  </establish-subscription>
</rpc>") [NC_NS; stream; fstr; start_str start; stop_str stop].

(** ** The choice of the message *)

(** What [main] sends: the commands of a file as they are, a payload file inside
    an rpc, a message, or nothing; [NoCommand] is an error of the parser. *)
Inductive request :=
  | CommandFile (name : pystr)
  | PayloadFile (name : pystr)
  | Message (m : pystr)
  | HelloOnly
  | Interactive
  | NoCommand.

Definition config_db (o : opts) (d : pystr) : pystr := if decide (d = py"default") then db o else d.

Definition select_request (filename : option pystr) (o : opts) : res request :=
  match filename with
  | Some (c :: f) => Ok (CommandFile (c :: f))
  | _ =>
      if get_ o then Message <$> get_msg (py"get") [] o
      else match getConfig o, getData o with
      | Some d, _ => Message <$> get_msg (py"get-config") (config_db o d) o
      | None, Some d => Message <$> get_msg (py"get-data") (config_db o d) o
      | None, None =>
          if decide (rpc o ≠ []) then Ok (PayloadFile (rpc o))
          else if decide (edit o ≠ []) then Ok (PayloadFile (edit o))
          else if decide (edit_data o ≠ []) then Ok (PayloadFile (edit_data o))
          else if decide (copy o ≠ []) then Ok (PayloadFile (copy o))
          else if decide (kill_session o ≠ []) then Ok (Message (kill_session_msg (kill_session o)))
          else if discard_changes o then Ok (Message discard_changes_msg)
          else if commit o then Ok (Message commit_msg)
          else if validate o then Ok (Message (validate_msg (db o)))
          else if copy_running_to_startup o then Ok (Message copy_running_to_startup_msg)
          else match get_schema o, create_subscription o, establish_subscription o with
          | Some id, _, _ => Ok (Message (get_schema_msg id))
          | None, Some s, _ =>
              Ok (Message (create_subscription_msg s (xpath o) (start_time o) (stop_time o)))
          | None, None, Some s =>
              Ok (Message (establish_subscription_msg s (xpath o) (start_time o) (stop_time o)))
          | None, None, None =>
              if hello o then Ok HelloOnly else if interactive o then Ok Interactive else Ok NoCommand
          end
      end
  end.

Definition validate_options (have_paramiko : bool) (o : opts) : res unit :=
  if decide (wdefaults o ≠ [] ∧ wdefaults o ∉
       [py"trim"; py"explicit"; py"report-all"; py"report-all-tagged"; py"true"; py"false"])
  then Raise (StdoutError (fmt (py"Bad --with-defaults value: {0}") [wdefaults o]))
  else if decide (proto o = py"ssh") then
    if have_paramiko then Ok tt
    else Raise (StdoutError (py"You must install the python ssh implementation paramiko in order to use ssh."))
  else Ok tt.
End messages.

(** ** Versions and framing *)

Definition versions (from_command_file : bool) (version : option pystr) : list pystr :=
  match from_command_file, version with
  | true, None => [py"1.0"]
  | _, _ =>
      (if decide (version = Some (py"1.0") ∨ version = None) then [py"1.0"] else []) ++
      (if decide (version = Some (py"1.1") ∨ version = None) then [py"1.1"] else [])
  end.

(** A parsed XML node, as xml.dom.minidom gives it: an element, text, or another
    node (a comment, say) with its value. *)
Inductive dom :=
  | DomElem (ns name : pystr) (children : list dom)
  | DomText (value : pystr)
  | DomOther (value : pystr).

(** [strip(node)]: only elements and text that is not blank stay. *)
Definition keep_node (n : dom) : bool :=
  match n with
  | DomElem _ _ _ => true
  | DomText s => negb (bool_decide (PyStr.strip s = []))
  | DomOther _ => false
  end.
Definition strip (n : dom) : dom :=
  match n with
  | DomElem ns name l => DomElem ns name (List.filter keep_node l)
  | _ => n
  end.

Definition firstChild (n : dom) : option dom :=
  match n with DomElem _ _ (c :: _) => Some c | _ => None end.

(** [namespaceURI] and [localName] are these; only elements have them. *)
Definition is_elem (ns name : pystr) (n : dom) : bool :=
  match n with DomElem ns' name' _ => bool_decide (ns' = ns ∧ name' = name) | _ => false end.

(** [d.firstChild.nodeValue.strip() == BASE_1_1]; there may be no first child, and
    the value of an element is [None]. *)
Definition offers_1_1 (d : dom) : res bool :=
  match firstChild d with
  | Some (DomText s) | Some (DomOther s) => Ok (bool_decide (PyStr.strip s = BASE_1_1))
  | Some (DomElem _ _ _) | None => Raise AttributeError
  end.

(** The loop over the capabilities. *)
Fixpoint scan_capabilities (vs : list pystr) (caps : list dom) (fr : Z) : res Z :=
  match caps with
  | [] => Ok fr
  | d :: rest =>
      if is_elem NC_NS (py"capability") d && bool_decide (py"1.1" ∈ vs) then
        b ← offers_1_1 d;
        scan_capabilities vs rest (if (b : bool) then FRAMING_1_1 else fr)
      else scan_capabilities vs rest fr
  end.

(** The framing after the server's hello, from the first node of the document. *)
Definition negotiate (vs : list pystr) (root : option dom) : res Z :=
  match root with
  | None => Ok FRAMING_1_0
  | Some d =>
      let d := strip d in
      match (if is_elem NC_NS (py"hello") d then firstChild d else None) with
      | None => Ok FRAMING_1_0
      | Some d =>
          let d := strip d in
          if is_elem NC_NS (py"capabilities") d then
            match d with
            | DomElem _ _ (c :: rest) => scan_capabilities vs (strip c :: rest) FRAMING_1_0
            | _ => Raise AttributeError
            end
          else Ok FRAMING_1_0
      end
  end.

(** ** Sending a request from a file *)

(** The [send] used: the raw one for a command file, the framing one else. *)
Definition send_with (raw_send : bool) (b : pybuf) (s : sender) : res unit * sender :=
  if raw_send then _send b s else send b s.

Fixpoint send_seq (raw_send : bool) (l : list pybuf) (s : sender) : res unit * sender :=
  match l with
  | [] => (Ok tt, s)
  | b :: l' =>
      match send_with raw_send b s with
      | (Raise e, s') => (Raise e, s')
      | (Ok _, s') => send_seq raw_send l' s'
      end
  end.

(** The blocks [f.read(BUFSIZ)] returns for a file with these bytes; [n] bounds
    their number. *)
Fixpoint file_blocks (n : nat) (contents : pystr) : list pystr :=
  match n with
  | 0 => []
  | S k => match contents with
           | [] => []
           | _ => take BUFSIZ contents :: file_blocks k (drop BUFSIZ contents)
           end
  end.

Definition rpc_head (o : opts) : list pystr :=
  if decide (edit o ≠ []) then
    [fmt (py"<edit-config xmlns:nc='{0}'><target><{1}/></target><config>") [NC_NS; db o]]
  else if decide (edit_data o ≠ []) then
    [fmt (py"<edit-data xmlns='{0}' xmlns:ds='{1}'><datastore>ds:{2}</datastore><config>")
       [NMDA_NS; NMDA_DS_NS; db o]]
  else if decide (copy o ≠ []) then
    [fmt (py"<copy-config><target><{0}/></target><source><config>") [db o]]
  else [].

Definition rpc_tail (o : opts) : list pystr :=
  if decide (edit o ≠ []) then [py"</config></edit-config>"]
  else if decide (edit_data o ≠ []) then [py"</config></edit-data>"]
  else if decide (copy o ≠ []) then [py"</config></source></copy-config>"]
  else [].

Definition rpc_open : pystr :=
  fmt (xq"<?xml version=`1.0` encoding=`UTF-8`?>
                    <rpc xmlns=`{0}` message-id=`1`>") [NC_NS].

(** The request of a payload file, ended with the end-of-message marker. *)
Definition send_payload (o : opts) (contents : pystr) (s : sender) : res unit * sender :=
  match send_seq false
    (BStr <$> (rpc_open :: rpc_head o)) s with
  | (Raise e, s1) => (Raise e, s1)
  | (Ok _, s1) =>
      match send_seq false (BBytes <$> file_blocks (length contents) contents) s1 with
      | (Raise e, s2) => (Raise e, s2)
      | (Ok _, s2) =>
          match send_seq false (BStr <$> (rpc_tail o ++ [py"</rpc>"])) s2 with
          | (Raise e, s3) => (Raise e, s3)
          | (Ok _, s3) => _send_eom s3
          end
      end
  end.

(** ** Receiving a reply *)

(** How the inner loop of [main] ends: a whole message, or the peer closed the
    connection before any chunk. *)
Inductive reply :=
  | ReplyMessage (printed : pystr)
  | ReplyClosed (printed : pystr).

(** [c.recv_chunk(1)] until the end of the message, printing the chunks; a timeout
    only repeats the call.  [fuel] bounds the number of calls. *)
Fixpoint recv_reply (fuel : nat) (nchunks : nat) (printed : pystr) (t : transport)
    : res reply * transport :=
  match fuel with
  | 0 => (Raise OutOfFuel, t)
  | S f =>
      match recv_chunk (Some 1%Z) t with
      | (Raise SocketTimeout, t') => recv_reply f nchunks printed t'
      | (Raise e, t') => (Raise e, t')
      | (Ok (code, chunk), t') =>
          if (code <? 0)%Z then
            if decide (nchunks = 0) then (Ok (ReplyClosed (printed ++ chunk)), t')
            else if decide (code = (-1)%Z) then (Raise (StderrError (py"unexpected EOF in NETCONF transport")), t')
            else (Raise (StderrError (py"NETCONF transport framing error")), t')
          else if decide (code = 0%Z) then (Ok (ReplyMessage (printed ++ chunk)), t')
          else recv_reply f (S nchunks) (printed ++ chunk) t'
      end
  end.

(** ** Lemmas: the messages are balanced *)

(** An XPath that fits between the quotes it is put in. *)
Definition xpath_ok (x : pystr) : Prop :=
  quotable (if contains x (py"'") then "034"%char else "'"%char) x.

#[export] Instance xpath_ok_dec x : Decision (xpath_ok x).
Proof. unfold xpath_ok. apply _. Defined.

Lemma mk_filter_str_closed x : xpath_ok x → closed (mk_filter_str x).
Proof.
  unfold xpath_ok, mk_filter_str. destruct (contains x (py"'")); intros Hx; scan_closed.
Qed.

Lemma with_defaults_closed cmd d : closed (with_defaults_elem cmd d).
Proof.
  unfold with_defaults_elem. case_decide as Hd; [|apply closed_nil].
  assert (Hp : plain d).
  { rewrite !elem_of_cons in Hd. destruct Hd as [->|[->|[->|[->|Hd]]]]; [vm_decide..|].
    by apply not_elem_of_nil in Hd. }
  case_decide; scan_closed.
Qed.

Lemma start_str_closed t : plain t → closed (start_str t).
Proof. intros Ht. unfold start_str. case_decide; [apply closed_nil|]. scan_closed. Qed.

Lemma stop_str_closed t : plain t → closed (stop_str t).
Proof. intros Ht. unfold stop_str. case_decide; [apply closed_nil|]. scan_closed. Qed.

(** Options that are free of markup where they are put into a message. *)
Record opts_ok (read_file : pystr → res pybuf) (o : opts) : Prop := {
  ok_db : is_name (db o);
  ok_getConfig : ∀ d, getConfig o = Some d → is_name d;
  ok_getData : ∀ d, getData o = Some d → plain d;
  ok_db_plain : plain (db o);
  ok_xpath : xpath_ok (xpath o);
  ok_max_depth : plain (max_depth o);
  ok_subtree : ∀ f, subtree_filter o ≠ [] → read_file (subtree_filter o) = Ok f → closed (file_text f);
  ok_attribute : attributes (rpc_attribute o);
  ok_kill : plain (kill_session o);
  ok_schema : ∀ s, get_schema o = Some s → plain s;
  ok_create : ∀ s, create_subscription o = Some s → plain s;
  ok_establish : ∀ s, establish_subscription o = Some s → plain s;
  ok_start : plain (start_time o);
  ok_stop : plain (stop_time o)
}.

Lemma xpath_plain x : xpath_ok x → plain x.
Proof. by intros [_ ?]. Qed.

Lemma get_data_closed read_file o d delem welem op :
  opts_ok read_file o → plain d → closed delem → closed welem →
  get_data_op read_file d o delem welem = Ok op → closed op.
Proof.
  intros Ho Hd Hdel Hwel. unfold get_data_op. intros Hop. inv_bind.
  match goal with H : _ = Ok ?x |- _ => rename x into sub, H into Hsub end.
  assert (Hsc : closed sub).
  { case_decide as Hn; inv_bind; [apply closed_nil|].
    match goal with H : read_file _ = Ok ?f |- _ => pose proof (ok_subtree _ _ Ho f Hn H) as Hf end.
    scan_closed. }
  clear Hsub. pose proof (xpath_plain _ (ok_xpath _ _ Ho)) as Hx. pose proof (ok_max_depth _ _ Ho) as Hm.
  set (xf := if decide (xpath o = []) then _ else _).
  set (cf := if decide (config_filter o = Some (py"false")) then _ else _).
  set (dp := if decide (max_depth o = []) then _ else _).
  assert (Hxf : closed xf) by (subst xf; case_decide; [apply closed_nil | scan_closed]).
  assert (Hcf : closed cf) by (subst cf; repeat case_decide; try apply closed_nil; scan_closed).
  assert (Hdp : closed dp) by (subst dp; case_decide; [apply closed_nil | scan_closed]).
  clearbody xf cf dp. scan_closed.
Qed.

(** The default value of [getConfig] and [getData] is replaced by the database. *)
Lemma config_db_name read_file o d :
  opts_ok read_file o → is_name d → is_name (config_db o d).
Proof. intros Ho Hd. unfold config_db. case_decide; [apply (ok_db _ _ Ho) | done]. Qed.

Lemma get_msg_document read_file o cmd d m :
  opts_ok read_file o →
  (cmd = py"get" ∨ (cmd = py"get-config" ∧ is_name d) ∨ (cmd = py"get-data" ∧ plain d)) →
  get_msg read_file cmd d o = Ok m → scan (Content, []) m = Some (Content, []).
Proof.
  intros Ho Hcmd. unfold get_msg.
  set (fstr := if decide (xpath o = []) then [] else mk_filter_str (xpath o)).
  set (welem := if winactive o then _ else _).
  set (dattr := if decide (wdefaults o ∈ [py"true"; py"false"]) then _ else _).
  assert (Hf : closed fstr).
  { subst fstr. case_decide; [apply closed_nil | apply mk_filter_str_closed, (ok_xpath _ _ Ho)]. }
  assert (Hw : closed welem) by (subst welem; destruct (winactive o); [scan_closed | apply closed_nil]).
  pose proof (with_defaults_closed cmd (wdefaults o)) as Hdel.
  assert (Hda : attributes dattr).
  { subst dattr. intros n stack. case_decide as Hd; [|done].
    rewrite !elem_of_cons in Hd. destruct Hd as [->|[->|Hd]]; [done | done |].
    by apply not_elem_of_nil in Hd. }
  pose proof (ok_attribute _ _ Ho) as Hat. intros Hm. inv_bind.
  match goal with H : _ = Ok ?x |- _ => rename x into op, H into Hop end.
  assert (Hop' : closed op).
  { destruct Hcmd as [->|[[-> Hd]|[-> Hd]]].
    - rewrite !decide_False in Hop by done. injection Hop as <-.
      clearbody fstr welem. revert Hdel. generalize (with_defaults_elem (py"get") (wdefaults o)).
      intros delem Hdel. scan_closed.
    - rewrite decide_True in Hop by done. injection Hop as <-.
      clearbody fstr welem. revert Hdel. generalize (with_defaults_elem (py"get-config") (wdefaults o)).
      intros delem Hdel. scan_closed.
    - rewrite decide_False, decide_True in Hop by done. exact (get_data_closed _ _ _ _ _ _ Ho Hd Hdel Hw Hop). }
  clearbody dattr. generalize dependent (rpc_attribute o). intros attr Hat. scan_document.
Qed.

Lemma kill_session_document id : plain id → scan (Content, []) (kill_session_msg id) = Some (Content, []).
Proof. intros Hid. unfold kill_session_msg. scan_document. Qed.

Lemma validate_document d : is_name d → scan (Content, []) (validate_msg d) = Some (Content, []).
Proof. intros Hd. unfold validate_msg. scan_document. Qed.

Lemma get_schema_document id : plain id → scan (Content, []) (get_schema_msg id) = Some (Content, []).
Proof. intros Hid. unfold get_schema_msg. scan_document. Qed.

Lemma create_subscription_document s x a b :
  plain s → xpath_ok x → plain a → plain b → scan (Content, []) (create_subscription_msg s x a b) = Some (Content, []).
Proof.
  intros Hs Hx Ha Hb. unfold create_subscription_msg.
  assert (Hf : closed (if decide (x = []) then [] else mk_filter_str x)).
  { case_decide; [apply closed_nil | by apply mk_filter_str_closed]. }
  pose proof (start_str_closed a Ha) as Hst. pose proof (stop_str_closed b Hb) as Hsp.
  revert Hf Hst Hsp. generalize (if decide (x = []) then [] else mk_filter_str x), (start_str a), (stop_str b).
  intros f st sp Hf Hst Hsp. scan_document.
Qed.

Lemma establish_subscription_document s a b :
  plain s → plain a → plain b → scan (Content, []) (establish_subscription_msg s [] a b) = Some (Content, []).
Proof.
  intros Hs Ha Hb. unfold establish_subscription_msg. rewrite decide_True by done.
  pose proof (start_str_closed a Ha) as Hst. pose proof (stop_str_closed b Hb) as Hsp.
  revert Hst Hsp. generalize (start_str a), (stop_str b). intros st sp Hst Hsp. scan_document.
Qed.

(** ** Lemmas: receiving a reply *)

Lemma recv_reply_receives t cs t' fuel n acc :
  receives (Some 1%Z) t cs t' → length cs < fuel →
  recv_reply fuel n acc t = (Ok (ReplyMessage (acc ++ concat cs)), t').
Proof.
  intros Hr. revert fuel n acc. induction Hr as [t t' Hc | t c t1 cs t' Hc _ IH]; intros [|f] n acc Hf;
    cbn in Hf; try lia; cbn [recv_reply]; rewrite Hc; change (_ <? 0)%Z with false; cbv iota.
  - by rewrite decide_True.
  - rewrite decide_False by done. rewrite IH by lia. cbn. by rewrite app_assoc.
Qed.

(** ** Lemmas: sending from a file *)

Lemma file_blocks_concat n contents :
  length contents ≤ n → concat (file_blocks n contents) = contents.
Proof.
  revert contents; induction n as [|n IH]; intros contents Hn; [by destruct contents; [|cbn in Hn; lia]|].
  cbn [file_blocks]. destruct contents as [|c contents]; [done|]. cbn [concat].
  rewrite IH; [apply take_drop|]. rewrite length_drop.
  assert (0 < BUFSIZ) by (apply (Nat.lt_le_trans _ 1); [lia | vm_compute; lia]). lia.
Qed.

Lemma send_seq_1_1 l s :
  sender_ok s → s_framing s = FRAMING_1_1 → Forall (λ b, Forall is_ascii7 (raw b)) l →
  ∃ s', send_seq false l s = (Ok tt, s') ∧ sender_ok s' ∧ s_framing s' = FRAMING_1_1 ∧
    accepted s' = accepted s ++ chunks_1_1 (raw <$> l).
Proof.
  intros Hok Hfr Hl. revert s Hok Hfr. induction Hl as [|b l Hb _ IH]; intros s Hok Hfr; cbn [send_seq].
  - exists s. split_and!; [done..|]. by rewrite app_nil_r.
  - unfold send_with, send. rewrite decide_True by done.
    assert (Hd : str_data b = Ok (raw b)) by (destruct b; [done | by apply str_data_ascii]).
    assert (Hlen : buf_len b = length (raw b)) by (destruct b; [by apply str_len_ascii | done]).
    rewrite Hd, Hlen. destruct (_send_str (chunk (length (raw b)) (raw b)) s Hok) as
      (s1 & -> & Hok1 & Hf1 & Ha1).
    destruct (IH s1 Hok1 ltac:(congruence)) as (s2 & -> & Hok2 & Hf2 & Ha2). exists s2.
    split_and!; [done | done | done |]. rewrite Ha2, Ha1, <-app_assoc. done.
Qed.

(** The parts of the request of a payload file. *)
Definition payload_parts (o : opts) (contents : pystr) : list pystr :=
  (rpc_open :: rpc_head o) ++ file_blocks (length contents) contents ++ (rpc_tail o ++ [py"</rpc>"]).

Lemma send_seq_app r l1 l2 s :
  send_seq r (l1 ++ l2) s =
    match send_seq r l1 s with (Raise e, s') => (Raise e, s') | (Ok _, s') => send_seq r l2 s' end.
Proof.
  revert s; induction l1 as [|b l1 IH]; intros s; [done|]. cbn. destruct (send_with r b s) as [[u|e] s']; [|done].
  apply IH.
Qed.

Lemma file_blocks_ok n contents : Forall is_ascii7 contents → Forall chunk_ok (file_blocks n contents).
Proof.
  revert contents; induction n as [|n IH]; intros contents Ha; [constructor|]. cbn [file_blocks].
  destruct contents as [|c contents]; [constructor|].
  assert (HB : (Z.of_nat BUFSIZ = 16384)%Z) by (unfold BUFSIZ; rewrite Z2Nat.id; lia).
  constructor; [|by apply IH, Forall_drop]. split_and!.
  - intros Hn%(f_equal length). rewrite length_take in Hn. cbn [length] in Hn. lia.
  - rewrite length_take. unfold MAX_UINT32. lia.
  - by apply Forall_take.
Qed.

(** A short literal or formatted text is a chunk. *)
Lemma chunk_ok_short t : t ≠ [] → (Z.of_nat (length t) ≤ MAX_UINT32)%Z → Forall is_ascii7 t → chunk_ok t.
Proof. done. Qed.

#[export] Instance chunk_ok_dec c : Decision (chunk_ok c).
Proof. unfold chunk_ok. apply _. Defined.

Lemma payload_parts_ok o contents :
  Forall is_ascii7 (db o) → (Z.of_nat (length (db o)) ≤ 1000)%Z → Forall is_ascii7 contents →
  Forall chunk_ok (payload_parts o contents).
Proof.
  intros Hdb Hlen Hc. unfold payload_parts. apply Forall_app. split; [|apply Forall_app; split].
  - constructor; [vm_decide|]. unfold rpc_head.
    assert (Hf : ∀ a b : pystr, bool_decide (Forall is_ascii7 a) = true → bool_decide (Forall is_ascii7 b) = true →
      a ≠ [] → (Z.of_nat (length a + length b) ≤ 1000)%Z → chunk_ok (a ++ db o ++ b)).
    { intros a b Ha Hb Hne Hl. apply bool_decide_eq_true in Ha, Hb. split_and!.
      - by destruct a.
      - rewrite !length_app. unfold MAX_UINT32. lia.
      - rewrite !Forall_app. done. }
    case_decide; [|case_decide; [|case_decide; [|constructor]]]; apply Forall_singleton;
      fmt_norm; rewrite !app_assoc, <-(app_assoc _ (db o)), app_nil_r;
      (apply Hf; [vm_compute; reflexivity | vm_compute; reflexivity | done | vm_compute; congruence]).
  - by apply file_blocks_ok.
  - apply Forall_app. split; [|vm_decide]. unfold rpc_tail. repeat case_decide; vm_decide.
Qed.

Lemma send_payload_1_1 o contents s :
  sender_ok s → s_framing s = FRAMING_1_1 →
  Forall (Forall is_ascii7) (payload_parts o contents) →
  ∃ s', send_payload o contents s = (Ok tt, s') ∧ saved s' = BStr [] ∧
    concat (raw <$> sent s') = accepted s ++ chunks_1_1 (payload_parts o contents) ++ EOM_1_1.
Proof.
  intros Hok Hfr Ha. unfold payload_parts in *.
  apply Forall_app in Ha as [H1 [H2 H3]%Forall_app]. unfold send_payload.
  assert (Hraw : ∀ (f : pystr → pybuf) l, (∀ t, raw (f t) = t) → Forall (Forall is_ascii7) l →
    Forall (λ b, Forall is_ascii7 (raw b)) (f <$> l) ∧ raw <$> (f <$> l) = l).
  { intros f l Hf Hl. split.
    - apply Forall_fmap. eapply Forall_impl; [exact Hl|]. intros t Ht. cbn. by rewrite Hf.
    - rewrite <-list_fmap_compose. rewrite <-(list_fmap_id l) at 2. apply list_fmap_ext. intros i t _. apply Hf. }
  destruct (Hraw BStr _ ltac:(done) H1) as [Ha1 Hr1].
  destruct (Hraw BBytes _ ltac:(done) H2) as [Ha2 Hr2].
  destruct (Hraw BStr _ ltac:(done) H3) as [Ha3 Hr3].
  destruct (send_seq_1_1 (BStr <$> (rpc_open :: rpc_head o)) s Hok Hfr Ha1) as (s1 & -> & Hok1 & Hf1 & Hacc1).
  destruct (send_seq_1_1 (BBytes <$> file_blocks (length contents) contents) s1 Hok1 Hf1 Ha2) as
    (s2 & -> & Hok2 & Hf2 & Hacc2).
  destruct (send_seq_1_1 (BStr <$> (rpc_tail o ++ [py"</rpc>"])) s2 Hok2 Hf2 Ha3) as
    (s3 & -> & Hok3 & Hf3 & Hacc3).
  destruct (_send_eom_str s3 Hok3) as (s4 & -> & _ & _ & Hsv & Hw). exists s4. split_and!; [done..|].
  rewrite Hw, Hacc3, Hacc2, Hacc1, Hf3. rewrite Hr1, Hr2, Hr3. unfold chunks_1_1.
  rewrite !fmap_app, !concat_app, <-!app_assoc. done.
Qed.

(** ** Properties *)

(** every message the program builds from its options has balanced XML tags,
    when the options are free of markup where they are inserted (names where a
    tag name is expected, no angle bracket and no clashing quote elsewhere), and
    no XPath filter is given for an establish-subscription request. *)
Theorem messages_balanced (read_file : pystr → res pybuf) (filename : option pystr) (o : opts) (m : pystr) :
  opts_ok read_file o → (establish_subscription o ≠ None → xpath o = []) →
  select_request read_file filename o = Ok (Message m) → balanced m = true.
Proof.
  intros Ho Hes Hsel. apply document_balanced.
  assert (Hnone : select_request read_file None o = Ok (Message m)).
  { destruct filename as [[|c f]|]; [done | discriminate | done]. }
  clear Hsel. unfold select_request in Hnone.
  assert (Hmap : ∀ r : res pystr, Message <$> r = Ok (Message m) → r = Ok m).
  { intros [x|e]; cbn; [by intros [= ->] | done]. }
  pose proof (get_msg_document read_file o) as Hget.
  destruct (get_ o). { apply Hmap in Hnone. eapply Hget; [done | by left | done]. }
  destruct (getConfig o) as [d|] eqn:Hgc.
  { apply Hmap in Hnone. eapply Hget; [done | right; left; split; [done|] | done].
    apply (config_db_name read_file); [done | by apply (ok_getConfig _ _ Ho)]. }
  destruct (getData o) as [d|] eqn:Hgd.
  { apply Hmap in Hnone. eapply Hget; [done | right; right; split; [done|] | done].
    unfold config_db. case_decide; [apply (ok_db_plain _ _ Ho) | by apply (ok_getData _ _ Ho)]. }
  clear Hget Hmap Hgc Hgd. do 4 (case_decide; [discriminate|]).
  case_decide; [injection Hnone as <-; apply kill_session_document, (ok_kill _ _ Ho)|].
  destruct (discard_changes o); [injection Hnone as <-; unfold discard_changes_msg; scan_document|].
  destruct (commit o); [injection Hnone as <-; unfold commit_msg; scan_document|].
  destruct (validate o); [injection Hnone as <-; apply validate_document, (ok_db _ _ Ho)|].
  destruct (copy_running_to_startup o);
    [injection Hnone as <-; unfold copy_running_to_startup_msg; scan_document|].
  destruct (get_schema o) as [id|] eqn:Hsc;
    [injection Hnone as <-; by apply get_schema_document, (ok_schema _ _ Ho)|].
  destruct (create_subscription o) as [s|] eqn:Hcs;
    [injection Hnone as <-; apply create_subscription_document;
     [by apply (ok_create _ _ Ho) | apply (ok_xpath _ _ Ho) | apply (ok_start _ _ Ho) | apply (ok_stop _ _ Ho)]|].
  destruct (establish_subscription o) as [s|] eqn:Hest;
    [injection Hnone as <-; rewrite Hes by done; apply establish_subscription_document;
     [by apply (ok_establish _ _ Ho) | apply (ok_start _ _ Ho) | apply (ok_stop _ _ Ho)]|].
  destruct (hello o); [discriminate|]. by destruct (interactive o).
Qed.

(** The framing follows the hello: for a server hello whose capabilities are
    elements with text, the chunked framing is chosen exactly when this side
    advertises 1.1 and one of the server's capabilities is base:1.1; otherwise
    the end-of-message framing stays. *)
Theorem negotiate_framing (vs : list pystr) (ws : dom) (first : pystr) (caps : list pystr) :
  keep_node ws = false → PyStr.strip first ≠ [] →
  let cap t := DomElem NC_NS (py"capability") [DomText t] in
  let hello := DomElem NC_NS (py"hello")
    [ws; DomElem NC_NS (py"capabilities") (ws :: cap first :: (cap <$> caps)); ws] in
  negotiate vs (Some hello) =
    Ok (if decide (py"1.1" ∈ vs ∧ Exists (λ t, PyStr.strip t = BASE_1_1) (first :: caps))
        then FRAMING_1_1 else FRAMING_1_0).
Proof.
  intros Hws Hfirst cap hello.
  assert (Hscan : ∀ l fr, scan_capabilities vs (cap <$> l) fr =
    Ok (if decide (py"1.1" ∈ vs ∧ Exists (λ t, PyStr.strip t = BASE_1_1) l) then FRAMING_1_1 else fr)).
  { induction l as [|t l IH]; intros fr.
    - rewrite decide_False; [done|]. intros [_ Hn]. by apply Exists_nil in Hn.
    - rewrite fmap_cons. cbn [scan_capabilities]. change (is_elem NC_NS (py"capability") (cap t)) with true.
      cbn [andb]. case_bool_decide as Hv; cbn [offers_1_1 cap firstChild mbind res_bind].
      + rewrite IH. f_equal. case_bool_decide as Hb; repeat case_decide; try done;
          rewrite Exists_cons in *; naive_solver.
      + rewrite IH, !decide_False by naive_solver. done. }
  unfold negotiate, hello. cbn [strip List.filter keep_node]. rewrite Hws.
  change (is_elem NC_NS (py"hello") (DomElem NC_NS (py"hello") ?l)) with true. cbv iota.
  cbn [firstChild strip List.filter]. rewrite Hws.
  change (keep_node (cap first)) with true.
  change (is_elem NC_NS (py"capabilities") (DomElem NC_NS (py"capabilities") ?l)) with true. cbv iota.
  assert (Hkeep : List.filter keep_node (cap <$> caps) = cap <$> caps).
  { clear. induction caps as [|t l IH]; [done|]. rewrite fmap_cons. cbn [List.filter].
    change (keep_node (cap t)) with true. by rewrite IH. }
  rewrite Hkeep. assert (Hs : strip (cap first) = cap first).
  { unfold cap, strip. cbn [List.filter keep_node]. by rewrite bool_decide_eq_false_2. }
  rewrite Hs, <-fmap_cons. apply Hscan.
Qed.

(** A request from a payload file, sent with the chunked framing, reaches the
    server as one message: the rpc with the file's contents in its place; for
    ASCII contents of any length and every cutting of the stream into reads. *)
Theorem payload_received (o : opts) (contents rest : pystr) (tmo : option Z) (inc : list recv_event)
    (s' : sender) :
  Forall is_ascii7 (db o) → (Z.of_nat (length (db o)) ≤ 1000)%Z → Forall is_ascii7 contents →
  send_payload o contents (new_sender FRAMING_1_1) = (Ok tt, s') →
  live tmo inc → inc_data inc = concat (raw <$> sent s') ++ rest →
  ∃ t', recv_msg tmo (new_transport FRAMING_1_1 inc) =
      (Ok (rpc_open ++ concat (rpc_head o) ++ contents ++ concat (rpc_tail o) ++ py"</rpc>"), t') ∧
    stream t' = rest.
Proof.
  intros Hdb Hlen Hc Hsend Hl Hinc.
  pose proof (payload_parts_ok o contents Hdb Hlen Hc) as Hok.
  assert (Ha : Forall (Forall is_ascii7) (payload_parts o contents)).
  { eapply Forall_impl; [exact Hok|]. by intros ? (?&?&?). }
  destruct (send_payload_1_1 o contents (new_sender FRAMING_1_1)) as (s2 & Hs2 & _ & Hw); [done..|].
  rewrite Hsend in Hs2. injection Hs2 as <-. change (accepted (new_sender FRAMING_1_1)) with (@nil ascii) in Hw.
  cbn [app] in Hw. rewrite Hw, <-app_assoc in Hinc.
  destruct (receives_1_1 (payload_parts o contents) tmo (new_transport FRAMING_1_1 inc) rest) as
    (t' & Hr & _ & _ & _ & Hs); [done | done | done | done |].
  exists t'. split; [|done]. unfold recv_msg. cbn [new_transport buf_bytes incoming length].
  erewrite recv_msg_go_receives; [|done |].
  - cbn [app]. do 2 f_equal. unfold payload_parts. cbn [app concat].
    rewrite !concat_app, file_blocks_concat by done. cbn [concat]. by rewrite app_nil_r.
  - rewrite Hinc, length_app. pose proof (length_chunks_1_1 (payload_parts o contents)). lia.
Qed.

(** The loop that receives a reply prints exactly the server's message, under
    both framings and for every cutting of the stream into reads, as long as the
    server does not pause for longer than the timeout. *)
Theorem recv_reply_prints (t : transport) (msg rest : pystr) (cs : list pystr) :
  live (Some 1%Z) (incoming t) →
  (framing t = FRAMING_1_0 ∧ eom_found t = false ∧ stream t = msg ++ EOM_1_0 ++ rest ∧ no_eom msg ∧
     Forall is_ascii7 msg) ∨
  (framing t = FRAMING_1_1 ∧ stream t = chunks_1_1 cs ++ EOM_1_1 ++ rest ∧ Forall chunk_ok cs ∧ msg = concat cs) →
  ∃ n t', (∀ fuel, n ≤ fuel → recv_reply fuel 0 [] t = (Ok (ReplyMessage msg), t')) ∧ stream t' = rest.
Proof.
  intros Hl [(Hfr & He & Hs & Hno & Ha)|(Hfr & Hs & Hok & ->)].
  - destruct (receives_1_0 (Some 1%Z) t msg rest) as (cs' & t' & Hr & Hcc & _ & _ & _ & _ & Hst); [done..|].
    exists (S (length cs')), t'. split; [|done]. intros fuel Hf.
    rewrite (recv_reply_receives _ _ _ _ _ _ Hr) by lia. by rewrite Hcc.
  - destruct (receives_1_1 cs (Some 1%Z) t rest) as (t' & Hr & _ & _ & _ & Hst); [done..|].
    exists (S (length cs)), t'. split; [|done]. intros fuel Hf.
    by rewrite (recv_reply_receives _ _ _ _ _ _ Hr) by lia.
Qed.

(** ** Witnesses *)

Definition ex_opts : opts :=
  {| version := None; debug := false; username := py"admin"; password := py"admin"; proto := py"ssh";
     host := py"localhost"; port := 2022; listen := false; listen_address := py"0.0.0.0";
     listen_port := 4334; iter := 1; interactive := false; style := py"default"; privKeyType := [];
     privKeyFile := []; groups := []; supgroups := []; hello := false; get_ := false;
     getConfig := Some (py"default"); getData := None; max_depth := []; config_filter := None;
     subtree_filter := []; db := py"running"; wdefaults := py"trim"; winactive := true;
     xpath := py"/interfaces/interface[name='if_1']"; kill_session := []; discard_changes := false;
     commit := false; validate := false; copy_running_to_startup := false; copy := [];
     edit := py"edit.xml"; edit_data := []; get_schema := None; create_subscription := None;
     establish_subscription := None; rpc := []; start_time := []; stop_time := []; rpc_attribute := [] |}.

(** An empty command line is refused, and its options are accepted otherwise. *)
Lemma default_opts_no_command f :
  select_request f None default_opts = Ok NoCommand ∧ validate_options true default_opts = Ok tt.
Proof. done. Qed.

Lemma ex_opts_ok f : opts_ok f ex_opts.
Proof. constructor; cbn; try vm_decide; try done. intros d [= <-]. vm_decide. Qed.

Definition no_file (name : pystr) : res pybuf := Raise PyException.

Lemma messages_balanced_witness :
  ∃ m, select_request no_file None ex_opts = Ok (Message m) ∧ balanced m = true.
Proof.
  eexists. split; [reflexivity|].
  apply (messages_balanced no_file None ex_opts); [apply ex_opts_ok | done | reflexivity].
Defined.

Lemma negotiate_framing_witness :
  negotiate [py"1.0"; py"1.1"] (Some (DomElem NC_NS (py"hello")
    [DomText nl; DomElem NC_NS (py"capabilities") [DomText nl;
       DomElem NC_NS (py"capability") [DomText BASE_1_0];
       DomElem NC_NS (py"capability") [DomText (nl ++ BASE_1_1)]]; DomText nl])) = Ok FRAMING_1_1.
Proof.
  apply (negotiate_framing [py"1.0"; py"1.1"] (DomText nl) BASE_1_0 [nl ++ BASE_1_1]);
    [reflexivity | discriminate].
Defined.

Definition ex_payload : pystr := py"<a/>".
Definition ex_sent : sender := (send_payload ex_opts ex_payload (new_sender FRAMING_1_1)).2.

Lemma payload_received_witness :
  ∃ t', recv_msg None (new_transport FRAMING_1_1 [Data (concat (raw <$> sent ex_sent)); Data (py"x")]) =
      (Ok (rpc_open ++ concat (rpc_head ex_opts) ++ ex_payload ++ concat (rpc_tail ex_opts) ++ py"</rpc>"), t') ∧
    stream t' = py"x".
Proof.
  apply (payload_received ex_opts ex_payload (py"x") None
    [Data (concat (raw <$> sent ex_sent)); Data (py"x")] ex_sent);
    [vm_decide | vm_decide | vm_decide | vm_compute; reflexivity | | ].
  - constructor; [|by repeat constructor]. intros Hn%(f_equal length). vm_compute in Hn. discriminate Hn.
  - unfold inc_data. cbn [fmap list_fmap ev_data concat]. by rewrite app_nil_r.
Defined.

Lemma recv_reply_prints_witness :
  ∃ n t', (∀ fuel, n ≤ fuel →
    recv_reply fuel 0 [] (new_transport FRAMING_1_0 [Data (py"<ok/>]]"); Data (py">]]>")]) =
      (Ok (ReplyMessage (py"<ok/>")), t')) ∧ stream t' = [].
Proof.
  apply (recv_reply_prints (new_transport FRAMING_1_0 [Data (py"<ok/>]]"); Data (py">]]>")])
    (py"<ok/>") [] []); [by repeat constructor|].
  left. split_and!; [reflexivity | reflexivity | reflexivity | reflexivity | vm_decide].
Defined.

(** ** Limits *)

(** An establish-subscription request with an XPath filter is never balanced: the
    filter's end tag lacks its slash. *)
Lemma establish_subscription_unbalanced :
  balanced (establish_subscription_msg (py"NETCONF") (py"/a") [] []) = false.
Proof. vm_compute. reflexivity. Qed.

(** A payload file cannot be sent under the end-of-message framing: its bytes
    cannot follow the saved text. *)
Lemma send_payload_1_0_TypeError :
  (send_payload ex_opts ex_payload (new_sender FRAMING_1_0)).1 = Raise TypeError.
Proof. vm_compute. reflexivity. Qed.

(** A pause longer than a second inside a message loses what was read of it: the
    reply that is printed is the rest only. *)
Lemma recv_reply_pause_truncates :
  (recv_reply 10 0 [] (new_transport FRAMING_1_0 [Data (py"<ok/"); Quiet; Data (py">abc]]>]]>")])).1 =
    Ok (ReplyMessage (py">abc")).
Proof. vm_compute. reflexivity. Qed.

(** The subtree filter read from a file is inserted as the text of a bytes object. *)
Lemma subtree_filter_repr : file_text (BBytes (py"<a/>")) = py"b'<a/>'".
Proof. reflexivity. Qed.
