(* ===== verification/SyncNc.v ===== *)
(** * The CDB to NETCONF synchroniser: confd-sync-py/app/cdbl-sync-nc.py

    A two-phase CDB subscriber that sends configuration changes to NETCONF
    servers: the modifications of a transaction are rendered as an edit-config,
    one child process per server runs netconf-console, and a phase goes on only
    when every child has been joined and the queue of errors is empty.  The children
    decode what netconf-console printed, and report on a queue that is a pipe of
    limited size: both are modelled.

    ConfD (values, schema hashes, CDB) and netconf-console are parameters.  What
    the handlers print on the terminal is left out. *)

From Stdlib Require Import Ascii String.
From S2P Require Import Prelude PyStr Xml.
From S2P Require NetconfFraming.

(** ** Tagged values *)

(** A ConfD value, as far as the code tells its types apart. *)
Inductive cvalue (V : Type) :=
  | C_XMLBEGIN
  | C_XMLEND
  | C_NOEXISTS
  | C_XMLBEGINDEL
  | C_XMLTAG
  | C_LIST (v : V)
  | C_LEAF (v : V).
Arguments C_XMLBEGIN {_}.
Arguments C_XMLEND {_}.
Arguments C_NOEXISTS {_}.
Arguments C_XMLBEGINDEL {_}.
Arguments C_XMLTAG {_}.
Arguments C_LIST {_} _.
Arguments C_LEAF {_} _.

Record tagval (V : Type) := { tv_ns : Z; tv_tag : pystr; tv_v : cvalue V }.
Arguments tv_ns {_} _.
Arguments tv_tag {_} _.
Arguments tv_v {_} _.
Arguments Build_tagval {_} _ _ _.

(** What the code asks of the ConfD library: the namespace and the prefix of a
    schema hash, and the text of a value at a schema path of a namespace. *)
Class ConfdLib (V : Type) := {
  hash2str : Z → pystr;
  ns2prefix : Z → pystr;
  val2str : V → pystr * pystr → res pystr
}.

(** ** Messages *)

Definition edit_config_msg (mods : pystr) : pystr := fmt (xq"<?xml version=`1.0` encoding=`UTF-8`?>
<hello xmlns=`urn:ietf:params:xml:ns:netconf:base:1.0`>
  <capabilities>
    <capability>urn:ietf:params:netconf:base:1.0</capability>
  </capabilities>
</hello>
]]>]]>
<?xml version=`1.0` encoding=`UTF-8`?>
<rpc xmlns=`urn:ietf:params:xml:ns:netconf:base:1.0` message-id=`1`>
  <discard-changes/>
</rpc>
]]>]]>
<?xml version=`1.0` encoding=`UTF-8`?>
<rpc xmlns=`urn:ietf:params:xml:ns:netconf:base:1.0` message-id=`2`>
  <edit-config xmlns:nc=`urn:ietf:params:xml:ns:netconf:base:1.0`>
    <target>
      <candidate/>
    </target>
    <test-option>set</test-option>
    <config>
      {0}
    </config>
  </edit-config>
</rpc>
]]>]]>
<?xml version=`1.0` encoding=`UTF-8`?>
<rpc xmlns=`urn:ietf:params:xml:ns:netconf:base:1.0` message-id=`3`>
  <validate>
    <source>
      <candidate/>
    </source>
  </validate>
</rpc>
]]>]]>
<?xml version=`1.0` encoding=`UTF-8`?>
<rpc xmlns=`urn:ietf:params:xml:ns:netconf:base:1.0` message-id=`4`>
  <close-session/>
</rpc>
]]>]]>") [mods].

Definition commit_msg : pystr := xq"<?xml version=`1.0` encoding=`UTF-8`?>
<hello xmlns=`urn:ietf:params:xml:ns:netconf:base:1.0`>
  <capabilities>
    <capability>urn:ietf:params:netconf:base:1.0</capability>
  </capabilities>
</hello>
]]>]]>
<?xml version=`1.0` encoding=`UTF-8`?>
<rpc xmlns=`urn:ietf:params:xml:ns:netconf:base:1.0` message-id=`5`>
  <commit>
    <confirmed/>
    <persist>sync_commit</persist>
  </commit>
</rpc>
]]>]]>
<?xml version=`1.0` encoding=`UTF-8`?>
<rpc xmlns=`urn:ietf:params:xml:ns:netconf:base:1.0` message-id=`6`>
  <close-session/>
</rpc>xs
]]>]]>".

Definition confirm_msg : pystr := xq"<?xml version=`1.0` encoding=`UTF-8`?>
<hello xmlns=`urn:ietf:params:xml:ns:netconf:base:1.0`>
  <capabilities>
    <capability>urn:ietf:params:netconf:base:1.0</capability>
  </capabilities>
</hello>
]]>]]>
<?xml version=`1.0` encoding=`UTF-8`?>
<rpc xmlns=`urn:ietf:params:xml:ns:netconf:base:1.0` message-id=`7`>
  <commit>
    <persist-id>sync_commit</persist-id>
  </commit>
</rpc>
]]>]]>
<?xml version=`1.0` encoding=`UTF-8`?>
<rpc xmlns=`urn:ietf:params:xml:ns:netconf:base:1.0` message-id=`8`>
  <close-session/>
</rpc>
]]>]]>".

Definition cancel_msg : pystr := xq"<?xml version=`1.0` encoding=`UTF-8`?>
<hello xmlns=`urn:ietf:params:xml:ns:netconf:base:1.0`>
  <capabilities>
    <capability>urn:ietf:params:netconf:base:1.0</capability>
  </capabilities>
</hello>
]]>]]>
<?xml version=`1.0` encoding=`UTF-8`?>
<rpc xmlns=`urn:ietf:params:xml:ns:netconf:base:1.0` message-id=`7`>
  <cancel-commit>
    <persist-id>sync_commit</persist-id>
  </cancel-commit>
</rpc>
]]>]]>
<?xml version=`1.0` encoding=`UTF-8`?>
<rpc xmlns=`urn:ietf:params:xml:ns:netconf:base:1.0` message-id=`8`>
  <close-session/>
</rpc>
]]>]]>".

(** ** Rendering the modifications *)

Definition INDENT_SIZE : Z := 2.
Definition INDENT_STR : ascii := " "%char.

(** [INDENT_STR * indent]. *)
Definition pad (indent : Z) : pystr := replicate (Z.to_nat indent) INDENT_STR.

Section render.
Context {V : Type} `{ConfdLib V}.

(** The path of a tag below [current_path]. *)
Definition sub_path (current_path : pystr) (ns : Z) (tag : pystr) : pystr :=
  current_path ++ py"/" ++ ns2prefix ns ++ py":" ++ tag.

Definition leaf_line (indent : Z) (tag text : pystr) : pystr :=
  pad indent ++ py"<" ++ tag ++ py">" ++ text ++ py"</" ++ tag ++ py">" ++ nl.

Definition delete_line (indent : Z) (tag : pystr) : pystr :=
  pad indent ++ py"<" ++ tag ++ xq" nc:operation=`delete`>" ++ nl.

Definition get_value (tv : tagval V) (indent : Z) (current_path root_ns : pystr)
    : res (pystr * Z * pystr) :=
  let ns := hash2str (tv_ns tv) in
  let tag := tv_tag tv in
  match tv_v tv with
  | C_XMLBEGIN =>
      Ok (pad indent ++ py"<" ++ tag ++ xq" xmlns=`" ++ ns ++ xq"`>" ++ nl,
          (indent + INDENT_SIZE)%Z, sub_path current_path (tv_ns tv) tag)
  | C_XMLEND =>
      Ok (pad indent ++ py"</" ++ tag ++ py">" ++ nl,
          (indent - INDENT_SIZE)%Z, default [] (before_last "/"%char current_path))
  | C_NOEXISTS => Ok (delete_line indent tag, indent, current_path)
  | C_XMLBEGINDEL =>
      Ok (delete_line indent tag, (indent + INDENT_SIZE)%Z, sub_path current_path (tv_ns tv) tag)
  | C_XMLTAG => Ok (pad indent ++ py"<" ++ tag ++ py"/>" ++ nl, indent, current_path)
  | C_LIST v =>
      ll_chars ← val2str v (root_ns, sub_path current_path (tv_ns tv) tag);
      Ok (concat (leaf_line indent tag <$> words ll_chars), indent, current_path)
  | C_LEAF v =>
      text ← val2str v (root_ns, sub_path current_path (tv_ns tv) tag);
      Ok (leaf_line indent tag text, indent, current_path)
  end.

(** The loop of [process_modifications]. *)
Fixpoint render_loop (mods : list (tagval V)) (indent : Z) (current_path root_ns result : pystr)
    : res (pystr * Z * pystr) :=
  match mods with
  | [] => Ok (result, indent, current_path)
  | tv :: rest =>
      x ← get_value tv indent current_path root_ns;
      let '(text, indent', current_path') := x in
      render_loop rest indent' current_path' root_ns (result ++ text)
  end.

(** The operation [process_modifications] sends. *)
Definition modifications_op (mods : list (tagval V)) : res pystr :=
  tv ← py_index mods 1;
  x ← render_loop mods 0 [] (hash2str (tv_ns tv)) [];
  Ok (edit_config_msg x.1.1).
End render.

(** ** The servers in CDB *)

(** An entry of the list netconf-server: configuration, and the operational leaf
    subscription-id once it is set. *)
Record nc_server := {
  s_name : pystr; remote_address : pystr; remote_port : pystr; username : pystr; password : pystr;
  subscription_path : pystr; subscription_priority : Z; subscription_id : option Z
}.

Record cdb_data := { netconf_servers : list nc_server; server_priority : Z }.

(** [int(cdb.get(...))] of the leaf; reading a leaf that does not exist raises. *)
Definition get_subscription_id (s : nc_server) : res Z :=
  match subscription_id s with Some id => Ok id | None => Raise PyException end.

(** The loop over the servers: the last values of [i] and [id], if any. *)
Fixpoint find_sid (sid : Z) (l : list nc_server) (i : nat) (last : option (nat * Z))
    : res (option (nat * Z)) :=
  match l with
  | [] => Ok last
  | s :: l' =>
      id ← get_subscription_id s;
      if decide (id = sid) then Ok (Some (i, id)) else find_sid sid l' (S i) (Some (i, id))
  end.

Definition console_cmd (s : nc_server) : pystr :=
  fmt (py"netconf-console --user={0} --password={1} --host={2} --port={3} -")
    [username s; password s; remote_address s; remote_port s].

(** The shell command [send_netconf_operation] runs and its standard input; a
    subscription of no server is only reported on the terminal. *)
Definition send_netconf_operation (db : cdb_data) (op : pystr) (sid : Z)
    : res (option (pystr * pystr)) :=
  last ← find_sid sid (netconf_servers db) 0 None;
  match last with
  | None => Raise UnboundLocalError
  | Some (i, id) =>
      if decide (id = sid) then
        s ← py_index (netconf_servers db) i;
        Ok (Some (console_cmd s, op))
      else Ok None
  end.

(** ** The child processes *)

Section children.
Context {V : Type} `{ConfdLib V}.

Definition process_modifications (db : cdb_data) (mods : list (tagval V)) (sid : Z)
    : res (option (pystr * pystr)) :=
  op ← modifications_op mods;
  send_netconf_operation db op sid.
End children.

Definition commit (db : cdb_data) (sid : Z) : res (option (pystr * pystr)) :=
  send_netconf_operation db commit_msg sid.

(** The call has the attribute access [sid. q] where [sid, q] was meant. *)
Definition cancel_commit (db : cdb_data) (sid : Z) : res (option (pystr * pystr)) :=
  let op := cancel_msg in
  q ← (Raise AttributeError : res unit);
  send_netconf_operation db op sid.

Definition confirm_commit (db : cdb_data) (sid : Z) : res (option (pystr * pystr)) :=
  send_netconf_operation db confirm_msg sid.

(** The target of a child process: the subscription and the command to run. *)
Definition child : Type := Z * res (option (pystr * pystr)).

(** A child process: it has to run its command, it has what was printed, it waits for
    room in the queue, it has ended, or it died of an exception. *)
Inductive proc :=
  | PRun (sid : Z) (todo : res (option (pystr * pystr)))
  | PReply (output errors : pystr)
  | PBlocked (reply err : pystr)
  | PEnd
  | PDead (e : exn).

Definition blocked (p : proc) : bool := match p with PBlocked _ _ => true | _ => false end.

(** A netconf-console run that took place. *)
Record call := { c_sid : Z; c_cmd : pystr; c_input : pystr; c_reply : pystr; c_err : pystr }.

(** [bytes.decode()]. *)
Definition decode (s : pystr) : res pystr :=
  if NetconfFraming.utf8_valid s then Ok s else Raise UnicodeDecodeError.

(** What makes a reply an error. *)
Definition is_error (reply err : pystr) : bool :=
  contains reply (py"<rpc-error>") || negb (bool_decide (err = [])).

(** The bytes of a call are an error when they are text and the text is one. *)
Definition error_text (output errors : pystr) : bool :=
  NetconfFraming.utf8_valid output && NetconfFraming.utf8_valid errors && is_error output errors.
Definition call_error (c : call) : bool := error_text (c_reply c) (c_err c).

Section phases.
Context {W : Type}.
(** Running a shell command with a standard input: its output and errors. *)
Context (console : pystr → pystr → W → (pystr * pystr) * W).
(** Whether the pipe of the queue, with what is in it, has room for one more message:
    nobody reads from it while the children run. *)
Context (room : list (pystr * pystr) → pystr * pystr → bool).

Record phase := { procs : list proc; queue : list (pystr * pystr); world : W; calls : list call }.

(** [q.put]: without room the writer waits, and with it all others, because it holds
    the lock of the queue. *)
Definition put (m : pystr * pystr) (ph : phase) : proc * phase :=
  if negb (existsb blocked (procs ph)) && room (queue ph) m
  then (PEnd, {| procs := procs ph; queue := queue ph ++ [m]; world := world ph; calls := calls ph |})
  else (PBlocked m.1 m.2, ph).

(** The next action of a process, with its effect. *)
Definition proc_step (p : proc) (ph : phase) : proc * phase :=
  match p with
  | PRun sid (Raise e) => (PDead e, ph)
  | PRun sid (Ok None) => (PEnd, ph)
  | PRun sid (Ok (Some (cmd, input))) =>
      let '((output, errors), w) := console cmd input (world ph) in
      (PReply output errors,
       {| procs := procs ph; queue := queue ph; world := w;
          calls := calls ph ++ [{| c_sid := sid; c_cmd := cmd; c_input := input;
                                  c_reply := output; c_err := errors |}] |})
  | PReply output errors =>
      match decode output with
      | Raise e => (PDead e, ph)
      | Ok reply =>
          match decode errors with
          | Raise e => (PDead e, ph)
          | Ok errstr => if is_error reply errstr then put (reply, errstr) ph else (PEnd, ph)
          end
      end
  | PBlocked reply err => (PBlocked reply err, ph)
  | PEnd => (PEnd, ph)
  | PDead e => (PDead e, ph)
  end.

(** The scheduler lets process [i] make a step. *)
Definition phase_step (ph : phase) (i : nat) : phase :=
  match procs ph !! i with
  | None => ph
  | Some p =>
      let '(p', ph') := proc_step p ph in
      {| procs := <[i := p']> (procs ph); queue := queue ph'; world := world ph'; calls := calls ph' |}
  end.

Definition phase_run (sched : list nat) (ph : phase) : phase := foldl phase_step ph sched.

(** Start the processes, let them run in the order of [sched], and join them: joining
    returns when none of them is blocked. *)
Definition join_order (n : nat) : list nat := concat ((λ i, [i; i]) <$> seq 0 n).
Definition start_and_join (sched : list nat) (children : list child) (q : list (pystr * pystr)) (w : W) : phase :=
  phase_run (sched ++ join_order (length children))
    {| procs := (λ '(sid, todo), PRun sid todo) <$> children; queue := q; world := w; calls := [] |}.
Definition joined (ph : phase) : bool := negb (existsb blocked (procs ph)).

(** A queue that never fills. *)
Definition unlimited (q : list (pystr * pystr)) (m : pystr * pystr) : bool := true.

(** ** The handlers of the subscription *)

(** What a handler did: the runs of netconf-console in its phases, and whether
    the subscription was synchronised. *)
Record outcome := { o_first : list call; o_second : list call; o_synced : bool; o_world : W }.

Section handlers.
Context {V : Type} `{ConfdLib V}.

(** [list(q.queue)]: a SimpleQueue has no attribute [queue]. *)
Definition queue_list (q : list (pystr * pystr)) : res (list pystr) := Raise AttributeError.

Definition handle_sub_prepare (sched1 sched2 : list nat) (db : cdb_data)
    (get_modifications : Z → list (tagval V)) (sids : list Z) (w : W) : res unit * outcome :=
  let processes := omap (λ sid,
    match get_modifications sid with
    | [] => None
    | mods => Some (sid, process_modifications db mods sid)
    end) sids in
  let ph := start_and_join sched1 processes [] w in
  if negb (joined ph) then (Raise Blocked, {| o_first := calls ph; o_second := []; o_synced := false; o_world := world ph |})
  else match queue ph with
  | _ :: _ =>
      (_ ← queue_list (queue ph); Ok tt,
       {| o_first := calls ph; o_second := []; o_synced := false; o_world := world ph |})
  | [] =>
      let processes := (λ sid, (sid, commit db sid)) <$> sids in
      let ph2 := start_and_join sched2 processes (queue ph) (world ph) in
      if negb (joined ph2) then (Raise Blocked, {| o_first := calls ph; o_second := calls ph2; o_synced := false; o_world := world ph2 |})
      else match queue ph2 with
      | _ :: _ =>
          (_ ← queue_list (queue ph2); Ok tt,
           {| o_first := calls ph; o_second := calls ph2; o_synced := false; o_world := world ph2 |})
      | [] =>
          (Ok tt, {| o_first := calls ph; o_second := calls ph2; o_synced := true; o_world := world ph2 |})
      end
  end.

(** One phase of [todo] for every subscription, then the synchronisation. *)
Definition one_phase (sched : list nat) (todo : Z → res (option (pystr * pystr))) (sids : list Z) (w : W)
    : res unit * outcome :=
  let processes := (λ sid, (sid, todo sid)) <$> sids in
  let ph := start_and_join sched processes [] w in
  let done b := {| o_first := calls ph; o_second := []; o_synced := b; o_world := world ph |} in
  if negb (joined ph) then (Raise Blocked, done false)
  else match queue ph with
  | _ :: _ => (_ ← queue_list (queue ph); Ok tt, done false)
  | [] => (Ok tt, done true)
  end.

Definition handle_sub_abort (sched : list nat) (db : cdb_data) (sids : list Z) (w : W) : res unit * outcome :=
  one_phase sched (cancel_commit db) sids w.

Definition handle_sub_commit (sched : list nat) (db : cdb_data) (sids : list Z) (w : W) : res unit * outcome :=
  one_phase sched (confirm_commit db) sids w.
End handlers.
End phases.
Arguments phase : clear implicits.
Arguments outcome : clear implicits.

(** ** The daemon *)

Record subscription := { sub_sid : Z; sub_prio : Z; sub_path_of : pystr }.

Definition CLIENT_PATH : pystr := py"/nsc:netconf-client".
Definition SERVER_PATH : pystr := CLIENT_PATH ++ py"/netconf-server".

Section daemon.
(** The identifier of the n-th subscription of a new subscription socket. *)
Context (subscribe : nat → Z).

(** The loop that subscribes for every server and stores the identifier. *)
Fixpoint subscribe_servers (l : list nc_server) (i : nat) : list nc_server * list subscription :=
  match l with
  | [] => ([], [])
  | s :: l' =>
      let sid := subscribe i in
      let '(servers, css) := subscribe_servers l' (S i) in
      ({| s_name := s_name s; remote_address := remote_address s; remote_port := remote_port s;
          username := username s; password := password s; subscription_path := subscription_path s;
          subscription_priority := subscription_priority s; subscription_id := Some sid |} :: servers,
       {| sub_sid := sid; sub_prio := subscription_priority s; sub_path_of := subscription_path s |} :: css)
  end.

(** CDB with the identifiers, the subscriptions of the socket, and the identifier
    of the subscription for the list of servers itself. *)
Definition handle_netconf_server_list (db : cdb_data) : cdb_data * (list subscription * Z) :=
  let '(servers, css) := subscribe_servers (netconf_servers db) 0 in
  let server_sid := subscribe (length (netconf_servers db)) in
  ({| netconf_servers := servers; server_priority := server_priority db |},
   (css ++ [{| sub_sid := server_sid; sub_prio := server_priority db; sub_path_of := SERVER_PATH |}],
    server_sid)).

(** The action sync-to: the subscriptions it triggers and its result. *)
Definition server_by_name (db : cdb_data) (name : pystr) : res nc_server :=
  match List.find (λ s, bool_decide (s_name s = name)) (netconf_servers db) with
  | Some s => Ok s
  | None => Raise PyException
  end.

Definition cb_action (db : cdb_data) (all : bool) (server : list pystr) : res (list Z * pystr) :=
  if all || bool_decide (server = []) then
    sub_points ← res_map get_subscription_id (netconf_servers db);
    Ok (sub_points, py"Synchronized the configuration with all NETCONF servers")
  else
    sub_points ← res_map (λ name, s ← server_by_name db name; get_subscription_id s) server;
    Ok (sub_points, fmt (py"Synchronized the configuration with {0} NETCONF servers") [join (py", ") server]).

Inductive sub_type := SUB_PREPARE | SUB_ABORT | SUB_COMMIT.

Context {W V : Type} `{ConfdLib V}.
Context (console : pystr → pystr → W → (pystr * pystr) * W) (room : list (pystr * pystr) → pystr * pystr → bool).

(** What [read_subscription_socket2] returns, with what happened to the data of CDB
    before, the modifications CDB has for the subscriptions and the orders in which the
    child processes run. *)
Record sub_event := {
  e_type : sub_type; e_sids : list Z; e_cdb : cdb_data → cdb_data; e_mods : Z → list (tagval V);
  e_sched1 : list nat; e_sched2 : list nat
}.

Record daemon := { css : list subscription; server_sid : Z; db : cdb_data; d_world : W }.

(** One iteration of the loop of [run]: the new state and what was done, or the
    exception that ends the daemon. *)
Definition run_step (d : daemon) (e : sub_event) : res daemon * outcome W :=
  let data := e_cdb e (db d) in
  let idle := {| o_first := []; o_second := []; o_synced := false; o_world := d_world d |} in
  let after (x : res unit * outcome W) :=
    (_ ← x.1; Ok {| css := css d; server_sid := server_sid d; db := data; d_world := o_world x.2 |}, x.2) in
  match e_type e with
  | SUB_PREPARE => after (handle_sub_prepare console room (e_sched1 e) (e_sched2 e) data (e_mods e) (e_sids e) (d_world d))
  | SUB_ABORT => after (handle_sub_abort console room (e_sched1 e) data (e_sids e) (d_world d))
  | SUB_COMMIT =>
      match e_sids e with
      | [] => (Raise IndexError, idle)
      | sid :: _ =>
          if decide (sid = server_sid d) then
            let '(db', (new_css, new_sid)) := handle_netconf_server_list data in
            (Ok {| css := new_css; server_sid := new_sid; db := db'; d_world := d_world d |},
             {| o_first := []; o_second := []; o_synced := true; o_world := d_world d |})
          else after (handle_sub_commit console room (e_sched1 e) data (e_sids e) (d_world d))
      end
  end.

(** The daemon on a sequence of events, until one ends it. *)
Fixpoint run_loop (d : daemon) (es : list sub_event) : res daemon * list (outcome W) :=
  match es with
  | [] => (Ok d, [])
  | e :: es' =>
      match run_step d e with
      | (Raise x, o) => (Raise x, [o])
      | (Ok d', o) => let '(r, os) := run_loop d' es' in (r, o :: os)
      end
  end.

Definition run (db0 : cdb_data) (w : W) (es : list sub_event) : res daemon * list (outcome W) :=
  let '(db1, (css0, sid0)) := handle_netconf_server_list db0 in
  run_loop {| css := css0; server_sid := sid0; db := db1; d_world := w |} es.
End daemon.

(** ** Modification trees

    What [cdb.get_modifications] lists: forests of containers and list entries,
    created, modified or deleted, and of leaves. *)
Section trees.
Context {V : Type} `{ConfdLib V}.

Inductive leafval :=
  | LNoExists
  | LTag
  | LList (v : V)
  | LVal (v : V).

(** A forest, first child and next sibling. *)
Inductive forest :=
  | FNil
  | FNode (del : bool) (ns : Z) (tag : pystr) (children rest : forest)
  | FLeaf (ns : Z) (tag : pystr) (l : leafval) (rest : forest).

Definition leaf_cvalue (l : leafval) : cvalue V :=
  match l with LNoExists => C_NOEXISTS | LTag => C_XMLTAG | LList v => C_LIST v | LVal v => C_LEAF v end.

Fixpoint flatten (f : forest) : list (tagval V) :=
  match f with
  | FNil => []
  | FNode del ns tag children rest =>
      Build_tagval ns tag (if del then C_XMLBEGINDEL else C_XMLBEGIN) ::
      flatten children ++ Build_tagval ns tag C_XMLEND :: flatten rest
  | FLeaf ns tag l rest => Build_tagval ns tag (leaf_cvalue l) :: flatten rest
  end.

(** The text of a forest at a depth and a path, by recursion on the forest. *)
Definition render_leaf (root_ns : pystr) (indent : Z) (path : pystr) (ns : Z) (tag : pystr) (l : leafval) : res pystr :=
  match l with
  | LNoExists => Ok (delete_line indent tag)
  | LTag => Ok (pad indent ++ py"<" ++ tag ++ py"/>" ++ nl)
  | LList v =>
      text ← val2str v (root_ns, sub_path path ns tag);
      Ok (concat (leaf_line indent tag <$> words text))
  | LVal v =>
      text ← val2str v (root_ns, sub_path path ns tag);
      Ok (leaf_line indent tag text)
  end.

Definition start_line (del : bool) (indent ns : Z) (tag : pystr) : pystr :=
  if del then delete_line indent tag
  else pad indent ++ py"<" ++ tag ++ xq" xmlns=`" ++ hash2str ns ++ xq"`>" ++ nl.

Fixpoint render (root_ns : pystr) (indent : Z) (path : pystr) (f : forest) : res pystr :=
  match f with
  | FNil => Ok []
  | FNode del ns tag children rest =>
      inner ← render root_ns (indent + INDENT_SIZE) (sub_path path ns tag) children;
      after ← render root_ns indent path rest;
      Ok (start_line del indent ns tag ++ inner ++
          pad (indent + INDENT_SIZE) ++ py"</" ++ tag ++ py">" ++ nl ++ after)
  | FLeaf ns tag l rest =>
      text ← render_leaf root_ns indent path ns tag l;
      after ← render root_ns indent path rest;
      Ok (text ++ after)
  end.

(** Names without a slash, as YANG identifiers and prefixes are. *)
Fixpoint names_ok (f : forest) : Prop :=
  match f with
  | FNil => True
  | FNode _ ns tag children rest =>
      ("/"%char ∉ ns2prefix ns ++ py":" ++ tag) ∧ names_ok children ∧ names_ok rest
  | FLeaf _ _ _ rest => names_ok rest
  end.

Lemma before_last_sub_path path ns tag :
  "/"%char ∉ ns2prefix ns ++ py":" ++ tag → before_last "/"%char (sub_path path ns tag) = Some path.
Proof. intros Hn. unfold sub_path. apply (before_last_app "/"%char path (ns2prefix ns ++ py":" ++ tag) Hn). Qed.

Lemma get_value_leaf ns tag l indent path root_ns :
  get_value (Build_tagval ns tag (leaf_cvalue l)) indent path root_ns =
    (text ← render_leaf root_ns indent path ns tag l; Ok (text, indent, path)).
Proof. destruct l; cbn; try done; by destruct (val2str _ _). Qed.

Lemma get_value_start (del : bool) ns tag indent path root_ns :
  get_value (Build_tagval ns tag (if del then C_XMLBEGINDEL else C_XMLBEGIN)) indent path root_ns =
    Ok (start_line del indent ns tag, (indent + INDENT_SIZE)%Z, sub_path path ns tag).
Proof. by destruct del. Qed.

(** The loop over the flat list renders the forest and is back at the depth and
    the path where it started. *)
Lemma render_loop_forest f root_ns indent path more result :
  names_ok f →
  render_loop (flatten f ++ more) indent path root_ns result =
    (text ← render root_ns indent path f; render_loop more indent path root_ns (result ++ text)).
Proof.
  revert indent path more result.
  induction f as [|del ns tag c IHc r IHr|ns tag l r IHr]; intros indent path more result Hn; cbn [flatten render app].
  - cbn. by rewrite app_nil_r.
  - destruct Hn as (Hname & Hc & Hr). cbn [render_loop]. rewrite get_value_start. cbn [mbind res_bind].
    rewrite <-app_assoc. rewrite IHc by done.
    destruct (render root_ns _ _ c) as [inner|e]; cbn [mbind res_bind]; [|done].
    cbn [app render_loop get_value tv_v tv_tag tv_ns mbind res_bind].
    rewrite before_last_sub_path by done. cbn [default from_option id].
    replace (indent + INDENT_SIZE - INDENT_SIZE)%Z with indent by lia.
    rewrite IHr by done. destruct (render root_ns indent path r) as [after|e]; cbn [mbind res_bind]; [|done].
    f_equal. by rewrite <-!app_assoc.
  - cbn [render_loop]. rewrite get_value_leaf.
    destruct (render_leaf _ _ _ _ _ _) as [text|e]; cbn [mbind res_bind]; [|done].
    rewrite IHr by done. destruct (render root_ns indent path r); cbn [mbind res_bind]; [|done].
    by rewrite <-app_assoc.
Qed.

(** ** Balanced tags *)

(** A forest whose deletions are of containers and list entries only. *)
Fixpoint no_leaf_deletion (f : forest) : Prop :=
  match f with
  | FNil => True
  | FNode _ _ _ children rest => no_leaf_deletion children ∧ no_leaf_deletion rest
  | FLeaf _ _ l rest => l ≠ LNoExists ∧ no_leaf_deletion rest
  end.

(** Tags are XML names and namespaces may stand between quotes. *)
Fixpoint xml_names (f : forest) : Prop :=
  match f with
  | FNil => True
  | FNode _ ns tag children rest =>
      is_name tag ∧ quotable "034" (hash2str ns) ∧ xml_names children ∧ xml_names rest
  | FLeaf _ tag _ rest => is_name tag ∧ xml_names rest
  end.

Lemma pad_closed i : closed (pad i).
Proof. apply plain_closed, spaces_plain. Qed.

Lemma nl_closed : closed nl.
Proof. by intros n stack. Qed.

Lemma leaf_line_closed i tag text : is_name tag → plain text → closed (leaf_line i tag text).
Proof.
  intros Hn Ht. unfold leaf_line. apply closed_app; [apply pad_closed|].
  rewrite !app_assoc. apply closed_app; [|apply nl_closed]. rewrite <-!app_assoc.
  apply closed_elem; [done | by apply plain_closed].
Qed.

Lemma leaf_lines_closed i tag ws : is_name tag → Forall plain ws → closed (concat (leaf_line i tag <$> ws)).
Proof.
  intros Hn Hw. apply closed_concat. apply Forall_fmap. eapply Forall_impl; [exact Hw|].
  intros w Hp. by apply leaf_line_closed.
Qed.

Lemma render_total (Hv : ∀ (v : V) np, ∃ t, val2str v np = Ok t ∧ plain t) f root i path :
  ∃ text, render root i path f = Ok text.
Proof.
  revert i path. induction f as [|del ns tag c IHc r IHr|ns tag l r IHr]; intros i path; cbn [render].
  - by eexists.
  - destruct (IHc (i + INDENT_SIZE)%Z (sub_path path ns tag)) as [t1 ->], (IHr i path) as [t2 ->]. by eexists.
  - destruct (IHr i path) as [t2 ->].
    destruct l as [| |v|v]; cbn [render_leaf mbind res_bind]; [by eexists..| |];
      destruct (Hv v (root, sub_path path ns tag)) as (t & -> & _); by eexists.
Qed.

(** Values whose text has no markup. *)
Context (Hvals : ∀ (v : V) np t, val2str v np = Ok t → plain t).

Lemma render_leaf_closed root_ns i path ns tag l text :
  l ≠ LNoExists → is_name tag → render_leaf root_ns i path ns tag l = Ok text → closed text.
Proof.
  intros Hl Hn. destruct l as [| |v|v]; cbn [render_leaf]; [done|..].
  - intros <-%Ok_inj. apply closed_app; [apply pad_closed|].
    rewrite !app_assoc. apply closed_app; [|apply nl_closed]. rewrite <-!app_assoc. by apply closed_empty_elem.
  - intros (t & Ht & <-%Ok_inj)%bind_Ok. apply leaf_lines_closed; [done|].
    apply words_not_elem. by eapply Hvals.
  - intros (t & Ht & <-%Ok_inj)%bind_Ok. apply leaf_line_closed; [done|]. by eapply Hvals.
Qed.

Lemma delete_attributes : attributes (xq"nc:operation=`delete`").
Proof. by intros n stack. Qed.

Lemma xmlns_attributes ns : quotable "034" ns → attributes (xq"xmlns=`" ++ ns ++ xq"`").
Proof. intros Hq n stack. repeat scan_step. done. Qed.

(** An element whose start tag and end tag are on lines of their own. *)
Lemma node_closed i j tag attrs inner :
  is_name tag → attributes attrs → closed inner →
  closed ((pad i ++ py"<" ++ tag ++ py" " ++ attrs ++ py">" ++ nl) ++ inner ++ pad j ++ py"</" ++ tag ++ py">" ++ nl).
Proof.
  intros Hn Ha Hi. rewrite <-!app_assoc. apply closed_app; [apply pad_closed|].
  assert (closed (nl ++ inner ++ pad j)) as Hin
    by (repeat apply closed_app; auto using nl_closed, pad_closed).
  pose proof (closed_app _ _ (closed_elem_attr tag attrs _ Hn Ha Hin) nl_closed) as Hc.
  by rewrite <-!app_assoc in Hc.
Qed.

Lemma start_line_eq del i ns tag :
  ∃ attrs, start_line del i ns tag = pad i ++ py"<" ++ tag ++ py" " ++ attrs ++ py">" ++ nl ∧
    (quotable "034" (hash2str ns) → attributes attrs).
Proof.
  destruct del.
  - exists (xq"nc:operation=`delete`"). split; [done|]. intros _. apply delete_attributes.
  - exists (xq"xmlns=`" ++ hash2str ns ++ xq"`"). split; [|apply xmlns_attributes].
    unfold start_line. rewrite <-!app_assoc. reflexivity.
Qed.

Lemma render_closed f root_ns i path text :
  no_leaf_deletion f → xml_names f → render root_ns i path f = Ok text → closed text.
Proof.
  revert i path text. induction f as [|del ns tag c IHc r IHr|ns tag l r IHr]; intros i path text Hd Hx; cbn [render].
  - intros [= <-]. apply closed_nil.
  - destruct Hd as [Hdc Hdr], Hx as (Hn & Hq & Hxc & Hxr).
    intros (inner & Hc & (after & Hr & <-%Ok_inj)%bind_Ok)%bind_Ok.
    destruct (start_line_eq del i ns tag) as (attrs & -> & Ha).
    pose proof (closed_app _ _ (node_closed i (i + INDENT_SIZE) tag attrs inner Hn (Ha Hq) (IHc _ _ _ Hdc Hxc Hc))
      (IHr _ _ _ Hdr Hxr Hr)) as Hcl.
    rewrite <-!app_assoc in Hcl. rewrite <-!app_assoc. exact Hcl.
  - destruct Hd as [Hl Hdr], Hx as [Hn Hxr].
    intros (t & Ht & (after & Hr & <-%Ok_inj)%bind_Ok)%bind_Ok.
    apply closed_app; [by eapply render_leaf_closed | by eapply IHr].
Qed.
End trees.
Arguments forest : clear implicits.
Arguments leafval : clear implicits.

(** ** Framed documents *)

(** Documents, each ended by the end-of-message marker. *)
Definition frames (docs : list pystr) : pystr := concat ((λ d, d ++ py"]]>]]>") <$> docs).

Definition hello_doc : pystr := xq"<?xml version=`1.0` encoding=`UTF-8`?>
<hello xmlns=`urn:ietf:params:xml:ns:netconf:base:1.0`>
  <capabilities>
    <capability>urn:ietf:params:netconf:base:1.0</capability>
  </capabilities>
</hello>
".

(** A request with a message identifier and a content. *)
Definition rpc_doc (id content : pystr) : pystr :=
  fmt (xq"
<?xml version=`1.0` encoding=`UTF-8`?>
<rpc xmlns=`urn:ietf:params:xml:ns:netconf:base:1.0` message-id=`{0}`>
  {1}
</rpc>
") [id; content].

Definition edit_config_content (mods : pystr) : pystr :=
  fmt (xq"<edit-config xmlns:nc=`urn:ietf:params:xml:ns:netconf:base:1.0`>
    <target>
      <candidate/>
    </target>
    <test-option>set</test-option>
    <config>
      {0}
    </config>
  </edit-config>") [mods].

Definition validate_content : pystr := py"<validate>
    <source>
      <candidate/>
    </source>
  </validate>".

Lemma rpc_doc_balanced id content :
  quotable "034" id → closed content → balanced (rpc_doc id content) = true.
Proof. intros Hi Hc. apply document_balanced. unfold rpc_doc. scan_document. Qed.

Lemma edit_config_content_closed mods : closed mods → closed (edit_config_content mods).
Proof. intros Hm. unfold edit_config_content. scan_closed. Qed.

Definition edit_config_docs (mods : pystr) : list pystr :=
  [hello_doc; rpc_doc (py"1") (py"<discard-changes/>"); rpc_doc (py"2") (edit_config_content mods);
   rpc_doc (py"3") validate_content; rpc_doc (py"4") (py"<close-session/>")].

Lemma edit_config_msg_frames mods : edit_config_msg mods = frames (edit_config_docs mods).
Proof.
  unfold edit_config_msg, frames, edit_config_docs, rpc_doc, edit_config_content. fmt_norm.
  rewrite !app_nil_r. cbn [fmap list_fmap concat].
  rewrite <-!app_assoc. reflexivity.
Qed.

(** ** Lemmas on the phases *)

Section phase_lemmas.
Context {W : Type} (console : pystr → pystr → W → (pystr * pystr) * W) (room : list (pystr * pystr) → pystr * pystr → bool).

(** The netconf-console run a child has to make, and the one a call was. *)
Definition child_call (c : child) : option (Z * pystr * pystr) :=
  match c with (sid, Ok (Some (cmd, input))) => Some (sid, cmd, input) | _ => None end.
Definition proc_call (p : proc) : option (Z * pystr * pystr) :=
  match p with PRun sid todo => child_call (sid, todo) | _ => None end.
Definition made_call (c : call) : Z * pystr * pystr := (c_sid c, c_cmd c, c_input c).

(** The errors among the replies, and the one a process has still to report. *)
Definition reply_error (reply err : pystr) : option (pystr * pystr) :=
  if error_text reply err then Some (reply, err) else None.
Definition call_errors (cs : list call) : list (pystr * pystr) :=
  omap (λ c, reply_error (c_reply c) (c_err c)) cs.
Definition unreported (p : proc) : option (pystr * pystr) :=
  match p with PReply reply err => reply_error reply err | PBlocked reply err => Some (reply, err) | _ => None end.

Definition finished (p : proc) : Prop := match p with PEnd | PDead _ | PBlocked _ _ => True | _ => False end.

(** Every call to be made is made or still to be made by a process, and every
    error is in the queue or still to be reported. *)
Record phase_inv (todo : list (Z * pystr * pystr)) (q : list (pystr * pystr)) (ph : phase W) : Prop := {
  inv_calls : (made_call <$> calls ph) ++ omap proc_call (procs ph) ≡ₚ todo;
  inv_queue : queue ph ++ omap unreported (procs ph) ≡ₚ q ++ call_errors (calls ph)
}.

Lemma insert_Permutation {A} (l : list A) i x y :
  l !! i = Some x → ∃ r, l ≡ₚ x :: r ∧ <[i := y]> l ≡ₚ y :: r.
Proof.
  intros (l1 & l2 & -> & ->)%list_elem_of_split_length. exists (l1 ++ l2).
  rewrite insert_app_r_alt, Nat.sub_diag by done. cbn. by rewrite !Permutation_middle.
Qed.

Lemma omap_all_None {A B} (f : A → option B) (l : list A) : Forall (λ x, f x = None) l → omap f l = [].
Proof. induction 1 as [|x l Hx _ IH]; [done|]. cbn. by rewrite Hx. Qed.

Lemma omap_fmap_eq {A B C} (f : B → option C) (g : A → B) (h : A → option C) (l : list A) :
  (∀ x, f (g x) = h x) → omap f (g <$> l) = omap h l.
Proof. intros Hx. induction l as [|x l IH]; [done|]. cbn. rewrite Hx. by destruct (h x); rewrite IH. Qed.

(** A reply that is read: it is reported, now or never, exactly if it is an error. *)
Lemma reply_step output errors ph :
  let '(p', ph') := proc_step console room (PReply output errors) ph in
  calls ph' = calls ph ∧ proc_call p' = None ∧ finished p' ∧
  queue ph' ++ option_list (unreported p') = queue ph ++ option_list (reply_error output errors).
Proof.
  cbn [proc_step]. unfold decode, reply_error, error_text.
  destruct (NetconfFraming.utf8_valid output), (NetconfFraming.utf8_valid errors); cbn [andb]; [|done..].
  destruct (is_error output errors); [|done]. unfold put. destruct (_ && _); cbn; [|done].
  by rewrite app_nil_r.
Qed.

Lemma omap_cons_list {A B} (f : A → option B) x l : omap f (x :: l) = option_list (f x) ++ omap f l.
Proof. cbn. by destruct (f x). Qed.

Lemma phase_step_inv todo q ph i : phase_inv todo q ph → phase_inv todo q (phase_step console room ph i).
Proof.
  intros [Hc Hq]. unfold phase_step. destruct (procs ph !! i) as [p|] eqn:Hp; [|done].
  destruct (proc_step console room p ph) as [p' ph'] eqn:Hs.
  destruct (insert_Permutation _ _ _ p' Hp) as (r & Hr & Hr').
  rewrite Hr in Hc, Hq. rewrite omap_cons_list in Hc. rewrite omap_cons_list in Hq.
  enough ((made_call <$> calls ph') ++ option_list (proc_call p') ≡ₚ (made_call <$> calls ph) ++ option_list (proc_call p) ∧
    ∃ errs, call_errors (calls ph') = call_errors (calls ph) ++ errs ∧
      queue ph' ++ option_list (unreported p') ≡ₚ queue ph ++ option_list (unreported p) ++ errs) as (Hc' & errs & He & Hq').
  { split; cbn [calls procs queue]; rewrite Hr', omap_cons_list, app_assoc.
    - by rewrite Hc', <-app_assoc.
    - rewrite Hq', He, (assoc_L (++) q), <-Hq, <-!app_assoc. f_equiv. f_equiv. apply Permutation_app_comm. }
  clear Hc Hq Hr Hr' Hp. destruct p as [sid [[[cmd input]|]|e]|output errors|reply err| |e]; cbn [proc_step] in Hs.
  - destruct (console cmd input (world ph)) as [[out err] w]. injection Hs as <- <-. cbn [calls queue]. split.
    + rewrite fmap_app. cbn. by rewrite app_nil_r.
    + exists (option_list (reply_error out err)). unfold call_errors. rewrite omap_app, omap_cons_list, app_nil_r. done.
  - injection Hs as <- <-. split; [done|]. exists []. by rewrite !app_nil_r.
  - injection Hs as <- <-. split; [done|]. exists []. by rewrite !app_nil_r.
  - pose proof (reply_step output errors ph) as Hr. cbn [proc_step] in Hr. rewrite Hs in Hr.
    destruct Hr as (-> & -> & _ & Hr). split; [done|]. exists []. rewrite !app_nil_r. by rewrite Hr.
  - injection Hs as <- <-. split; [done|]. exists []. by rewrite !app_nil_r.
  - injection Hs as <- <-. split; [done|]. exists []. by rewrite !app_nil_r.
  - injection Hs as <- <-. split; [done|]. exists []. by rewrite !app_nil_r.
Qed.

Lemma phase_run_inv todo q sched ph : phase_inv todo q ph → phase_inv todo q (phase_run console room sched ph).
Proof.
  revert ph. induction sched as [|i sched IH]; intros ph Hi; [done|]. cbn. by apply IH, phase_step_inv.
Qed.

(** A process that has finished stays so, and two steps finish a process. *)
Lemma phase_step_finished ph i j p :
  procs ph !! j = Some p → finished p → procs (phase_step console room ph i) !! j = Some p.
Proof.
  intros Hj Hf. unfold phase_step. destruct (procs ph !! i) as [p0|] eqn:Hi; [|done].
  destruct (proc_step console room p0 ph) as [p' ph'] eqn:Hs. cbn.
  destruct (decide (i = j)) as [->|Hne]; [|by rewrite list_lookup_insert_ne].
  rewrite list_lookup_insert_eq by (by eapply lookup_lt_Some). simplify_eq. by destruct p; inversion Hs.
Qed.

Lemma phase_run_finished sched ph j p :
  procs ph !! j = Some p → finished p → procs (phase_run console room sched ph) !! j = Some p.
Proof.
  revert ph. induction sched as [|i sched IH]; intros ph Hj Hf; [done|]. cbn.
  apply IH; [by apply phase_step_finished | done].
Qed.

Lemma phase_step_length ph i : length (procs (phase_step console room ph i)) = length (procs ph).
Proof.
  unfold phase_step. destruct (procs ph !! i); [|done]. destruct (proc_step _ _ _). cbn. apply length_insert.
Qed.

Lemma phase_run_length sched ph : length (procs (phase_run console room sched ph)) = length (procs ph).
Proof.
  revert ph. induction sched as [|i sched IH]; intros ph; [done|].
  change (phase_run console room (i :: sched) ph) with (phase_run console room sched (phase_step console room ph i)).
  by rewrite IH, phase_step_length.
Qed.

Lemma phase_step_at ph i p :
  procs ph !! i = Some p → procs (phase_step console room ph i) !! i = Some (proc_step console room p ph).1.
Proof.
  intros Hi. unfold phase_step. rewrite Hi. destruct (proc_step console room p ph) as [p' ph']. cbn.
  apply list_lookup_insert_eq. by eapply lookup_lt_Some.
Qed.

Lemma two_steps_finish ph i :
  i < length (procs ph) →
  ∃ p, procs (phase_run console room [i; i] ph) !! i = Some p ∧ finished p.
Proof.
  intros [p Hp]%lookup_lt_is_Some. cbn [phase_run foldl]. apply phase_step_at in Hp.
  rewrite (phase_step_at _ _ _ Hp). eexists; split; [done|].
  destruct p as [sid [[[cmd input]|]|e]|output errors|reply err| |e]; cbn [proc_step fst]; try done.
  - destruct (console cmd input (world ph)) as [[out errs] w]. cbn [fst].
    pose proof (reply_step out errs (phase_step console room ph i)) as Hr.
    destruct (proc_step console room (PReply out errs) (phase_step console room ph i)). apply Hr.
  - pose proof (reply_step output errors ph) as Hr. cbn [proc_step] in Hr.
    destruct (match decode output with Ok _ => _ | Raise _ => _ end) as [p1 ph1]. cbn [fst]. destruct Hr as (_ & _ & Hf & _).
    by destruct p1.
Qed.

Lemma join_finishes n ph :
  n ≤ length (procs ph) →
  ∀ j, j < n → ∃ p, procs (phase_run console room (join_order n) ph) !! j = Some p ∧ finished p.
Proof.
  induction n as [|n IH]; intros Hn j Hj; [lia|].
  unfold join_order. rewrite seq_S, fmap_app, concat_app. fold (join_order n). cbn [Nat.add fmap list_fmap concat app].
  unfold phase_run. rewrite foldl_app. fold (phase_run console room (join_order n) ph).
  destruct (decide (j = n)) as [->|Hne].
  - apply two_steps_finish. rewrite phase_run_length. lia.
  - destruct (IH ltac:(lia) j ltac:(lia)) as (p & Hp & Hf). exists p. split; [|done].
    by apply (phase_run_finished [n; n]).
Qed.

(** A phase comes to rest, in every order of the processes, with every call made once
    and every error in the queue or in the hands of a blocked process. *)
Lemma start_and_join_spec sched children q w :
  let ph := start_and_join console room sched children q w in
  Forall finished (procs ph) ∧
  made_call <$> calls ph ≡ₚ omap child_call children ∧
  queue ph ++ omap unreported (procs ph) ≡ₚ q ++ call_errors (calls ph).
Proof.
  unfold start_and_join. set (ph0 := Build_phase _ _ _ _).
  assert (phase_inv (omap child_call children) q ph0) as Hinv.
  { split; cbn.
    - by rewrite (omap_fmap_eq _ _ child_call) by (by intros []).
    - rewrite omap_all_None; [done|]. apply Forall_fmap. by apply Forall_true; intros []. }
  set (ph := phase_run _ _ _ _).
  assert (Forall finished (procs ph)) as Hfin.
  { apply Forall_lookup. intros j p Hj.
    assert (length (procs ph0) = length children) as Hlen by (cbn; apply length_fmap).
    assert (j < length children) as Hlt.
    { apply lookup_lt_Some in Hj. subst ph. by rewrite phase_run_length, Hlen in Hj. }
    subst ph. unfold phase_run in Hj. rewrite foldl_app in Hj.
    fold (phase_run console room sched ph0) in Hj.
    destruct (join_finishes (length children) (phase_run console room sched ph0)) with (j := j) as (p' & Hp' & Hf);
      [by rewrite phase_run_length, Hlen | done |].
    unfold phase_run in *. congruence. }
  destruct (phase_run_inv _ _ (sched ++ join_order (length children)) ph0 Hinv) as [Hc Hq].
  fold ph in Hc, Hq.
  rewrite (omap_all_None proc_call), app_nil_r in Hc
    by (eapply Forall_impl; [exact Hfin|]; by intros []).
  done.
Qed.

Lemma call_errors_nil cs : call_errors cs = [] ↔ existsb call_error cs = false.
Proof.
  unfold call_errors. induction cs as [|c cs IH]; [done|]. cbn. unfold reply_error, call_error at 1.
  destruct (error_text (c_reply c) (c_err c)); cbn; [done | exact IH].
Qed.

(** Joining returns, or somebody had something to report. *)
Lemma joined_unreported (ph : phase W) :
  Forall finished (procs ph) →
  if joined ph then omap unreported (procs ph) = [] else omap unreported (procs ph) ≠ [].
Proof.
  unfold joined. induction 1 as [|p ps Hp _ IH]; [done|]. cbn [existsb]. rewrite omap_cons_list.
  by destruct p.
Qed.

(** A phase that starts with an empty queue. *)
Lemma start_and_join_errors sched children w :
  let ph := start_and_join console room sched children [] w in
  made_call <$> calls ph ≡ₚ omap child_call children ∧
  (if existsb call_error (calls ph) then joined ph = false ∨ ∃ e q, queue ph = e :: q
   else joined ph = true ∧ queue ph = []).
Proof.
  cbn zeta. destruct (start_and_join_spec sched children [] w) as (Hf & Hc & Hq). split; [done|].
  apply joined_unreported in Hf. destruct (existsb call_error _) eqn:He.
  - destruct (joined _); [right|by left]. rewrite Hf, app_nil_r in Hq.
    destruct (queue _) as [|e q]; [|by eauto]. apply Permutation_nil_l in Hq.
    symmetry in Hq. apply call_errors_nil in Hq. congruence.
  - apply call_errors_nil in He. rewrite He in Hq. apply Permutation_nil_r, app_nil in Hq as [-> Hu].
    destruct (joined _); [done|by rewrite Hu in Hf].
Qed.

(** With room for everything nobody is blocked. *)
Lemma phase_step_room ph i : (∀ q m, room q m = true) → joined ph = true → joined (phase_step console room ph i) = true.
Proof.
  unfold joined, phase_step. intros Hroom [=Hj%negb_true_iff]. apply negb_true_iff.
  destruct (procs ph !! i) as [p|] eqn:Hp; [|done].
  assert (Hb : ∀ ps p0 j, existsb blocked ps = false → blocked p0 = false → existsb blocked (<[j:=p0]> ps) = false).
  { intros ps p0. induction ps as [|p1 ps IH]; intros [|j] H1 H2; cbn in *; [done..| |].
    - apply orb_false_iff in H1 as [_ ->]. by rewrite H2.
    - apply orb_false_iff in H1 as [-> H1]. by apply IH. }
  assert (blocked p = false) as Hnb.
  { destruct (blocked p) eqn:Hbp; [|done]. rewrite <-Hj. symmetry. apply existsb_exists. exists p.
    split; [by eapply list_elem_of_In, list_elem_of_lookup_2|done]. }
  destruct (proc_step console room p ph) as [p' ph'] eqn:Hs. cbn [procs]. apply Hb; [done|].
  destruct p as [sid [[[cmd input]|]|e]|output errors|reply err| |e]; cbn [proc_step] in Hs; try (by injection Hs as <- <-).
  - destruct (console cmd input (world ph)) as [[out errs] w]. by injection Hs as <- <-.
  - destruct (decode output); [|by injection Hs as <- <-]. destruct (decode errors); [|by injection Hs as <- <-].
    destruct (is_error _ _); [|by injection Hs as <- <-]. unfold put in Hs. rewrite Hj, Hroom in Hs. by injection Hs as <- <-.
Qed.

Lemma start_and_join_room sched children w :
  (∀ q m, room q m = true) → joined (start_and_join console room sched children [] w) = true.
Proof.
  intros Hroom. unfold start_and_join, phase_run. generalize (sched ++ join_order (length children)). intros l.
  assert (∀ ph, joined ph = true → joined (foldl (phase_step console room) ph l) = true) as H.
  { induction l as [|i l IH]; intros ph Hj; [done|]. cbn [foldl]. by apply IH, phase_step_room. }
  apply H. unfold joined. cbn [procs]. apply negb_true_iff. by induction children as [|[] cs IH].
Qed.
End phase_lemmas.

(** ** Lemmas on the servers *)

Section server_lemmas.
Context (subscribe : nat → Z) (Hinj : ∀ i j, subscribe i = subscribe j → i = j).

(** A server as [handle_netconf_server_list] leaves it. *)
Definition with_sid (s : nc_server) (sid : Z) : nc_server :=
  {| s_name := s_name s; remote_address := remote_address s; remote_port := remote_port s;
     username := username s; password := password s; subscription_path := subscription_path s;
     subscription_priority := subscription_priority s; subscription_id := Some sid |}.

Lemma console_cmd_with_sid s sid : console_cmd (with_sid s sid) = console_cmd s.
Proof. unfold console_cmd. cbn [with_sid username password remote_address remote_port]. reflexivity. Qed.

Lemma subscribe_servers_lookup l k i s :
  l !! i = Some s → (subscribe_servers subscribe l k).1 !! i = Some (with_sid s (subscribe (k + i))).
Proof.
  revert k i. induction l as [|s0 l IH]; intros k [|i] Hi; simplify_eq/=.
  - destruct (subscribe_servers subscribe l (S k)). cbn. by rewrite Nat.add_0_r.
  - specialize (IH (S k) i Hi). destruct (subscribe_servers subscribe l (S k)). cbn in *.
    by rewrite Nat.add_succ_r.
Qed.

Lemma subscribe_servers_length l k : length (subscribe_servers subscribe l k).1 = length l.
Proof.
  revert k. induction l as [|s0 l IH]; intros k; [done|]. specialize (IH (S k)). cbn.
  destruct (subscribe_servers subscribe l (S k)). cbn in *. lia.
Qed.

(** Looking for the identifier of server [i] finds it. *)
Lemma find_sid_subscribe l k i :
  i < length l → ∀ last,
  find_sid (subscribe (k + i)) (subscribe_servers subscribe l k).1 k last =
    Ok (Some (k + i, subscribe (k + i))).
Proof.
  revert k i. induction l as [|s0 l IH]; intros k i Hi last; cbn in Hi; [lia|].
  specialize (IH (S k)). cbn [subscribe_servers].
  destruct (subscribe_servers subscribe l (S k)) as [servers css]. cbn.
  destruct i as [|i].
  - rewrite Nat.add_0_r. by rewrite decide_True.
  - rewrite decide_False by (intros Hs%Hinj; lia).
    specialize (IH i ltac:(lia) (Some (k, subscribe k))). cbn in IH.
    by rewrite !Nat.add_succ_r.
Qed.

(** Looking for another identifier ends at the last server. *)
Lemma find_sid_other l k sid last :
  (∀ i, i < length l → subscribe (k + i) ≠ sid) →
  find_sid sid (subscribe_servers subscribe l k).1 k last =
    Ok (match l with
        | [] => last
        | _ => Some (k + length l - 1, subscribe (k + length l - 1))
        end).
Proof.
  revert k last. induction l as [|s0 l IH]; intros k last Hs; [done|].
  assert (∀ i, i < length l → subscribe (S k + i) ≠ sid) as Hs'.
  { intros i Hi. replace (S k + i) with (k + S i) by lia. apply Hs. cbn. lia. }
  specialize (IH (S k) (Some (k, subscribe k)) Hs'). cbn [subscribe_servers].
  destruct (subscribe_servers subscribe l (S k)) as [servers css]. cbn in *.
  rewrite decide_False by (specialize (Hs 0); rewrite Nat.add_0_r in Hs; apply Hs; lia).
  rewrite IH. destruct l; cbn; [by rewrite Nat.add_sub|].
  do 3 f_equal; [lia|]. f_equal. lia.
Qed.

Lemma subscribe_servers_css l k :
  sub_sid <$> (subscribe_servers subscribe l k).2 = subscribe <$> seq k (length l).
Proof.
  revert k. induction l as [|s0 l IH]; intros k; [done|]. specialize (IH (S k)). cbn [subscribe_servers].
  destruct (subscribe_servers subscribe l (S k)). cbn in *. by rewrite IH.
Qed.

Lemma subscription_ids l k :
  res_map get_subscription_id (subscribe_servers subscribe l k).1 = Ok (subscribe <$> seq k (length l)).
Proof.
  revert k. induction l as [|s0 l IH]; intros k; [done|]. specialize (IH (S k)). cbn [subscribe_servers].
  destruct (subscribe_servers subscribe l (S k)). cbn in *. by rewrite IH.
Qed.
End server_lemmas.

(** ** Properties *)

(** C32: the text sent for a transaction is the rendering of its modifications as
    a tree, for every forest of modifications: each value is converted at the
    path of its leaf, each start tag has its end tag, and containers and list
    entries are left at the depth where they were entered.  A transaction with
    one modification only is an IndexError. *)
Theorem modifications_rendered {V} `{ConfdLib V} (f : forest V) :
  names_ok f →
  modifications_op (flatten f) =
    (second ← py_index (flatten f) 1;
     text ← render (hash2str (tv_ns second)) 0 [] f;
     Ok (edit_config_msg text)).
Proof.
  intros Hn. unfold modifications_op. destruct (py_index (flatten f) 1) as [tv|e]; cbn [mbind res_bind]; [|done].
  rewrite <-(app_nil_r (flatten f)), render_loop_forest by done.
  by destruct (render (hash2str (tv_ns tv)) 0 [] f).
Qed.

(** For modifications that delete no leaf, with XML names for tags and
    values whose text has no markup, the text sent is five documents with
    balanced tags, each ended by the end-of-message marker: hello, discard-
    changes, edit-config, validate, close-session. *)
Theorem edit_config_balanced {V} `{ConfdLib V} (f : forest V) :
  (∀ v np, ∃ t, val2str v np = Ok t ∧ plain t) →
  names_ok f → no_leaf_deletion f → xml_names f → 2 ≤ length (flatten f) →
  ∃ mods, modifications_op (flatten f) = Ok (frames (edit_config_docs mods)) ∧
    closed mods ∧ Forall (λ d, balanced d = true) (edit_config_docs mods).
Proof.
  intros Hv Hn Hd Hx Hlen.
  destruct (lookup_lt_is_Some_2 (flatten f) 1) as [tv Htv]; [lia|].
  destruct (render_total Hv f (hash2str (tv_ns tv)) 0%Z []) as [mods Hm]. exists mods.
  assert (closed mods) as Hc.
  { eapply render_closed; [|done..]. intros v np t Ht. destruct (Hv v np) as (t' & Ht' & Hp). congruence. }
  split; [|split; [done|]].
  - unfold modifications_op, py_index. rewrite Htv. cbn [mbind res_bind].
    rewrite <-(app_nil_r (flatten f)), render_loop_forest, Hm by done. cbn. by rewrite edit_config_msg_frames.
  - assert (quotable "034" (py"1") ∧ quotable "034" (py"2") ∧ quotable "034" (py"3") ∧ quotable "034" (py"4"))
      as (? & ? & ? & ?) by vm_decide.
    unfold edit_config_docs. rewrite !Forall_cons.
    split_and!; [done| | | | |done]; apply rpc_doc_balanced; try done; by apply edit_config_content_closed.
Qed.

(** C35: two-phase safety of the prepare handler, for every order in which the
    child processes run: every edit-config that could be built is sent once; if
    any server reported an error no commit is sent at all, and the daemon ends
    with an AttributeError, or never goes on because a child waits for room in the
    queue that nobody reads; otherwise every commit is sent once; and the
    transaction is acknowledged exactly when no server reported any error.  A server
    has reported an error when what netconf-console printed for it can be decoded and
    is an error: of bytes that cannot the child dies, and nobody learns of it
    ([undecodable_ignored]). *)
Theorem prepare_two_phase {V} `{ConfdLib V} {W} (console : pystr → pystr → W → (pystr * pystr) * W)
    (room : list (pystr * pystr) → pystr * pystr → bool)
    (sched1 sched2 : list nat) (db : cdb_data) (mods : Z → list (tagval V)) (sids : list Z) (w : W) :
  let '(r, o) := handle_sub_prepare console room sched1 sched2 db mods sids w in
  made_call <$> o_first o ≡ₚ
    omap (λ sid, match mods sid with
                 | [] => None
                 | ms => child_call (sid, process_modifications db ms sid)
                 end) sids ∧
  (if existsb call_error (o_first o) then o_second o = [] ∧ r ≠ Ok tt
   else made_call <$> o_second o ≡ₚ omap (λ sid, child_call (sid, commit db sid)) sids) ∧
  o_synced o = negb (existsb call_error (o_first o ++ o_second o)) ∧
  (if o_synced o then r = Ok tt else r = Raise AttributeError ∨ r = Raise Blocked) ∧
  ((∀ q m, room q m = true) → r ≠ Raise Blocked).
Proof.
  unfold handle_sub_prepare.
  set (cs1 := omap _ sids).
  destruct (start_and_join_errors console room sched1 cs1 w) as [Hc1 He1].
  pose proof (start_and_join_room console room sched1 cs1 w) as Hj1.
  set (ph := start_and_join console room sched1 cs1 [] w) in *. cbn zeta.
  set (cs2 := (λ sid, (sid, commit db sid)) <$> sids).
  destruct (start_and_join_errors console room sched2 cs2 (world ph)) as [Hc2 He2].
  pose proof (start_and_join_room console room sched2 cs2 (world ph)) as Hj2.
  assert (omap child_call cs1 = omap (λ sid, match mods sid with
     | [] => None | ms => child_call (sid, process_modifications db ms sid) end) sids) as Hcs1.
  { unfold cs1. clear. induction sids as [|sid sids IH]; [done|]. cbn.
    destruct (mods sid) as [|m ms]; cbn; [done|]. by rewrite IH. }
  rewrite Hcs1 in Hc1.
  destruct (existsb call_error (calls ph)) eqn:Hx1.
  - destruct (joined ph) eqn:Hjd; cbn [negb].
    + destruct He1 as [|(e & q & ->)]; [done|]. cbn. rewrite app_nil_r, Hx1. split_and!; try done. by left.
    + cbn. rewrite app_nil_r, Hx1. split_and!; try done; [by right|]. intros Hroom. by apply Hj1 in Hroom.
  - destruct He1 as [-> ->]. cbn [negb]. set (ph2 := start_and_join console room sched2 cs2 [] (world ph)) in *.
    unfold cs2 in Hc2. rewrite (omap_fmap_eq _ _ (λ sid, child_call (sid, commit db sid))) in Hc2 by done.
    destruct (existsb call_error (calls ph2)) eqn:Hx2.
    + destruct (joined ph2) eqn:Hjd; cbn [negb].
      * destruct He2 as [|(e & q & ->)]; [done|]. cbn. rewrite existsb_app, Hx1, Hx2. split_and!; try done. by left.
      * cbn. rewrite existsb_app, Hx1, Hx2. split_and!; try done; [by right|]. intros Hroom. by apply Hj2 in Hroom.
    + destruct He2 as [-> ->]. cbn. rewrite existsb_app, Hx1, Hx2. done.
Qed.

(** after the list of servers has been read, the subscription of a server
    leads back to it: an operation for the subscription of the i-th server runs
    netconf-console with the i-th server's address and credentials, an operation
    for the subscription of the list itself is only reported, and the action
    sync-to triggers the subscriptions of all servers, in order. *)
Theorem subscriptions_lead_back (subscribe : nat → Z) (db : cdb_data) (op : pystr) :
  (∀ i j, subscribe i = subscribe j → i = j) →
  let '(db', (css, server_sid)) := handle_netconf_server_list subscribe db in
  (∀ i s, netconf_servers db !! i = Some s →
     sub_sid <$> css !! i = Some (subscribe i) ∧
     send_netconf_operation db' op (subscribe i) = Ok (Some (console_cmd s, op))) ∧
  (netconf_servers db ≠ [] → send_netconf_operation db' op server_sid = Ok None) ∧
  cb_action db' true [] =
    Ok (subscribe <$> seq 0 (length (netconf_servers db)),
        py"Synchronized the configuration with all NETCONF servers").
Proof.
  intros Hinj. unfold handle_netconf_server_list.
  set (l := netconf_servers db).
  pose proof (subscribe_servers_lookup subscribe l 0) as Hlook.
  pose proof (find_sid_subscribe subscribe Hinj l 0) as Hfind.
  pose proof (find_sid_other subscribe l 0 (subscribe (length l)) None) as Hother.
  pose proof (subscription_ids subscribe l 0) as Hids.
  pose proof (subscribe_servers_css subscribe l 0) as Hcss.
  destruct (subscribe_servers subscribe l 0) as [servers css]. cbn in Hlook, Hfind, Hother, Hids, Hcss.
  split_and!.
  - intros i s Hi. pose proof (lookup_lt_Some _ _ _ Hi) as Hlt. split.
    + assert (sub_sid <$> css !! i = Some (subscribe i)) as Hsub.
      { rewrite <-list_lookup_fmap, Hcss, list_lookup_fmap, lookup_seq_lt by done. done. }
      rewrite lookup_app_l; [done|]. apply (lookup_lt_is_Some_1 css i). by destruct (css !! i).
    + unfold send_netconf_operation. cbn. rewrite Hfind by done. cbn. rewrite decide_True by done.
      unfold py_index. rewrite (Hlook _ _ Hi). cbn [mbind res_bind]. by rewrite console_cmd_with_sid.
  - intros Hne. unfold send_netconf_operation. cbn.
    rewrite Hother by (intros i Hi Hs%Hinj; cbn in Hs; lia). cbn.
    destruct l as [|s l]; [done|]. rewrite decide_False; [done|]. intros Hs%Hinj. cbn in Hs. lia.
  - unfold cb_action. cbn. by rewrite Hids.
Qed.

(** ** Witnesses *)

(** Values that are lists of numbers, and two modules. *)
#[local] Instance number_values : ConfdLib (list nat) := {
  hash2str ns := if decide (ns = 1%Z) then py"urn:router" else py"urn:dns";
  ns2prefix ns := if decide (ns = 1%Z) then py"r" else py"dns";
  val2str v _ := Ok (join (py" ") (str_nat <$> v))
}.

Lemma number_values_plain (v : list nat) np : ∃ t, val2str v np = Ok t ∧ plain t.
Proof.
  eexists. split; [done|]. unfold plain. intros [Hin|(w & Hw & Hin)]%join_elem; [set_solver|].
  apply list_elem_of_fmap in Hw as (n & -> & _). by apply (str_nat_not_elem "<"%char n).
Qed.

Definition ex_forest : forest (list nat) :=
  FNode false 1 (py"sys")
    (FNode true 1 (py"interface") (FLeaf 1 (py"id") (LVal [3]) FNil)
       (FNode false 2 (py"dns")
          (FLeaf 2 (py"port") (LList [53; 853]) (FLeaf 2 (py"enabled") LTag FNil)) FNil))
    FNil.

Lemma ex_forest_ok : names_ok ex_forest ∧ no_leaf_deletion ex_forest ∧ xml_names ex_forest.
Proof. split_and!; cbn; split_and!; try done; vm_decide. Qed.

Lemma modifications_rendered_witness :
  names_ok ex_forest ∧
  modifications_op (flatten ex_forest) = Ok (edit_config_msg (xq"<sys xmlns=`urn:router`>
  <interface nc:operation=`delete`>
    <id>3</id>
    </interface>
  <dns xmlns=`urn:dns`>
    <port>53</port>
    <port>853</port>
    <enabled/>
    </dns>
  </sys>
")).
Proof.
  assert (names_ok ex_forest) as Hn by apply ex_forest_ok.
  split; [exact Hn|]. rewrite (modifications_rendered ex_forest Hn). vm_compute. reflexivity.
Defined.

Lemma edit_config_balanced_witness :
  ∃ mods, modifications_op (flatten ex_forest) = Ok (frames (edit_config_docs mods)) ∧
    closed mods ∧ Forall (λ d, balanced d = true) (edit_config_docs mods).
Proof.
  destruct ex_forest_ok as (Hn & Hd & Hx).
  apply (edit_config_balanced ex_forest number_values_plain Hn Hd Hx). vm_compute. lia.
Defined.

Definition ex_server (name : pystr) : nc_server :=
  {| s_name := name; remote_address := py"127.0.0.1"; remote_port := py"2022"; username := py"admin";
     password := py"admin"; subscription_path := py"/r:sys"; subscription_priority := 10;
     subscription_id := None |}.
Definition ex_db : cdb_data :=
  {| netconf_servers := [ex_server (py"a"); ex_server (py"b")]; server_priority := 5 |}.

Lemma subscriptions_lead_back_witness :
  let '(db', _) := handle_netconf_server_list Z.of_nat ex_db in
  send_netconf_operation db' (py"op") 1 =
    Ok (Some (py"netconf-console --user=admin --password=admin --host=127.0.0.1 --port=2022 -", py"op")).
Proof.
  pose proof (subscriptions_lead_back Z.of_nat ex_db (py"op") ltac:(intros i j; lia)) as Hl.
  cbn in Hl. destruct Hl as (Hsrv & _). exact (proj2 (Hsrv 1 (ex_server (py"b")) eq_refl)).
Defined.

(** ** What the code does not do *)

(** No cancel-commit is ever sent: each child that should send it dies of the
    AttributeError of [sid. q], and the transaction is acknowledged. *)
Lemma abort_sends_nothing {W} (console : pystr → pystr → W → (pystr * pystr) * W) room sched db sids w :
  let '(r, o) := handle_sub_abort console room sched db sids w in
  r = Ok tt ∧ o_first o = [] ∧ o_synced o = true.
Proof.
  unfold handle_sub_abort, one_phase.
  set (cs := _ <$> sids). destruct (start_and_join_errors console room sched cs w) as [Hc He].
  assert (omap child_call cs = []) as Hcs.
  { apply omap_all_None, Forall_fmap. by apply Forall_true. }
  rewrite Hcs in Hc. apply Permutation_nil_r, fmap_nil_inv in Hc. rewrite Hc in He. cbn in He.
  cbn zeta. destruct He as [-> ->]. cbn. by rewrite Hc.
Qed.

(** The commit message ends with text outside of any element. *)
Definition commit_docs : list pystr :=
  [hello_doc;
   rpc_doc (py"5") (py"<commit>
    <confirmed/>
    <persist>sync_commit</persist>
  </commit>");
   xq"
<?xml version=`1.0` encoding=`UTF-8`?>
<rpc xmlns=`urn:ietf:params:xml:ns:netconf:base:1.0` message-id=`6`>
  <close-session/>
</rpc>xs
"].
Lemma commit_msg_unbalanced :
  commit_msg = frames commit_docs ∧ (balanced <$> commit_docs) = [true; true; false].
Proof. split; vm_compute; reflexivity. Qed.

(** The confirming and the cancelling messages are balanced documents. *)
Lemma confirm_cancel_balanced :
  (∃ docs, confirm_msg = frames docs ∧ Forall (λ d, balanced d = true) docs) ∧
  (∃ docs, cancel_msg = frames docs ∧ Forall (λ d, balanced d = true) docs).
Proof.
  split.
  - exists [hello_doc; rpc_doc (py"7") (py"<commit>
    <persist-id>sync_commit</persist-id>
  </commit>"); rpc_doc (py"8") (py"<close-session/>")].
    split; [vm_compute; reflexivity|]. repeat constructor.
  - exists [hello_doc; rpc_doc (py"7") (py"<cancel-commit>
    <persist-id>sync_commit</persist-id>
  </cancel-commit>"); rpc_doc (py"8") (py"<close-session/>")].
    split; [vm_compute; reflexivity|]. repeat constructor.
Qed.

(** The deletion of a leaf opens an element that is never closed. *)
Lemma leaf_deletion_unbalanced :
  ∃ text, render [] 0 [] (FNode false 1 (py"sys") (FLeaf 1 (py"mtu") LNoExists FNil) (FNil : forest (list nat))) = Ok text ∧
    balanced text = false.
Proof. eexists. split; [reflexivity|]. vm_compute. reflexivity. Qed.

(** A child that dies leaves the queue empty: a transaction whose edit-config
    could not even be built is committed and acknowledged. *)
Lemma failed_child_ignored :
  let db := (handle_netconf_server_list Z.of_nat ex_db).1 in
  let console := λ cmd input (n : nat), ((py"<ok/>", []), S n) in
  let '(r, o) := handle_sub_prepare console unlimited [] [] db
    (λ _, [Build_tagval 1 (py"mtu") (C_LEAF [1500])]) [0%Z] 0 in
  r = Ok tt ∧ o_first o = [] ∧ length (o_second o) = 1 ∧ o_synced o = true.
Proof. vm_compute. done. Qed.

Definition ex_mods : list (tagval (list nat)) :=
  [Build_tagval 1 (py"sys") C_XMLBEGIN; Build_tagval 1 (py"mtu") (C_LEAF [1500]); Build_tagval 1 (py"sys") C_XMLEND].

(** So is one that a server has refused with a message that is not UTF-8. *)
Lemma undecodable_ignored :
  let db := (handle_netconf_server_list Z.of_nat ex_db).1 in
  let console := λ cmd input (n : nat), ((py"<rpc-error>" ++ ["233"%char] ++ py"</rpc-error>", []), S n) in
  let '(r, o) := handle_sub_prepare console unlimited [] [] db (λ _, ex_mods) [0%Z] 0 in
  r = Ok tt ∧ length (o_first o) = 1 ∧ length (o_second o) = 1 ∧ o_synced o = true.
Proof. vm_compute. done. Qed.

(** An error message that does not fit into the pipe of the queue stops the daemon. *)
Lemma long_error_blocks :
  let db := (handle_netconf_server_list Z.of_nat ex_db).1 in
  let console := λ cmd input (n : nat), ((py"<rpc-error>", []), S n) in
  let room (q : list (pystr * pystr)) (m : pystr * pystr) := (length m.1 + length m.2 <? 10) in
  (handle_sub_prepare console room [] [] db (λ _, ex_mods) [0%Z] 0).1 = Raise Blocked.
Proof. vm_compute. done. Qed.

(** Without servers the operation fails on the unassigned variable [id]. *)
Lemma no_servers_unbound op sid prio :
  send_netconf_operation {| netconf_servers := []; server_priority := prio |} op sid = Raise UnboundLocalError.
Proof. reflexivity. Qed.
