(* ===== verification/ApiAdapter.v ===== *)
(** * The ConfD adapter: confdgnmi/src/confd_gnmi_api_adapter.py

    The gNMI adapter over ConfD: names and key paths of the schema, values as
    JSON, Get through saved configurations, Set and Delete in a transaction, and
    the subscription handler whose change thread serves CDB subscriptions and
    external changes.  The ConfD library and daemon are the class [ConfdApi]:
    the schema tree, values, and transactions over a datastore [X].  Logging is
    left out. *)

From Stdlib Require Import Ascii String.
From S2P Require Import Prelude PyStr PyDict Json GnmiMsg GnmiPath Adapter.
From S2P Require NetconfFraming.

(** ** The ConfD library *)

(** What the adapter reads of a schema node, and its chain of parents. *)
Record node_info := {
  n_list : bool; n_cdb : bool; n_write : bool; n_identityref : bool; n_keys : list Z
}.
Inductive csnode := CsNode (info : node_info) (parent : option csnode).
Definition node_info_of (n : csnode) : node_info := let 'CsNode i _ := n in i.

(** The types of values the adapter tells apart. *)
Inductive vkind :=
  | VInt (z : Z)
  | VBool (b : bool)
  | VIdentityref
  | VOther.

(** An element of a key path, which lists them from the leaf to the root. *)
Inductive kpelem (V : Type) :=
  | KTag (ns tag : Z)
  | KKeys (vals : list V).
Arguments KTag {_} _ _.
Arguments KKeys {_} _.

Inductive save_flag := CONFIG_JSON | CONFIG_NO_PARENTS | CONFIG_WITH_OPER | CONFIG_OPER_ONLY.
Inductive datastore := OPERATIONAL | RUNNING.

(** What the adapter does in a write transaction. *)
Inductive wop :=
  | Pushd (path : pystr)
  | SetElem (v : json) (path : pystr)
  | Delete (path : pystr).

(** [R] and [T] are read and write transactions on the datastore [X].  The operations of
    a write transaction are kept in it; applying it may fail, and it is the only one
    that gets the datastore. *)
Class ConfdApi (V X R T : Type) := {
  hash2str : Z → pystr;
  cs_node_cd : option csnode → pystr → option csnode;
  pp_kpath : list (kpelem V) → pystr;
  value_kind : V → vkind;
  value_str : V → pystr;
  val2str : V → csnode → res pystr;
  str2val : pystr → csnode → res V;
  single_read_trans : X → pystr → datastore → res R;
  xpath_eval : R → pystr → list (list (kpelem V));
  save_config : R → list save_flag → pystr → pystr * Z;
  modules : R → list (pystr * pystr * pystr);
  single_write_trans : X → pystr → res T;
  trans_do : wop → T → res T;
  trans_apply : T → X → res unit * X
}.

(** ** The adapter *)

Record api_adapter := {
  addr : pystr; port : Z; username : pystr; password : pystr;
  module_to_pfx : list (pystr * pystr); pfx_to_module : list (pystr * pystr);
  ns_to_module : list (Z * pystr)
}.

(** A dictionary comprehension. *)
Definition dict_of {K V} `{EqDecision K} (l : list (K * V)) : list (K * V) :=
  foldl (λ d '(k, v), dict_set k v d) [] l.

(** [__init__], from the namespaces ConfD knows: hash, prefix, module. *)
Definition new_adapter (nslist : list (Z * pystr * pystr)) : api_adapter := {|
  addr := []; port := 0; username := []; password := [];
  module_to_pfx := dict_of ((λ '(_, pfx, m), (m, pfx)) <$> nslist);
  pfx_to_module := dict_of ((λ '(_, pfx, m), (pfx, m)) <$> nslist);
  ns_to_module := dict_of ((λ '(ns, _, m), (ns, m)) <$> nslist)
|}.

(** The class attributes [confd_addr], [confd_port] and their defaults. *)
Definition CONFD_ADDR : pystr := py"127.0.0.1".
Definition CONFD_PORT : Z := 4565.
Definition EXT_SPOINT : Z := -1.

Definition connect (addr' : option pystr) (port' : option Z) (user pass : pystr) (a : api_adapter) : api_adapter := {|
  addr := default CONFD_ADDR addr'; port := default CONFD_PORT port'; username := user; password := pass;
  module_to_pfx := module_to_pfx a; pfx_to_module := pfx_to_module a; ns_to_module := ns_to_module a
|}.

(** [re.sub(r'([^/:]+):', module_to_prefix, path)]; [run] is the text since the
    last slash or colon. *)
Fixpoint fix_from (a : api_adapter) (run s : pystr) : pystr :=
  match s with
  | [] => run
  | c :: s' =>
      if (c =? ":")%char then
        (match run with
         | [] => []
         | _ => default run (dict_get run (module_to_pfx a))
         end) ++ ":"%char :: fix_from a [] s'
      else if (c =? "/")%char then run ++ "/"%char :: fix_from a [] s'
      else fix_from a (run ++ [c]) s'
  end.
Definition fix_path_prefixes (a : api_adapter) (path : pystr) : pystr := fix_from a [] path.

Section api.
Context `{PM : ProtoMap}.
Context {V X R T : Type} `{ConfdApi V X R T}.

(** [reversed(list(csnode_list()))]: the nodes from the root to the node. *)
Fixpoint csnode_list (n : csnode) : list csnode :=
  match n with
  | CsNode _ None => [n]
  | CsNode _ (Some p) => n :: csnode_list p
  end.

(** The loop of [make_gnmi_keypath_elems]; the key path is read from its end. *)
Fixpoint keypath_elems (a : api_adapter) (nodes : list csnode) (kp : list (kpelem V)) (ns : Z)
    : res (list PathElem) :=
  match nodes with
  | [] => Ok []
  | node :: nodes' =>
      match kp with
      | [] => Raise AssertionError
      | KKeys _ :: _ => Raise AttributeError
      | KTag ns' tag :: kp' =>
          name ← (if decide (ns' = ns) then Ok (hash2str tag)
                  else m ← dict_lookup ns' (ns_to_module a); Ok (m ++ py":" ++ hash2str tag));
          if n_list (node_info_of node) then
            match kp' with
            | KKeys vals :: kp'' =>
                let keys := dict_of (zip (hash2str <$> n_keys (node_info_of node)) (value_str <$> vals)) in
                rest ← keypath_elems a nodes' kp'' ns';
                Ok (new_elem name keys :: rest)
            | _ => Raise AssertionError
            end
          else
            rest ← keypath_elems a nodes' kp' ns';
            Ok (new_elem name [] :: rest)
      end
  end.

Definition make_gnmi_keypath_elems (a : api_adapter) (keypath : list (kpelem V)) (node : csnode) : res (list PathElem) :=
  keypath_elems a (reverse (csnode_list node)) (reverse keypath) 0.

(** The node is looked up when it is not given; there may be none. *)
Definition make_gnmi_keypath (a : api_adapter) (keypath : list (kpelem V)) (node : option csnode) : res Path :=
  elems ← match (match node with None => cs_node_cd None (pp_kpath keypath) | _ => node end) with
          | Some n => make_gnmi_keypath_elems a keypath n
          | None => Ok []
          end;
  Ok {| origin := []; elem := elems; target := [] |}.

Definition make_gnmi_json_value (a : api_adapter) (value : V) (node : csnode) : res TypedValue :=
  json_value ←
    match value_kind value with
    | VInt z => Ok (JInt z)
    | VBool b => Ok (JBool b)
    | VIdentityref =>
        s ← val2str value node;
        match split ":" s with
        | [pfx; idref] =>
            m ← dict_lookup pfx (pfx_to_module a);
            Ok (JStr (m ++ py":" ++ idref))
        | _ => Raise ValueError
        end
    | VOther => s ← val2str value node; Ok (JStr s)
    end;
  Ok (JsonIetfVal (dumps json_value)).

(** ** Get *)

(** [len(saved_data) == 1] and [[data] = saved_data.values()]. *)
Definition saved_value (saved_data : json) : res json :=
  match saved_data with
  | JDict [(_, data)] => Ok data
  | JDict _ => Raise AssertionError
  | JList [_] | JStr [_] => Raise AttributeError
  | JList _ | JStr _ => Raise AssertionError
  | JNull | JBool _ | JInt _ => Raise TypeError
  end.

(** [add_update_json] for a node found; nothing is added when nothing is saved. *)
Definition add_update_json (a : api_adapter) (t : R) (save_flags : list save_flag) (node : csnode)
    (keypath : list (kpelem V)) : res (list Update) :=
  let '(save_str, save_result) := save_config t save_flags (pp_kpath keypath) in
  match save_str with
  | [] => Ok []
  | _ =>
      saved_data ← loads save_str;
      _ ← py_assert (bool_decide (save_result = 0%Z));
      gnmi_path ← make_gnmi_keypath a keypath (Some node);
      data ← saved_value saved_data;
      Ok [{| up_path := gnmi_path; up_val := JsonIetfVal (dumps data) |}]
  end.

Definition api_get_updates (a : api_adapter) (t : R) (path_str : pystr) (save_flags : list save_flag)
    : res (list Update) :=
  match cs_node_cd None path_str with
  | None => Ok []
  | Some node =>
      updates ← res_map (add_update_json a t save_flags node) (xpath_eval t path_str);
      Ok (concat updates)
  end.

(** The flags and the datastore of a data type. *)
Definition save_options (data_type : Z) : list save_flag * datastore :=
  let save_flags := [CONFIG_JSON; CONFIG_NO_PARENTS] in
  if decide (data_type = DT_ALL) then (save_flags ++ [CONFIG_WITH_OPER], OPERATIONAL)
  else if decide (data_type = DT_CONFIG) then (save_flags, RUNNING)
  else if decide (data_type = DT_STATE) then (save_flags ++ [CONFIG_OPER_ONLY], OPERATIONAL)
  else if decide (data_type = DT_OPERATIONAL) then (save_flags ++ [CONFIG_OPER_ONLY], OPERATIONAL)
  else (save_flags, OPERATIONAL).

(** An exception is logged and gives no updates. *)
Definition get_updates_with_maapi_save (a : api_adapter) (x : X) (path : pystr) (data_type : Z) : list Update :=
  let pfx_path := fix_path_prefixes a path in
  let '(save_flags, db) := save_options data_type in
  match (t ← single_read_trans x (username a) db; api_get_updates a t pfx_path save_flags) with
  | Ok updates => updates
  | Raise _ => []
  end.

(** The updates relative to the prefix. *)
Definition relative_update (prefix : Path) (u : Update) : res Update :=
  p ← remove_path_prefix (up_path u) prefix;
  Ok {| up_path := p; up_val := up_val u |}.

Definition api_get (a : api_adapter) (x : X) (prefix : Path) (paths : list Path) (data_type : Z) : res (list Notification) :=
  let updates2 := (λ path, get_updates_with_maapi_save a x (make_xpath_path (Some path) (Some prefix) true) data_type) <$> paths in
  updates ← res_map (relative_update prefix) (concat updates2);
  Ok [{| timestamp := 1; prefix := prefix; update := updates; delete := []; atomic := true |}].

(** ** Set and delete *)

(** [update_paths]: the operations for a JSON value at a path below a node. *)
Fixpoint update_paths (a : api_adapter) (path : pystr) (val : json) (parent_node : option csnode) {struct val}
    : T → res T := λ t,
  let node := cs_node_cd parent_node path in
  match val with
  | JDict d =>
      t' ← trans_do (Pushd path) t;
      (fix go (d : list (pystr * json)) (t : T) : res T :=
         match d with
         | [] => Ok t
         | (leaf, value) :: d' => t1 ← update_paths a (fix_path_prefixes a leaf) value node t; go d' t1
         end) d t'
  | _ =>
      match node with
      | None => Raise AttributeError
      | Some n =>
          if n_identityref (node_info_of n) then
            match val with
            | JStr s => trans_do (SetElem (JStr (fix_path_prefixes a s)) path) t
            | _ => Raise TypeError
            end
          else trans_do (SetElem val path) t
      end
  end.

Definition api_set_update (a : api_adapter) (prefix path : Path) (val : TypedValue) (t : T) : res T :=
  let path_str := fix_path_prefixes a (make_formatted_path path (Some prefix) false) in
  match val with
  | StringVal (c :: s) => trans_do (SetElem (JStr (c :: s)) path_str) t
  | JsonIetfVal (c :: s) => jval ← loads (c :: s); update_paths a path_str jval None t
  | _ => Ok t
  end.

Definition api_set (a : api_adapter) (prefix : Path) (updates : list Update) : PyM X (list (Path * Z)) :=
  x ← get;
  t ← lift (single_write_trans x (username a));
  t' ← lift (res_fold (λ t up, api_set_update a prefix (up_path up) (up_val up) t) t updates);
  _ ← trans_apply t';
  mret ((λ up, (up_path up, OP_UPDATE)) <$> updates).

Definition api_delete (a : api_adapter) (prefix : Path) (paths : list Path) : PyM X (list (Path * Z)) :=
  x ← get;
  t ← lift (single_write_trans x (username a));
  t' ← lift (res_fold (λ t path, trans_do (Delete (fix_path_prefixes a (make_formatted_path path (Some prefix) false))) t) t paths);
  _ ← trans_apply t';
  mret ((λ path, (path, OP_DELETE)) <$> paths).

(** ** Capabilities *)

(** When the transaction cannot be read the exception is logged, and the return
    statement then reads a variable that was not assigned. *)
Definition get_netconf_capabilities (a : api_adapter) (x : X) : res (list (pystr * pystr * pystr * pystr)) :=
  match single_read_trans x (username a) RUNNING with
  | Ok t => Ok ((λ '(ns, name, revision), (ns, ns ++ py":" ++ name, [], revision)) <$> modules t)
  | Raise _ => Raise UnboundLocalError
  end.

Definition capability_model (ns : pystr * pystr * pystr * pystr) : CapabilityModel :=
  let '(_, name, _, version) := ns in
  {| cm_name := name; cm_organization := []; cm_version := version; cm_schema := [] |}.

Definition api_capabilities (a : api_adapter) (x : X) : res (list CapabilityModel) :=
  match get_netconf_capabilities a x with
  | Ok ns_list => Ok (capability_model <$> ns_list)
  | Raise e => Raise e
  end.

Definition api_encodings : list Z := [JSON; JSON_IETF].

(** ** The subscription handler *)

Inductive ChangeOp := MODIFIED.

(** An operation, the path that changed and its new value; the operation of an
    external change is the text received. *)
Definition api_change : Type := (ChangeOp + pystr) * Path * TypedValue.

(** The adapter, ConfD, and the attributes of the handler; [outbox] lists the
    events the change thread puts on the queue of the handler. *)
Record api_world := {
  adapter : api_adapter;
  store : X;
  monitored_paths : list Path;
  change_db : list (Z * list api_change);
  change_thread : bool;
  stop_pipe : bool;
  subpoint_paths : list (Z * Path);
  outbox : list SubscriptionEvent
}.

Definition set_store (x : X) (w : api_world) : api_world := {|
  adapter := adapter w; store := x; monitored_paths := monitored_paths w; change_db := change_db w;
  change_thread := change_thread w; stop_pipe := stop_pipe w; subpoint_paths := subpoint_paths w; outbox := outbox w |}.
Definition set_monitored (l : list Path) (w : api_world) : api_world := {|
  adapter := adapter w; store := store w; monitored_paths := l; change_db := change_db w;
  change_thread := change_thread w; stop_pipe := stop_pipe w; subpoint_paths := subpoint_paths w; outbox := outbox w |}.
Definition set_change_db (l : list (Z * list api_change)) (w : api_world) : api_world := {|
  adapter := adapter w; store := store w; monitored_paths := monitored_paths w; change_db := l;
  change_thread := change_thread w; stop_pipe := stop_pipe w; subpoint_paths := subpoint_paths w; outbox := outbox w |}.
Definition set_thread (thread pipe : bool) (w : api_world) : api_world := {|
  adapter := adapter w; store := store w; monitored_paths := monitored_paths w; change_db := change_db w;
  change_thread := thread; stop_pipe := pipe; subpoint_paths := subpoint_paths w; outbox := outbox w |}.
Definition set_subpoint (k : Z) (p : Path) (w : api_world) : api_world := {|
  adapter := adapter w; store := store w; monitored_paths := monitored_paths w; change_db := change_db w;
  change_thread := change_thread w; stop_pipe := stop_pipe w;
  subpoint_paths := dict_set k p (subpoint_paths w); outbox := outbox w |}.
Definition api_put_event (e : SubscriptionEvent) (w : api_world) : api_world := {|
  adapter := adapter w; store := store w; monitored_paths := monitored_paths w; change_db := change_db w;
  change_thread := change_thread w; stop_pipe := stop_pipe w; subpoint_paths := subpoint_paths w;
  outbox := outbox w ++ [e] |}.

(** [SubscriptionHandler.__init__]. *)
Definition new_world (a : api_adapter) (x : X) : api_world := {|
  adapter := a; store := x; monitored_paths := []; change_db := []; change_thread := false;
  stop_pipe := false; subpoint_paths := []; outbox := [] |}.

(** The notification of one entry of [change_db]. *)
Definition change_notification (subpoints : list (Z * Path)) (entry : Z * list api_change) : res Notification :=
  let '(sub_point, changes) := entry in
  prefix ← dict_lookup sub_point subpoints;
  updates ← res_map (λ '(_, path, value), relative_update prefix {| up_path := path; up_val := value |}) changes;
  Ok {| timestamp := 0; prefix := prefix; update := updates; delete := []; atomic := false |}.

Definition api_get_subscription_notifications : PyM api_world (list Notification) :=
  w ← get;
  _ ← lift (py_assert (negb (bool_decide (length (change_db w) = 0))));
  notifications ← lift (res_map (change_notification (subpoint_paths w)) (change_db w));
  _ ← modify (set_change_db []);
  mret notifications.

Definition api_get_sample (path prefix : Path) : PyM api_world (list Update) :=
  w ← get;
  let pathstr := make_xpath_path (Some path) (Some prefix) true in
  let updates := get_updates_with_maapi_save (adapter w) (store w) pathstr DT_ALL in
  lift (res_map (relative_update prefix) updates).

Definition api_add_path_for_monitoring (path prefix : Path) : PyM api_world unit :=
  modify (λ w, set_monitored (monitored_paths w ++ [add_path_prefix path prefix]) w).

(** [kp_to_xpath], from the XPath ConfD prints for a key path. *)
Definition kp_to_xpath (xpath_pp : pystr) : pystr :=
  let xpath := replace xpath_pp dquote [] in
  match split1 ":" xpath with
  | [_; rest] => if startswith xpath (py"/") then py"/" ++ rest else rest
  | _ => xpath
  end.

(** ** The change thread *)

Definition _append_changes (sub_point : Z) (changes : list api_change) (w : api_world) : api_world :=
  set_change_db (change_db w ++ [(sub_point, changes)]) w.

(** The kinds of changes [cdb.diff_iterate] reports. *)
Inductive mop := MOP_CREATED | MOP_VALUE_SET | MOP_DELETED | MOP_MODIFIED | MOP_OTHER.

(** [cdb_iter]: only new values are collected.  A key path that has no schema
    node fails when its value is read. *)
Definition cdb_iter (a : api_adapter) (d : list (kpelem V) * mop * V) : res (list api_change) :=
  let '(kp, op, newv) := d in
  let node := cs_node_cd None (pp_kpath kp) in
  match op with
  | MOP_VALUE_SET =>
      path ← make_gnmi_keypath a kp node;
      value ← match node with
              | Some n => make_gnmi_json_value a newv n
              | None => match value_kind newv with
                        | VInt z => Ok (JsonIetfVal (dumps (JInt z)))
                        | VBool b => Ok (JsonIetfVal (dumps (JBool b)))
                        | _ => Raise AttributeError
                        end
              end;
      Ok [(inl MODIFIED, path, value)]
  | _ => Ok []
  end.

(** [process_subscription], for the changes CDB has for the subscription. *)
Definition process_subscription (sub_point : Z) (diff : list (list (kpelem V) * mop * V)) : PyM api_world unit :=
  w ← get;
  changes ← lift (res_map (cdb_iter (adapter w)) diff);
  _ ← modify (_append_changes sub_point (concat changes));
  modify (api_put_event SEND_CHANGES).

(** One external change: an operation, an XPath and a value. *)
Definition external_change (a : api_adapter) (op xpath value : pystr) : res api_change :=
  let fxpath := fix_path_prefixes a xpath in
  let node := cs_node_cd None fxpath in
  path ← make_gnmi_path xpath None None;
  match node with
  | None => Raise AttributeError
  | Some n =>
      cval ← str2val value n;
      json_value ← make_gnmi_json_value a cval n;
      Ok (inr op, path, json_value)
  end.

(** [zip(data_iter, data_iter, data_iter)]. *)
Fixpoint _external_changes (a : api_adapter) (data : list pystr) : res (list api_change) :=
  match data with
  | op :: xpath :: value :: data' =>
      c ← external_change a op xpath value;
      cs ← _external_changes a data';
      Ok (c :: cs)
  | _ => Ok []
  end.

(** What a peer sends on a connection before it closes it: the pieces as they arrive.
    One [recv] gets at most [n] bytes of the first. *)
Definition connection : Type := list pystr.
Definition recv (n : nat) (conn : connection) : pystr :=
  match conn with piece :: _ => take n piece | [] => [] end.
Definition RECV_SIZE : nat := Z.to_nat 1024.

(** [process_external_change]: what the single [recv] does not get is lost. *)
Definition process_external_change (conn : connection) : PyM api_world unit :=
  w ← get;
  let msg := recv RECV_SIZE conn in
  text ← lift (NetconfFraming.str_data (NetconfFraming.BBytes msg));
  let data := split "010" text in
  _ ← lift (py_assert (bool_decide (length data mod 3 = 0)));
  changes ← lift (_external_changes (adapter w) data);
  _ ← modify (_append_changes EXT_SPOINT changes);
  modify (api_put_event SEND_CHANGES).

(** A CDB subscription that is made: its point, whether it is for the running
    configuration or for operational data, and its path. *)
Inductive sub_type := SUB_RUNNING | SUB_OPERATIONAL.
Definition cdb_subscription : Type := Z * sub_type * pystr.

(** The path the changes of a subscription are relative to: for a list without
    keys, the path of its parent. *)
Definition subpoint_path (node : csnode) (path : Path) : res Path :=
  if n_list (node_info_of node) then
    match last (elem path) with
    | None => Raise IndexError
    | Some e =>
        if decide (pe_key e = [])
        then Ok {| elem := take (length (elem path) - 1) (elem path); origin := origin path; target := target path |}
        else Ok path
    end
  else Ok path.

(** The loop over the monitored paths, [n] subscriptions having been made;
    [spoint] numbers the points.  Whether some path is not in CDB, and the
    subscriptions made. *)
Fixpoint subscribe_paths (spoint : nat → Z) (n : nat) (paths : list Path)
    : PyM api_world (bool * list cdb_subscription) :=
  match paths with
  | [] => mret (false, [])
  | path :: paths' =>
      w ← get;
      let path_str := fix_path_prefixes (adapter w) (make_formatted_path path None false) in
      match cs_node_cd None path_str with
      | None => raise AttributeError
      | Some node =>
          subpoint ← lift (subpoint_path node path);
          if n_cdb (node_info_of node) then
            let cdb_type := if n_write (node_info_of node) then SUB_RUNNING else SUB_OPERATIONAL in
            _ ← modify (set_subpoint (spoint n) subpoint);
            x ← subscribe_paths spoint (S n) paths';
            mret (x.1, (spoint n, cdb_type, path_str) :: x.2)
          else
            x ← subscribe_paths spoint n paths';
            mret (true, x.2)
      end
  end.

Definition subscribe_monitored_paths_cdb (spoint : nat → Z) : PyM api_world (bool * list cdb_subscription) :=
  w ← get; subscribe_paths spoint 0 (monitored_paths w).

(** What [select] reports in an iteration of [socket_loop]: an external connection; the subscription points CDB notifies, with the changes,
    or the error of reading them; and the stop byte. *)
Record ready := {
  ext_ready : option connection;
  sub_ready : option (res (list (Z * list (list (kpelem V) * mop * V))));
  stop_ready : bool
}.

(** The notified subscriptions in order.  ConfD turns an exception of the
    callback into an external error, which is logged: the remaining points of
    the notification are not processed. *)
Fixpoint process_subscriptions (l : list (Z * list (list (kpelem V) * mop * V))) (w : api_world) : api_world :=
  match l with
  | [] => w
  | (sub_point, diff) :: l' =>
      match process_subscription sub_point diff w with
      | (Ok _, w') => process_subscriptions l' w'
      | (Raise _, w') => w'
      end
  end.

(** One iteration of [socket_loop]; the result is whether it is the last. *)
Definition socket_step (external : bool) (r : ready) : PyM api_world bool :=
  _ ← match external, ext_ready r with
      | true, Some msg => process_external_change msg
      | _, _ => mret tt
      end;
  _ ← match sub_ready r with
      | Some (Ok l) => modify (process_subscriptions l)
      | Some (Raise e) => raise e
      | None => mret tt
      end;
  mret (stop_ready r).

(** The loop on what [select] reports, until the stop byte. *)
Fixpoint socket_loop (external : bool) (rs : list ready) : PyM api_world bool :=
  match rs with
  | [] => mret false
  | r :: rs' =>
      stop ← socket_step external r;
      if (stop : bool) then mret true else socket_loop external rs'
  end.

(** An exception of the loop is logged and ends the subscription. *)
Definition guarded_loop (external : bool) (rs : list ready) : PyM api_world bool := λ w,
  match socket_loop external rs w with
  | (Raise _, w') => (Ok true, api_put_event FINISH w')
  | r => r
  end.

(** [process_changes], the body of the change thread. *)
Definition process_changes (external_changes : bool) (spoint : nat → Z) (rs : list ready) : PyM api_world bool :=
  x ← subscribe_monitored_paths_cdb spoint;
  w ← get;
  _ ← lift (py_assert (stop_pipe w));
  let external := external_changes && x.1 in
  _ ← (if (external : bool) then modify (set_subpoint EXT_SPOINT empty_path) else mret tt);
  guarded_loop external rs.

Definition api_start_monitoring : PyM api_world unit :=
  w ← get;
  _ ← lift (py_assert (negb (change_thread w)));
  _ ← lift (py_assert (negb (stop_pipe w)));
  modify (set_thread true true).

(** The stop byte is written, the thread is joined and the pipe is closed. *)
Definition api_stop_monitoring : PyM api_world unit :=
  w ← get;
  _ ← (if change_thread w then
         _ ← lift (py_assert (stop_pipe w));
         modify (set_thread false false)
       else mret tt);
  modify (set_monitored []).

(** ** The interfaces of the server *)

#[global] Instance api_handler : HandlerOps api_world :=
  {| get_sample := api_get_sample;
     add_path_for_monitoring := api_add_path_for_monitoring;
     get_subscription_notifications _ := api_get_subscription_notifications;
     start_monitoring := api_start_monitoring;
     stop_monitoring := api_stop_monitoring |}.

(** Run a write on the datastore. *)
Definition on_store {A} (f : api_adapter → PyM X A) : PyM api_world A := λ w,
  let '(r, x) := f (adapter w) (store w) in (r, set_store x w).

#[global] Instance api_adapter_ops : AdapterOps api_world :=
  {| capabilities := w ← get; lift (api_capabilities (adapter w) (store w));
     encodings := mret api_encodings;
     adapter_get prefix paths data_type _ := w ← get; lift (api_get (adapter w) (store w) prefix paths data_type);
     adapter_set prefix updates := on_store (λ a, api_set a prefix updates);
     adapter_delete prefix paths := on_store (λ a, api_delete a prefix paths) |}.
End api.

(** ** Lemmas: prefixes *)

(** A path element as text: a module name, if the element is qualified, and the
    rest (name and keys). *)
Definition segment : Type := option pystr * pystr.
Definition segment_text (f : pystr → pystr) (s : segment) : pystr :=
  py"/" ++ match s.1 with Some m => f m ++ py":" | None => [] end ++ s.2.
Definition segments_text (f : pystr → pystr) (l : list segment) : pystr := concat (segment_text f <$> l).

Definition no_sep (s : pystr) : Prop := Forall (λ c, c ≠ ":"%char ∧ c ≠ "/"%char) s.
Definition segment_ok (s : segment) : Prop :=
  match s.1 with Some m => m ≠ [] ∧ no_sep m | None => True end ∧ no_sep s.2.

#[export] Instance no_sep_dec s : Decision (no_sep s).
Proof. unfold no_sep. apply _. Defined.
#[export] Instance segment_ok_dec s : Decision (segment_ok s).
Proof. unfold segment_ok. destruct (s.1); apply _. Defined.

(** The prefix of a module, or the name itself. *)
Definition module_prefix (a : api_adapter) (m : pystr) : pystr := default m (dict_get m (module_to_pfx a)).

Lemma fix_from_run a run s k : no_sep s → fix_from a run (s ++ k) = fix_from a (run ++ s) k.
Proof.
  intros Hs. revert run. induction Hs as [|c s [Hc1 Hc2] _ IH]; intros run; cbn; [by rewrite app_nil_r|].
  rewrite (proj2 (Ascii.eqb_neq c ":")), (proj2 (Ascii.eqb_neq c "/")) by done.
  by rewrite IH, <-app_assoc.
Qed.

Lemma fix_from_module a m k :
  m ≠ [] → no_sep m → fix_from a [] (m ++ ":"%char :: k) = module_prefix a m ++ ":"%char :: fix_from a [] k.
Proof. intros Hne Hm. rewrite fix_from_run by done. cbn. by destruct m. Qed.

Lemma fix_from_segments a run l :
  Forall segment_ok l → fix_from a run (segments_text id l) = run ++ segments_text (module_prefix a) l.
Proof.
  intros Hl. revert run. induction Hl as [|[q rest] l [Hq Hr] _ IH]; intros run; cbn; [by rewrite app_nil_r|].
  fold (segments_text id l). fold (segments_text (module_prefix a) l).
  cbn in Hq, Hr. unfold segment_text. cbn [fst snd]. rewrite <-!app_assoc. py_norm. cbn [app].
  change (fix_from a run ("/"%char :: ?x)) with (run ++ "/"%char :: fix_from a [] x).
  f_equal. f_equal. destruct q as [m|]; cbn [app].
  - destruct Hq as [Hne Hm]. rewrite <-!app_assoc. cbn [app]. unfold id at 1.
    rewrite fix_from_module by done. by rewrite fix_from_run, IH.
  - by rewrite fix_from_run, IH.
Qed.

(** A path without qualified names is left as it is. *)
Lemma fix_no_colon a run s : ":"%char ∉ s → fix_from a run s = run ++ s.
Proof.
  revert run. induction s as [|c s IH]; intros run Hc; cbn; [by rewrite app_nil_r|].
  apply not_elem_of_cons in Hc as [Hc Hs].
  rewrite (proj2 (Ascii.eqb_neq c ":")) by congruence.
  destruct (Ascii.eqb_spec c "/") as [->|_]; [by rewrite IH|].
  by rewrite IH, <-app_assoc.
Qed.

(** ** Lemmas: key paths *)

Section keypaths.
Context `{PM : ProtoMap}.
Context {V X R T : Type} `{ConfdApi V X R T}.

(** A step of an instance path, from the root: a node with its namespace and tag
    and, for a list entry, the values of its keys. *)
Record kstep := { k_ns : Z; k_tag : Z; k_keys : option (list V); k_info : node_info }.

(** The key path as ConfD gives it, and the schema node at its end. *)
Definition step_elems (s : kstep) : list (kpelem V) :=
  KTag (k_ns s) (k_tag s) :: match k_keys s with Some vals => [KKeys vals] | None => [] end.
Definition keypath_of (steps : list kstep) : list (kpelem V) := reverse (concat (step_elems <$> steps)).
Definition node_below (p : option csnode) (steps : list kstep) : option csnode :=
  foldl (λ p s, Some (CsNode (k_info s) p)) p steps.

Definition step_ok (a : api_adapter) (s : kstep) : Prop :=
  (is_Some (k_keys s) ↔ n_list (k_info s) = true) ∧ k_ns s ≠ 0%Z ∧ is_Some (dict_get (k_ns s) (ns_to_module a)).

(** The element of a step: the name is qualified with its module exactly when
    the namespace is not the one of the parent. *)
Definition step_elem (a : api_adapter) (parent_ns : Z) (s : kstep) : PathElem :=
  new_elem
    (if decide (k_ns s = parent_ns) then hash2str (k_tag s)
     else default [] (dict_get (k_ns s) (ns_to_module a)) ++ py":" ++ hash2str (k_tag s))
    (match k_keys s with
     | Some vals => dict_of (zip (hash2str <$> n_keys (k_info s)) (value_str <$> vals))
     | None => []
     end).
Fixpoint step_path (a : api_adapter) (parent_ns : Z) (steps : list kstep) : list PathElem :=
  match steps with
  | [] => []
  | s :: steps' => step_elem a parent_ns s :: step_path a (k_ns s) steps'
  end.

Lemma keypath_elems_steps a steps ns nodes :
  Forall (step_ok a) steps → (node_info_of <$> nodes) = (k_info <$> steps) →
  keypath_elems a nodes (concat (step_elems <$> steps)) ns = Ok (step_path a ns steps).
Proof.
  intros Hs. revert ns nodes. induction Hs as [|s steps (Hk & _ & [m Hm]) _ IH]; intros ns nodes Hn.
  - by destruct nodes.
  - destruct nodes as [|n nodes]; [done|]. injection Hn as Hn1 Hn.
    rewrite fmap_cons. cbn [concat keypath_elems step_elems app]. rewrite Hn1.
    assert ((if decide (k_ns s = ns) then Ok (hash2str (k_tag s))
             else m ← dict_lookup (k_ns s) (ns_to_module a); Ok (m ++ py":" ++ hash2str (k_tag s))) =
            Ok (pe_name (step_elem a ns s))) as ->.
    { unfold step_elem, dict_lookup. rewrite Hm. by destruct (decide (k_ns s = ns)). }
    cbn [mbind res_bind step_path].
    destruct (k_keys s) as [vals|] eqn:Hv; destruct (n_list (k_info s)) eqn:Hl.
    + cbn [app]. rewrite IH by done. cbn. f_equal. f_equal. unfold step_elem. by rewrite Hv.
    + pose proof (proj1 Hk (mk_is_Some _ _ eq_refl)). done.
    + by destruct (proj2 Hk eq_refl) as [? [=]].
    + cbn [app]. rewrite IH by done. cbn. f_equal. f_equal. unfold step_elem. by rewrite Hv.
Qed.

Definition ancestors (p : option csnode) : list csnode :=
  match p with Some q => reverse (csnode_list q) | None => [] end.

Lemma csnode_list_below steps p :
  ∃ nodes, ancestors (node_below p steps) = ancestors p ++ nodes ∧ (node_info_of <$> nodes) = (k_info <$> steps).
Proof.
  revert p. induction steps as [|s steps IH]; intros p; [exists []; by rewrite app_nil_r|].
  destruct (IH (Some (CsNode (k_info s) p))) as (nodes & Hr & Hi).
  exists (CsNode (k_info s) p :: nodes). split; [|by rewrite !fmap_cons, Hi].
  change (node_below p (s :: steps)) with (node_below (Some (CsNode (k_info s) p)) steps). rewrite Hr.
  destruct p as [q|]; [|done]. cbn [ancestors csnode_list]. by rewrite reverse_cons, <-app_assoc.
Qed.

Lemma node_below_Some steps p : steps ≠ [] → is_Some (node_below p steps).
Proof.
  destruct steps as [|s steps]; [done|]. intros _. cbn. generalize (CsNode (k_info s) p).
  induction steps as [|s' steps IH]; intros n; cbn; [by eauto | apply IH].
Qed.

(** ** Lemmas: sets *)

(** The operations of a JSON value at a path, in order, when its leaves have
    schema nodes and identities are texts. *)
Fixpoint update_ops (a : api_adapter) (path : pystr) (val : json) (parent_node : option csnode) {struct val}
    : option (list wop) :=
  let node := cs_node_cd parent_node path in
  match val with
  | JDict d =>
      rest ← (fix go (d : list (pystr * json)) : option (list wop) :=
         match d with
         | [] => Some []
         | (leaf, value) :: d' =>
             ops ← update_ops a (fix_path_prefixes a leaf) value node;
             rest ← go d';
             Some (ops ++ rest)
         end) d;
      Some (Pushd path :: rest)
  | _ =>
      n ← node;
      if n_identityref (node_info_of n) then
        match val with JStr s => Some [SetElem (JStr (fix_path_prefixes a s)) path] | _ => None end
      else Some [SetElem val path]
  end.

Definition do_ops (ops : list wop) (t : T) : res T := res_fold (λ t o, trans_do o t) t ops.

Lemma do_ops_app ops1 ops2 t : do_ops (ops1 ++ ops2) t = (t' ← do_ops ops1 t; do_ops ops2 t').
Proof. apply res_fold_app. Qed.

Lemma update_paths_ops a val : ∀ path parent ops t,
  update_ops a path val parent = Some ops → update_paths a path val parent t = do_ops ops t.
Proof.
  induction val as [|b|z|s|l IHl|d IHd] using json_ind'; intros path parent ops t.
  5: { cbn. destruct (cs_node_cd parent path) as [n|]; [|done]. cbn.
       destruct (n_identityref (node_info_of n)); intros [= <-]. cbn. by destruct (trans_do _ t). }
  5: { cbn. destruct (_ d) as [rest|] eqn:Hgo in |- *; [|done]. cbn. intros [= <-]. cbn.
       destruct (trans_do (Pushd path) t) as [t'|e]; cbn; [|done].
       revert rest Hgo t'. induction IHd as [|[leaf value] d Hv _ IH]; intros rest Hgo t'.
       - by injection Hgo as <-.
       - destruct (update_ops a (fix_path_prefixes a leaf) value _) as [ops|] eqn:Hops in Hgo; [|done]. cbn in Hgo.
         destruct (_ d) as [rest'|] eqn:Hd in Hgo; [|done]. cbn in Hgo. injection Hgo as <-.
         fold (do_ops (ops ++ rest') t'). rewrite do_ops_app. cbn in Hv. rewrite (Hv _ _ _ _ Hops).
         destruct (do_ops ops t') as [t1|e]; cbn; [|done]. by apply IH. }
  all: cbn; destruct (cs_node_cd parent path) as [n|]; [|done]; cbn;
    destruct (n_identityref (node_info_of n)); intros [= <-]; cbn; by destruct (trans_do _ t).
Qed.

(** The operations of an update. *)
Definition set_ops (a : api_adapter) (prefix : Path) (up : Update) : option (list wop) :=
  let path_str := fix_path_prefixes a (make_formatted_path (up_path up) (Some prefix) false) in
  match up_val up with
  | StringVal (c :: s) => Some [SetElem (JStr (c :: s)) path_str]
  | JsonIetfVal (c :: s) =>
      match loads (c :: s) with Ok jval => update_ops a path_str jval None | Raise _ => None end
  | _ => Some []
  end.

Lemma api_set_update_ops a prefix up ops t :
  set_ops a prefix up = Some ops → api_set_update a prefix (up_path up) (up_val up) t = do_ops ops t.
Proof.
  unfold set_ops, api_set_update. destruct (up_val up) as [[|c s]| | | | | | | | | | |[|c s]| | |];
    try (intros [= <-]; done).
  - intros [= <-]. cbn. by destruct (trans_do _ t).
  - destruct (loads (c :: s)) as [j|]; [|done]. cbn. apply update_paths_ops.
Qed.

(** Without a translation it fails, before or at the value that has none. *)
Lemma update_paths_none a val : ∀ path parent t,
  update_ops a path val parent = None → ∃ e, update_paths a path val parent t = Raise e.
Proof.
  induction val as [|b|z|s|l IHl|d IHd] using json_ind'; intros path parent t.
  6: { cbn. destruct (trans_do (Pushd path) t) as [t'|e]; cbn; [|by eauto].
       destruct (_ d) as [rest|] eqn:Hgo in |- *; [done|]. intros _. revert Hgo t'.
       induction IHd as [|[leaf value] d Hv _ IH]; intros Hgo t'; [done|].
       destruct (update_ops a (fix_path_prefixes a leaf) value _) as [ops|] eqn:Hops in Hgo; cbn in Hgo.
       - rewrite (update_paths_ops _ _ _ _ _ _ Hops). destruct (do_ops ops t') as [t1|e]; cbn; [|by eauto].
         apply IH. by destruct (_ d) as [rest'|] eqn:Hd in Hgo |- *.
       - cbn in Hv. destruct (Hv _ _ t' Hops) as [e He]. rewrite He. by eauto. }
  all: cbn; destruct (cs_node_cd parent path) as [n|]; [|by eauto]; cbn;
    destruct (n_identityref (node_info_of n)); intros Hn; by eauto.
Qed.

Lemma api_set_update_none a prefix up t :
  set_ops a prefix up = None → ∃ e, api_set_update a prefix (up_path up) (up_val up) t = Raise e.
Proof.
  unfold set_ops, api_set_update. destruct (up_val up) as [[|c s]| | | | | | | | | | |[|c s]| | |]; try done.
  destruct (loads (c :: s)) as [j|e]; [|by eauto]. cbn. apply update_paths_none.
Qed.

(** When all updates are done they had translations. *)
Lemma set_fold_ops a prefix updates t t' :
  res_fold (λ t up, api_set_update a prefix (up_path up) (up_val up) t) t updates = Ok t' →
  ∃ opss, Forall2 (λ up ops, set_ops a prefix up = Some ops) updates opss ∧ do_ops (concat opss) t = Ok t'.
Proof.
  revert t. induction updates as [|up updates IH]; intros t; cbn [res_fold].
  - intros [= <-]. by exists [].
  - destruct (set_ops a prefix up) as [ops|] eqn:Hops.
    + rewrite (api_set_update_ops _ _ _ _ _ Hops). intros (t1 & H1 & H2)%bind_Ok.
      destruct (IH t1 H2) as (opss & Hf & Hdo). exists (ops :: opss). split; [by constructor|].
      cbn [concat]. rewrite do_ops_app, H1. exact Hdo.
    + destruct (api_set_update_none _ _ _ t Hops) as [e He]. rewrite He. done.
Qed.

(** *** Where the values land *)

(** A path is relative to the current one unless it starts with a slash. *)
Definition resolve (cwd p : pystr) : pystr := if startswith p (py"/") then p else cwd ++ py"/" ++ p.

(** The leaves that operations set, with their values: [pushd] changes the current
    path, and nothing changes it back. *)
Fixpoint landed (cwd : pystr) (ops : list wop) : list (pystr * json) :=
  match ops with
  | [] => []
  | Pushd p :: ops' => landed (resolve cwd p) ops'
  | SetElem v p :: ops' => (resolve cwd p, v) :: landed cwd ops'
  | Delete _ :: ops' => landed cwd ops'
  end.

Fixpoint cwd_after (cwd : pystr) (ops : list wop) : pystr :=
  match ops with
  | [] => cwd
  | Pushd p :: ops' => cwd_after (resolve cwd p) ops'
  | _ :: ops' => cwd_after cwd ops'
  end.

Lemma landed_app cwd ops1 ops2 : landed cwd (ops1 ++ ops2) = landed cwd ops1 ++ landed (cwd_after cwd ops1) ops2.
Proof. revert cwd. induction ops1 as [|[p|v p|p] ops1 IH]; intros cwd; cbn; [done|apply IH|by rewrite IH|apply IH]. Qed.

(** The leaves of a JSON value at a path, each with its path and the value it gets. *)
Definition stored_value (a : api_adapter) (node : option csnode) (val : json) : json :=
  match node, val with
  | Some n, JStr s => if n_identityref (node_info_of n) then JStr (fix_path_prefixes a s) else val
  | _, _ => val
  end.

Fixpoint json_leaves (a : api_adapter) (cwd path : pystr) (val : json) (parent : option csnode) : list (pystr * json) :=
  match val with
  | JDict d =>
      (fix go (d : list (pystr * json)) : list (pystr * json) :=
         match d with
         | [] => []
         | (leaf, value) :: d' =>
             json_leaves a (resolve cwd path) (fix_path_prefixes a leaf) value (cs_node_cd parent path) ++ go d'
         end) d
  | _ => [(resolve cwd path, stored_value a (cs_node_cd parent path) val)]
  end.

(** An object in which only the last member is an object. *)
Definition is_dict (v : json) : bool := match v with JDict _ => true | _ => false end.
Fixpoint straight (val : json) : bool :=
  match val with
  | JDict d =>
      (fix go (d : list (pystr * json)) : bool :=
         match d with
         | [] => true
         | (_, value) :: d' => straight value && (negb (is_dict value) || bool_decide (d' = [])) && go d'
         end) d
  | _ => true
  end.

Lemma leaf_ops a path val parent ops cwd :
  is_dict val = false → update_ops a path val parent = Some ops →
  landed cwd ops = json_leaves a cwd path val parent ∧ cwd_after cwd ops = cwd.
Proof.
  intros Hd. destruct val; try done; cbn; (destruct (cs_node_cd parent path) as [n|]; [|done]); cbn;
    destruct (n_identityref (node_info_of n)); intros [= <-]; done.
Qed.

Lemma landed_straight a val : ∀ path parent ops cwd,
  straight val = true → update_ops a path val parent = Some ops → landed cwd ops = json_leaves a cwd path val parent.
Proof.
  induction val as [|b|z|s|l IHl|d IHd] using json_ind'; intros path parent ops cwd Hs Hops.
  6: { cbn in Hs, Hops |- *. destruct (_ d) as [rest|] eqn:Hgo in Hops; [|done]. injection Hops as <-. cbn [landed].
       revert rest Hgo Hs. generalize (resolve cwd path) as here. generalize (cs_node_cd parent path) as node.
       induction IHd as [|[leaf value] d Hv _ IH]; intros node here rest Hgo Hs.
       - by injection Hgo as <-.
       - destruct (update_ops a (fix_path_prefixes a leaf) value _) as [ops|] eqn:Hops in Hgo; [|done]. cbn in Hgo.
         destruct (_ d) as [rest'|] eqn:Hd in Hgo; [|done]. cbn in Hgo. injection Hgo as <-.
         apply andb_true_iff in Hs as [[Hs1 Hs2]%andb_true_iff Hs3]. cbn in Hv. rewrite landed_app.
         rewrite (Hv _ _ _ here Hs1 Hops). f_equal.
         apply orb_true_iff in Hs2 as [Hno%negb_true_iff|Hnil%bool_decide_eq_true].
         + destruct (leaf_ops _ _ _ _ _ here Hno Hops) as [_ ->]. by apply IH.
         + subst d. by injection Hd as <-. }
  all: by eapply leaf_ops.
Qed.

(** The leaves of an update; the other values are not written. *)
Definition set_leaves (a : api_adapter) (prefix : Path) (up : Update) : list (pystr * json) :=
  let path_str := fix_path_prefixes a (make_formatted_path (up_path up) (Some prefix) false) in
  match up_val up with
  | StringVal (c :: s) => [(path_str, JStr (c :: s))]
  | JsonIetfVal (c :: s) => match loads (c :: s) with Ok j => json_leaves a [] path_str j None | Raise _ => [] end
  | _ => []
  end.
Definition straight_update (up : Update) : bool :=
  match up_val up with
  | JsonIetfVal (c :: s) => match loads (c :: s) with Ok j => straight j | Raise _ => true end
  | _ => true
  end.

(** The paths of updates start with a slash. *)
Lemma make_path_slash q x p : ∃ s, make_path q x p = "/"%char :: s.
Proof.
  unfold make_path. destruct (elem p) as [|e es]; [by eexists|]. rewrite fmap_cons. cbn [concat].
  unfold elem_str at 1 3. py_norm. cbn [app]. rewrite decide_False by done. by eexists.
Qed.

Lemma fix_absolute a path prefix :
  startswith (fix_path_prefixes a (make_formatted_path path (Some prefix) false)) (py"/") = true.
Proof.
  assert (∃ s, make_formatted_path path (Some prefix) false = "/"%char :: s) as [s ->].
  { unfold make_formatted_path, _make_string_path. destruct (make_path_slash false false path) as [s ->].
    case_decide; [|by eexists]. destruct (make_path_slash false false prefix) as [s' ->]. by eexists. }
  done.
Qed.

(** The first operation does not look at the current path. *)
Lemma landed_absolute a path val parent ops cwd cwd' :
  startswith path (py"/") = true → update_ops a path val parent = Some ops → landed cwd ops = landed cwd' ops.
Proof.
  intros Hp. assert (∀ c, resolve c path = path) as Hr by (intros c; unfold resolve; by rewrite Hp).
  destruct val; cbn;
    [destruct (cs_node_cd parent path) as [n|]; [|done]; cbn; destruct (n_identityref _); intros [= <-]; cbn; by rewrite !Hr..|].
  destruct (_ d) as [rest|]; [|done]. intros [= <-]. cbn. by rewrite !Hr.
Qed.

Lemma set_landed a prefix up ops cwd :
  straight_update up = true → set_ops a prefix up = Some ops → landed cwd ops = set_leaves a prefix up.
Proof.
  unfold straight_update, set_ops, set_leaves. pose proof (fix_absolute a (up_path up) prefix) as Habs.
  set (path_str := fix_path_prefixes a _) in *. clearbody path_str.
  destruct (up_val up) as [[|c s]| | | | | | | | | | |[|c s]| | |]; try (intros _ [= <-]; done).
  - intros _ [= <-]. cbn. unfold resolve. by rewrite Habs.
  - destruct (loads (c :: s)) as [j|e]; [|done]. intros Hs Hops.
    rewrite (landed_absolute _ _ _ _ _ cwd [] Habs Hops). by apply landed_straight.
Qed.

Lemma sets_landed a prefix updates opss cwd :
  Forall (λ up, straight_update up = true) updates →
  Forall2 (λ up ops, set_ops a prefix up = Some ops) updates opss →
  landed cwd (concat opss) = concat (set_leaves a prefix <$> updates).
Proof.
  intros Hs Hf. revert cwd Hs. induction Hf as [|up ops updates opss Hu _ IH]; intros cwd Hs; [done|].
  apply Forall_cons in Hs as [Hs1 Hs2]. rewrite fmap_cons. cbn [concat]. rewrite landed_app, IH by done.
  by rewrite (set_landed a prefix up ops cwd).
Qed.

(** ** Lemmas: changes *)

(** What happens to a handler that is being monitored: CDB notifies, an external
    change arrives, or the changes are reported to the client. *)
Inductive action :=
  | ActSub (sub_point : Z) (diff : list (list (kpelem V) * mop * V))
  | ActExternal (conn : connection)
  | ActReport.

Definition act (x : action) : PyM (api_world (X := X)) (list Notification) :=
  match x with
  | ActSub sub_point diff => _ ← process_subscription sub_point diff; mret []
  | ActExternal conn => _ ← process_external_change conn; mret []
  | ActReport => api_get_subscription_notifications
  end.

Definition is_report (x : action) : bool := match x with ActReport => true | _ => false end.

(** The changes CDB has for a subscription of which something is recorded: the new
    values; and what is recorded of one: the path of the leaf and the value. *)
Definition value_set (d : list (kpelem V) * mop * V) : bool := match d.1.2 with MOP_VALUE_SET => true | _ => false end.

Definition recorded (a : api_adapter) (d : list (kpelem V) * mop * V) (c : api_change) : Prop :=
  let node := cs_node_cd None (pp_kpath d.1.1) in
  c.1.1 = inl MODIFIED ∧ make_gnmi_keypath a d.1.1 node = Ok c.1.2 ∧
  match node with
  | Some n => make_gnmi_json_value a d.2 n = Ok c.2
  | None => (∃ z, value_kind d.2 = VInt z ∧ c.2 = JsonIetfVal (dumps (JInt z))) ∨
            (∃ b, value_kind d.2 = VBool b ∧ c.2 = JsonIetfVal (dumps (JBool b)))
  end.

(** The changes of an external message, three lines each, and what is recorded of one. *)
Definition lines_of (ts : list (pystr * pystr * pystr)) : list pystr :=
  concat ((λ t, [t.1.1; t.1.2; t.2]) <$> ts).

Definition external_recorded (a : api_adapter) (t : pystr * pystr * pystr) (c : api_change) : Prop :=
  c.1.1 = inr t.1.1 ∧ make_gnmi_path t.1.2 None None = Ok c.1.2 ∧
  ∃ n v, cs_node_cd None (fix_path_prefixes a t.1.2) = Some n ∧ str2val t.2 n = Ok v ∧
    make_gnmi_json_value a v n = Ok c.2.

(** The entry an action adds: every new value of the notification, or every change of
    the message, in order. *)
Inductive adds_entry (a : api_adapter) : action → Z * list api_change → Prop :=
  | adds_sub sub_point diff cs :
      Forall2 (recorded a) (List.filter value_set diff) cs → adds_entry a (ActSub sub_point diff) (sub_point, cs)
  | adds_external conn ts cs :
      split "010" (recv RECV_SIZE conn) = lines_of ts → Forall2 (external_recorded a) ts cs →
      adds_entry a (ActExternal conn) (EXT_SPOINT, cs).

(** The notification of an entry: every change, in order, with its path relative to the
    path of the subscription. *)
Definition reports (subs : list (Z * Path)) (e : Z * list api_change) (n : Notification) : Prop :=
  ∃ p updates, dict_get e.1 subs = Some p ∧
    Forall2 (λ c u, remove_path_prefix c.1.2 p = Ok (up_path u) ∧ up_val u = c.2) e.2 updates ∧
    n = {| timestamp := 0; prefix := p; update := updates; delete := []; atomic := false |}.

Lemma cdb_iter_recorded a diff css :
  res_map (cdb_iter a) diff = Ok css → Forall2 (recorded a) (List.filter value_set diff) (concat css).
Proof.
  intros Hm%res_map_Ok. induction Hm as [|[[kp op] v] cs diff css Hc _ IH]; [constructor|].
  cbn [List.filter concat]. unfold cdb_iter in Hc. unfold value_set at 1. cbn [fst snd].
  destruct op; try (apply Ok_inj in Hc as <-; exact IH).
  apply bind_Ok in Hc as (path & Hpath & Hc). apply bind_Ok in Hc as (value & Hvalue & Hc). apply Ok_inj in Hc as <-.
  cbn [app]. constructor; [|exact IH]. split_and!; [done|done|]. cbn [fst snd].
  destruct (cs_node_cd None (pp_kpath kp)); [done|].
  destruct (value_kind v); try done; apply Ok_inj in Hvalue as <-; [left|right]; by eexists.
Qed.

Lemma external_changes_received a data cs :
  _external_changes a data = Ok cs → length data mod 3 = 0 → ∃ ts, data = lines_of ts ∧ Forall2 (external_recorded a) ts cs.
Proof.
  remember (length data) as n eqn:Hn. revert data cs Hn. induction n as [n IH] using lt_wf_ind. intros data cs Hn.
  destruct data as [|op [|xpath [|value data]]]; cbn [length] in Hn; [|by subst n; vm_compute..|].
  { intros [= <-] _. exists []. by split. }
  cbn [_external_changes]. intros (c & Hc & Hx)%bind_Ok Hm. apply bind_Ok in Hx as (cs' & Hcs & Hx). apply Ok_inj in Hx as <-.
  destruct (IH (length data)) with (data := data) (cs := cs') as (ts & -> & Hts); [lia|done|done| |].
  { replace n with (length data + 1 * 3) in Hm by lia. by rewrite Nat.Div0.mod_add in Hm. }
  exists ((op, xpath, value) :: ts). split; [done|]. constructor; [|done].
  unfold external_change in Hc. apply bind_Ok in Hc as (path & Hpath & Hc).
  destruct (cs_node_cd None (fix_path_prefixes a xpath)) as [n0|] eqn:Hnode; [|done].
  apply bind_Ok in Hc as (v & Hv & Hc). apply bind_Ok in Hc as (j & Hj & Hc). apply Ok_inj in Hc as <-.
  split_and!; [done|done|]. by exists n0, v.
Qed.

Lemma change_notification_reports subs e n : change_notification subs e = Ok n → reports subs e n.
Proof.
  destruct e as [sp cs]. unfold change_notification, dict_lookup. intros (p & Hp & Hx)%bind_Ok.
  destruct (dict_get sp subs) eqn:Hd; [|done]. apply Ok_inj in Hp as ->.
  apply bind_Ok in Hx as (updates & Hu%res_map_Ok & Hx). apply Ok_inj in Hx as <-. exists p, updates.
  split_and!; [done| |done]. cbn [snd]. eapply Forall2_impl; [exact Hu|]. intros [[op path] value] u.
  unfold relative_update. cbn [up_path up_val]. intros (q & Hq & Hx)%bind_Ok. apply Ok_inj in Hx as <-. done.
Qed.

(** An action that succeeds adds its entry and an event, or reports every entry
    and empties the list. *)
Lemma act_spec x w out w' :
  act x w = (Ok out, w') →
  adapter w' = adapter w ∧ subpoint_paths w' = subpoint_paths w ∧
  if is_report x then Forall2 (reports (subpoint_paths w)) (change_db w) out ∧ change_db w' = [] ∧ outbox w' = outbox w
  else ∃ e, adds_entry (adapter w) x e ∧ out = [] ∧ change_db w' = change_db w ++ [e] ∧
    outbox w' = outbox w ++ [SEND_CHANGES].
Proof.
  destruct x as [sp diff|conn|]; cbn [act is_report].
  - unfold process_subscription. monad_unfold.
    destruct (res_map (cdb_iter (adapter w)) diff) as [css|e] eqn:Hd; intros [= <- <-]. split_and!; [done..|].
    exists (sp, concat css). split_and!; [|done..]. by apply adds_sub, cdb_iter_recorded.
  - unfold process_external_change. monad_unfold. cbn [NetconfFraming.str_data].
    destruct (NetconfFraming.utf8_valid _); [|done]. destruct (bool_decide _) eqn:Hm; [|done].
    apply bool_decide_eq_true in Hm. cbn [py_assert].
    destruct (_external_changes (adapter w) _) as [cs|e] eqn:Hc; intros [= <- <-]. split_and!; [done..|].
    destruct (external_changes_received _ _ _ Hc Hm) as (ts & Hts & Hcs).
    exists (EXT_SPOINT, cs). split_and!; [|done..]. by eapply adds_external.
  - unfold api_get_subscription_notifications. monad_unfold.
    destruct (negb _); [|done]. cbn [py_assert].
    destruct (res_map _ (change_db w)) as [ns|e] eqn:Hn; intros [= <- <-]. split_and!; [done|done| |done|done].
    apply res_map_Ok in Hn. eapply Forall2_impl; [exact Hn|]. intros e n. apply change_notification_reports.
Qed.

Lemma acts_spec xs w outs w' :
  M_map act xs w = (Ok outs, w') →
  ∃ entries reported,
    Forall2 (adds_entry (adapter w)) (List.filter (λ x, negb (is_report x)) xs) entries ∧
    reported ++ change_db w' = change_db w ++ entries ∧
    Forall2 (reports (subpoint_paths w)) reported (concat outs) ∧
    outbox w' = outbox w ++ replicate (length entries) SEND_CHANGES ∧
    (last xs = Some ActReport → change_db w' = []).
Proof.
  revert w outs. induction xs as [|x xs IH]; intros w outs.
  - intros [= <- <-]. exists [], []. cbn. rewrite !app_nil_r. by split_and!.
  - cbn [M_map]. monad_unfold. destruct (act x w) as [[out|e] w1] eqn:Hx; [|done].
    destruct (M_map act xs w1) as [[outs'|e] w2] eqn:Hxs; [|done]. intros [= <- <-].
    apply act_spec in Hx as (Ha & Hs & Hx).
    apply IH in Hxs as Hr. destruct Hr as (entries & reported & He & Heq & Hrep & Hob & Hlast).
    assert (last (x :: xs) = Some ActReport → is_report x = true ∧ xs = [] ∨ last xs = Some ActReport) as Hl.
    { destruct xs; [intros [= ->]; by left|by right]. }
    rewrite Ha, Hs in *. cbn [List.filter concat]. destruct (is_report x); cbn [negb].
    + destruct Hx as (Hn & Hc & Ho). rewrite Hc in Heq. exists entries, (change_db w ++ reported). split_and!.
      * done.
      * by rewrite <-app_assoc, Heq.
      * by apply Forall2_app.
      * by rewrite Hob, Ho.
      * intros [[_ ->]|Hls]%Hl; [|by apply Hlast]. cbn in Hxs. by injection Hxs as <- <-.
    + destruct Hx as (e & Hadd & -> & Hc & Ho). exists (e :: entries), reported. split_and!.
      * by constructor.
      * rewrite Heq, Hc, <-app_assoc. done.
      * done.
      * rewrite Hob, Ho, <-app_assoc. done.
      * intros [[? _]|Hls]%Hl; [done|by apply Hlast].
Qed.
End keypaths.

(** ** Properties *)

(** Translating a path replaces the module name of every qualified element
    by the prefix of the module (an unknown name stays) and changes nothing else,
    for every path whose names and keys are free of slashes and colons. *)
Theorem fix_path_prefixes_modules (a : api_adapter) (l : list segment) :
  Forall segment_ok l →
  fix_path_prefixes a (segments_text id l) = segments_text (module_prefix a) l.
Proof. intros Hl. unfold fix_path_prefixes. by rewrite fix_from_segments. Qed.

Section properties.
Context `{PM : ProtoMap}.
Context {V X R T : Type} `{ConfdApi V X R T}.

(** C37: the key path of an instance, as ConfD gives it, becomes the gNMI path
    with one element per schema node from the root; the name of an element is
    qualified with its module exactly when it is the first or its namespace is
    not its parent's, and a list entry has the keys of its list with their
    values. *)
Theorem keypath_qualified (a : api_adapter) (s : kstep) (steps : list (kstep (V := V))) (node : csnode) :
  Forall (step_ok a) (s :: steps) → node_below None (s :: steps) = Some node →
  make_gnmi_keypath a (keypath_of (s :: steps)) (Some node) =
    Ok {| origin := []; target := []; elem := step_path a 0 (s :: steps) |} ∧
  pe_name (step_elem a 0 s) = default [] (dict_get (k_ns s) (ns_to_module a)) ++ py":" ++ hash2str (k_tag s).
Proof.
  intros Hs Hn. split.
  - unfold make_gnmi_keypath, make_gnmi_keypath_elems, keypath_of.
    destruct (csnode_list_below (s :: steps) None) as (nodes & Hr & Hi). rewrite Hn in Hr. cbn [ancestors app] in Hr.
    rewrite reverse_involutive, Hr, keypath_elems_steps by done. done.
  - apply Forall_cons in Hs as [(_ & Hne & _) _]. unfold step_elem. cbn [pe_name new_elem]. by rewrite decide_False.
Qed.

(** C38: the updates of a Set are one transaction (its deletes are another one, see
    confd_gnmi_server.py, line 180): an exception leaves the datastore as it was, or as
    ConfD's refusal to apply the transaction left it.  A Set that returns has performed
    the operations of all updates in order in a new transaction and applied it, and
    reports every path as updated.  The operations set, for a text the value at the
    path of the update, and for a JSON object its leaves, each at its own path, if in
    every object only the last member is an object: after a container the adapter does
    not go back to its parent ([sibling_container_misplaced]).  A value of another
    kind, or an empty one, is reported as updated too, and nothing is set. *)
Theorem api_set_transaction (prefix : Path) (updates : list Update) (w : api_world (X := X)) :
  match adapter_set (AdapterOps := api_adapter_ops) prefix updates w with
  | (Raise e, w') => w' = w ∨ ∃ t x', trans_apply t (store w) = (Raise e, x') ∧ w' = set_store x' w
  | (Ok ops, w') => ∃ opss t t' x',
      Forall2 (λ up ops, set_ops (adapter w) prefix up = Some ops) updates opss ∧
      single_write_trans (store w) (username (adapter w)) = Ok t ∧ do_ops (concat opss) t = Ok t' ∧
      trans_apply t' (store w) = (Ok tt, x') ∧ w' = set_store x' w ∧
      ops = (λ up, (up_path up, OP_UPDATE)) <$> updates ∧
      (Forall (λ up, straight_update up = true) updates →
       landed [] (concat opss) = concat (set_leaves (adapter w) prefix <$> updates))
  end.
Proof.
  assert (set_store (store w) w = w) as Hw by (by destruct w).
  cbn [adapter_set api_adapter_ops]. unfold on_store, api_set. monad_unfold.
  destruct (single_write_trans (store w) (username (adapter w))) as [t|e]; [|by left].
  destruct (res_fold _ t updates) as [t'|e] eqn:Hf; [|by left].
  destruct (trans_apply t' (store w)) as [[[]|e] x'] eqn:Ha; [|right; by exists t', x'].
  apply set_fold_ops in Hf as (opss & Hopss & Hdo). exists opss, t, t', x'. split_and!; try done.
  intros Hs. by apply sets_landed.
Qed.

(** C39: no change is lost, repeated or reordered: in every sequence of
    notifications from CDB, external changes and reports in which every action
    succeeds, each notification of CDB adds one entry with all its new values, and each
    external message one with all its changes, in order; the entries reported followed
    by those still pending are the ones that were pending followed by the added ones,
    and a report leaves none pending; each report has every change of its entry, in
    order, relative to the path of the subscription; and each added entry put one event
    on the handler's queue.  Of a notification of CDB only new values are recorded:
    creations and deletions are dropped.  An action that fails ends the subscription
    ([api_second_report_fails]). *)
Theorem changes_delivered (xs : list action) (w w' : api_world (X := X)) (outs : list (list Notification)) :
  M_map act xs w = (Ok outs, w') →
  ∃ entries reported,
    Forall2 (adds_entry (adapter w)) (List.filter (λ x, negb (is_report x)) xs) entries ∧
    reported ++ change_db w' = change_db w ++ entries ∧
    Forall2 (reports (subpoint_paths w)) reported (concat outs) ∧
    outbox w' = outbox w ++ replicate (length entries) SEND_CHANGES ∧
    (last xs = Some ActReport → change_db w' = []).
Proof. apply acts_spec. Qed.
End properties.

(** ** Witnesses *)

(** A ConfD with numbers for values, one leaf for every path, and a datastore
    that records the operations applied to it. *)
Definition ex_leaf : node_info :=
  {| n_list := false; n_cdb := true; n_write := true; n_identityref := false; n_keys := [] |}.
Definition ex_list_info : node_info :=
  {| n_list := true; n_cdb := true; n_write := true; n_identityref := false; n_keys := [3%Z] |}.
#[export] Instance recording_confd : ConfdApi Z (list wop) unit (list wop) := {
  hash2str h := if decide (h = 1%Z) then py"interfaces" else if decide (h = 2%Z) then py"interface"
                else if decide (h = 3%Z) then py"name" else py"mtu";
  cs_node_cd _ _ := Some (CsNode ex_leaf None);
  pp_kpath _ := [];
  value_kind v := VInt v;
  value_str v := str_Z v;
  val2str v _ := Ok (str_Z v);
  str2val s _ := match py_int s with Some z => Ok z | None => Raise ValueError end;
  single_read_trans _ _ _ := Ok tt;
  xpath_eval _ _ := [];
  save_config _ _ _ := ([], 0%Z);
  modules _ := [];
  single_write_trans x _ := Ok x;
  trans_do o t := Ok (t ++ [o]);
  trans_apply t _ := (Ok tt, t)
}.

Definition ex_adapter : api_adapter :=
  connect None None (py"admin") (py"admin")
    (new_adapter [(10%Z, py"if", py"ietf-interfaces"); (20%Z, py"ip", py"ietf-ip")]).

Definition ex_segments : list segment :=
  [(Some (py"ietf-interfaces"), py"interfaces"); (None, py"interface{eth0}"); (Some (py"ietf-ip"), py"ipv4");
   (Some (py"other"), py"mtu")].

Lemma fix_path_prefixes_modules_witness :
  fix_path_prefixes ex_adapter (py"/ietf-interfaces:interfaces/interface{eth0}/ietf-ip:ipv4/other:mtu") =
    py"/if:interfaces/interface{eth0}/ip:ipv4/other:mtu".
Proof. apply (fix_path_prefixes_modules ex_adapter ex_segments). vm_decide. Defined.

Definition ex_steps : list (kstep (V := Z)) :=
  [{| k_ns := 10; k_tag := 1; k_keys := None; k_info := ex_leaf |};
   {| k_ns := 10; k_tag := 2; k_keys := Some [7%Z]; k_info := ex_list_info |};
   {| k_ns := 20; k_tag := 4; k_keys := None; k_info := ex_leaf |}].

Lemma ex_steps_ok : Forall (step_ok ex_adapter) ex_steps.
Proof. repeat constructor; try done; try (by eexists); by intros [? [=]]. Qed.

Lemma keypath_qualified_witness :
  ∃ node, node_below None ex_steps = Some node ∧
  make_gnmi_keypath ex_adapter
    [KTag 20 4; KKeys [7%Z]; KTag 10 2; KTag 10 1] (Some node) =
  Ok {| origin := []; target := [];
        elem := [{| pe_name := py"ietf-interfaces:interfaces"; pe_key := [] |};
                 {| pe_name := py"interface"; pe_key := [(py"name", py"7")] |};
                 {| pe_name := py"ietf-ip:mtu"; pe_key := [] |}] |}.
Proof.
  eexists. split; [reflexivity|].
  exact (proj1 (keypath_qualified ex_adapter _ _ _ ex_steps_ok eq_refl)).
Defined.

Definition ex_diff : list (list (kpelem Z) * mop * Z) :=
  [([KTag 10 1], MOP_CREATED, 0%Z); ([KTag 10 1], MOP_VALUE_SET, 9%Z)].
Definition ex_world : api_world (X := list wop) :=
  set_subpoint 5 {| origin := []; target := []; elem := [] |} (new_world ex_adapter []).

Lemma changes_delivered_witness :
  ∃ n w', M_map act [ActSub 5 ex_diff; ActReport] ex_world = (Ok [[]; [n]], w') ∧
    outbox w' = [SEND_CHANGES] ∧ change_db w' = [] ∧
    ∃ e, adds_entry ex_adapter (ActSub 5 ex_diff) e ∧ reports (subpoint_paths ex_world) e n.
Proof.
  eexists. eexists. split; [vm_compute; reflexivity|].
  edestruct (changes_delivered [ActSub 5 ex_diff; ActReport] ex_world) as (entries & reported & He & Heq & Hr & Ho & Hl);
    [vm_compute; reflexivity|].
  split; [reflexivity|]. split; [reflexivity|].
  apply Forall2_cons_inv_l in He as (e & entries' & Hadd & Hnil & ->). apply Forall2_nil_inv_l in Hnil as ->.
  cbn in Heq. rewrite app_nil_r in Heq. subst reported. exists e. split; [exact Hadd|]. by inversion Hr.
Defined.

(** ** What the code does not do *)

(** Two notifications before the first report: the first report takes both, and
    the report of the second event fails, which ends the subscription. *)
Lemma api_second_report_fails :
  (M_map act [ActSub 5 ex_diff; ActSub 5 ex_diff; ActReport; ActReport] ex_world).1 = Raise AssertionError.
Proof. reflexivity. Qed.

(** The adapter never returns from a container: the leaf of the second one is set in
    the first. *)
Lemma sibling_container_misplaced :
  landed [] <$> update_ops ex_adapter (py"/top")
    (JDict [(py"a", JDict [(py"x", JInt 1)]); (py"b", JDict [(py"y", JInt 2)])]) None =
  Some [(py"/top/a/x", JInt 1); (py"/top/a/b/y", JInt 2)].
Proof. reflexivity. Qed.

(** A JSON value (not JSON_IETF) is accepted by the server, reported as updated and
    not written. *)
Lemma json_value_not_written :
  let up := {| up_path := empty_path; up_val := JsonVal (dumps (JInt 1)) |} in
  adapter_set (AdapterOps := api_adapter_ops) empty_path [up] ex_world = (Ok [(empty_path, OP_UPDATE)], ex_world).
Proof. reflexivity. Qed.

(** What does not fit into one [recv] is lost: a message with one change that is longer
    has three lines all the same, with a part of the value. *)
Lemma long_change_truncated :
  recv RECV_SIZE [replicate 1023 "x"%char ++ py"12"] = replicate 1023 "x"%char ++ py"1".
Proof. by vm_compute. Qed.

(** Without a readable transaction the capabilities are an UnboundLocalError. *)
Lemma capabilities_unbound `{PM : ProtoMap} {V X R T} `{ConfdApi V X R T} (a : api_adapter) (x : X) e :
  single_read_trans x (username a) RUNNING = Raise e → api_capabilities a x = Raise UnboundLocalError.
Proof. intros He. unfold api_capabilities, get_netconf_capabilities. by rewrite He. Qed.
