(* ===== verification/RouteStatus.v ===== *)
(** * The route status provider: confdgnmi/src/route_status.py

    The table of routes, the data provider callbacks through which ConfD reads
    it, the loop that serves ConfD, and the generator of random changes, whose
    messages are the external changes of the ConfD adapter (ApiAdapter).  Random
    draws are arguments. *)

From Stdlib Require Import Ascii String.
From S2P Require Import Prelude PyStr PyDict Json GnmiMsg GnmiPath Adapter NetconfFraming ApiAdapter.

(** ** The routes *)

Record Route := { id : pystr; leaf1 : Z; leaf2 : Z; leaf3 : Z; leaf4 : Z }.

Definition routes : Type := list (pystr * Route).

(** The body of the loop of [fill_routes]; [draw] is the random number, if any. *)
Definition fill_route (random : bool) (draw : nat → nat) (rs : routes) (i : nat) : routes :=
  let rtid := py"rt" ++ str_nat i in
  let rtid := if random then str_nat (draw i) ++ rtid else rtid in
  let rt := {| id := rtid; leaf1 := Z.of_nat (i * 2); leaf2 := Z.of_nat (i * 3);
               leaf3 := Z.of_nat (i * 4); leaf4 := Z.of_nat (i * 5) |} in
  dict_set (id rt) rt rs.

(** [for i in range(1, num)]. *)
Definition fill_routes (num : nat) (random : bool) (draw : nat → nat) (rs : routes) : routes :=
  foldl (fill_route random draw) rs (seq 1 (num - 1)).

Definition RouteData (num : option nat) (random : bool) (draw : nat → nat) : routes :=
  match num with Some n => fill_routes n random draw [] | None => [] end.

(** ** The data provider callbacks *)

(** What a callback replies to ConfD. *)
Inductive reply :=
  | ReplyValue (z : Z)
  | ReplyNotFound
  | ReplyNextKey (key : pystr) (next : Z)
  | ReplyNoNext.

(** [cb_get_elem], for the element and the key of the key path. *)
Definition cb_get_elem (rs : routes) (elem key : pystr) : res reply :=
  _ ← py_assert (negb (bool_decide (length rs = 0)));
  route ← dict_lookup key rs;
  Ok (if decide (elem = py"leaf1") then ReplyValue (leaf1 route)
      else if decide (elem = py"leaf2") then ReplyValue (leaf2 route)
      else if decide (elem = py"leaf3") then ReplyValue (leaf3 route)
      else if decide (elem = py"leaf4") then ReplyValue (leaf4 route)
      else ReplyNotFound).

(** [l[i]] for an index that may be negative. *)
Definition py_index_Z {A} (l : list A) (i : Z) : res A :=
  if (0 <=? i)%Z then py_index l (Z.to_nat i)
  else if (- Z.of_nat (length l) <=? i)%Z then py_index l (Z.to_nat (i + Z.of_nat (length l)))
  else Raise IndexError.

Definition cb_get_next (rs : routes) (next_idx : Z) : res reply :=
  _ ← py_assert (negb (bool_decide (length rs = 0)));
  let next_idx := if decide (next_idx = (-1)%Z) then 0%Z else next_idx in
  if (Z.of_nat (length rs) <=? next_idx)%Z then Ok ReplyNoNext
  else
    key ← py_index_Z rs.*1 next_idx;
    route ← dict_lookup key rs;
    Ok (ReplyNextKey (id route) (next_idx + 1)).

(** How ConfD walks the list: from -1, with the index of each reply, until there
    is no next entry; [fuel] bounds the number of calls. *)
Fixpoint walk (fuel : nat) (rs : routes) (next_idx : Z) : res (list pystr) :=
  match fuel with
  | 0 => Raise OutOfFuel
  | S f =>
      r ← cb_get_next rs next_idx;
      match r with
      | ReplyNextKey key next => ks ← walk f rs next; Ok (key :: ks)
      | _ => Ok []
      end
  end.

(** ** The loop that serves ConfD *)

(** What [select] reports: the sockets that are ready. *)
Record ready_fds := { ctl_ready : bool; wrk_ready : bool; stop_fd : bool }.

(** One iteration: [fd_ready] serves the socket and may fail with an error that
    is external or not; the stop pipe ends the loop. *)
Inductive fd_result := FdOk | FdExternal | FdError.
Inductive loop_end := Running | Stopped | Failed.

Definition confd_step (fd : fd_result) (r : ready_fds) : loop_end :=
  if ctl_ready r || wrk_ready r then
    match fd with FdError => Failed | _ => Running end
  else if stop_fd r then Stopped
  else Running.

Fixpoint confd_loop (l : list (fd_result * ready_fds)) : loop_end :=
  match l with
  | [] => Running
  | (fd, r) :: l' =>
      match confd_step fd r with
      | Running => confd_loop l'
      | e => e
      end
  end.

(** ** Generating changes *)

Definition EXTERNAL_PORT : Z := 5055.

Definition set_leaf1 (v : Z) (r : Route) : Route :=
  {| id := id r; leaf1 := v; leaf2 := leaf2 r; leaf3 := leaf3 r; leaf4 := leaf4 r |}.

(** The text of a change: operation, XPath and value, one per line. *)
Definition change_xpath (key : pystr) : pystr := py"/route-status/route[id=" ++ key ++ py"]/leaf1".
Definition change_msg (key : pystr) (val : Z) : pystr :=
  py"mod" ++ nl ++ change_xpath key ++ nl ++ str_Z val.

(** The loop over the changes; a draw is the index of a route and its new value.
    A route that was changed already is skipped. *)
Fixpoint make_changes (draws : list (nat * Z)) (changed_keys : list pystr) (rs : routes)
    : res (list pystr * routes) :=
  match draws with
  | [] => Ok ([], rs)
  | (n, val) :: draws' =>
      key ← py_index rs.*1 n;
      if decide (key ∈ changed_keys) then make_changes draws' changed_keys rs
      else
        route ← dict_lookup key rs;
        x ← make_changes draws' (key :: changed_keys) (dict_set key (set_leaf1 val route) rs);
        Ok (change_msg key val :: x.1, x.2)
  end.

(** What one iteration draws: between one and three changes, each of a route of the
    table, to a value between 1 and 10. *)
Definition drawn (rs : routes) (draws : list (nat * Z)) : Prop :=
  1 ≤ length draws ≤ 3 ∧ Forall (λ d, d.1 < length rs ∧ (1 ≤ d.2 ≤ 10)%Z) draws.

(** The message sent: the changes one after the other, without the last newline. *)
Definition changes_msg (msgs : list pystr) : pystr :=
  let msg := concat ((λ m, m ++ nl) <$> msgs) in
  take (length msg - 1) msg.

(** One iteration of [generate_changes]: the message and the routes. *)
Definition generate_changes (draws : list (nat * Z)) (rs : routes) : res (pystr * routes) :=
  _ ← py_assert (negb (bool_decide (length rs = 0)));
  x ← make_changes draws [] rs;
  Ok (changes_msg x.1, x.2).

(** ** Lemmas: the table *)

Definition route_id (random : bool) (draw : nat → nat) (i : nat) : pystr :=
  (if random then str_nat (draw i) else []) ++ py"rt" ++ str_nat i.
Definition route_of (random : bool) (draw : nat → nat) (i : nat) : Route :=
  {| id := route_id random draw i; leaf1 := Z.of_nat (i * 2); leaf2 := Z.of_nat (i * 3);
     leaf3 := Z.of_nat (i * 4); leaf4 := Z.of_nat (i * 5) |}.

Lemma route_id_inj random draw i j : route_id random draw i = route_id random draw j → i = j.
Proof.
  unfold route_id. intros Heq. py_norm. cbn [app] in Heq.
  apply app_sep_inj in Heq as [_ Heq].
  - apply str_nat_inj. congruence.
  - destruct random; [by apply str_nat_not_elem | by apply not_elem_of_nil].
  - destruct random; [by apply str_nat_not_elem | by apply not_elem_of_nil].
Qed.

(** The table: the routes in order, each under its own identifier. *)
Definition table (random : bool) (draw : nat → nat) (l : list nat) : routes :=
  (λ i, (route_id random draw i, route_of random draw i)) <$> l.

Lemma table_keys random draw l : (table random draw l).*1 = route_id random draw <$> l.
Proof. unfold table. by rewrite <-list_fmap_compose. Qed.

Lemma fill_route_eq random draw rs i :
  fill_route random draw rs i = dict_set (route_id random draw i) (route_of random draw i) rs.
Proof. unfold fill_route, route_of, route_id. by destruct random. Qed.

Lemma foldl_fill random draw n : foldl (fill_route random draw) [] (seq 1 n) = table random draw (seq 1 n).
Proof.
  induction n as [|n IH]; [done|]. rewrite seq_S, foldl_app, IH. cbn [foldl]. rewrite fill_route_eq.
  rewrite dict_set_new; [unfold table; by rewrite fmap_app|].
  rewrite table_keys. intros (i & Hi & Hin)%list_elem_of_fmap. apply route_id_inj in Hi.
  apply elem_of_seq in Hin. lia.
Qed.

Lemma table_wf random draw l : NoDup l → dict_wf (table random draw l).
Proof.
  intros Hd. unfold dict_wf. rewrite table_keys. apply NoDup_fmap_2_strong; [|done].
  intros i j _ _. apply route_id_inj.
Qed.

Lemma table_get random draw l i :
  NoDup l → i ∈ l → dict_get (route_id random draw i) (table random draw l) = Some (route_of random draw i).
Proof.
  intros Hd Hi. apply dict_elem_get; [by apply table_wf|]. apply list_elem_of_fmap. by exists i.
Qed.

(** Walking any well-formed table gives its keys in order. *)
Lemma walk_from rs k :
  dict_wf rs → Forall (λ kr, id kr.2 = kr.1) rs → rs ≠ [] → k ≤ length rs →
  ∀ fuel idx, length rs - k < fuel → (idx = Z.of_nat k ∨ (k = 0 ∧ idx = (-1)%Z)) →
  walk fuel rs idx = Ok (drop k rs.*1).
Proof.
  intros Hwf Hid Hne. revert k.
  assert (∀ d k, length rs - k = d → k ≤ length rs → ∀ fuel idx, d < fuel →
    (idx = Z.of_nat k ∨ (k = 0 ∧ idx = (-1)%Z)) → walk fuel rs idx = Ok (drop k rs.*1)) as Hgo; [|by eauto].
  induction d as [|d IH]; intros k Hd Hk [|fuel] idx Hf Hidx; try lia; cbn [walk]; unfold cb_get_next.
  - destruct rs as [|kr rs']; [done|]. rewrite bool_decide_false by done. cbn [negb py_assert mbind res_bind].
    rewrite decide_False by (cbn in *; lia). rewrite (proj2 (Z.leb_le _ _)) by (cbn in *; lia).
    cbn [mbind res_bind]. rewrite drop_ge; [done|]. rewrite length_fmap. lia.
  - assert (k < length rs) as Hlt by lia.
    destruct (lookup_lt_is_Some_2 rs k Hlt) as [[key route] Hkr].
    rewrite bool_decide_false by lia. cbn [negb py_assert mbind res_bind].
    set (i := if decide (idx = (-1)%Z) then 0%Z else idx).
    assert (i = Z.of_nat k) as Hi by (unfold i; case_decide; lia). rewrite Hi.
    rewrite (proj2 (Z.leb_gt _ _)) by lia. unfold py_index_Z, py_index.
    rewrite (proj2 (Z.leb_le 0 _)), Nat2Z.id by lia. rewrite list_lookup_fmap, Hkr. cbn [fmap option_fmap option_map fst mbind res_bind].
    unfold dict_lookup. rewrite (dict_elem_get key route) by (done || by eapply list_elem_of_lookup_2). cbn [mbind res_bind].
    rewrite (IH (S k)) by lia. cbn [mbind res_bind].
    assert (rs.*1 !! k = Some key) as Hkey by (rewrite list_lookup_fmap, Hkr; done).
    rewrite (drop_S _ _ _ Hkey). rewrite Forall_lookup in Hid.
    pose proof (Hid _ _ Hkr) as Hk'. cbn in Hk'. by rewrite Hk'.
Qed.

(** ** Lemmas: the message *)

Definition change_lines (kv : pystr * Z) : list pystr := [py"mod"; change_xpath kv.1; str_Z kv.2].

Lemma join_concat sep lss :
  Forall (λ ls, ls ≠ []) lss → join sep (join sep <$> lss) = join sep (concat lss).
Proof.
  induction 1 as [|ls lss Hls Hrest IH]; [done|]. rewrite fmap_cons. cbn [concat].
  destruct lss as [|ls' lss']; [by rewrite app_nil_r|].
  rewrite join_cons by done. rewrite IH. clear IH.
  destruct (concat (ls' :: lss')) as [|w ws] eqn:Hc.
  { inversion_clear Hrest. by destruct ls'. }
  induction ls as [|x ls IHls]; [done|]. destruct ls as [|y ls]; [done|].
  rewrite join_cons by done. rewrite <-!app_assoc, IHls by done.
  change ((x :: y :: ls) ++ w :: ws) with (x :: ((y :: ls) ++ w :: ws)). by rewrite join_cons.
Qed.

Lemma join_snoc_sep sep ws : ws ≠ [] → concat ((λ w, w ++ sep) <$> ws) = join sep ws ++ sep.
Proof.
  induction ws as [|w ws IH]; [done|]. intros _. destruct ws as [|w' ws]; [cbn; by rewrite app_nil_r|].
  rewrite fmap_cons. cbn [concat]. rewrite IH by done. rewrite (join_cons sep w) by done.
  rewrite <-!app_assoc. reflexivity.
Qed.

Lemma changes_msg_join lss :
  lss ≠ [] → Forall (λ ls, ls ≠ []) lss → changes_msg (join nl <$> lss) = join nl (concat lss).
Proof.
  intros Hne Hls. unfold changes_msg. rewrite join_snoc_sep by (by destruct lss).
  rewrite length_app. cbn [length nl]. rewrite Nat.add_sub, take_app_exact. by apply join_concat.
Qed.

Lemma changes_msg_lines kvs :
  kvs ≠ [] → changes_msg ((λ kv, change_msg kv.1 kv.2) <$> kvs) = join nl (concat (change_lines <$> kvs)).
Proof.
  intros Hne. rewrite <-changes_msg_join; [by rewrite <-list_fmap_compose|by destruct kvs|].
  apply Forall_fmap, Forall_true. done.
Qed.

Lemma str_Z_no_nl z : "010"%char ∉ str_Z z.
Proof.
  unfold str_Z. destruct (z <? 0)%Z; [|by apply str_nat_not_elem].
  intros [H|H]%elem_of_app; [by apply (proj1 (list_elem_of_singleton _ _)) in H|].
  by apply (str_nat_not_elem "010"%char) in H.
Qed.

(** A key that can stand in the text of a change. *)
Definition plain_key (k : pystr) : Prop := key_ok k ∧ ("010"%char ∉ k) ∧ (":"%char ∉ k).

Lemma change_lines_no_nl kvs :
  Forall plain_key kvs.*1 → Forall (λ w, "010"%char ∉ w) (concat (change_lines <$> kvs)).
Proof.
  induction kvs as [|[k v] kvs IH]; [constructor|]. rewrite !fmap_cons. intros [(_ & Hk & _) Hr]%Forall_cons.
  cbn [concat change_lines app fst snd]. rewrite !Forall_cons. split_and!; [vm_decide| |apply str_Z_no_nl|by apply IH].
  unfold change_xpath. py_norm. set_solver.
Qed.

Lemma change_lines_length kvs : length (concat (change_lines <$> kvs)) = length kvs * 3.
Proof. induction kvs as [|kv kvs IH]; [done|]. rewrite fmap_cons. cbn. rewrite IH. lia. Qed.

(** The routes after the changes, and the changes made: for each route drawn, in the
    order of the draws, the value of its first draw. *)
Lemma make_changes_spec draws ck rs :
  dict_wf rs → Forall (λ d : nat * Z, d.1 < length rs) draws →
  ∃ kvs rs', make_changes draws ck rs = Ok ((λ kv, change_msg kv.1 kv.2) <$> kvs, rs') ∧
    NoDup kvs.*1 ∧ length kvs ≤ length draws ∧
    (∀ k, k ∈ kvs.*1 → (k ∉ ck) ∧ (k ∈ rs.*1)) ∧
    (∀ k v, (k, v) ∈ kvs → ∃ n, (n, v) ∈ draws ∧ rs.*1 !! n = Some k) ∧
    (∀ d, d ∈ draws → ∃ k, rs.*1 !! d.1 = Some k ∧ (k ∈ ck ∨ k ∈ kvs.*1)) ∧
    (∀ k, k ∉ kvs.*1 → dict_get k rs' = dict_get k rs) ∧
    (∀ k v, (k, v) ∈ kvs → leaf1 <$> dict_get k rs' = Some v).
Proof.
  revert ck rs. induction draws as [|[n val] draws IH]; intros ck rs Hwf; cbn [make_changes].
  - intros _. exists [], rs. split_and!; [done|apply NoDup_nil_2|done|set_solver..|done|set_solver].
  - intros [Hn Hdraws]%Forall_cons. cbn [fst] in Hn.
    destruct (lookup_lt_is_Some_2 rs n Hn) as [[key route] Hkr].
    assert (rs.*1 !! n = Some key) as Hkey by (by rewrite list_lookup_fmap, Hkr).
    assert (dict_get key rs = Some route) as Hget by (apply dict_elem_get; [done|by eapply list_elem_of_lookup_2]).
    unfold py_index. rewrite Hkey. cbn [mbind res_bind]. case_decide as Hck.
    + destruct (IH ck rs Hwf Hdraws) as (kvs & rs' & Hm & Hnd & Hlen & Hin & Hfrom & Hall & Hrest).
      exists kvs, rs'. split_and!; [done|done|cbn; lia|done| | |apply Hrest..].
      * intros k v (m & Hm' & Hk)%Hfrom. exists m. split; [by right|done].
      * intros d [->|Hd]%elem_of_cons; [|by apply Hall]. exists key. split; [done|by left].
    + unfold dict_lookup. rewrite Hget. cbn [mbind res_bind].
      set (rs1 := dict_set key (set_leaf1 val route) rs).
      assert (key ∈ rs.*1) as Hkin by (by eapply list_elem_of_lookup_2).
      assert (rs1.*1 = rs.*1) as Hks by (unfold rs1; rewrite dict_keys_set; by rewrite decide_True).
      assert (length rs1 = length rs) as Hl by (rewrite <-!(length_fmap fst); by rewrite Hks).
      destruct (IH (key :: ck) rs1) as (kvs & rs' & Hm & Hnd & Hlen & Hin & Hfrom & Hall & Hsame & Hval);
        [by apply dict_set_wf|by rewrite Hl|].
      rewrite Hm, Hks in *. cbn [mbind res_bind fst snd].
      assert (key ∉ kvs.*1) as Hnk by (intros [Hx _]%Hin; set_solver).
      exists ((key, val) :: kvs), rs'. split_and!; [done| |cbn; lia|set_solver| | | |].
      * rewrite fmap_cons. by constructor.
      * intros k v [[= -> ->]|(m & Hm' & Hk)%Hfrom]%elem_of_cons; [exists n; split; [by left|done]|exists m; split; [by right|done]].
      * intros d [->|Hd]%elem_of_cons; [exists key; set_solver|].
        destruct (Hall d Hd) as (k & Hk & Hor). exists k. set_solver.
      * intros k Hni. rewrite fmap_cons in Hni. apply not_elem_of_cons in Hni as [Hne Hni].
        rewrite Hsame by done. unfold rs1. by apply dict_get_set_ne.
      * intros k v [[= -> ->]|Hkv]%elem_of_cons; [|by apply Hval].
        rewrite Hsame by done. unfold rs1. by rewrite dict_get_set_eq.
Qed.

(** A value that is drawn has at most two digits. *)
Lemma drawn_value z : (1 ≤ z ≤ 10)%Z → length (str_Z z) ≤ 2 ∧ utf8_valid (str_Z z) = true.
Proof.
  intros Hz. assert (z ∈ [1; 2; 3; 4; 5; 6; 7; 8; 9; 10]%Z) as Hin.
  { rewrite !elem_of_cons. lia. }
  revert z Hz Hin. enough (Forall (λ z, length (str_Z z) ≤ 2 ∧ utf8_valid (str_Z z) = true) [1; 2; 3; 4; 5; 6; 7; 8; 9; 10]%Z) as Hf
    by (rewrite Forall_forall in Hf; intros z _; apply Hf).
  vm_decide.
Qed.

(** The message of an iteration fits into the 1024 bytes that are read. *)
Lemma changes_msg_length n msgs :
  Forall (λ m, length m ≤ n) msgs → length (changes_msg msgs) ≤ length msgs * (n + 1).
Proof.
  intros Hm. unfold changes_msg. rewrite length_take.
  enough (length (concat ((λ m, m ++ nl) <$> msgs)) ≤ length msgs * (n + 1)) by lia.
  induction Hm as [|m msgs Hl _ IH]; [done|]. rewrite fmap_cons. cbn [concat]. rewrite !length_app. cbn. lia.
Qed.

Lemma utf8_join ws : Forall (λ w, utf8_valid w = true) ws → utf8_valid (join nl ws) = true.
Proof.
  induction 1 as [|w ws Hw Hws IH]; [done|]. destruct ws as [|w' ws]; [done|].
  rewrite join_cons by done. by repeat apply utf8_app.
Qed.

(** A key whose change is read whole and as text. *)
Definition sendable (k : pystr) : Prop := plain_key k ∧ length k ≤ 300 ∧ utf8_valid k = true.

Lemma changes_sendable kvs :
  kvs ≠ [] → length kvs ≤ 3 → Forall (λ kv, sendable kv.1 ∧ (1 ≤ kv.2 ≤ 10)%Z) kvs →
  let msg := changes_msg ((λ kv, change_msg kv.1 kv.2) <$> kvs) in
  length msg ≤ RECV_SIZE ∧ utf8_valid msg = true.
Proof.
  intros Hne Hlen Hkvs. cbn zeta. split.
  - trans (length ((λ kv, change_msg kv.1 kv.2) <$> kvs) * (340 + 1)).
    + apply changes_msg_length, Forall_fmap. eapply Forall_impl; [exact Hkvs|].
      intros [k v] [(_ & Hk & _) [Hv _]%drawn_value]. cbn [fst snd compose] in *.
      unfold change_msg, change_xpath. py_norm. rewrite !length_app. cbn [length nl]. lia.
    + rewrite length_fmap. assert (RECV_SIZE = Z.to_nat 1024) as -> by done. lia.
  - rewrite changes_msg_lines by done. apply utf8_join.
    induction Hkvs as [|[k v] kvs [(_ & _ & Hk) [_ Hv]%drawn_value] _ IH]; [constructor|].
    rewrite fmap_cons. cbn [concat change_lines app fst snd] in *. rewrite !Forall_cons. split_and!; [done| |done|].
    + unfold change_xpath. repeat apply utf8_app; done.
    + destruct kvs; [constructor|]. apply IH; [done|cbn in *; lia].
Qed.

(** ** Lemmas: the adapter's side *)

Section delivery.
Context `{PM : ProtoMap}.
Context {V X R T : Type} `{ConfdApi V X R T}.

(** The path of the leaf that changed. *)
Definition change_elems (key : pystr) : list PathElem :=
  [{| pe_name := py"route-status"; pe_key := [] |};
   {| pe_name := py"route"; pe_key := [(py"id", key)] |};
   {| pe_name := py"leaf1"; pe_key := [] |}].
Definition change_path (key : pystr) : Path :=
  {| origin := []; target := []; elem := (λ e, new_elem (pe_name e) (pe_key e)) <$> change_elems key |}.

Lemma change_elems_ok key : key_ok key → Forall elem_ok (change_elems key).
Proof.
  intros Hk. repeat apply Forall_cons_2; [vm_decide| |vm_decide|constructor].
  unfold elem_ok. cbn [pe_name pe_key]. split_and!; [split; [done|vm_decide] | apply NoDup_singleton |].
  constructor; [|constructor]. split; [vm_decide|done].
Qed.

Lemma change_xpath_path key : key_ok key → make_gnmi_path (change_xpath key) None None = Ok (change_path key).
Proof.
  intros Hk. change (change_path key) with {| origin := []; elem := reread (change_elems key); target := [] |}.
  rewrite <-(make_gnmi_path_elems (change_elems key)) by (done || by apply change_elems_ok).
  f_equal. unfold change_xpath, change_elems. rewrite !fmap_cons. unfold elem_str, key_str. cbn. py_norm. cbn.
  rewrite app_nil_r, <-!app_assoc. done.
Qed.

Lemma change_xpath_no_colon key : ":"%char ∉ key → ":"%char ∉ change_xpath key.
Proof. intros Hk. unfold change_xpath. py_norm. set_solver. Qed.

(** The leaf as ConfD has it for the module (route-status.yang, line 18: an int32):
    [leaf1] of the routes of the table has the node, and the text of a number of 32
    bits is a value of the leaf. *)
Definition int32 (z : Z) : Prop := (-2 ^ 31 <= z < 2 ^ 31)%Z.
Definition knows_leaf1 (keys : list pystr) (node : csnode) : Prop :=
  (∀ key, key ∈ keys → cs_node_cd None (change_xpath key) = Some node) ∧
  ∀ z, int32 z → ∃ v, str2val (str_Z z) node = Ok v ∧ value_kind v = VInt z.

Context (node : csnode) (a : api_adapter) (keys : list pystr) (Hleaf : knows_leaf1 keys node).

Definition received_change (kv : pystr * Z) : api_change :=
  (inr (py"mod"), change_path kv.1, JsonIetfVal (str_Z kv.2)).

Lemma external_change_ok k v :
  plain_key k → k ∈ keys → int32 v →
  external_change a (py"mod") (change_xpath k) (str_Z v) = Ok (received_change (k, v)).
Proof.
  intros (Hk & _ & Hc) Hin Hv. destruct Hleaf as [Hnode Hval]. unfold external_change.
  rewrite change_xpath_path by done. cbn [mbind res_bind].
  unfold fix_path_prefixes. rewrite fix_no_colon by (by apply change_xpath_no_colon). cbn [app].
  rewrite Hnode by done. destruct (Hval v Hv) as (cv & Hcv & Hkind). rewrite Hcv. cbn [mbind res_bind].
  unfold make_gnmi_json_value. rewrite Hkind. done.
Qed.

Lemma external_changes_ok kvs :
  Forall (λ kv, plain_key kv.1 ∧ kv.1 ∈ keys ∧ int32 kv.2) kvs →
  _external_changes a (concat (change_lines <$> kvs)) = Ok (received_change <$> kvs).
Proof.
  induction kvs as [|[k v] kvs IH]; [done|]. intros [(Hk & Hin & Hv) Hr]%Forall_cons. rewrite !fmap_cons.
  cbn [concat change_lines app fst snd _external_changes].
  rewrite external_change_ok by done. cbn [mbind res_bind]. by rewrite IH.
Qed.

(** The message of the changes, read in one piece. *)
Lemma message_received kvs (w : api_world (X := X)) :
  adapter w = a → kvs ≠ [] → length kvs ≤ 3 →
  Forall (λ kv, sendable kv.1 ∧ kv.1 ∈ keys ∧ (1 ≤ kv.2 ≤ 10)%Z) kvs →
  process_external_change [changes_msg ((λ kv, change_msg kv.1 kv.2) <$> kvs)] w =
    (Ok tt, api_put_event SEND_CHANGES (_append_changes EXT_SPOINT (received_change <$> kvs) w)).
Proof.
  intros Ha Hne Hlen Hkvs.
  destruct (changes_sendable kvs) as [Hsize Hutf]; [done|done|eapply Forall_impl; [exact Hkvs|by intros ? (? & _ & ?)]|].
  unfold process_external_change. monad_unfold. cbn [recv]. rewrite take_ge by done. cbn [str_data]. rewrite Hutf.
  rewrite changes_msg_lines by done. rewrite split_join.
  - rewrite change_lines_length, Nat.Div0.mod_mul, bool_decide_true, Ha by done.
    rewrite external_changes_ok; [done|]. eapply Forall_impl; [exact Hkvs|].
    intros kv ([? _] & ? & ?). unfold int32. split_and!; [done..| |]; lia.
  - by destruct kvs.
  - apply change_lines_no_nl, Forall_fmap. eapply Forall_impl; [exact Hkvs|]. by intros kv ([? _] & _).
Qed.
End delivery.

Lemma remove_empty_prefix p : remove_path_prefix p empty_path = Ok p.
Proof. unfold remove_path_prefix. cbn. by destruct p. Qed.

(** The notification of received changes, relative to the empty path. *)
Lemma change_notification_ok `{PM : ProtoMap} subs (cs : list api_change) :
  dict_get EXT_SPOINT subs = Some empty_path →
  change_notification subs (EXT_SPOINT, cs) =
    Ok {| timestamp := 0; prefix := empty_path;
          update := (λ c, {| up_path := c.1.2; up_val := c.2 |}) <$> cs; delete := []; atomic := false |}.
Proof.
  intros Hs. unfold change_notification, dict_lookup. rewrite Hs. cbn [mbind res_bind].
  rewrite (res_map_total (λ c : api_change, {| up_path := c.1.2; up_val := c.2 |})); [done|].
  apply Forall_true. intros [[op p] v]. unfold relative_update. cbn [up_path up_val].
  by rewrite remove_empty_prefix.
Qed.

(** The report of a single pending entry. *)
Lemma report_single `{PM : ProtoMap} {X} (w : api_world (X := X)) e n :
  change_db w = [e] → change_notification (subpoint_paths w) e = Ok n →
  api_get_subscription_notifications w = (Ok [n], set_change_db [] w).
Proof.
  intros Hdb Hn. unfold api_get_subscription_notifications. monad_unfold. rewrite Hdb. cbn [length].
  rewrite bool_decide_false by done. cbn [negb res_map mbind res_bind]. rewrite Hn. done.
Qed.

(** ** Properties *)

(** C23: ConfD's walk through the list of a table with at least one route ends and gives
    every route once, in the order of the table; and for every leaf of every route the
    callback hands ConfD's library the number the table was filled with; for every number
    of routes and all random draws. *)
Theorem routes_walk (num : nat) (random : bool) (draw : nat → nat) :
  2 ≤ num →
  let rs := RouteData (Some num) random draw in
  walk num rs (-1) = Ok (route_id random draw <$> seq 1 (num - 1)) ∧
  (∀ i, 1 ≤ i < num →
     (λ e, cb_get_elem rs e (route_id random draw i)) <$> [py"leaf1"; py"leaf2"; py"leaf3"; py"leaf4"] =
     [Ok (ReplyValue (Z.of_nat (i * 2))); Ok (ReplyValue (Z.of_nat (i * 3)));
      Ok (ReplyValue (Z.of_nat (i * 4))); Ok (ReplyValue (Z.of_nat (i * 5)))]).
Proof.
  intros Hnum. cbn zeta. unfold RouteData, fill_routes. rewrite foldl_fill.
  set (rs := table random draw (seq 1 (num - 1))).
  assert (length rs = num - 1) as Hlen by (unfold rs, table; by rewrite length_fmap, length_seq).
  assert (rs ≠ []) as Hne by (intros Hn; rewrite Hn in Hlen; cbn in Hlen; lia).
  split.
  - assert (dict_wf rs) as Hwf by apply table_wf, NoDup_seq.
    assert (Forall (λ kr, id kr.2 = kr.1) rs) as Hid by (by apply Forall_fmap, Forall_true).
    rewrite (walk_from rs 0 Hwf Hid Hne); [|lia..|by right]. unfold rs. by rewrite table_keys.
  - intros i Hi. assert (dict_get (route_id random draw i) rs = Some (route_of random draw i)) as Hg.
    { apply table_get; [apply NoDup_seq|]. apply elem_of_seq. lia. }
    unfold cb_get_elem, dict_lookup. rewrite bool_decide_false by lia. cbn. by rewrite Hg.
Qed.

(** C40: end to end, the changes the route provider makes are what a gNMI client is
    told.  An iteration that draws as the code does (one to three routes of the table,
    values from 1 to 10) succeeds; the first draw of each route drawn is a change and
    nothing else is, the table has the new values and its other routes are as before;
    the message fits into the 1024 bytes the ConfD adapter reads, and when it arrives in
    one piece it becomes one entry and one event, whose report has one update per
    change, in order, with the path of the leaf and its new value.  The keys of the
    table have no character that a path or a line gives a meaning to and at most 300
    bytes; ConfD knows [leaf1] of each as a leaf of numbers of 32 bits. *)
Theorem changes_end_to_end `{PM : ProtoMap} {V X R T} `{ConfdApi V X R T} (node : csnode)
    (draws : list (nat * Z)) (rs : routes) (w : api_world (X := X)) :
  knows_leaf1 rs.*1 node → dict_wf rs → Forall sendable rs.*1 → drawn rs draws →
  dict_get EXT_SPOINT (subpoint_paths w) = Some empty_path → change_db w = [] →
  ∃ msg rs' kvs w1 w2,
    generate_changes draws rs = Ok (msg, rs') ∧
    NoDup kvs.*1 ∧
    (∀ k v, (k, v) ∈ kvs → ∃ n, (n, v) ∈ draws ∧ rs.*1 !! n = Some k) ∧
    (∀ d, d ∈ draws → ∃ k, rs.*1 !! d.1 = Some k ∧ k ∈ kvs.*1) ∧
    (∀ k v, (k, v) ∈ kvs → leaf1 <$> dict_get k rs' = Some v) ∧
    (∀ k, k ∉ kvs.*1 → dict_get k rs' = dict_get k rs) ∧
    length msg ≤ RECV_SIZE ∧
    process_external_change [msg] w = (Ok tt, w1) ∧
    outbox w1 = outbox w ++ [SEND_CHANGES] ∧
    api_get_subscription_notifications w1 =
      (Ok [{| timestamp := 0; prefix := empty_path; delete := []; atomic := false;
              update := (λ kv, {| up_path := change_path kv.1; up_val := JsonIetfVal (str_Z kv.2) |}) <$> kvs |}], w2) ∧
    change_db w2 = [].
Proof.
  intros Hleaf Hwf Hkeys [[Hl1 Hl3] Hdraws] Hsub Hdb.
  destruct (make_changes_spec draws [] rs) as (kvs & rs' & Hm & Hnd & Hlen & Hin & Hfrom & Hall & Hsame & Hv);
    [done|eapply Forall_impl; [exact Hdraws|by intros ? [? _]]|].
  assert (kvs ≠ []) as Hne.
  { destruct draws as [|d draws]; [cbn in *; lia|]. destruct (Hall d) as (k & _ & [Hk|Hk]); [by left|set_solver|].
    intros ->. set_solver. }
  assert (Forall (λ kv, sendable kv.1 ∧ kv.1 ∈ rs.*1 ∧ (1 ≤ kv.2 ≤ 10)%Z) kvs) as Hkvs.
  { apply Forall_forall. intros [k v] Hkv. rewrite Forall_forall in Hkeys. rewrite Forall_forall in Hdraws.
    assert (k ∈ rs.*1) as Hk by (apply Hin, list_elem_of_fmap; by exists (k, v)).
    split_and!; [by apply Hkeys|done|..]; destruct (Hfrom k v Hkv) as (n & Hn & _); by apply Hdraws in Hn as [_ [? ?]]. }
  set (w1 := api_put_event SEND_CHANGES (_append_changes EXT_SPOINT (received_change <$> kvs) w)).
  exists (changes_msg ((λ kv, change_msg kv.1 kv.2) <$> kvs)), rs', kvs, w1, (set_change_db [] w1).
  split_and!; try done.
  - unfold generate_changes. rewrite Hm, bool_decide_false; [done|].
    intros Hz. rewrite Forall_forall in Hdraws. destruct draws as [|d draws]; [cbn in *; lia|].
    destruct (Hdraws d); [by left|lia].
  - intros d Hd. destruct (Hall d Hd) as (k & Hk & [Hc|Hc]); [set_solver|by exists k].
  - apply changes_sendable; [done|lia|eapply Forall_impl; [exact Hkvs|by intros ? (? & _ & ?)]].
  - eapply message_received; [done|done|done|lia|done].
  - eapply report_single; [cbn; by rewrite Hdb|]. rewrite change_notification_ok by done.
    by rewrite <-list_fmap_compose.
Qed.

(** ** Witnesses *)

Lemma routes_walk_witness :
  walk 4 (RouteData (Some 4) true (λ i, 100 - i)) (-1) = Ok [py"99rt1"; py"98rt2"; py"97rt3"].
Proof. apply (routes_walk 4 true (λ i, 100 - i)). lia. Defined.

Definition ex_routes : routes := RouteData (Some 4) false (λ _, 0).
Definition ex_draws : list (nat * Z) := [(1, 7%Z); (1, 8%Z); (0, 3%Z)].
Definition ex_w : api_world (X := list wop) := set_subpoint EXT_SPOINT empty_path (new_world ex_adapter []).

Lemma ex_routes_keys : Forall sendable ex_routes.*1.
Proof. repeat apply Forall_cons_2; [..|constructor]; unfold sendable, plain_key; split_and!; vm_decide. Qed.

(** A ConfD that knows [leaf1] of the routes of the table, a number of 32 bits, and no
    other path or value. *)
Definition route_confd : ConfdApi Z (list wop) unit (list wop) := {|
  hash2str _ := [];
  cs_node_cd _ p := if decide (p ∈ change_xpath <$> ex_routes.*1) then Some (CsNode ex_leaf None) else None;
  pp_kpath _ := [];
  value_kind v := VInt v;
  value_str v := str_Z v;
  val2str v _ := Ok (str_Z v);
  str2val s _ := match py_int s with
                 | Some z => if decide (-2 ^ 31 <= z < 2 ^ 31)%Z then Ok z else Raise (ConfdError true)
                 | None => Raise (ConfdError true)
                 end;
  single_read_trans _ _ _ := Ok tt;
  xpath_eval _ _ := [];
  save_config _ _ _ := ([], 0%Z);
  modules _ := [];
  single_write_trans x _ := Ok x;
  trans_do o t := Ok (t ++ [o]);
  trans_apply t _ := (Ok tt, t)
|}.

Lemma ex_leaf1 : knows_leaf1 (H := route_confd) ex_routes.*1 (CsNode ex_leaf None).
Proof.
  split.
  - intros key Hk. cbn [cs_node_cd route_confd]. rewrite decide_True; [done|]. apply list_elem_of_fmap. by exists key.
  - intros z Hz. exists z. split; [|done]. cbn [str2val route_confd]. rewrite py_int_str_Z. by rewrite decide_True.
Qed.

Lemma changes_end_to_end_witness :
  ∃ msg rs' kvs w1 w2, generate_changes ex_draws ex_routes = Ok (msg, rs') ∧
    (∀ k v, (k, v) ∈ kvs → leaf1 <$> dict_get k rs' = Some v) ∧
    process_external_change (H := route_confd) [msg] ex_w = (Ok tt, w1) ∧
    api_get_subscription_notifications w1 =
      (Ok [{| timestamp := 0; prefix := empty_path; delete := []; atomic := false;
              update := (λ kv, {| up_path := change_path kv.1; up_val := JsonIetfVal (str_Z kv.2) |}) <$> kvs |}], w2).
Proof.
  destruct (changes_end_to_end (H := route_confd) (CsNode ex_leaf None) ex_draws ex_routes ex_w)
    as (msg & rs' & kvs & w1 & w2 & Hg & _ & _ & _ & Hv & _ & _ & Hp & _ & Hn & _);
    [apply ex_leaf1 | vm_decide | apply ex_routes_keys | vm_decide | done | done |].
  by exists msg, rs', kvs, w1, w2.
Defined.
