(* ===== verification/ModifSubscriber.v ===== *)
(** * The modification subscriber: confd-and-docker/debian-py-confd/app/modif-subscriber.py

    A CDB subscriber that prints the modifications of each transaction as an
    indented text.  The values and the forests of modifications are those of the
    synchroniser (SyncNc); the text of a value and CDB are parameters.  Logging
    is left out. *)

From Stdlib Require Import Ascii String.
From S2P Require Import Prelude PyStr Xml SyncNc.

(** ** Rendering *)

Definition INDENT_SIZE : Z := 4.
Definition INDENT_STR : ascii := " "%char.
Definition pad (indent : Z) : pystr := replicate (Z.to_nat indent) INDENT_STR.

Section subscriber.
Context {V : Type} (value_text : V → pystr).

(** A deleted leaf, list entry or container. *)
Definition delete_line (indent : Z) (tag : pystr) : pystr :=
  pad indent ++ py"<" ++ tag ++ xq" operation=`delete`>" ++ nl.

Definition leaf_line (indent : Z) (tag text : pystr) : pystr :=
  pad indent ++ py"<" ++ tag ++ py">" ++ text ++ py"</" ++ tag ++ py">" ++ nl.

Definition get_value (tag_val : tagval V) (indent : Z) : pystr * Z :=
  let tag := tv_tag tag_val in
  match tv_v tag_val with
  | C_XMLBEGIN => (pad indent ++ py"<" ++ tag ++ py">" ++ nl, (indent + INDENT_SIZE)%Z)
  | C_XMLEND =>
      let indent := (indent - INDENT_SIZE)%Z in
      (pad indent ++ py"</" ++ tag ++ py">" ++ nl, indent)
  | C_NOEXISTS => (delete_line indent tag, indent)
  | C_XMLBEGINDEL => (delete_line indent tag, (indent + INDENT_SIZE)%Z)
  | C_XMLTAG => (pad indent ++ py"<" ++ tag ++ py"/>" ++ nl, indent)
  | C_LIST v | C_LEAF v => (leaf_line indent tag (value_text v), indent)
  end.

(** The loop of [process_modifications]. *)
Fixpoint modifications_loop (modifications : list (tagval V)) (indent : Z) (result : pystr) : pystr * Z :=
  match modifications with
  | [] => (result, indent)
  | val :: rest =>
      let '(text, indent') := get_value val indent in
      modifications_loop rest indent' (result ++ text)
  end.

(** What is written on the error output. *)
Definition process_modifications (modifications : list (tagval V)) : pystr :=
  py"modifications read by subscriber:" ++ nl ++ (modifications_loop modifications 0 []).1.

(** [process_subscriptions]: the points that triggered; for each that is ours the
    modifications are written and the subscription is synchronised. *)
Definition process_subscriptions (spoint : Z) (sub_points : list Z) (get_modifications : Z → list (tagval V))
    : list pystr * nat :=
  let ours := List.filter (λ s, bool_decide (s = spoint)) sub_points in
  ((λ s, process_modifications (get_modifications s)) <$> ours, length ours).

(** ** Specification: a forest as indented text *)

Definition start_line (del : bool) (indent : Z) (tag : pystr) : pystr :=
  if del then delete_line indent tag else pad indent ++ py"<" ++ tag ++ py">" ++ nl.

Definition pretty_leaf (indent : Z) (tag : pystr) (l : leafval V) : pystr :=
  match l with
  | LNoExists => delete_line indent tag
  | LTag => pad indent ++ py"<" ++ tag ++ py"/>" ++ nl
  | LList v | LVal v => leaf_line indent tag (value_text v)
  end.

(** Start and end tags of a node are at the node's depth, its children below. *)
Fixpoint pretty (indent : Z) (f : forest V) : pystr :=
  match f with
  | FNil => []
  | FNode del _ tag children rest =>
      start_line del indent tag ++ pretty (indent + INDENT_SIZE) children ++
      pad indent ++ py"</" ++ tag ++ py">" ++ nl ++ pretty indent rest
  | FLeaf _ tag l rest => pretty_leaf indent tag l ++ pretty indent rest
  end.

Lemma modifications_loop_forest f indent more result :
  modifications_loop (flatten f ++ more) indent result =
    modifications_loop more indent (result ++ pretty indent f).
Proof.
  revert indent more result.
  induction f as [|del ns tag c IHc r IHr|ns tag l r IHr]; intros indent more result; cbn [flatten pretty app].
  - by rewrite app_nil_r.
  - cbn [modifications_loop].
    assert (get_value (Build_tagval ns tag (if del then C_XMLBEGINDEL else C_XMLBEGIN)) indent =
      (start_line del indent tag, (indent + INDENT_SIZE)%Z)) as -> by (by destruct del).
    rewrite <-app_assoc, IHc. cbn [app modifications_loop get_value tv_v tv_tag].
    replace (indent + INDENT_SIZE - INDENT_SIZE)%Z with indent by lia.
    rewrite IHr. f_equal. by rewrite <-!app_assoc.
  - cbn [modifications_loop].
    assert (get_value (Build_tagval ns tag (leaf_cvalue l)) indent = (pretty_leaf indent tag l, indent)) as ->
      by (by destruct l).
    rewrite IHr. by rewrite <-app_assoc.
Qed.

(** ** Balanced tags *)

Fixpoint tag_names (f : forest V) : Prop :=
  match f with
  | FNil => True
  | FNode _ _ tag children rest => is_name tag ∧ tag_names children ∧ tag_names rest
  | FLeaf _ tag _ rest => is_name tag ∧ tag_names rest
  end.

Lemma pretty_closed f indent :
  (∀ v, plain (value_text v)) → no_leaf_deletion f → tag_names f → closed (pretty indent f).
Proof.
  intros Hv. revert indent. induction f as [|del ns tag c IHc r IHr|ns tag l r IHr]; intros indent Hd Hn; cbn [pretty].
  - apply closed_nil.
  - destruct Hd as [Hdc Hdr], Hn as (Hname & Hnc & Hnr).
    assert (closed (nl ++ pretty (indent + INDENT_SIZE) c ++ pad indent)) as Hin
      by (repeat apply closed_app; auto using nl_closed, pad_closed).
    destruct del.
    + pose proof (closed_app _ _ (pad_closed indent) (closed_app _ _
        (closed_elem_attr tag (xq"operation=`delete`") _ Hname ltac:(by intros n st) Hin)
        (closed_app _ _ nl_closed (IHr indent Hdr Hnr)))) as Hc.
      rewrite <-!app_assoc in Hc. unfold start_line, delete_line. rewrite <-!app_assoc. exact Hc.
    + pose proof (closed_app _ _ (pad_closed indent) (closed_app _ _ (closed_elem tag _ Hname Hin)
        (closed_app _ _ nl_closed (IHr indent Hdr Hnr)))) as Hc.
      rewrite <-!app_assoc in Hc. unfold start_line. rewrite <-!app_assoc. exact Hc.
  - destruct Hd as [Hl Hdr], Hn as [Hname Hnr]. apply closed_app; [|by apply IHr].
    destruct l as [| |v|v]; [done|..|by apply leaf_line_closed|by apply leaf_line_closed].
    unfold pretty_leaf. apply closed_app; [apply pad_closed|].
    rewrite !app_assoc. apply closed_app; [|apply nl_closed]. rewrite <-!app_assoc. by apply closed_empty_elem.
Qed.
End subscriber.

(** ** Properties *)

(** The text written for a transaction is the forest of its modifications,
    indented by depth, with the end tag of every container and list entry at the
    depth of its start tag, and the indentation is back at zero at the end; when
    no leaf is deleted and the texts of the values have no markup, every tag that
    is opened is closed. *)
Theorem modifications_printed {V} (value_text : V → pystr) (f : forest V) :
  modifications_loop value_text (flatten f) 0 [] = (pretty value_text 0 f, 0%Z) ∧
  process_modifications value_text (flatten f) =
    py"modifications read by subscriber:" ++ nl ++ pretty value_text 0 f ∧
  ((∀ v, plain (value_text v)) → no_leaf_deletion f → tag_names f → closed (pretty value_text 0 f)).
Proof.
  assert (modifications_loop value_text (flatten f) 0 [] = (pretty value_text 0 f, 0%Z)) as Hl.
  { rewrite <-(app_nil_r (flatten f)). by rewrite modifications_loop_forest. }
  split_and!; [done | unfold process_modifications; by rewrite Hl | apply pretty_closed].
Qed.

(** ** Example *)

Lemma modifications_printed_example :
  process_modifications str_nat
    (flatten (FNode false 1 (py"user") (FNode true 1 (py"folder") (FLeaf 1 (py"id") (LVal 3) FNil)
       (FLeaf 1 (py"quota") (LVal 10) FNil)) FNil)) =
  xq"modifications read by subscriber:
<user>
    <folder operation=`delete`>
        <id>3</id>
    </folder>
    <quota>10</quota>
</user>
".
Proof. reflexivity. Qed.

(** The deletion of a leaf opens an element that is never closed. *)
Lemma printed_leaf_deletion_unbalanced :
  balanced (pretty str_nat 0 (FNode false 1 (py"user") (FLeaf 1 (py"quota") LNoExists FNil) FNil)) = false.
Proof. vm_compute. reflexivity. Qed.
