(* ===== verification/Ipv4.v ===== *)
(** * IPv4 addresses: what the load generators use of Python's ipaddress

    [IPv4Address(text)] and [IPv4Address(number)] check their argument and give
    the address, which is its number; [str] prints the four octets and [int] is
    the number.  No counterpart under src/: this is the standard library. *)

From Stdlib Require Import Ascii String.
From S2P Require Import Prelude PyStr.

Ltac Zify.zify_post_hook ::= Z.div_mod_to_equations.

(** ** Addresses *)

Definition ipv4_end : Z := 2 ^ 32.

(** [IPv4Address(z)] of a number. *)
Definition ipv4_of_int (z : Z) : res Z :=
  if (0 <=? z)%Z && (z <? ipv4_end)%Z then Ok z else Raise AddressValueError.

Definition octets (z : Z) : list Z :=
  [(z / 2 ^ 24) mod 256; (z / 2 ^ 16) mod 256; (z / 2 ^ 8) mod 256; z mod 256]%Z.

Definition dot : ascii := ".".

(** [str(address)]. *)
Definition str_ipv4 (z : Z) : pystr := join [dot] ((λ o, str_nat (Z.to_nat o)) <$> octets z).

(** One octet: digits, at most three, without leading zeros, at most 255. *)
Definition parse_octet (s : pystr) : res Z :=
  if bool_decide (s ≠ []) && forallb is_digit s && (length s <=? 3) &&
     (bool_decide (s = py"0") || negb (startswith s (py"0")))
  then match int_digits s 0 with
       | Some z => if (z <=? 255)%Z then Ok z else Raise AddressValueError
       | None => Raise AddressValueError
       end
  else Raise AddressValueError.

(** [IPv4Address(s)] of a text. *)
Definition ipv4_of_str (s : pystr) : res Z :=
  let parts := split dot s in
  if (length parts =? 4)%nat then
    os ← res_map parse_octet parts;
    Ok (fold_left (λ acc o, acc * 256 + o)%Z os 0%Z)
  else Raise AddressValueError.

(** ** Lemmas *)

Lemma ipv4_of_int_Ok z : (0 ≤ z < ipv4_end)%Z → ipv4_of_int z = Ok z.
Proof.
  intros [H1 H2]. unfold ipv4_of_int. apply Z.leb_le in H1 as ->. by apply Z.ltb_lt in H2 as ->.
Qed.

Lemma ipv4_of_int_Raise z : (ipv4_end ≤ z)%Z → ipv4_of_int z = Raise AddressValueError.
Proof.
  intros H. unfold ipv4_of_int. apply Z.ltb_ge in H as ->. by rewrite andb_false_r.
Qed.

Lemma parse_octets_computed : Forall (λ n, parse_octet (str_nat n) = Ok (Z.of_nat n)) (seq 0 256).
Proof. vm_decide. Qed.

Lemma parse_octet_str o : (0 ≤ o < 256)%Z → parse_octet (str_nat (Z.to_nat o)) = Ok o.
Proof.
  intros Ho. pose proof parse_octets_computed as Hf. rewrite Forall_forall in Hf.
  rewrite Hf by (apply elem_of_seq; lia). f_equal. lia.
Qed.

(** An octet above 255 is refused. *)
Lemma parse_octet_large o : (255 < o)%Z → parse_octet (str_nat (Z.to_nat o)) = Raise AddressValueError.
Proof.
  intros Ho. unfold parse_octet. case_match; [|done].
  unfold str_nat. rewrite int_digits_str_nat_go by lia. cbn [int_digits].
  by rewrite (proj2 (Z.leb_gt _ _)) by lia.
Qed.

Lemma octets_bounds z : Forall (λ o, 0 ≤ o < 256)%Z (octets z).
Proof. unfold octets. repeat constructor; apply Z.mod_pos_bound; lia. Qed.

Lemma octets_value z :
  (0 ≤ z < ipv4_end)%Z → fold_left (λ acc o, acc * 256 + o)%Z (octets z) 0%Z = z.
Proof.
  unfold ipv4_end. change (2 ^ 32)%Z with 4294967296%Z. intros Hz.
  unfold octets. cbn [fold_left].
  change (2 ^ 24)%Z with 16777216%Z. change (2 ^ 16)%Z with 65536%Z. change (2 ^ 8)%Z with 256%Z. lia.
Qed.

Lemma octet_texts_no_dot os : Forall (λ w, dot ∉ w) ((λ o, str_nat (Z.to_nat o)) <$> os : list pystr).
Proof. apply Forall_fmap, Forall_true. intros o. by apply str_nat_not_elem. Qed.

(** Reading a printed address gives the address. *)
Lemma ipv4_roundtrip z : (0 ≤ z < ipv4_end)%Z → ipv4_of_str (str_ipv4 z) = Ok z.
Proof.
  intros Hz. unfold ipv4_of_str, str_ipv4.
  rewrite split_join by (done || apply octet_texts_no_dot).
  rewrite length_fmap. change (length (octets z) =? 4)%nat with true. cbv iota.
  assert (res_map parse_octet ((λ o, str_nat (Z.to_nat o)) <$> octets z) = Ok (octets z)) as ->.
  { apply res_map_Ok, Forall2_fmap_l, Forall_Forall2_diag.
    eapply Forall_impl; [apply octets_bounds|]. intros o Ho. by apply parse_octet_str. }
  cbn [mbind res_bind]. by rewrite octets_value.
Qed.

Lemma str_ipv4_inj a b :
  (0 ≤ a < ipv4_end)%Z → (0 ≤ b < ipv4_end)%Z → str_ipv4 a = str_ipv4 b → a = b.
Proof.
  intros Ha Hb Heq. apply ipv4_roundtrip in Ha, Hb. rewrite Heq in Ha. congruence.
Qed.

Lemma str_ipv4_not_elem c z : is_digit c = false → c ≠ dot → c ∉ str_ipv4 z.
Proof.
  intros Hc Hd Hin. apply join_elem in Hin as [Hin|(w & Hw & Hin)]; [set_solver|].
  apply list_elem_of_fmap in Hw as (o & -> & _). by apply str_nat_not_elem in Hin.
Qed.
