(* ===== verification/NcGen.v ===== *)
(** * The NETCONF load generator: active-active/consistent-sync/app/ncgen.py

    A command line program that prints NETCONF sessions: messages separated by
    the end-of-message marker, among them edits of any number of routes.  The
    output of a session is the list of the texts it prints, each with the line
    feed that [print] adds.  The fields of the templates are numbered. *)

From Stdlib Require Import Ascii String.
From S2P Require Import Prelude PyStr Xml.

(** ** Messages *)

Definition print_hello : pystr := xq"<?xml version=`1.0` encoding=`UTF-8`?>
    <hello xmlns=`urn:ietf:params:xml:ns:netconf:base:1.0`>
    <capabilities>
    <capability>urn:ietf:params:netconf:base:1.0</capability>
    </capabilities>
    </hello>
    " ++ nl.

Definition print_delim : pystr := xq"]]>]]>
    " ++ nl.

Definition print_close_session : pystr := xq"<?xml version=`1.0` encoding=`UTF-8`?>
    <rpc xmlns=`urn:ietf:params:xml:ns:netconf:base:1.0` message-id=`2`>
    <close-session/>
    </rpc>
    " ++ nl.

Definition print_commit : pystr := xq"<?xml version=`1.0` encoding=`UTF-8`?>
    <rpc xmlns=`urn:ietf:params:xml:ns:netconf:base:1.0` message-id=`2`>
    <commit/>
    </rpc>
    " ++ nl.

Definition print_commit_persist_id (pid : pystr) : pystr := fmt (xq"<?xml version=`1.0` encoding=`UTF-8`?>
    <rpc xmlns=`urn:ietf:params:xml:ns:netconf:base:1.0` message-id=`1`>
    <commit><persist-id>{0}</persist-id></commit>
    </rpc>
    ") [pid] ++ nl.

Definition print_confirmed_commit_persist (pid : pystr) : pystr := fmt (xq"<?xml version=`1.0` encoding=`UTF-8`?>
    <rpc xmlns=`urn:ietf:params:xml:ns:netconf:base:1.0` message-id=`3`>
    <commit><confirmed/><persist>{0}</persist></commit>
    </rpc>
    ") [pid] ++ nl.

Definition print_close_session2 : pystr := xq"<?xml version=`1.0` encoding=`UTF-8`?>
    <rpc xmlns=`urn:ietf:params:xml:ns:netconf:base:1.0` message-id=`5`>
    <close-session/>
    </rpc>
    " ++ nl.

Definition print_close_session3 : pystr := xq"<?xml version=`1.0` encoding=`UTF-8`?>
    <rpc xmlns=`urn:ietf:params:xml:ns:netconf:base:1.0` message-id=`3`>
    <close-session/>
    </rpc>
    " ++ nl.

Definition print_delete_config (data_store : pystr) (op_str : pystr) : pystr := fmt (xq"<?xml version=`1.0` encoding=`UTF-8`?>
    <rpc xmlns=`urn:ietf:params:xml:ns:netconf:base:1.0` xmlns:nc=`urn:ietf:params:xml:ns:netconf:base:1.0` message-id=`1`>
    <edit-config>
    <target>
    <%s/>
    </target>
    <config>
    {0}</config>
    </edit-config>
    </rpc>
    ") [data_store; op_str] ++ nl.

Definition print_edit_config (data_store : pystr) (op_str : pystr) : pystr := fmt (xq"<?xml version=`1.0` encoding=`UTF-8`?><rpc xmlns=`urn:ietf:params:xml:ns:netconf:base:1.0` xmlns:nc=`urn:ietf:params:xml:ns:netconf:base:1.0` message-id=`1`><edit-config><target><{0}/></target><config><active-cfg xmlns=`http://tail-f.com/ns/example/routes/1.0`><routes>{1}</routes></active-cfg></config></edit-config></rpc>") [data_store; op_str] ++ nl.

Definition print_delete_edit_config (data_store : pystr) (op_str : pystr) : pystr := fmt (xq"<?xml version=`1.0` encoding=`UTF-8`?>
    <rpc xmlns=`urn:ietf:params:xml:ns:netconf:base:1.0` xmlns:nc=`urn:ietf:params:xml:ns:netconf:base:1.0` message-id=`1`>
    <edit-config>
    <target>
    <{0}/>
    </target>
    <config>
    <active-cfg xmlns=`http://tail-f.com/ns/example/routes/1.0`>
    <routes nc:operation=`delete`/>
    </active-cfg>
    <active-cfg xmlns=`http://tail-f.com/ns/example/routes/1.0`>
    <routes>
    {1}</routes>
    </active-cfg>
    </config>
    </edit-config>
    </rpc>
    ") [data_store; op_str] ++ nl.

Definition print_lock_running : pystr := xq"<?xml version=`1.0` encoding=`UTF-8`?>
    <rpc xmlns=`urn:ietf:params:xml:ns:netconf:base:1.0` message-id=`1`>
    <lock><target><running/></target></lock>
    </rpc>
    " ++ nl.

Definition print_unlock_running : pystr := xq"<?xml version=`1.0` encoding=`UTF-8`?>
    <rpc xmlns=`urn:ietf:params:xml:ns:netconf:base:1.0` message-id=`2`>
    <unlock><target><running/></target></unlock>
    </rpc>
    " ++ nl.

Definition print_partial_lock_running : pystr := xq"<?xml version=`1.0` encoding=`UTF-8`?>
    <nc:rpc xmlns=`urn:ietf:params:xml:ns:netconf:partial-lock:1.0` xmlns:nc=`urn:ietf:params:xml:ns:netconf:base:1.0` message-id=`1`>
    <partial-lock>
      <select xmlns:r=`http://tail-f.com/ns/example/routes/1.0`>
        /r:active-cfg/r:routes/r:route[id='0000000']
      </select>
      <select xmlns:r=`http://tail-f.com/ns/example/routes/1.0`>
        /r:active-cfg/r:routes/r:route[r:id='0000001']
      </select>
    </partial-lock>
</nc:rpc>
    " ++ nl.

Definition print_partial_unlock_running (id : pystr) : pystr := fmt (xq"<?xml version=`1.0` encoding=`UTF-8`?>
    <nc:rpc xmlns=`urn:ietf:params:xml:ns:netconf:partial-lock:1.0` xmlns:nc=`urn:ietf:params:xml:ns:netconf:base:1.0` message-id=`2`>
      <partial-unlock>
        <lock-id>{0}</lock-id>
      </partial-unlock>
    </nc:rpc>
    ") [id] ++ nl.

Definition print_lock_candidate : pystr := xq"<?xml version=`1.0` encoding=`UTF-8`?>
    <rpc xmlns=`urn:ietf:params:xml:ns:netconf:base:1.0` message-id=`1`>
    <lock><target><candidate/></target></lock>
    </rpc>
    " ++ nl.

Definition print_unlock_candidate : pystr := xq"<?xml version=`1.0` encoding=`UTF-8`?>
    <rpc xmlns=`urn:ietf:params:xml:ns:netconf:base:1.0` message-id=`4`>
    <unlock><target><candidate/></target></unlock>
    </rpc>
    " ++ nl.

Definition print_edit_config2 (data_store : pystr) (op_str : pystr) : pystr := fmt (xq"<?xml version=`1.0` encoding=`UTF-8`?>
    <rpc xmlns=`urn:ietf:params:xml:ns:netconf:base:1.0` xmlns:nc=`urn:ietf:params:xml:ns:netconf:base:1.0` message-id=`2`>
    <edit-config>
    <target>
    <{0}/>
    </target>
    <config>
    <active-cfg xmlns=`http://tail-f.com/ns/example/routes/1.0`>
    <routes>
    {1}</routes>
    </active-cfg>
    </config>
    </edit-config>
    </rpc>
    ") [data_store; op_str] ++ nl.

Definition print_copy_config (data_store : pystr) (op_str : pystr) : pystr := fmt (xq"<?xml version=`1.0` encoding=`UTF-8`?>
    <rpc xmlns=`urn:ietf:params:xml:ns:netconf:base:1.0` xmlns:nc=`urn:ietf:params:xml:ns:netconf:base:1.0` message-id=`1`>
    <copy-config>
    <target>
    <{0}/>
    </target>
    <source>
    <config>
    <active-cfg xmlns=`http://tail-f.com/ns/example/routes/1.0`>
    <routes>
    {1}</routes>
    </active-cfg>
    </config>
    </source>
    </copy-config>
    </rpc>
    ") [data_store; op_str] ++ nl.

(** ** Routes *)

(** [%07d] of a number that is not negative. *)
Definition fmt_07d (n : nat) : pystr := replicate (7 - length (str_nat n)) "0"%char ++ str_nat n.

Definition route (i : nat) : pystr := py"
        <route>
        <id>" ++ fmt_07d i ++ py"</id>
        <leaf1>1</leaf1>
        <leaf2>2</leaf2>
        <leaf3>3</leaf3>
        <leaf4>4</leaf4>
        </route>".

Definition route_on_line (i : nat) : pystr :=
  py"<route><id>" ++ fmt_07d i ++ py"</id><leaf1>1</leaf1><leaf2>2</leaf2><leaf3>3</leaf3><leaf4>4</leaf4></route>".

(** The texts of [n] routes. *)
Definition routes (f : nat → pystr) (n : nat) : pystr := concat (f <$> seq 0 n).

(** ** Sessions *)

Definition running : pystr := py"running".
Definition candidate : pystr := py"candidate".

Definition delete_routes_config : list pystr :=
  [print_hello; print_delim;
   print_delete_config running (xq"
    <active-cfg xmlns=`http://tail-f.com/ns/example/routes/1.0`><routes nc:operation=`delete`/></active-cfg>");
   print_delim; print_close_session; print_delim].

Definition edit_delete_routes_config (n : nat) : list pystr :=
  [print_hello; print_delim; print_delete_edit_config running (routes route n); print_delim;
   print_close_session; print_delim].

Definition edit_config_running (n : nat) : list pystr :=
  [print_hello; print_delim; print_edit_config running (routes route_on_line n); print_delim;
   print_close_session; print_delim].

Definition edit_config_candidate_confirmed_commit (n : nat) (pid : pystr) : list pystr :=
  [print_hello; print_delim; print_lock_candidate; print_delim;
   print_edit_config2 candidate (routes route n); print_delim;
   print_confirmed_commit_persist pid; print_delim; print_unlock_candidate; print_delim;
   print_close_session2; print_delim].

Definition confirm_commit (pid : pystr) : list pystr :=
  [print_hello; print_delim; print_commit_persist_id pid; print_delim; print_close_session; print_delim].

Definition trans_size_test3 (n : nat) : list pystr :=
  [print_hello; print_delim; print_copy_config running (routes route n); print_delim;
   print_close_session; print_delim].

Definition lock_unlock_running : list pystr :=
  [print_hello; print_delim; print_lock_running; print_delim; print_unlock_running; print_delim;
   print_close_session3; print_delim].

Definition partial_lock_unlock_running (id : pystr) : list pystr :=
  [print_hello; print_delim; print_partial_lock_running; print_delim;
   print_partial_unlock_running id; print_delim; print_close_session3; print_delim].

(** ** The command line *)

(** The value of an argument: an integer, or the fraction that a negative power
    of two is; of fractions only the argument is kept. *)
Inductive num :=
  | NInt (z : Z)
  | NFloat (arg : pystr).

(** Powers of two may be nested. *)
Fixpoint parse_num (s : pystr) : res num :=
  match s with
  | "2"%char :: "^"%char :: s' =>
      n ← parse_num s';
      match n with
      | NInt z => if (0 <=? z)%Z then Ok (NInt (2 ^ z)) else Ok (NFloat s)
      | NFloat _ => Ok (NFloat s)
      end
  | _ => match py_int s with Some z => Ok (NInt z) | None => Raise ValueError end
  end.

(** [range(0, n)] has no fractions; a negative number gives no iteration. *)
Definition parse_count (s : pystr) : res nat :=
  n ← parse_num s;
  match n with NInt z => Ok (Z.to_nat z) | NFloat _ => Raise TypeError end.

(** What the program prints: a session, or that it does not know the command. *)
Inductive output :=
  | Session (prints : list pystr)
  | Unrecognized (argv : list pystr).

Section main.
(** [str] of integers is known; of fractions it is an argument. *)
Context (str_int : Z → pystr) (str_float : pystr → pystr).

Definition str_num (n : num) : pystr := match n with NInt z => str_int z | NFloat s => str_float s end.

Definition main (argv : list pystr) : res output :=
  cmd ← py_index argv 1;
  if decide (cmd = py"edit_config_running") then
    arg ← py_index argv 2; n ← parse_count arg; Ok (Session (edit_config_running n))
  else if decide (cmd = py"edit_config_candidate_confirmed_commit") then
    arg ← py_index argv 2; n ← parse_num arg; pid ← py_index argv 3;
    match n with
    | NInt z => Ok (Session (edit_config_candidate_confirmed_commit (Z.to_nat z) pid))
    | NFloat _ => Raise TypeError
    end
  else if decide (cmd = py"trans_many_test") then Raise NameError
  else if decide (cmd = py"delete_routes_config") then Ok (Session delete_routes_config)
  else if decide (cmd = py"edit_delete_routes_config") then
    arg ← py_index argv 2; n ← parse_count arg; Ok (Session (edit_delete_routes_config n))
  else if decide (cmd = py"confirm_commit") then
    pid ← py_index argv 2; Ok (Session (confirm_commit pid))
  else if decide (cmd = py"lock_running") then Ok (Session lock_unlock_running)
  else if decide (cmd = py"partial_lock_running") then
    arg ← py_index argv 2; n ← parse_num arg; Ok (Session (partial_lock_unlock_running (str_num n)))
  else Ok (Unrecognized argv).
End main.

(** ** Lemmas: numbers and routes *)

Lemma fmt_07d_digits i : Forall is_digit (fmt_07d i).
Proof. unfold fmt_07d. apply Forall_app. split; [by apply Forall_replicate | apply str_nat_digits]. Qed.

Lemma fmt_07d_plain i : plain (fmt_07d i).
Proof.
  unfold plain. intros Hin. pose proof (fmt_07d_digits i) as Hd. rewrite Forall_forall in Hd. by apply Hd in Hin.
Qed.

Lemma int_digits_zeros k s acc : int_digits (replicate k "0"%char ++ s) acc = int_digits s (acc * 10 ^ Z.of_nat k).
Proof.
  revert acc. induction k as [|k IH]; intros acc; cbn [replicate app].
  - by rewrite Z.mul_1_r.
  - cbn [int_digits]. change (is_digit "0") with true. cbv iota. rewrite IH. f_equal.
    change (Z.of_nat (digit_val "0")) with 0%Z. rewrite Nat2Z.inj_succ, Z.pow_succ_r by lia. lia.
Qed.

Lemma fmt_07d_inj i j : fmt_07d i = fmt_07d j → i = j.
Proof.
  intros Heq. assert (int_digits (fmt_07d i) 0 = int_digits (fmt_07d j) 0) as H by congruence.
  unfold fmt_07d in H. rewrite !int_digits_zeros, !Z.mul_0_l in H.
  unfold str_nat in H. rewrite !int_digits_str_nat_go in H by lia. cbn in H. injection H as H. lia.
Qed.

Lemma fmt_07d_length i : (Z.of_nat i < 10 ^ 7)%Z → length (fmt_07d i) = 7.
Proof.
  intros Hi. unfold fmt_07d. rewrite length_app, length_replicate.
  assert (length (str_nat i) ≤ 7) by (apply (str_nat_length i 7); [lia|lia]). lia.
Qed.

Lemma route_closed i : closed (route i).
Proof. pose proof (fmt_07d_plain i). unfold route. scan_closed. Qed.

Lemma route_on_line_closed i : closed (route_on_line i).
Proof. pose proof (fmt_07d_plain i). unfold route_on_line. scan_closed. Qed.

Lemma routes_S f n : routes f (S n) = routes f n ++ f n.
Proof. unfold routes. rewrite seq_S, fmap_app, concat_app. cbn. by rewrite app_nil_r. Qed.

Lemma routes_closed f n : (∀ i, closed (f i)) → closed (routes f n).
Proof. intros Hf. apply closed_concat, Forall_fmap, Forall_true. auto. Qed.

(** ** Lemmas: documents *)

Definition document (t : pystr) : Prop := balanced t = true.

Lemma document_edit ds op :
  is_name ds → closed op →
  document (print_edit_config ds op) ∧ document (print_edit_config2 ds op) ∧
  document (print_delete_edit_config ds op) ∧ document (print_copy_config ds op).
Proof.
  intros Hd Ho. split_and!; apply document_balanced;
    unfold print_edit_config, print_edit_config2, print_delete_edit_config, print_copy_config; scan_document.
Qed.

Lemma document_arg arg :
  plain arg →
  document (print_commit_persist_id arg) ∧ document (print_confirmed_commit_persist arg) ∧
  document (print_partial_unlock_running arg).
Proof.
  intros Ha. split_and!; apply document_balanced;
    unfold print_commit_persist_id, print_confirmed_commit_persist, print_partial_unlock_running; scan_document.
Qed.

Lemma document_fixed :
  Forall document [print_hello; print_close_session; print_commit; print_close_session2; print_close_session3;
    print_lock_running; print_unlock_running; print_partial_lock_running; print_lock_candidate;
    print_unlock_candidate].
Proof. unfold document. repeat constructor. Qed.

Lemma document_delete op : document (print_delete_config running op).
Proof. unfold document. vm_compute. reflexivity. Qed.

(** A session: documents, each followed by the marker. *)
Definition session (docs : list pystr) : list pystr := concat ((λ d, [d; print_delim]) <$> docs).

(** A well-formed session begins with the hello and ends by closing. *)
Definition session_ok (prints : list pystr) : Prop :=
  ∃ body close, prints = session (print_hello :: body ++ [close]) ∧
    Forall document (print_hello :: body ++ [close]) ∧
    close ∈ [print_close_session; print_close_session2; print_close_session3].

Lemma session_ok_intro body close :
  Forall document body → close ∈ [print_close_session; print_close_session2; print_close_session3] →
  session_ok (session (print_hello :: body ++ [close])).
Proof.
  intros Hb Hc. exists body, close. split_and!; [done| |done].
  pose proof document_fixed as Hf. rewrite Forall_forall in Hf.
  apply Forall_cons. split; [apply Hf; left|]. apply Forall_app. split; [done|].
  constructor; [|constructor]. apply Hf. set_solver.
Qed.

Lemma fixed_document d :
  d ∈ [print_lock_running; print_unlock_running; print_partial_lock_running; print_lock_candidate;
       print_unlock_candidate] → document d.
Proof. intros Hd. pose proof document_fixed as Hf. rewrite Forall_forall in Hf. apply Hf. set_solver. Qed.

Lemma datastore_names : is_name running ∧ is_name candidate.
Proof. split; vm_decide. Qed.

(** Each session, from its documents. *)
Lemma sessions_ok n pid :
  plain pid →
  Forall session_ok
    [delete_routes_config; edit_delete_routes_config n; edit_config_running n;
     edit_config_candidate_confirmed_commit n pid; confirm_commit pid; trans_size_test3 n;
     lock_unlock_running; partial_lock_unlock_running pid].
Proof.
  intros Hp. destruct datastore_names as [Hr Hc], (document_arg pid Hp) as (Hd1 & Hd2 & Hd3).
  pose proof (routes_closed route n route_closed) as Hroutes.
  pose proof (routes_closed route_on_line n route_on_line_closed) as Hlines.
  destruct (document_edit running _ Hr Hroutes) as (_ & _ & He1 & He2).
  destruct (document_edit running _ Hr Hlines) as (He3 & _).
  destruct (document_edit candidate _ Hc Hroutes) as (_ & He4 & _).
  repeat apply Forall_cons_2; [..|constructor].
  - apply (session_ok_intro [_] print_close_session); [|left]. constructor; [apply document_delete | constructor].
  - apply (session_ok_intro [_] print_close_session); [|left]. by constructor.
  - apply (session_ok_intro [_] print_close_session); [|left]. by constructor.
  - apply (session_ok_intro [_; _; _; _] print_close_session2); [|right; left].
    repeat apply Forall_cons_2; try done; apply fixed_document; set_solver.
  - apply (session_ok_intro [_] print_close_session); [|left]. by constructor.
  - apply (session_ok_intro [_] print_close_session); [|left]. by constructor.
  - apply (session_ok_intro [_; _] print_close_session3); [|right; right; left].
    repeat apply Forall_cons_2; try done; apply fixed_document; set_solver.
  - apply (session_ok_intro [_; _] print_close_session3); [|right; right; left].
    repeat apply Forall_cons_2; try done; apply fixed_document; set_solver.
Qed.

Lemma argument_plain argv i x : Forall plain argv → py_index argv i = Ok x → plain x.
Proof.
  intros Ha. unfold py_index. destruct (argv !! i) eqn:Hi; intros [= <-]. by eapply Forall_lookup_1 in Ha.
Qed.

(** ** Properties *)

(** Every session the program prints, for all arguments without markup, is a
    sequence of documents with balanced tags, each ended by the end-of-message
    marker, from the hello to the close of the session. *)
Theorem sessions_balanced (str_int : Z → pystr) (str_float : pystr → pystr) (argv : list pystr) (prints : list pystr) :
  (∀ n, plain (str_num str_int str_float n)) → Forall plain argv →
  main str_int str_float argv = Ok (Session prints) → session_ok prints.
Proof.
  intros Hnum Hargs. unfold main. intros (cmd & _ & Hm)%bind_Ok.
  assert (∀ n pid s, plain pid → s ∈ [delete_routes_config; edit_delete_routes_config n; edit_config_running n;
     edit_config_candidate_confirmed_commit n pid; confirm_commit pid; trans_size_test3 n;
     lock_unlock_running; partial_lock_unlock_running pid] → session_ok s) as Hok.
  { intros n pid s Hp Hs. pose proof (sessions_ok n pid Hp) as Hf. rewrite Forall_forall in Hf. auto. }
  repeat case_decide; inv_bind; try discriminate.
  - apply (Hok x0 []); [vm_decide|set_solver].
  - destruct x0 as [z|]; [|done]. inv_bind. simplify_eq.
    apply (Hok (Z.to_nat z) x1); [by eapply argument_plain|set_solver].
  - apply (Hok 0 []); [vm_decide|set_solver].
  - apply (Hok x0 []); [vm_decide|set_solver].
  - apply (Hok 0 x); [by eapply argument_plain|set_solver].
  - apply (Hok 0 []); [vm_decide|set_solver].
  - apply (Hok 0 (str_num str_int str_float x0)); [apply Hnum|set_solver].
Qed.

(** ** Witnesses *)

Definition ex_str_int (z : Z) : pystr := str_nat (Z.to_nat z).
Definition ex_str_float (s : pystr) : pystr := py"0.5".

Lemma ex_str_plain n : plain (str_num ex_str_int ex_str_float n).
Proof. destruct n as [z|s]; cbn; [by apply str_nat_not_elem | vm_decide]. Qed.

Lemma sessions_balanced_witness :
  ∃ prints, main ex_str_int ex_str_float [py"ncgen.py"; py"edit_config_candidate_confirmed_commit"; py"2^2^1"; py"id7"]
    = Ok (Session prints) ∧ session_ok prints.
Proof.
  eexists. split; [reflexivity|].
  apply (sessions_balanced ex_str_int ex_str_float
    [py"ncgen.py"; py"edit_config_candidate_confirmed_commit"; py"2^2^1"; py"id7"]);
    [apply ex_str_plain | vm_decide | reflexivity].
Defined.

(** The identifiers of the routes are distinct, and have seven digits up to ten
    million routes. *)
Lemma route_ids_distinct n : NoDup (fmt_07d <$> seq 0 n).
Proof. apply NoDup_fmap_2_strong; [|apply NoDup_seq]. intros i j _ _. apply fmt_07d_inj. Qed.

(** ** What the code does not do *)

(** The deletion does not contain the operation: the template has one field, which
    takes the datastore. *)
Lemma delete_config_drops_operation ds op op' : print_delete_config ds op = print_delete_config ds op'.
Proof. unfold print_delete_config. fmt_norm. done. Qed.

(** The command trans_many_test calls a function that does not exist. *)
Lemma trans_many_test_undefined si sf prog args :
  main si sf (prog :: py"trans_many_test" :: args) = Raise NameError.
Proof. reflexivity. Qed.
