(* ===== verification/DpGen.v ===== *)
(** * The data provider's load generator: dp-performance/app/cdbgen.py

    Prints an initial configuration with any number of interfaces, serial lines,
    routes and servers, whose addresses count up from 1.0.0.0 and 1.0.0.1.  The
    text that is printed is the state of the program; the fields of the templates
    are numbered. *)

From Stdlib Require Import Ascii String.
From S2P Require Import Prelude PyStr Xml Ipv4 NcGen.

(** ** The document *)

Definition xml_text (unit_str serial_str r_str s_str n_str d_str prefix : pystr) : pystr :=
  fmt (xq"<?xml version=`1.0` encoding=`UTF-8`?>
<config xmlns=`http://tail-f.com/ns/config/1.0`>
  <sys xmlns=`http://example.com/router{0}`>
    <interfaces>
      <interface>
        <name>eth0</name>
        <status>
          <link>up</link>
          <speed>thousand</speed>
          <duplex>full</duplex>
          <mtu>1500</mtu>
          <mac>AA:BB:CC:DD:EE:FF</mac>
          <receive>
            <bytes>1</bytes>
            <packets>2</packets>
            <errors>3</errors>
            <dropped>4</dropped>
          </receive>
          <transmit>
            <bytes>5</bytes>
            <packets>6</packets>
            <errors>7</errors>
            <dropped>8</dropped>
            <collisions>9</collisions>
          </transmit>
        </status>{1}
      </interface>{2}
    </interfaces>
    <routes>
      <inet>{3}
      </inet>
    </routes>
    <syslog>{4}
    </syslog>
    <ntp>{5}
      <local-clock>
        <enabled>true</enabled>
        <stratum>15</stratum>
        <status>
          <state>falsetick</state>
          <stratum>1</stratum>
          <reach>2</reach>
          <delay>3</delay>
          <offset>4</offset>
          <jitter>5</jitter>
        </status>
      </local-clock>
      <restrict>
        <name>1.1.1.1</name>
        <mask>default</mask>
        <flag>ntpport</flag>
      </restrict>
      <key>
        <name>2</name>
      </key>
      <controlkey>2</controlkey>
    </ntp>
    <dns>
      <search>
        <name>1</name>
        <domain>tail-f.com</domain>
      </search>
      <search>
        <name>2</name>
        <domain>tail-f.com</domain>
      </search>
      <search>
        <name>3</name>
        <domain>tail-f.com</domain>
      </search>{6}
    </dns>
  </sys>
</config>") [prefix; unit_str; serial_str; r_str; s_str; n_str; d_str].

Definition print_xml (unit_str serial_str r_str s_str n_str d_str prefix : pystr) : PyM (list pystr) unit :=
  print (xml_text unit_str serial_str r_str s_str n_str d_str prefix).

(** ** The entries of one round *)

Definition unit_entry (i : nat) (prefixstr : pystr) : pystr := fmt (xq"
        <unit>
          <name>{0}</name>
          <enabled>true</enabled>
          <family>
            <inet>
              <address>
                <name>{1}</name>
                <prefix-length>24</prefix-length>
              </address>
            </inet>
          </family>
          <status>
            <receive>
              <bytes>{0}</bytes>
              <packets>{0}</packets>
              <errors>{0}</errors>
              <dropped>{0}</dropped>
            </receive>
            <transmit>
              <bytes>{0}</bytes>
              <packets>{0}</packets>
              <errors>{0}</errors>
              <dropped>{0}</dropped>
              <collisions>{0}</collisions>
            </transmit>
          </status>
        </unit>") [str_nat i; prefixstr].

Definition serial_entry (prefix : pystr) (i : nat) : pystr := fmt (xq"
      <serial xmlns=`http://example.com/example-serial{0}`>
        <name>ppp{1}</name>
        <ppp>
          <accounting>acme</accounting>
        </ppp>
        <authentication>
          <method>pap</method>
        </authentication>
        <authorization>admin</authorization>
        <multilink>
          <links>
            <minimum>
              <minimum-value>0</minimum-value>
              <mandatory/>
            </minimum>
          </links>
          <group>1</group>
          <fragment>
            <delay>
              <delay-value>256</delay-value>
              <additional-delay-value>65535</additional-delay-value>
            </delay>
          </fragment>
        </multilink>
        <status>
          <receive>
            <bytes>{1}</bytes>
            <packets>{1}</packets>
            <errors>{1}</errors>
            <dropped>{1}</dropped>
          </receive>
          <transmit>
            <bytes>{1}</bytes>
            <packets>{1}</packets>
            <errors>{1}</errors>
            <dropped>{1}</dropped>
            <collisions>{1}</collisions>
          </transmit>
        </status>
      </serial>") [prefix; str_nat i].

Definition route_entry (ipstr : pystr) (i : nat) : pystr := fmt (xq"
        <route>
          <name>{0}</name>
          <prefix-length>24</prefix-length>
          <description>route{1}</description>
          <next-hop>
            <name>{0}</name>
            <metric>100</metric>
          </next-hop>
        </route>") [ipstr; str_nat i].

Definition syslog_entry (ipstr : pystr) (i : nat) : pystr := fmt (xq"
      <server>
        <name>{0}</name>
        <enabled>true</enabled>
        <selector>
          <name>{1}</name>
          <facility>auth</facility>
          <facility>authpriv</facility>
          <facility>local0</facility>
        </selector>
        <administrator>admin{1}</administrator>
      </server>") [ipstr; str_nat i].

Definition ntp_entry (ipstr : pystr) (i : nat) : pystr := fmt (xq"
      <server>
        <name>nserver{0}</name>
        <key>2</key>
        <status>
          <state>outlyer</state>
          <stratum>15</stratum>
          <reach>377</reach>
          <delay>{1}</delay>
          <offset>{1}</offset>
          <jitter>{1}</jitter>
        </status>
      </server>") [ipstr; str_nat i].

Definition dns_entry (ipstr : pystr) : pystr := fmt (xq"
      <server>
        <address>{0}</address>
      </server>") [ipstr].

(** ** The loop *)

(** The local variables of [gen_xml]. *)
Record gen_state := GenState {
  unit_str : pystr; serial_str : pystr; r_str : pystr; s_str : pystr; n_str : pystr; d_str : pystr;
  prefixstr : pystr; ipstr : pystr }.

Definition gen_init : res gen_state :=
  p ← ipv4_of_str (py"1.0.0.0");
  a ← ipv4_of_str (py"1.0.0.1");
  Ok (GenState [] [] [] [] [] [] (str_ipv4 p) (str_ipv4 a)).

(** One round: the entries, and the next addresses. *)
Definition gen_round (prefix : pystr) (st : gen_state) (i : nat) : res gen_state :=
  let u := unit_str st ++ unit_entry i (prefixstr st) in
  let se := serial_str st ++ serial_entry prefix i in
  let r := r_str st ++ route_entry (ipstr st) i in
  let s := s_str st ++ syslog_entry (ipstr st) i in
  let n := n_str st ++ ntp_entry (ipstr st) i in
  let d := d_str st ++ dns_entry (ipstr st) in
  prefixint ← ipv4_of_str (prefixstr st);
  prefix' ← ipv4_of_int (prefixint + 256);
  ipint ← ipv4_of_str (ipstr st);
  ip' ← ipv4_of_int (ipint + 1);
  Ok (GenState u se r s n d (str_ipv4 prefix') (str_ipv4 ip')).

Definition gen_xml (n : nat) (prefix : pystr) : PyM (list pystr) unit :=
  st ← lift (st ← gen_init; res_fold (gen_round prefix) st (seq 0 n));
  print_xml (unit_str st) (serial_str st) (r_str st) (s_str st) (n_str st) (d_str st) prefix.

(** [print(...)] returns no object to call [format] on. *)
Definition main (argv : list pystr) : PyM (list pystr) unit :=
  cmd ← lift (py_index argv 1);
  if decide (cmd = py"gen") then
    n ← lift (arg ← py_index argv 2; parse_count arg); gen_xml n []
  else if decide (cmd = py"gen-state") then
    n ← lift (arg ← py_index argv 2; parse_count arg); gen_xml n (py"-state")
  else
    _ ← print (py"Unrecognized command %s"); raise AttributeError.

(** ** What the loop computes *)

(** The rounds before the prefixes leave the address space. *)
Definition limit : Z := 16711680.

Definition prefix_at (i : nat) : Z := 2 ^ 24 + 256 * Z.of_nat i.
Definition ip_at (i : nat) : Z := 2 ^ 24 + 1 + Z.of_nat i.

Definition state_at (prefix : pystr) (n : nat) : gen_state :=
  GenState (routes (λ i, unit_entry i (str_ipv4 (prefix_at i))) n) (routes (serial_entry prefix) n)
    (routes (λ i, route_entry (str_ipv4 (ip_at i)) i) n) (routes (λ i, syslog_entry (str_ipv4 (ip_at i)) i) n)
    (routes (λ i, ntp_entry (str_ipv4 (ip_at i)) i) n) (routes (λ i, dns_entry (str_ipv4 (ip_at i))) n)
    (str_ipv4 (prefix_at n)) (str_ipv4 (ip_at n)).

(** The document of [n] rounds. *)
Definition document_of (prefix : pystr) (n : nat) : pystr :=
  let st := state_at prefix n in
  xml_text (unit_str st) (serial_str st) (r_str st) (s_str st) (n_str st) (d_str st) prefix.

(** ** Lemmas *)

Lemma addresses_in_range n :
  (Z.of_nat n < limit)%Z → (0 ≤ prefix_at n < ipv4_end)%Z ∧ (0 ≤ ip_at n < ipv4_end)%Z.
Proof. unfold limit, prefix_at, ip_at, ipv4_end. lia. Qed.

Lemma gen_init_state prefix : gen_init = Ok (state_at prefix 0).
Proof. reflexivity. Qed.

(** One round, with the addresses read back. *)
Lemma gen_round_next prefix n :
  (Z.of_nat n < limit)%Z →
  gen_round prefix (state_at prefix n) n =
    (_ ← ipv4_of_int (prefix_at (S n)); Ok (state_at prefix (S n))).
Proof.
  intros Hn. destruct (addresses_in_range n Hn) as [Hp Hi].
  unfold gen_round. cbn [prefixstr ipstr state_at]. rewrite !ipv4_roundtrip by done. cbn [mbind res_bind].
  replace (prefix_at n + 256)%Z with (prefix_at (S n)) by (unfold prefix_at; lia).
  replace (ip_at n + 1)%Z with (ip_at (S n)) by (unfold ip_at; lia).
  destruct (ipv4_of_int (prefix_at (S n))) as [z|e] eqn:Hz; [|done]. cbn [mbind res_bind].
  rewrite ipv4_of_int_Ok by (unfold ip_at, ipv4_end, limit in *; lia). cbn [mbind res_bind].
  unfold ipv4_of_int in Hz. case_match; [|done]. apply Ok_inj in Hz as <-.
  unfold state_at. cbn [unit_str serial_str r_str s_str n_str d_str]. by rewrite !routes_S.
Qed.

Lemma gen_rounds prefix n :
  (Z.of_nat n < limit)%Z → res_fold (gen_round prefix) (state_at prefix 0) (seq 0 n) = Ok (state_at prefix n).
Proof.
  induction n as [|n IH]; intros Hn; [done|].
  rewrite seq_S, res_fold_app, IH by lia. cbn [mbind res_bind res_fold Nat.add].
  rewrite (gen_round_next prefix n) by lia.
  rewrite ipv4_of_int_Ok by (apply addresses_in_range; lia). done.
Qed.

Lemma gen_rounds_past prefix n :
  (limit ≤ Z.of_nat n)%Z →
  res_fold (gen_round prefix) (state_at prefix 0) (seq 0 n) = Raise AddressValueError.
Proof.
  intros Hn. assert (∃ k r, n = S k + r ∧ Z.of_nat k = (limit - 1)%Z) as (k & r & -> & Hk).
  { exists (Z.to_nat (limit - 1)), (n - S (Z.to_nat (limit - 1))). unfold limit in *. split; lia. }
  rewrite seq_app, res_fold_app, seq_S, res_fold_app, gen_rounds by lia. cbn [mbind res_bind res_fold Nat.add].
  rewrite gen_round_next by lia.
  rewrite ipv4_of_int_Raise; [done|]. unfold prefix_at, ipv4_end, limit in *. lia.
Qed.

(** *** The tags of the document *)

Lemma str_nat_plain n : plain (str_nat n).
Proof. by apply str_nat_not_elem. Qed.

Lemma str_ipv4_plain z : plain (str_ipv4 z).
Proof. by apply str_ipv4_not_elem. Qed.

Lemma entries_closed prefix ip i :
  quotable "034" prefix → plain ip →
  closed (unit_entry i ip) ∧ closed (serial_entry prefix i) ∧ closed (route_entry ip i) ∧
  closed (syslog_entry ip i) ∧ closed (ntp_entry ip i) ∧ closed (dns_entry ip).
Proof.
  intros Hq Hip. pose proof (str_nat_plain i).
  unfold unit_entry, serial_entry, route_entry, syslog_entry, ntp_entry, dns_entry.
  split_and!; scan_closed.
Qed.

Lemma xml_text_balanced u se r s n d prefix :
  quotable "034" prefix → closed u → closed se → closed r → closed s → closed n → closed d →
  balanced (xml_text u se r s n d prefix) = true.
Proof. intros. apply document_balanced. unfold xml_text. scan_document. Qed.

#[local] Opaque unit_entry serial_entry route_entry syslog_entry ntp_entry dns_entry xml_text.

Lemma document_of_balanced prefix n : quotable "034" prefix → balanced (document_of prefix n) = true.
Proof.
  intros Hq. assert (∀ i z, closed (unit_entry i (str_ipv4 z)) ∧ closed (serial_entry prefix i) ∧
    closed (route_entry (str_ipv4 z) i) ∧ closed (syslog_entry (str_ipv4 z) i) ∧
    closed (ntp_entry (str_ipv4 z) i) ∧ closed (dns_entry (str_ipv4 z))) as Hc.
  { intros i z. exact (entries_closed prefix (str_ipv4 z) i Hq (str_ipv4_plain z)). }
  unfold document_of. cbn [unit_str serial_str r_str s_str n_str d_str state_at].
  apply xml_text_balanced; [done|..]; apply routes_closed; intros i.
  - by destruct (Hc i (prefix_at i)) as (H & _).
  - by destruct (Hc i (prefix_at i)) as (_ & H & _).
  - by destruct (Hc i (ip_at i)) as (_ & _ & H & _).
  - by destruct (Hc i (ip_at i)) as (_ & _ & _ & H & _).
  - by destruct (Hc i (ip_at i)) as (_ & _ & _ & _ & H & _).
  - by destruct (Hc i (ip_at i)) as (_ & _ & _ & _ & _ & H).
Qed.


Lemma gen_xml_result n prefix out :
  gen_xml n prefix out =
    if (Z.of_nat n <? limit)%Z then (Ok tt, out ++ [document_of prefix n ++ nl])
    else (Raise AddressValueError, out).
Proof.
  unfold gen_xml. rewrite (gen_init_state prefix). unfold lift. cbn [mbind res_bind PyM_bind].
  destruct (Z.ltb_spec (Z.of_nat n) limit) as [Hn|Hn].
  - rewrite (gen_rounds prefix n Hn). reflexivity.
  - rewrite (gen_rounds_past prefix n Hn). reflexivity.
Qed.

#[local] Transparent unit_entry serial_entry route_entry syslog_entry ntp_entry dns_entry xml_text.

(** The addresses of the rounds within the limit differ. *)
Lemma names_distinct (f : nat → Z) n :
  (∀ i, (i < n)%nat → (0 ≤ f i < ipv4_end)%Z) → (∀ i j, f i = f j → i = j) → NoDup ((λ i, str_ipv4 (f i)) <$> seq 0 n).
Proof.
  intros Hr Hinj. apply NoDup_fmap_2_strong; [|apply NoDup_seq].
  intros i j Hi Hj Heq. apply elem_of_seq in Hi, Hj. apply Hinj.
  apply str_ipv4_inj; [apply Hr; lia | apply Hr; lia | done].
Qed.

Lemma addresses_distinct n :
  (Z.of_nat n < limit)%Z →
  NoDup ((λ i, str_ipv4 (prefix_at i)) <$> seq 0 n) ∧ NoDup ((λ i, str_ipv4 (ip_at i)) <$> seq 0 n).
Proof.
  intros Hn. split; apply names_distinct.
  - intros i Hi. apply addresses_in_range. lia.
  - unfold prefix_at. lia.
  - intros i Hi. apply addresses_in_range. lia.
  - unfold ip_at. lia.
Qed.

(** The two commands and the suffix of their namespaces. *)
Definition commands : list (pystr * pystr) := [(py"gen", []); (py"gen-state", py"-state")].

Lemma commands_quotable cmd prefix : (cmd, prefix) ∈ commands → quotable "034" prefix.
Proof.
  intros Hin. assert (Forall (λ p, quotable "034" p.2) commands) as Hf by vm_decide.
  rewrite Forall_forall in Hf. exact (Hf _ Hin).
Qed.

Lemma main_command prog cmd prefix arg rest n out :
  (cmd, prefix) ∈ commands → parse_count arg = Ok n →
  main (prog :: cmd :: arg :: rest) out = gen_xml n prefix out.
Proof.
  intros Hc Hn. unfold commands in Hc. rewrite !elem_of_cons in Hc.
  destruct Hc as [[= -> ->]|[[= -> ->]|Hc%elem_of_nil]]; [..|done];
    unfold main; monad_unfold; cbn [py_index lookup list_lookup]; case_decide; try done;
    monad_unfold; cbn [py_index lookup list_lookup]; by rewrite Hn.
Qed.

(** ** Properties *)

(** C4: for every count below 16,711,680 the generator prints one document: with
    balanced tags, in which no two units have the same address, and no two routes, nor
    two syslog, NTP or DNS servers, the same key: the address of the units and these
    keys count up, each in its own sequence, and the two sequences overlap
    ([addresses_shared]); from there on it raises an AddressValueError and prints
    nothing, because the next prefix is past 255.255.255.255. *)
Theorem generator_bounds (prog cmd prefix arg : pystr) (rest : list pystr) (n : nat) :
  (cmd, prefix) ∈ commands → parse_count arg = Ok n →
  if (Z.of_nat n <? limit)%Z then
    main (prog :: cmd :: arg :: rest) [] = (Ok tt, [document_of prefix n ++ nl]) ∧
    balanced (document_of prefix n) = true ∧
    NoDup ((λ i, str_ipv4 (prefix_at i)) <$> seq 0 n) ∧ NoDup ((λ i, str_ipv4 (ip_at i)) <$> seq 0 n)
  else main (prog :: cmd :: arg :: rest) [] = (Raise AddressValueError, []).
Proof.
  intros Hc Hn. rewrite (main_command _ _ _ _ _ _ _ Hc Hn), gen_xml_result.
  destruct (Z.ltb_spec (Z.of_nat n) limit) as [Hl|_]; [|done].
  split; [done|]. split; [by eapply document_of_balanced, commands_quotable | by apply addresses_distinct].
Qed.

(** ** Witnesses *)

Lemma generator_bounds_witness :
  (main [py"cdbgen.py"; py"gen-state"; py"2^1"] [] = (Ok tt, [document_of (py"-state") 2 ++ nl])) ∧
  (∀ n, parse_count (py"2^24") = Ok n → main [py"cdbgen.py"; py"gen"; py"2^24"] [] = (Raise AddressValueError, [])).
Proof.
  split.
  - pose proof (generator_bounds (py"cdbgen.py") (py"gen-state") (py"-state") (py"2^1") [] 2) as H.
    change (Z.of_nat 2 <? limit)%Z with true in H. cbv iota in H.
    destruct H as [H _]; [set_solver | reflexivity | exact H].
  - intros n Hn. pose proof (generator_bounds (py"cdbgen.py") (py"gen") [] (py"2^24") [] n) as H.
    assert (Z.of_nat n = 2 ^ 24)%Z as Hz.
    { assert (parse_count (py"2^24") = Ok (Z.to_nat 16777216)) as Hc by reflexivity.
      rewrite Hn in Hc. apply Ok_inj in Hc. rewrite Hc. apply Z2Nat.id. lia. }
    rewrite Hz in H. change (2 ^ 24 <? limit)%Z with false in H. cbv iota in H.
    exact (H (list_elem_of_here _ _) Hn).
Defined.

(** ** What the code does not do *)

(** The addresses of a document are not all different: the second unit has the address
    of the route number 255, which the servers number 255 have as well. *)
Lemma addresses_shared : str_ipv4 (prefix_at 1) = str_ipv4 (ip_at 255) ∧ str_ipv4 (ip_at 255) = py"1.0.1.0".
Proof. by vm_compute. Qed.

(** An unknown command ends with an AttributeError after the message, which is
    printed without the arguments. *)
Lemma unknown_command_raises prog args :
  main (prog :: py"help" :: args) [] = (Raise AttributeError, [py"Unrecognized command %s" ++ nl]).
Proof. reflexivity. Qed.
