(* ===== verification/RouteGen.v ===== *)
(** * The generators of routes and interfaces

    Four small programs that print or write initial data: [SyncGen] is
    active-active/consistent-sync/app/cdbgen.py, [OperGen] is
    oper-performance/app/cdbgen.py, [DestGen] the two generators of
    confd-manager-client/app (rcgen.py and ncgen.py), and [IntfGen] is
    confdgnmi/datagen.py.  The fields of the templates are numbered. *)

From Stdlib Require Import Ascii String.
From S2P Require Import Prelude PyStr Json Xml Ipv4 NcGen.

(** An argument that has to be a number, and one that has to be a count. *)
Definition arg_num (argv : list pystr) (i : nat) : res num := arg ← py_index argv i; parse_num arg.
Definition arg_count (argv : list pystr) (i : nat) : res nat := arg ← py_index argv i; parse_count arg.

(** [range(0, n)]. *)
Definition count (n : num) : res nat :=
  match n with NInt z => Ok (Z.to_nat z) | NFloat _ => Raise TypeError end.

(** ** Initial data of the cluster *)

Module SyncGen.
Section SyncGen.
(** [int] of a sum of multiples of numbers, when there is a fraction among them. *)
Context (trunc_sum : list (Z * num) → Z).

Fixpoint int_terms (ts : list (Z * num)) : option Z :=
  match ts with
  | [] => Some 0%Z
  | (k, NInt z) :: ts' => s ← int_terms ts'; Some (k * z + s)%Z
  | (_, NFloat _) :: _ => None
  end.

(** [%d] of a sum. *)
Definition int_sum (ts : list (Z * num)) : Z := default (trunc_sum ts) (int_terms ts).
Definition fmt_d (ts : list (Z * num)) : pystr := str_Z (int_sum ts).

Definition sync_cfg_text (op_str : pystr) : pystr := fmt (xq"<config xmlns=`http://tail-f.com/ns/config/1.0`>
    <active-cfg xmlns=`http://tail-f.com/ns/example/routes/1.0`>
    <aacluster xmlns=`http://tail-f.com/ns/example/aacluster/1.0`>{0}
    </aacluster>
    </active-cfg>
    </config>
    ") [op_str].

Definition print_sync_cfg (op_str : pystr) : PyM (list pystr) unit := print (sync_cfg_text op_str).

Definition join_text (b l m : num) : pystr := fmt (xq"
        <init-nodeid>{0}</init-nodeid>

        <node>
        <nodeid>{1}</nodeid>
        <ip>127.0.0.1</ip>
        <port>{2}</port>
        </node>

        <node>
        <nodeid>{3}</nodeid>
        <ip>127.0.0.1</ip>
        <port>{4}</port>
        </node>
        ")
  [fmt_d [(1, m)]; fmt_d [(1, m)]; fmt_d [(1, b); (10, m)]; fmt_d [(1, l)]; fmt_d [(1, b); (10, l)]]%Z.

Definition gen_join_cfg (b l m : num) : PyM (list pystr) unit := print_sync_cfg (join_text b l m).

Definition init_text (m : num) : pystr := fmt (xq"
        <init-nodeid>{0}</init-nodeid>
    ") [fmt_d [(1%Z, m)]].

Definition node_text (b : num) (i : nat) : pystr := fmt (xq"
        <node>
        <nodeid>{0}</nodeid>
        <ip>127.0.0.1</ip>
        <port>{1}</port>
        </node>
        ")
  [str_nat i; fmt_d [(1, b); (10, NInt (Z.of_nat i))]%Z].

Definition gen_sync_cfg (b n m : num) : PyM (list pystr) unit :=
  k ← lift (count n);
  print_sync_cfg (init_text m ++ routes (node_text b) k).

Definition data_text (op_str : pystr) : pystr := fmt (xq"<config xmlns=`http://tail-f.com/ns/config/1.0`>
    <active-cfg xmlns=`http://tail-f.com/ns/example/routes/1.0`>
    <routes>{0}
    </routes>
    </active-cfg>
    </config>
    ") [op_str].

Definition print_data (op_str : pystr) : PyM (list pystr) unit := print (data_text op_str).

Definition data_route (i : nat) : pystr := fmt (xq"
        <route>
            <id>{0}</id>
            <leaf1>1</leaf1>
            <leaf2>2</leaf2>
            <leaf3>3</leaf3>
            <leaf4>4</leaf4>
        </route>
        ") [fmt_07d i].

Definition gen_data (l : num) : PyM (list pystr) unit :=
  k ← lift (count l); print_data (routes data_route k).

Definition seed_route (m : num) (i : nat) : pystr :=
  let leaf k := fmt_d [(1, NInt (Z.of_nat i)); (1, m); (1, NInt k)]%Z in
  fmt (xq"
        <route>
            <id>{0}</id>
            <leaf1>{1}</leaf1>
            <leaf2>{2}</leaf2>
            <leaf3>{3}</leaf3>
            <leaf4>{4}</leaf4>
        </route>
        ") [fmt_07d i; leaf 1%Z; leaf 2%Z; leaf 3%Z; leaf 4%Z].

Definition gen_data_seed (l m : num) : PyM (list pystr) unit :=
  k ← lift (count l); print_data (routes (seed_route m) k).

Definition raw_text (op_str : pystr) : pystr := fmt (xq"</active-cfg xmlns=`http://tail-f.com/ns/example/routes/1.0`>
    <routes>{0}
    </routes>
    </active-cfg>
    ") [op_str].

Definition print_raw (op_str : pystr) : PyM (list pystr) unit := print (raw_text op_str).

Definition raw_route (i : nat) : pystr := fmt (xq"
        <route>
            <id>{0}</id>
            <leaf1>1</leaf1>
            <leaf2>2</leaf2>
            <leaf3>3</leaf3>
            <leaf4>4</leaf4>
        </route>
        ") [fmt_07d i].

Definition gen_raw (l : num) : PyM (list pystr) unit :=
  k ← lift (count l); print_raw (routes raw_route k).

Definition sync_main (argv : list pystr) : PyM (list pystr) unit :=
  cmd ← lift (py_index argv 1);
  if decide (cmd = py"gen_data") then
    l ← lift (arg_num argv 2); gen_data l
  else if decide (cmd = py"gen_raw") then
    l ← lift (arg_num argv 2); gen_raw l
  else if decide (cmd = py"gen_data_seed") then
    l ← lift (arg_num argv 2); m ← lift (arg_num argv 3); gen_data_seed l m
  else if decide (cmd = py"gen_sync_cfg") then
    b ← lift (arg_num argv 2); n ← lift (arg_num argv 3); m ← lift (arg_num argv 4); gen_sync_cfg b n m
  else if decide (cmd = py"gen_join_cfg") then
    b ← lift (arg_num argv 2); l ← lift (arg_num argv 3); m ← lift (arg_num argv 4); gen_join_cfg b l m
  else print (fmt (py"Unrecognized command '{0}'") [str_list argv]).
End SyncGen.
End SyncGen.

(** ** Operational data *)

Module OperGen.

Definition stats_text (op_str : pystr) : pystr := fmt (xq"<config xmlns=`http://tail-f.com/ns/config/1.0`>
  <routes xmlns=`http://tail-f.com/ns/example/routes/1.0`>{0}
  </routes>
</config>
    ") [op_str].

Definition print_stats (op_str : pystr) : PyM (list pystr) unit := print (stats_text op_str).

Definition stats_route (i : nat) : pystr := fmt (xq"
    <route>
      <id>{0}</id>
      <leaf1>1</leaf1>
      <leaf2>2</leaf2>
      <leaf3>3</leaf3>
      <leaf4>4</leaf4>
    </route>") [fmt_07d i].

Definition gen_route_stats (n : nat) : PyM (list pystr) unit := print_stats (routes stats_route n).

Definition oper_main (argv : list pystr) : PyM (list pystr) unit :=
  n ← lift (arg_count argv 1); gen_route_stats n.
End OperGen.

(** ** Destinations *)

Module DestGen.

(** An integer as a float: 53 significant bits, ties to the even neighbour; from
    2^1024 - 2^970 on it has none. *)
Definition float_of_int (n : Z) : res Z :=
  let a := Z.abs n in
  let e := Z.max 0 (Z.log2 a - 52) in
  let q := (a / 2 ^ e)%Z in
  let r := (2 * (a mod 2 ^ e))%Z in
  let q' := if (2 ^ e <? r)%Z || ((r =? 2 ^ e)%Z && Z.odd q) then (q + 1)%Z else q in
  if (q' * 2 ^ e <? 2 ^ 1024)%Z then Ok (Z.sgn n * (q' * 2 ^ e))%Z else Raise OverflowError.

(** The number of blocks of 256, [int(math.ceil(n / 256.0))]: the division by a power
    of two is exact. *)
Definition blocks (n : Z) : res Z := v ← float_of_int n; Ok ((v + 255) / 256)%Z.

(** One block: the text so far, and what is left of the count. *)
Definition block (dest : nat → nat → pystr) (st : pystr * Z) (i : nat) : pystr * Z :=
  let '(str, n) := st in
  let l := if (256 <? n)%Z then 256%Z else n in
  (str ++ routes (dest i) (Z.to_nat l), (n - l)%Z).

(** The loop over the blocks.  For a number that is a float the argument tells how many
    full blocks there are before the loop ends: none for a fraction that has underflowed
    to zero.  It has no answer when the loop meets a float of at most 256, which [range]
    refuses: that is so for every fraction. *)
Section blocks_loop.
Context (float_blocks : pystr → option nat).

Definition destinations (dest : nat → nat → pystr) (n : num) : res pystr :=
  match n with
  | NInt z => m ← blocks z; Ok (fold_left (block dest) (seq 0 (Z.to_nat m)) ([], z)).1
  | NFloat arg =>
      match float_blocks arg with
      | Some m => Ok (fold_left (block dest) (seq 0 m) ([], 256 * Z.of_nat m)%Z).1
      | None => Raise TypeError
      end
  end.

(** *** rcgen.py *)

Definition patch_text (op_str : pystr) : pystr := fmt (xq"<data>
  <router xmlns=`http://tail-f.com/ns/example/routing`>
    <static>
      <address-family>
        <ipv4>
          <unicast>{0}
          </unicast>
        </ipv4>
      </address-family>
    </static>
  </router>
</data>") [op_str].

Definition print_plain_patch_config (op_str : pystr) : PyM (list pystr) unit := print (patch_text op_str).

Definition patch_dest (i j : nat) : pystr := fmt (xq"
            <destination>
              <prefix>192.{0}.{1}.0/24</prefix>
              <nexthop>172.16.1.2</nexthop>
            </destination>") [str_nat i; str_nat j].

Definition trans_size_plain_patch_running (n : num) : PyM (list pystr) unit :=
  str ← lift (destinations patch_dest n); print_plain_patch_config str.

Definition rcgen_main (argv : list pystr) : PyM (list pystr) unit :=
  cmd ← lift (py_index argv 1);
  if decide (cmd = py"trans_size_plain_patch_running") then
    n ← lift (arg_num argv 2); trans_size_plain_patch_running n
  else print (fmt (py"Unrecognized command '{0}'") [str_list argv]).

(** *** ncgen.py *)

Definition hello_text : pystr := xq"<?xml version=`1.0` encoding=`UTF-8`?>
<hello xmlns=`urn:ietf:params:xml:ns:netconf:base:1.0`>
  <capabilities>
    <capability>urn:ietf:params:netconf:base:1.0</capability>
  </capabilities>
</hello>".
Definition delim_text : pystr := py"]]>]]>".
Definition close_text (mid : nat) : pystr := fmt (xq"<?xml version=`1.0` encoding=`UTF-8`?>
<rpc xmlns=`urn:ietf:params:xml:ns:netconf:base:1.0` message-id=`{0}`>
  <close-session/>
</rpc>
    ") [str_nat mid].
Definition commit_text (mid : nat) : pystr := fmt (xq"<?xml version=`1.0` encoding=`UTF-8`?>
<rpc xmlns=`urn:ietf:params:xml:ns:netconf:base:1.0` message-id=`{0}`>
  <commit/>
</rpc>") [str_nat mid].
Definition edit_text (op_str data_store : pystr) (mid : nat) : pystr :=
  fmt (xq"<?xml version=`1.0` encoding=`UTF-8`?>
<rpc xmlns=`urn:ietf:params:xml:ns:netconf:base:1.0` message-id=`{0}`>
  <edit-config>
    <target>
      <{1}/>
    </target>
    <config>
      <router xmlns=`http://tail-f.com/ns/example/routing`>
        <static>
          <address-family>
            <ipv4>
              <unicast>{2}
              </unicast>
            </ipv4>
          </address-family>
        </static>
      </router>
    </config>
  </edit-config>
</rpc>") [str_nat mid; data_store; op_str].

Definition print_hello : PyM (list pystr) unit := print hello_text.
Definition print_delim : PyM (list pystr) unit := print delim_text.
Definition print_close_session (mid : nat) : PyM (list pystr) unit := print (close_text mid).
Definition print_commit (mid : nat) : PyM (list pystr) unit := print (commit_text mid).
Definition print_edit_config (op_str data_store : pystr) (mid : nat) : PyM (list pystr) unit :=
  print (edit_text op_str data_store mid).

(** The octets are taken from the right; the divisions are exact for numbers below
    2^53, of which [%d] prints the whole part. *)
Fixpoint dot_notation_go (length : nat) (num : Z) (str : pystr) : pystr :=
  match length with
  | 0 => str
  | S k =>
      let n := (num mod 256)%Z in
      let str' := match str with [] => str_Z n | _ => str_Z n ++ py"." ++ str end in
      dot_notation_go k (num / 256) str'
  end.
Definition dot_notation (num : Z) (length : nat) : pystr := dot_notation_go length num [].

Definition edit_dest (i j : nat) : pystr := fmt (xq"
                <destination>
                  <prefix>192.{0}.{1}.0/24</prefix>
                  <nexthop>172.16.1.2</nexthop>
                </destination>") [str_nat i; str_nat j].

Definition trans_size_edit_config (n : num) (data_store : pystr) : PyM (list pystr) unit :=
  _ ← print_hello;
  _ ← print_delim;
  str ← lift (destinations edit_dest n);
  _ ← print_edit_config str data_store 1;
  _ ← print_delim;
  _ ← if decide (data_store = py"candidate") then print_close_session 2 else print_close_session 2;
  print_delim.

Definition delete_text (data_store : pystr) : pystr := fmt (xq"<?xml version=`1.0` encoding=`UTF-8`?>
<rpc xmlns=`urn:ietf:params:xml:ns:netconf:base:1.0` xmlns:nc=`urn:ietf:params:xml:ns:netconf:base:1.0` message-id=`1`>
  <edit-config>
    <target>
      <{0}/>
    </target>
    <config>
      <router xmlns=`http://tail-f.com/ns/example/routing` nc:operation=`delete`/>
    </config>
  </edit-config>
</rpc>") [data_store].

Definition trans_delete_edit_config (data_store : pystr) : PyM (list pystr) unit :=
  _ ← print_hello;
  _ ← print_delim;
  _ ← print (delete_text data_store);
  _ ← print_delim;
  _ ← (if decide (data_store = py"candidate") then
         _ ← print_commit 2; _ ← print_delim; print_close_session 3
       else print_close_session 2);
  print_delim.

Definition ncgen_main (argv : list pystr) : PyM (list pystr) unit :=
  cmd ← lift (py_index argv 1);
  if decide (cmd = py"trans_size_edit_config_running") then
    n ← lift (arg_num argv 2); trans_size_edit_config n running
  else if decide (cmd = py"trans_size_edit_config_candidate") then
    n ← lift (arg_num argv 2); trans_size_edit_config n candidate
  else if decide (cmd = py"trans_delete_edit_config_candidate") then trans_delete_edit_config candidate
  else print (fmt (py"Unrecognized command '{0}'") [str_list argv]).
End blocks_loop.
End DestGen.

(** ** Interfaces *)

Module IntfGen.

Definition gen_intf (name : pystr) : pystr := fmt (xq"<interface xmlns:ns0=`urn:ietf:params:xml:ns:netconf:base:1.0`
               ns0:operation=`create`>
        <name>{0}</name>
        <type xmlns:ianaift=`urn:ietf:params:xml:ns:yang:iana-if-type`>
            gigabitEthernet
        </type>
    </interface>
    ") [name].

Definition gen_intf_state (name : pystr) : pystr := fmt (xq"<interface xmlns:ns0=`urn:ietf:params:xml:ns:netconf:base:1.0`>
        <name>{0}</name>
        <type xmlns:ianaift=`urn:ietf:params:xml:ns:yang:iana-if-type`>
            gigabitEthernet
        </type>
    </interface>
    ") [name].

Definition ifname (index : nat) : pystr := fmt (py"if_{0}") [str_nat index].

Definition interfaces_file (interfaces_str : pystr) : pystr := fmt (xq"<config xmlns=`http://tail-f.com/ns/config/1.0`>
    <interfaces xmlns=`urn:ietf:params:xml:ns:yang:ietf-interfaces`>
    {0}</interfaces>
    </config>") [interfaces_str].
Definition interfaces_state_file (interfaces_state_str : pystr) : pystr := fmt (xq"<config xmlns=`http://tail-f.com/ns/config/1.0`>
    <interfaces-state xmlns=`urn:ietf:params:xml:ns:yang:ietf-interfaces`>
    {0}</interfaces-state>
     </config>") [interfaces_state_str].

(** The files written, in order, each with its name. *)
Definition write_file (name text : pystr) : PyM (list (pystr * pystr)) unit := modify (λ fs, fs ++ [(name, text)]).

Definition intf_main (argv : list pystr) : PyM (list (pystr * pystr)) unit :=
  n ← lift (arg_count argv 1);
  _ ← write_file (py"init_interfaces.xml")
        (interfaces_file (routes (λ i, gen_intf (ifname (i + 1))) n));
  write_file (py"init_interfaces_state.xml")
    (interfaces_state_file (routes (λ i, gen_intf_state (py"state_" ++ ifname (i + 1))) n)).
End IntfGen.

(** ** Lemmas: numbers *)

Lemma str_Z_plain z : plain (str_Z z).
Proof.
  unfold plain, str_Z. destruct (z <? 0)%Z; [|by apply str_nat_not_elem].
  intros [|Hin]%elem_of_cons; [done|]. by apply str_nat_not_elem in Hin.
Qed.

(** ** Lemmas: the blocks of destinations *)

Module DestFacts.
Import DestGen.

(** The destinations one after the other. *)
Definition nth_dest (dest : nat → nat → pystr) (k : nat) : pystr := dest (k / 256) (k mod 256).

Lemma routes_add f a b : routes f (a + b) = routes f a ++ routes (λ j, f (a + j)) b.
Proof.
  induction b as [|b IH]; [by rewrite Nat.add_0_r, app_nil_r|].
  by rewrite Nat.add_succ_r, !routes_S, IH, app_assoc.
Qed.

Lemma routes_ext f g n : (∀ j, j < n → f j = g j) → routes f n = routes g n.
Proof.
  intros H. unfold routes. f_equal. apply list_fmap_ext. intros i x Hx%list_elem_of_lookup_2.
  apply H. apply elem_of_seq in Hx. lia.
Qed.

(** A block of at most 256 destinations. *)
Lemma nth_dest_block dest i l : l ≤ 256 → routes (λ j, nth_dest dest (256 * i + j)) l = routes (dest i) l.
Proof.
  intros Hl. apply routes_ext. intros j Hj. unfold nth_dest. f_equal.
  - rewrite Nat.mul_comm, Nat.div_add_l by lia. rewrite Nat.div_small by lia. lia.
  - rewrite Nat.add_comm, Nat.mul_comm, Nat.Div0.mod_add. apply Nat.mod_small. lia.
Qed.

(** Blocks when nothing is left. *)
Lemma empty_blocks dest l str (z : Z) : (z <= 0)%Z → (fold_left (block dest) l (str, z)).1 = str.
Proof.
  revert z. induction l as [|i l IH]; intros z Hz; [done|]. cbn [fold_left block].
  destruct (Z.ltb_spec 256 z); [lia|]. rewrite (Z2Nat.nonpos z), app_nil_r by done. apply IH. lia.
Qed.

(** After [k] blocks of a count that has more. *)
Lemma full_blocks dest (n : Z) k :
  (256 * Z.of_nat k <= n)%Z →
  fold_left (block dest) (seq 0 k) ([], n) = (routes (nth_dest dest) (256 * k), (n - 256 * Z.of_nat k)%Z).
Proof.
  induction k as [|k IH]; intros Hk; [cbn; f_equal; lia|].
  rewrite seq_S, fold_left_app, IH by lia. cbn [fold_left block Nat.add].
  assert ((if (256 <? n - 256 * Z.of_nat k)%Z then 256 else n - 256 * Z.of_nat k)%Z = 256%Z) as ->.
  { destruct (Z.ltb_spec 256 (n - 256 * Z.of_nat k)); lia. }
  f_equal; [|lia]. replace (256 * S k) with (256 * k + 256) by lia.
  by rewrite routes_add, nth_dest_block.
Qed.

(** [m] blocks of a count: all of it, or as much as they hold. *)
Lemma blocks_value dest (z m : Z) :
  (fold_left (block dest) (seq 0 (Z.to_nat m)) ([], z)).1 = routes (nth_dest dest) (Z.to_nat (Z.min z (256 * m))).
Proof.
  destruct (Z.le_gt_cases (256 * m) z) as [Hle|Hgt].
  - rewrite Z.min_r by done. destruct (Z.le_gt_cases m 0).
    { rewrite !Z2Nat.nonpos by lia. done. }
    rewrite full_blocks by lia. cbn [fst]. f_equal. lia.
  - rewrite Z.min_l by lia. destruct (Z.le_gt_cases z 0) as [Hz|Hz].
    { rewrite (Z2Nat.nonpos z) by done. by rewrite empty_blocks. }
    set (k := Z.to_nat ((z - 1) / 256)). replace (Z.to_nat m) with (S k + (Z.to_nat m - S k)) by (unfold k; lia).
    rewrite seq_app, fold_left_app, seq_S, fold_left_app, full_blocks by (unfold k; lia).
    cbn [fold_left block Nat.add].
    set (l := (z - 256 * Z.of_nat k)%Z). assert (0 < l <= 256)%Z by (unfold l, k; lia).
    replace (if (256 <? l)%Z then 256%Z else l) with l by (destruct (Z.ltb_spec 256 l); lia).
    rewrite empty_blocks by lia. cbn [fst].
    replace (Z.to_nat z) with (256 * k + Z.to_nat l) by (unfold l; lia).
    by rewrite routes_add, nth_dest_block by lia.
Qed.

(** *** The rounding of the count *)

Definition max_count : Z := (2 ^ 1024 - 2 ^ 970)%Z.

(** A positive number in steps of [2 ^ e] : at least 2^52 of them when [e] is not 0. *)
Lemma float_steps (a : Z) :
  (0 < a)%Z → let e := Z.max 0 (Z.log2 a - 52) in
  (0 <= e ∧ a / 2 ^ e < 2 ^ 53 ∧ 2 ^ e * (a / 2 ^ e) + a mod 2 ^ e = a ∧ 0 <= a mod 2 ^ e < 2 ^ e ∧
    (e = 0 ∨ 2 ^ 52 <= a / 2 ^ e))%Z.
Proof.
  intros Ha e. assert (0 <= e)%Z as He by (unfold e; lia).
  assert (0 < 2 ^ e)%Z as Hp by (by apply Z.pow_pos_nonneg).
  destruct (Z.log2_spec a Ha) as [Hlo Hhi]. pose proof (Z.log2_nonneg a) as HL.
  split; [done|]. split; [|split; [by rewrite <-Z.div_mod by lia | split; [by apply Z.mod_pos_bound|]]].
  - apply Z.div_lt_upper_bound; [done|]. rewrite <-Z.pow_add_r by lia.
    eapply Z.lt_le_trans; [exact Hhi|]. apply Z.pow_le_mono_r; unfold e; lia.
  - destruct (Z.le_gt_cases (Z.log2 a) 52) as [H|H]; [left; unfold e; lia|right].
    apply Z.div_le_lower_bound; [done|]. rewrite <-Z.pow_add_r by lia.
    replace (e + 52)%Z with (Z.log2 a) by (unfold e; lia). done.
Qed.

(** A count that has a float is at most half a step off. *)
Lemma float_close (n v : Z) : (0 <= n)%Z → float_of_int n = Ok v → (2 ^ 53 * (n - v) <= n)%Z.
Proof.
  intros Hn. destruct (decide (n = 0)%Z) as [->|Hne]; [vm_compute; by intros [= <-]|].
  unfold float_of_int. rewrite Z.abs_eq, Z.sgn_pos by lia.
  destruct (float_steps n) as (He & Hq & Hd & Hr & Hs); [lia|].
  set (e := Z.max 0 (Z.log2 n - 52)) in *. set (q := (n / 2 ^ e)%Z) in *. set (r := (n mod 2 ^ e)%Z) in *.
  clearbody e q r. cbv zeta.
  destruct (Z.ltb_spec (2 ^ e) (2 * r)) as [Hup|Hdown]; cbn [orb].
  - destruct (_ <? _)%Z; [|done]. intros [= <-]. nia.
  - destruct Hs as [->|Hs].
    + assert (r = 0)%Z as -> by (change (2 ^ 0)%Z with 1%Z in *; lia). cbn.
      destruct (_ <? _)%Z; [|done]. intros [= <-]. change (2 ^ 0)%Z with 1%Z in *. lia.
    + destruct (_ && _); (destruct (_ <? _)%Z; [|done]); intros [= <-]; nia.
Qed.

(** A rounded number of steps has a float when it is below 2^1024, which is when the
    number itself is more than half of the last step below it. *)
Lemma float_bound (a e q r : Z) (up : bool) :
  (0 <= e → q < 2 ^ 53 → 2 ^ e * q + r = a → 0 <= r < 2 ^ e → e = 0 ∨ 2 ^ 52 <= q →
   up = (2 ^ e <? 2 * r) || ((2 * r =? 2 ^ e) && Z.odd q) →
   ((if up then q + 1 else q) * 2 ^ e < 2 ^ 1024 ↔ a < max_count))%Z.
Proof.
  intros He Hq <- Hr Hs ->. unfold max_count.
  set (q' := if (_ : bool) then (q + 1)%Z else q). assert (q <= q' <= q + 1)%Z as Hq'.
  { unfold q'. by destruct (_ || _); lia. }
  assert (2 ^ 1024 = 2 ^ 54 * 2 ^ 970)%Z as H1024 by (by rewrite <-Z.pow_add_r by lia).
  assert (0 < 2 ^ 970)%Z as Hpos by (by apply Z.pow_pos_nonneg).
  destruct (Z.lt_trichotomy e 971) as [Hlt|[->|Hgt]].
  - assert (2 ^ e <= 2 ^ 970)%Z as Hle by (apply Z.pow_le_mono_r; lia). rewrite H1024.
    generalize dependent (2 ^ 970)%Z. generalize dependent (2 ^ e)%Z. intros. split; intros; nia.
  - clear Hq'. subst q'. rewrite H1024. revert Hr.
    assert (2 ^ 971 = 2 * 2 ^ 970)%Z as -> by (change 2%Z with (2 ^ 1)%Z at 2; by rewrite <-Z.pow_add_r by lia).
    clear H1024. generalize dependent (2 ^ 970)%Z. intros h Hpos Hr.
    destruct (decide (q = 2 ^ 53 - 1)%Z) as [->|Hne].
    + change (Z.odd (2 ^ 53 - 1)) with true. rewrite andb_true_r.
      destruct (Z.ltb_spec (2 * h) (2 * r)), (Z.eqb_spec (2 * r) (2 * h)); cbn [orb]; split; intros; nia.
    + destruct (_ || _); split; intros; nia.
  - assert (2 ^ 972 <= 2 ^ e)%Z as Hle by (apply Z.pow_le_mono_r; lia).
    assert (2 ^ 972 = 4 * 2 ^ 970)%Z as H972 by (change 4%Z with (2 ^ 2)%Z; by rewrite <-Z.pow_add_r by lia).
    rewrite H972 in Hle. destruct Hs as [->|Hs]; [lia|]. rewrite H1024.
    generalize dependent (2 ^ 970)%Z. generalize dependent (2 ^ e)%Z. intros. split; intros; nia.
Qed.

Lemma float_of_int_range (n : Z) :
  match float_of_int n with
  | Ok _ => (Z.abs n < max_count)%Z
  | Raise x => x = OverflowError ∧ (max_count <= Z.abs n)%Z
  end.
Proof.
  unfold float_of_int. set (a := Z.abs n). assert (0 <= a)%Z as Ha by lia.
  destruct (decide (a = 0)%Z) as [->|Hne]; [by vm_compute|].
  destruct (float_steps a) as (He & Hq & Hd & Hr & Hs); [lia|].
  pose proof (float_bound _ _ _ _ _ He Hq Hd Hr Hs eq_refl) as Hb. revert Hb. cbv zeta.
  clear. set (q' := if _ : bool then _ else _). generalize (q' * 2 ^ Z.max 0 (Z.log2 a - 52))%Z. intros v Hb.
  destruct (Z.ltb_spec v (2 ^ 1024)); [by apply Hb|]. split; [done|]. lia.
Qed.

(** The number of destinations that are printed for a count that has a float. *)
Definition printed (z : Z) : nat :=
  match blocks z with Ok m => Z.to_nat (Z.min z (256 * m)) | Raise _ => 0 end.

Lemma destinations_int float_blocks dest z :
  destinations float_blocks dest (NInt z) =
    if decide (Z.abs z < max_count)%Z then Ok (routes (nth_dest dest) (printed z)) else Raise OverflowError.
Proof.
  unfold destinations, printed, blocks. pose proof (float_of_int_range z) as Hr.
  destruct (float_of_int z) as [v|x]; cbn [mbind res_bind].
  - rewrite decide_True by done. by rewrite blocks_value.
  - destruct Hr as [-> Hr]. by rewrite decide_False by lia.
Qed.

(** It is the count below 2^53, and falls short of it by one in 2^53 at most. *)
Lemma printed_close (z : Z) :
  (Z.abs z < max_count → 0 <= z → Z.of_nat (printed z) <= z ∧ 2 ^ 53 * (z - Z.of_nat (printed z)) <= z)%Z.
Proof.
  intros Hz H0. unfold printed, blocks. pose proof (float_of_int_range z) as Hr.
  destruct (float_of_int z) as [v|x] eqn:Hv; cbn [mbind res_bind]; [|lia].
  apply float_close in Hv; [|done]. assert (0 <= v)%Z by lia. clear Hr Hz.
  assert (v <= 256 * ((v + 255) / 256))%Z by lia. lia.
Qed.

Lemma printed_small (z : Z) : (z < 2 ^ 53)%Z → printed z = Z.to_nat z.
Proof.
  intros Hz. destruct (Z.le_gt_cases z 0) as [Hn|Hp].
  { unfold printed. destruct (blocks z); [lia|]. by rewrite Z2Nat.nonpos. }
  destruct (printed_close z); [|lia..]. unfold max_count.
  assert (2 ^ 53 < 2 ^ 1024 - 2 ^ 970)%Z by reflexivity. lia.
Qed.

(** *** The addresses of the destinations *)

Definition net (k : nat) : pystr :=
  py"192." ++ str_nat (k / 256) ++ py"." ++ str_nat (k mod 256) ++ py".0".

Lemma net_split k : split dot (net k) = [py"192"; str_nat (k / 256); str_nat (k mod 256); py"0"].
Proof.
  unfold net. change (py"192." ++ ?a) with (py"192" ++ dot :: a).
  rewrite split_app_sep by vm_decide. f_equal. change (py"." ++ ?a) with (dot :: a).
  rewrite split_app_sep by (by apply str_nat_not_elem). f_equal. change (py".0") with (dot :: py"0").
  rewrite split_app_sep by (by apply str_nat_not_elem). done.
Qed.

Lemma net_inj a b : net a = net b → a = b.
Proof.
  intros H. apply (f_equal (split dot)) in H. rewrite !net_split in H.
  assert (str_nat (a / 256) = str_nat (b / 256)) as H1 by congruence.
  assert (str_nat (a mod 256) = str_nat (b mod 256)) as H2 by congruence.
  apply str_nat_inj in H1, H2. rewrite (Nat.div_mod_eq a 256), (Nat.div_mod_eq b 256). congruence.
Qed.

Lemma nets_distinct n : NoDup (net <$> seq 0 n).
Proof. apply NoDup_fmap_2_strong; [|apply NoDup_seq]. intros i j _ _. apply net_inj. Qed.

(** The address of a destination: it exists up to the 65536th. *)
Lemma net_address k :
  ipv4_of_str (net k) =
    if (Z.of_nat k <? 65536)%Z then Ok (192 * 2 ^ 24 + 256 * Z.of_nat k)%Z else Raise AddressValueError.
Proof.
  unfold ipv4_of_str. rewrite net_split. cbn [length Nat.eqb res_map].
  change (parse_octet (py"192")) with (Ok 192%Z). change (parse_octet (py"0")) with (Ok 0%Z).
  pose proof (Nat.mod_upper_bound k 256 ltac:(lia)) as Hm.
  rewrite <-(Nat2Z.id (k mod 256)), (parse_octet_str (Z.of_nat (k mod 256))) by lia.
  rewrite <-(Nat2Z.id (k / 256)). pose proof (Nat.div_mod_eq k 256) as Hd.
  destruct (Z.ltb_spec (Z.of_nat k) 65536) as [Hk|Hk].
  - rewrite parse_octet_str by lia. cbn [mbind res_bind fold_left]. f_equal. lia.
  - rewrite parse_octet_large; [done|]. lia.
Qed.

(** The address in the two kinds of destinations. *)
Lemma dest_net :
  ∃ a b c d, ∀ k, nth_dest patch_dest k = a ++ net k ++ b ∧ nth_dest edit_dest k = c ++ net k ++ d.
Proof.
  exists (py"
            <destination>
              <prefix>"), (py"/24</prefix>
              <nexthop>172.16.1.2</nexthop>
            </destination>"), (py"
                <destination>
                  <prefix>"), (py"/24</prefix>
                  <nexthop>172.16.1.2</nexthop>
                </destination>").
  intros k. unfold nth_dest, patch_dest, edit_dest, net. fmt_norm.
  generalize (str_nat (k / 256)), (str_nat (k mod 256)). intros x y. rewrite !app_nil_r, <-!app_assoc.
  split; reflexivity.
Qed.

(** *** The tags *)

Lemma dest_closed i j : closed (patch_dest i j) ∧ closed (edit_dest i j).
Proof.
  assert (plain (str_nat i)) by (by apply str_nat_not_elem).
  assert (plain (str_nat j)) by (by apply str_nat_not_elem).
  unfold patch_dest, edit_dest. split; scan_closed.
Qed.

Lemma patch_text_balanced op : closed op → balanced (patch_text op) = true.
Proof. intros Hc. apply document_balanced. unfold patch_text. scan_document. Qed.

Lemma edit_text_balanced op ds : is_name ds → closed op → balanced (edit_text op ds 1) = true.
Proof. intros Hn Hc. apply document_balanced. unfold edit_text. scan_document. Qed.

(** The octets in order are the address. *)
Lemma dot_notation_address z : (0 ≤ z < ipv4_end)%Z → dot_notation z 4 = str_ipv4 z.
Proof.
  intros Hz. assert (∀ o, (0 ≤ o)%Z → str_Z o = str_nat (Z.to_nat o)) as Hs.
  { intros o Ho. unfold str_Z. by rewrite (proj2 (Z.ltb_ge _ _)). }
  unfold dot_notation, str_ipv4, octets. cbn [dot_notation_go fmap list_fmap join].
  assert (∀ o, (0 ≤ o)%Z → str_Z o ≠ []) as Hne by (intros o Ho; rewrite Hs by done; apply str_nat_nonnil).
  pose proof (Z.mod_pos_bound z 256 ltac:(lia)) as H0.
  pose proof (Z.mod_pos_bound (z / 256) 256 ltac:(lia)) as H1.
  pose proof (Z.mod_pos_bound (z / 256 / 256) 256 ltac:(lia)) as H2.
  pose proof (Z.mod_pos_bound (z / 256 / 256 / 256) 256 ltac:(lia)) as H3.
  destruct (str_Z (z mod 256)) as [|c t] eqn:E0; [by apply Hne in E0; lia|].
  destruct (str_Z ((z / 256) mod 256)) as [|c1 t1] eqn:E1; [by apply Hne in E1; lia|].
  destruct (str_Z ((z / 256 / 256) mod 256)) as [|c2 t2] eqn:E2; [by apply Hne in E2; lia|].
  cbn [app]. rewrite app_comm_cons, <-E0, app_comm_cons, <-E1, app_comm_cons, <-E2, !Hs by lia.
  change (2 ^ 24)%Z with (256 * 256 * 256)%Z. change (2 ^ 16)%Z with (256 * 256)%Z. change (2 ^ 8)%Z with 256%Z.
  rewrite <-!Zdiv.Zdiv_Zdiv by lia. done.
Qed.
End DestFacts.

(** ** Lemmas: the cluster's and the operational data *)

Module SyncFacts.
Import SyncGen.

Lemma fmt_d_plain tr ts : plain (fmt_d tr ts).
Proof. apply str_Z_plain. Qed.

Lemma sync_entries_closed tr b m i :
  closed (init_text tr m) ∧ closed (node_text tr b i) ∧ closed (data_route i) ∧ closed (seed_route tr m i).
Proof.
  pose proof (fmt_d_plain tr) as Hd. pose proof (fmt_07d_plain i).
  assert (plain (str_nat i)) by (by apply str_nat_not_elem).
  pose proof (Hd [(1%Z, m)]). pose proof (Hd [(1, b); (10, NInt (Z.of_nat i))]%Z).
  assert (∀ k, plain (fmt_d tr [(1, NInt (Z.of_nat i)); (1, m); (1, NInt k)]%Z)) as Hk by auto.
  pose proof (Hk 1%Z). pose proof (Hk 2%Z). pose proof (Hk 3%Z). pose proof (Hk 4%Z).
  unfold init_text, node_text, data_route, seed_route. split_and!; scan_closed.
Qed.

Lemma join_closed tr b l m : closed (join_text tr b l m).
Proof.
  pose proof (fmt_d_plain tr) as Hd.
  pose proof (Hd [(1, m)]%Z). pose proof (Hd [(1, b); (10, m)]%Z).
  pose proof (Hd [(1, l)]%Z). pose proof (Hd [(1, b); (10, l)]%Z).
  unfold join_text. scan_closed.
Qed.

Lemma sync_cfg_balanced op : closed op → balanced (sync_cfg_text op) = true.
Proof. intros Hc. apply document_balanced. unfold sync_cfg_text. scan_document. Qed.

Lemma data_balanced op : closed op → balanced (data_text op) = true.
Proof. intros Hc. apply document_balanced. unfold data_text. scan_document. Qed.

Lemma stats_text_balanced op : closed op → balanced (OperGen.stats_text op) = true.
Proof. intros Hc. apply document_balanced. unfold OperGen.stats_text. scan_document. Qed.

Lemma nodes_closed tr b m n : closed (init_text tr m ++ routes (node_text tr b) n).
Proof.
  apply closed_app; [by destruct (sync_entries_closed tr b m 0) as (H & _)|].
  apply routes_closed. intros k. by destruct (sync_entries_closed tr b m k) as (_ & H & _).
Qed.

Lemma data_routes_closed tr m n : closed (routes data_route n) ∧ closed (routes (seed_route tr m) n).
Proof.
  split; apply routes_closed; intros k; by destruct (sync_entries_closed tr m m k) as (_ & _ & H1 & H2).
Qed.

(** Each generator but the raw one prints a document with balanced tags. *)
Lemma generators_balanced tr b n m l :
  Forall (λ t, balanced t = true)
    [sync_cfg_text (join_text tr b l m); sync_cfg_text (init_text tr m ++ routes (node_text tr b) n);
     data_text (routes data_route n); data_text (routes (seed_route tr m) n)].
Proof.
  destruct (data_routes_closed tr m n) as [Hd Hs]. repeat apply Forall_cons_2; [..|apply Forall_nil_2].
  - exact (sync_cfg_balanced _ (join_closed tr b l m)).
  - exact (sync_cfg_balanced _ (nodes_closed tr b m n)).
  - exact (data_balanced _ Hd).
  - exact (data_balanced _ Hs).
Qed.

Lemma stats_balanced n : balanced (OperGen.stats_text (routes OperGen.stats_route n)) = true.
Proof.
  apply stats_text_balanced, routes_closed. intros i. pose proof (fmt_07d_plain i).
  unfold OperGen.stats_route. scan_closed.
Qed.

(** The raw data begins with an end tag. *)
Lemma raw_text_unbalanced op : balanced (raw_text op) = false.
Proof. unfold balanced, raw_text. fmt_norm. rewrite !scan_app. reflexivity. Qed.
End SyncFacts.

(** ** Lemmas: interfaces *)

Module IntfFacts.
Import IntfGen.

Lemma ifname_plain i : plain (ifname i).
Proof.
  assert (plain (str_nat i)) as Hp by (by apply str_nat_not_elem).
  unfold plain, ifname. fmt_norm. rewrite app_nil_r. set_solver.
Qed.

Lemma ifname_inj i j : ifname i = ifname j → i = j.
Proof.
  unfold ifname. fmt_norm. rewrite !app_nil_r. intros H%app_inv_head. by apply str_nat_inj.
Qed.

Lemma intf_closed name : plain name → closed (gen_intf name) ∧ closed (gen_intf_state name).
Proof. intros Hp. unfold gen_intf, gen_intf_state. split; scan_closed. Qed.

Lemma interfaces_file_balanced op : closed op → balanced (interfaces_file op) = true.
Proof. intros Hc. apply document_balanced. unfold interfaces_file. scan_document. Qed.

Lemma interfaces_state_file_balanced op : closed op → balanced (interfaces_state_file op) = true.
Proof. intros Hc. apply document_balanced. unfold interfaces_state_file. scan_document. Qed.

Lemma names_closed n :
  closed (routes (λ i, gen_intf (ifname (i + 1))) n) ∧
  closed (routes (λ i, gen_intf_state (py"state_" ++ ifname (i + 1))) n).
Proof.
  split; apply routes_closed; intros i.
  - exact (proj1 (intf_closed _ (ifname_plain (i + 1)))).
  - pose proof (ifname_plain (i + 1)) as Hp.
    assert (plain (py"state_" ++ ifname (i + 1))) as Hs by (unfold plain in *; set_solver).
    exact (proj2 (intf_closed _ Hs)).
Qed.

(** The two files hold the interfaces [if_1] to [if_n] and their states, each file
    with balanced tags, and no name twice. *)
Lemma interface_files prog arg rest n :
  parse_count arg = Ok n →
  ∃ f g, intf_main (prog :: arg :: rest) [] = (Ok tt, [(py"init_interfaces.xml", f); (py"init_interfaces_state.xml", g)]) ∧
    balanced f = true ∧ balanced g = true ∧ NoDup ((λ i, ifname (i + 1)) <$> seq 0 n).
Proof.
  intros Hn. eexists _, _. split.
  { unfold intf_main, arg_count. cbn [py_index lookup list_lookup mbind res_bind PyM_bind lift].
    unfold lift. rewrite Hn. reflexivity. }
  destruct (names_closed n) as [Hf Hg].
  split; [exact (interfaces_file_balanced _ Hf)|]. split; [exact (interfaces_state_file_balanced _ Hg)|].
  apply NoDup_fmap_2_strong; [|apply NoDup_seq]. intros i j _ _ H%ifname_inj. lia.
Qed.
End IntfFacts.

(** ** Properties *)

Module Properties.
Import DestGen DestFacts.

Lemma rcgen_running float_blocks prog arg rest z :
  parse_num arg = Ok (NInt z) →
  rcgen_main float_blocks (prog :: py"trans_size_plain_patch_running" :: arg :: rest) [] =
    if decide (Z.abs z < max_count)%Z
    then (Ok tt, [patch_text (routes (nth_dest patch_dest) (printed z)) ++ nl])
    else (Raise OverflowError, []).
Proof.
  intros Hz. unfold rcgen_main, arg_num. cbn [py_index lookup list_lookup]. monad_unfold.
  case_decide; [|done]. rewrite Hz. unfold trans_size_plain_patch_running. monad_unfold.
  rewrite destinations_int. by case_decide.
Qed.

Lemma ncgen_running float_blocks prog arg rest z :
  parse_num arg = Ok (NInt z) →
  ncgen_main float_blocks (prog :: py"trans_size_edit_config_running" :: arg :: rest) [] =
    if decide (Z.abs z < max_count)%Z
    then (Ok tt, [hello_text ++ nl; delim_text ++ nl; edit_text (routes (nth_dest edit_dest) (printed z)) running 1 ++ nl;
                  delim_text ++ nl; close_text 2 ++ nl; delim_text ++ nl])
    else (Raise OverflowError, [hello_text ++ nl; delim_text ++ nl]).
Proof.
  intros Hz. unfold ncgen_main, arg_num. cbn [py_index lookup list_lookup]. monad_unfold.
  case_decide; [|done]. rewrite Hz. unfold trans_size_edit_config. monad_unfold. rewrite destinations_int.
  case_decide; [|done]. destruct (decide (running = py"candidate")); reflexivity.
Qed.

(** The networks of the printed destinations are addresses exactly up to 65536 of them. *)
Lemma nets_addresses (z : Z) :
  (Z.abs z < max_count)%Z →
  Forall (λ a, is_ok (ipv4_of_str a)) (net <$> seq 0 (printed z)) ↔ (z <= 65536)%Z.
Proof.
  intros Hm. rewrite Forall_fmap, Forall_forall. split.
  - intros Hall. destruct (Z.le_gt_cases z 65536) as [|Hgt]; [done|].
    specialize (Hall (Z.to_nat 65536)). cbn [compose] in Hall.
    rewrite net_address, Z2Nat.id in Hall by lia. exfalso. apply Hall. apply elem_of_seq.
    destruct (printed_close z); [done|lia..].
  - intros Hle k Hk%elem_of_seq. cbn [compose]. rewrite net_address. rewrite printed_small in Hk by lia.
    by rewrite (proj2 (Z.ltb_lt _ _)) by lia.
Qed.

(** C17: for every count with a float the two generators of destinations print one
    document with balanced tags (the second inside a NETCONF session), in which the
    blocks of 256 are the destinations 192.0.0.0 to 192.(n/256).(n mod 256).0 one after
    the other, all different; they are IPv4 addresses exactly up to a count of 65536.
    The number of destinations is the count below 2^53; from there on the rounding of
    the number of blocks may lose some, at most one in 2^53.  From 2^1024 - 2^970 on it
    is an OverflowError, after the hello of the second generator. *)
Theorem destination_documents (float_blocks : pystr → option nat) (prog arg : pystr) (rest : list pystr) (z : Z) :
  parse_num arg = Ok (NInt z) →
  let rcgen := rcgen_main float_blocks (prog :: py"trans_size_plain_patch_running" :: arg :: rest) [] in
  let ncgen := ncgen_main float_blocks (prog :: py"trans_size_edit_config_running" :: arg :: rest) [] in
  if decide (Z.abs z < max_count)%Z then
    ∃ n : nat, ((z < 2 ^ 53 → n = Z.to_nat z) ∧ (0 <= z → Z.of_nat n <= z ∧ 2 ^ 53 * (z - Z.of_nat n) <= z))%Z ∧
    let patch := patch_text (routes (nth_dest patch_dest) n) in
    let edit := edit_text (routes (nth_dest edit_dest) n) running 1 in
    rcgen = (Ok tt, [patch ++ nl]) ∧
    ncgen = (Ok tt, [hello_text ++ nl; delim_text ++ nl; edit ++ nl; delim_text ++ nl; close_text 2 ++ nl; delim_text ++ nl]) ∧
    balanced patch = true ∧ balanced edit = true ∧
    (∃ a b c d, ∀ k, nth_dest patch_dest k = a ++ net k ++ b ∧ nth_dest edit_dest k = c ++ net k ++ d) ∧
    NoDup (net <$> seq 0 n) ∧
    (Forall (λ a, is_ok (ipv4_of_str a)) (net <$> seq 0 n) ↔ (z <= 65536)%Z)
  else rcgen = (Raise OverflowError, []) ∧ ncgen = (Raise OverflowError, [hello_text ++ nl; delim_text ++ nl]).
Proof.
  intros Hz. cbv zeta. rewrite (rcgen_running _ _ _ _ _ Hz), (ncgen_running _ _ _ _ _ Hz).
  case_decide as Hm; [|done]. exists (printed z).
  split; [split; [apply printed_small | by apply printed_close]|]. do 2 (split; [done|]).
  split; [|split; [|split; [|split]]].
  - apply patch_text_balanced, routes_closed. intros k. exact (proj1 (dest_closed (k / 256) (k mod 256))).
  - apply edit_text_balanced; [vm_decide|]. apply routes_closed. intros k.
    exact (proj2 (dest_closed (k / 256) (k mod 256))).
  - apply dest_net.
  - apply nets_distinct.
  - by apply nets_addresses.
Qed.

(** ** Witnesses *)

Lemma destination_documents_witness :
  (rcgen_main (λ _, None) [py"rcgen.py"; py"trans_size_plain_patch_running"; py"2^2"] [] =
    (Ok tt, [patch_text (routes (nth_dest patch_dest) 4) ++ nl])) ∧
  rcgen_main (λ _, None) [py"rcgen.py"; py"trans_size_plain_patch_running"; py"2^1024"] [] = (Raise OverflowError, []).
Proof.
  split.
  - destruct (destination_documents (λ _, None) (py"rcgen.py") (py"2^2") [] 4 eq_refl) as (n & (Hn & _) & H & _).
    rewrite Hn in H by reflexivity. exact H.
  - assert (parse_num (py"2^1024") = Ok (NInt (2 ^ 1024))) as Hp by reflexivity.
    pose proof (destination_documents (λ _, None) (py"rcgen.py") (py"2^1024") [] (2 ^ 1024) Hp) as H.
    cbv zeta in H. rewrite decide_False in H by (intros Hlt; vm_compute in Hlt; discriminate). exact (proj1 H).
Defined.

(** *** What the rounding loses *)

(** The blocks of 2^53 + 1 hold one destination less. *)
Lemma rounding_drops_destinations : blocks (2 ^ 53 + 1) = Ok (2 ^ 45)%Z.
Proof. by vm_compute. Qed.
End Properties.
