(* ===== verification/Trace.v ===== *)
(** * Programs as sequences of effects

    A script that talks to other programs is a sequence of effects, each answered
    by its environment.  The model of such a script is a computation over the
    history of effects and answers; the environment is any function of the history,
    so a theorem holds for every behaviour of the other programs.  Which effects
    there are is the argument [ev].

    Statements about all runs are automata over the effects: [triple] says that the
    effects of a computation are accepted from every state that satisfies a
    precondition, whatever the answers, and which states it can end in. *)

From S2P Require Import Prelude.

(** ** Effects, environments and histories *)

(** An effect with the answer it got. *)
Inductive item (ev : Set → Type) := Item (A : Set) (e : ev A) (r : res A).
Arguments Item {_ _} e r.

(** What the environment answers after a history. *)
Definition environment (ev : Set → Type) : Type := ∀ A : Set, list (item ev) → ev A → res A.

(** Perform an effect. *)
Definition act {ev : Set → Type} (env : environment ev) {A : Set} (e : ev A) : PyM (list (item ev)) A :=
  λ h, let r := env A h e in (r, h ++ [Item e r]).

(** [try: m finally: f], also the exit of a [with] statement. *)
Definition try_finally {S A} (m : PyM S A) (f : PyM S unit) : PyM S A := λ s,
  let '(r, s') := m s in
  match f s' with
  | (Ok _, s'') => (r, s'')
  | (Raise e, s'') => (Raise e, s'')
  end.

(** [try: m except e: ...] for the exceptions that a handler takes. *)
Definition try_except {S A} (m : PyM S A) (h : exn → option (PyM S A)) : PyM S A := λ s,
  match m s with
  | (Raise e, s') => match h e with Some k => k s' | None => (Raise e, s') end
  | r => r
  end.

(** A statement that is only executed under a condition. *)
Definition when {S} (b : bool) (m : PyM S unit) : PyM S unit := if b then m else mret tt.

(** [while cond: body] with fuel. *)
Fixpoint while {S} (fuel : nat) (cond : PyM S bool) (body : PyM S unit) : PyM S unit :=
  match fuel with
  | 0 => raise OutOfFuel
  | Datatypes.S k => b ← cond; if (b : bool) then _ ← body; while k cond body else mret tt
  end.

(** ** Automata over effects *)

Section automaton.
Context {ev : Set → Type} {Q : Type} (δ : Q → item ev → option Q).

(** The state after a sequence of effects. *)
Fixpoint runs (q : Q) (t : list (item ev)) : option Q :=
  match t with
  | [] => Some q
  | i :: t' => q' ← δ q i; runs q' t'
  end.

(** From [P], the effects of [m] are accepted; [R] holds of the result and the state
    it returns in, and [X] of the state it raises in. *)
Definition triple {A : Type} (P : Q → Prop) (m : PyM (list (item ev)) A) (R : A → Q → Prop) (X : Q → Prop) : Prop :=
  ∀ q h, P q →
    ∃ t q', (m h).2 = h ++ t ∧ runs q t = Some q' ∧
      match (m h).1 with Ok a => R a q' | Raise _ => X q' end.

Lemma runs_app q t1 t2 : runs q (t1 ++ t2) = (q' ← runs q t1; runs q' t2).
Proof.
  revert q; induction t1 as [|i t1 IH]; intros q; [done|]. cbn [app runs].
  destruct (δ q i); cbn; [apply IH | done].
Qed.

Lemma triple_ret {A : Type} (a : A) (R : A → Q → Prop) X : triple (R a) (mret a) R X.
Proof. intros q h HR. exists [], q. by rewrite app_nil_r. Qed.

Lemma triple_raise {A : Type} e (R : A → Q → Prop) (X : Q → Prop) : triple X (raise e) R X.
Proof. intros q h HX. exists [], q. by rewrite app_nil_r. Qed.

Lemma triple_lift {A : Type} (r : res A) (P : Q → Prop) R (X : Q → Prop) :
  (∀ q, P q → match r with Ok a => R a q | Raise _ => X q end) → triple P (lift r) R X.
Proof. intros Hr q h HP. exists [], q. rewrite app_nil_r. split_and!; [done..|]. by apply Hr. Qed.

Lemma triple_bind {A B : Type} P (m : PyM (list (item ev)) A) (M : A → Q → Prop) X (f : A → PyM (list (item ev)) B) R :
  triple P m M X → (∀ a, triple (M a) (f a) R X) → triple P (m ≫= f) R X.
Proof.
  intros Hm Hf q h HP. destruct (Hm q h HP) as (t & q1 & Ht & Hr & HM). unfold mbind, PyM_bind.
  destruct (m h) as [[a|e] h1]; cbn in Ht, HM; subst h1; [|by exists t, q1].
  destruct (Hf a q1 (h ++ t) HM) as (t2 & q2 & Ht2 & Hr2 & HR).
  exists (t ++ t2), q2. split_and!; [by rewrite Ht2, app_assoc | | done].
  by rewrite runs_app, Hr.
Qed.

Lemma triple_act {A : Set} (env : environment ev) (e : ev A) P (R : A → Q → Prop) (X : Q → Prop) :
  (∀ q (r : res A), P q → ∃ q', δ q (Item e r) = Some q' ∧ match r with Ok a => R a q' | Raise _ => X q' end) →
  triple P (act env e) R X.
Proof.
  intros He q h HP. destruct (He q (env A h e) HP) as (q' & Hd & Hr).
  exists [Item e (env A h e)], q'. cbn. by rewrite Hd.
Qed.

Lemma triple_finally {A : Type} P (m : PyM (list (item ev)) A) (M : A → Q → Prop) Y (f : PyM (list (item ev)) unit) R X :
  triple P m M Y → (∀ a, triple (M a) f (λ _, R a) X) → triple Y f (λ _, X) X →
  triple P (try_finally m f) R X.
Proof.
  intros Hm Hf Hy q h HP. destruct (Hm q h HP) as (t & q1 & Ht & Hr & HM). unfold try_finally.
  destruct (m h) as [[a|e] h1]; cbn in Ht, HM; subst h1.
  - destruct (Hf a q1 (h ++ t) HM) as (t2 & q2 & Ht2 & Hr2 & HR).
    destruct (f (h ++ t)) as [[?|?] h2]; cbn in Ht2, HR |- *; subst h2;
      exists (t ++ t2), q2; (split_and!; [by rewrite app_assoc | by rewrite runs_app, Hr | done]).
  - destruct (Hy q1 (h ++ t) HM) as (t2 & q2 & Ht2 & Hr2 & HR).
    destruct (f (h ++ t)) as [[?|?] h2]; cbn in Ht2, HR |- *; subst h2;
      exists (t ++ t2), q2; (split_and!; [by rewrite app_assoc | by rewrite runs_app, Hr | done]).
Qed.

Lemma triple_except {A : Type} P (m : PyM (list (item ev)) A) h R X X' :
  triple P m R X → (∀ e k, h e = Some k → triple X k R X') → (∀ q, X q → X' q) → triple P (try_except m h) R X'.
Proof.
  intros Hm Hh HX q l HP. destruct (Hm q l HP) as (t & q1 & Ht & Hr & Hq). unfold try_except.
  destruct (m l) as [[a|e] l1]; cbn in Ht, Hq; subst l1; [by exists t, q1|].
  destruct (h e) as [k|] eqn:He; [|exists t, q1; split_and!; [done..|by apply HX]].
  destruct (Hh e k He q1 (l ++ t) Hq) as (t2 & q2 & Ht2 & Hr2 & Hq2).
  exists (t ++ t2), q2. split_and!; [by rewrite Ht2, app_assoc|by rewrite runs_app, Hr|done].
Qed.

Lemma triple_if {A : Type} (b : bool) P (m1 m2 : PyM (list (item ev)) A) R X :
  (b = true → triple P m1 R X) → (b = false → triple P m2 R X) → triple P (if b then m1 else m2) R X.
Proof. destruct b; auto. Qed.

Lemma triple_when b P m R X :
  (b = true → triple P m R X) → (b = false → ∀ q, P q → R tt q) → triple P (when b m) R X.
Proof.
  intros Ht Hf. destruct b; cbn; [auto|]. intros q h HP. exists [], q. rewrite app_nil_r. split_and!; [done..|]. by apply Hf.
Qed.

Lemma triple_conseq {A : Type} (P' P : Q → Prop) (m : PyM (list (item ev)) A) (R R' : A → Q → Prop) (X X' : Q → Prop) :
  triple P m R X → (∀ q, P' q → P q) → (∀ a q, R a q → R' a q) → (∀ q, X q → X' q) → triple P' m R' X'.
Proof.
  intros Hm HP HR HX q h Hq. destruct (Hm q h (HP q Hq)) as (t & q' & Ht & Hr & Hm').
  exists t, q'. split_and!; [done..|]. destruct (m h).1; auto.
Qed.

Lemma triple_while fuel P (cond : PyM (list (item ev)) bool) body (M : bool → Q → Prop) X :
  triple P cond M X → triple (M true) body (λ _, P) X → (∀ q, P q → X q) →
  triple P (while fuel cond body) (λ _, M false) X.
Proof.
  intros Hc Hb HX. induction fuel as [|k IH]; cbn [while].
  - eapply triple_conseq; [apply (triple_raise _ (λ _, M false) X) | done | done | done].
  - eapply triple_bind; [exact Hc|]. intros [].
    + eapply triple_bind; [exact Hb|]. intros []. exact IH.
    + apply (triple_ret tt (λ _, M false)).
Qed.
End automaton.

(** ** Computations that keep the state of an automaton *)

Section keeps.
Context {ev : Set → Type} {Q : Type} (δ : Q → item ev → option Q).

(** Whatever happens, the state after the computation is the state before, from
    all states that satisfy [P]. *)
Definition keeps {A : Type} (P : Q → Prop) (m : PyM (list (item ev)) A) : Prop :=
  ∀ q, P q → triple δ (λ q', q' = q) m (λ _ q', q' = q) (λ q', q' = q).

Implicit Types P : Q → Prop.

Lemma keeps_ret {A : Type} P (a : A) : keeps P (mret a).
Proof. intros q _. apply (triple_ret δ a (λ _ q', q' = q)). Qed.

Lemma keeps_raise {A : Type} P e : keeps (A := A) P (raise e).
Proof. intros q _. apply (triple_raise δ e (λ _ q', q' = q)). Qed.

Lemma keeps_lift {A : Type} P (r : res A) : keeps P (lift r).
Proof. intros q _. apply triple_lift. intros q' ->. by destruct r. Qed.

Lemma keeps_bind {A B : Type} P (m : PyM (list (item ev)) A) (f : A → PyM (list (item ev)) B) :
  keeps P m → (∀ a, keeps P (f a)) → keeps P (m ≫= f).
Proof. intros Hm Hf q Hq. eapply triple_bind; [by apply Hm|]. intros a. by apply Hf. Qed.

Lemma keeps_act {A : Set} P (env : environment ev) (e : ev A) :
  (∀ q r, P q → δ q (Item e r) = Some q) → keeps P (act env e).
Proof. intros He q Hq. apply triple_act. intros q' r ->. exists q. rewrite He by done. by destruct r. Qed.

Lemma keeps_if {A : Type} P (b : bool) (m1 m2 : PyM (list (item ev)) A) :
  keeps P m1 → keeps P m2 → keeps P (if b then m1 else m2).
Proof. by destruct b. Qed.

Lemma keeps_when P b m : keeps P m → keeps P (when b m).
Proof. destruct b; [done|]. intros _. apply keeps_ret. Qed.

Lemma keeps_while P fuel cond body : keeps P cond → keeps P body → keeps P (while fuel cond body).
Proof.
  intros Hc Hb. induction fuel as [|k IH]; cbn [while]; [apply keeps_raise|].
  apply keeps_bind; [done|]. intros []; [|apply keeps_ret]. by apply keeps_bind.
Qed.

Lemma keeps_finally {A : Type} P (m : PyM (list (item ev)) A) f : keeps P m → keeps P f → keeps P (try_finally m f).
Proof. intros Hm Hf q Hq. eapply triple_finally; [by apply Hm | intros a; by apply Hf | by apply Hf]. Qed.

Lemma keeps_weaken {A : Type} P P' (m : PyM (list (item ev)) A) :
  (∀ q, P' q → P q) → keeps P m → keeps P' m.
Proof. intros Hp Hm q Hq. by apply Hm, Hp. Qed.

(** The effects of the computation leave the automaton where it was. *)
Lemma keeps_runs {A : Type} P (m : PyM (list (item ev)) A) q h :
  keeps P m → P q → ∃ t, (m h).2 = h ++ t ∧ runs δ q t = Some q.
Proof.
  intros Hm Hq. destruct (Hm q Hq q h eq_refl) as (t & q' & Ht & Hr & Hq'). exists t. split; [done|].
  rewrite Hr. destruct (m h).1; by subst.
Qed.
End keeps.

Create HintDb keepdb discriminated.
#[export] Hint Resolve keeps_ret keeps_raise keeps_lift keeps_bind keeps_if keeps_when keeps_while : keepdb.
