(* ===== verification/NedTest.v ===== *)
(** * The NED test tool: ned-test/ned-test.py

    A command line tool that registers a device in NSO, downloads its YANG models,
    builds and installs a NED from them, and records and runs test cases.  All it
    does is talk to other programs: NSO (over MAAPI and over its interactive
    command line), the shell and the file system.  These are the environment; each
    call is an effect, so the model is the exact sequence of calls for every
    sequence of answers. *)

From Stdlib Require Import Ascii String.
From S2P Require Import Prelude PyStr Xml Trace.

(** ** Effects *)

Section tool.
(** Values that MAAPI returns, and what the tool does with them: print them with
    [%s], compare them with a text, [as_pyval] and [val2str]. *)
Context {value node : Set} (value_str : value → pystr) (value_eqb : value → pystr → bool)
  (as_pyval : value → pystr) (val2str : value → node → pystr).

(** A field of a device is a text from the command line or a value from NSO. *)
Inductive field : Set :=
  | FStr (s : pystr)
  | FVal (v : value).

Definition field_str (f : field) : pystr := match f with FStr s => s | FVal v => value_str v end.

(** [f == s]. *)
Definition field_eqb (f : field) (s : pystr) : bool :=
  match f with FStr s' => bool_decide (s' = s) | FVal v => value_eqb v s end.

Inductive effect : Set → Type :=
  (* the console, the clock, the shell and the files *)
  | EPrint (text : pystr) : effect unit
  | ESleep (seconds : nat) : effect unit
  | ERun (cmd : pystr) (input : option pystr) : effect Z
  | EGetcwd : effect pystr
  | EIsdir (path : pystr) : effect bool
  | EExists (path : pystr) : effect bool
  | ERmtree (path : pystr) : effect unit
  | ECopytree (src dst : pystr) (ignored : list pystr) : effect unit
  | ECopyfile (src dst : pystr) : effect unit
  (* transactions of MAAPI *)
  | EOpen (write : bool) (ctx : pystr) : effect nat
  | EClose (t : nat) : effect unit
  | ETExists (t : nat) (path : pystr) : effect bool
  | ECreate (t : nat) (path : pystr) : effect unit
  | ESetElem (t : nat) (v : field) (path : pystr) : effect unit
  | EGetElem (t : nat) (path : pystr) : effect value
  | EDelete (t : nat) (path : pystr) : effect unit
  | EApply (t : nat) : effect unit
  | EAction (t : nat) (args action : pystr) : effect pystr
  | ECryptoKeys (t : nat) : effect unit
  | ECsNode (path : pystr) : effect node
  | EDecrypt (text : pystr) : effect pystr
  | EFatal (text : pystr) : effect unit
  (* a session of MAAPI: reload the packages by force, read the result of one *)
  | EMaapi : effect nat
  | EMaapiClose (m : nat) : effect unit
  | ESession (m : nat) : effect unit
  | ESessionClose (m : nat) : effect unit
  | EReload (m : nat) : effect nat
  | EReloadResult (output : nat) (package : pystr) : effect pystr
  (* the interactive command line *)
  | ESpawn (cmd : pystr) : effect nat
  | ELogRead (p : nat) : effect unit
  | ESendline (p : nat) (line : pystr) : effect unit
  | EExpectExact (p : nat) (patterns : list pystr) (timeout : option nat) : effect nat
  | EExpect (p : nat) (patterns : list pystr) : effect (nat * pystr)%type
  | EExpectEof (p : nat) : effect unit.

Context (env : environment effect).

(** The tool's calls. *)
Abbreviation M := (PyM (list (item effect))).
Definition call {A : Set} (e : effect A) : M A := act env e.

Definition echo (s : pystr) : M unit := call (EPrint s).
Definition println (s : pystr) : M unit := call (EPrint (s ++ nl)).

(** [subprocess.run(..., check=True)]. *)
Definition run_checked (cmd : pystr) (input : option pystr) : M unit :=
  code ← call (ERun cmd input);
  if (code =? 0)%Z then mret tt else raise (CalledProcessError code).

(** [with ncs.maapi.single_..._trans('admin', ctx) as t: ...]. *)
Definition with_trans {A : Type} (write : bool) (ctx : pystr) (body : nat → M A) : M A :=
  t ← call (EOpen write ctx);
  try_finally (body t) (call (EClose t)).

(** [with ncs.maapi.Maapi() as m: with ncs.maapi.Session(m, 'admin', 'python'): ...]. *)
Definition with_session {A : Type} (body : nat → M A) : M A :=
  m ← call EMaapi;
  try_finally
    (_ ← call (ESession m); try_finally (body m) (call (ESessionClose m)))
    (call (EMaapiClose m)).

(** ** MAAPI *)

Definition write_ctx : pystr := py"write-ctx".
Definition read_ctx : pystr := py"read-ctx".

Definition maapi_exists (xpath : pystr) : M bool :=
  with_trans false read_ctx (λ t, call (ETExists t xpath)).

Definition maapi_set_ned_id (device_name : pystr) (ned_id : pystr) : M unit :=
  with_trans true write_ctx (λ t,
    _ ← call (ESetElem t (FStr ned_id) (fmt (py"/devices/device{{0}}/device-type/netconf/ned-id") [device_name]));
    call (EApply t)).

Definition maapi_set_elem_str (xpath : pystr) (str : pystr) : M unit :=
  with_trans true write_ctx (λ t,
    _ ← call (ESetElem t (FStr str) xpath);
    call (EApply t)).

Definition maapi_run_action (action args : pystr) : M pystr :=
  with_trans false read_ctx (λ t, call (EAction t args action)).

(** ** Devices *)

Record device := Device {
  dir : pystr; device_name : pystr; ip_address : field; ned_id : field; netconf_port : field;
  password : field; username : field }.

Definition create_authgroup (authgroup : pystr) (username password : field) : M unit :=
  with_trans true write_ctx (λ t,
    ex ← maapi_exists (fmt (py"/devices/authgroups/group{{0}}") [authgroup]);
    when (negb ex) (
      _ ← call (ECreate t (fmt (py"/devices/authgroups/group{{0}}") [authgroup]));
      _ ← call (ECreate t (fmt (py"/devices/authgroups/group{{0}}/default-map") [authgroup]));
      _ ← call (ESetElem t username (fmt (py"/devices/authgroups/group{{0}}/default-map/remote-name") [authgroup]));
      _ ← call (ESetElem t password (fmt (py"/devices/authgroups/group{{0}}/default-map/remote-password") [authgroup]));
      call (EApply t))).

(** The elements of a new device with their values. *)
Definition device_elems (device_name : pystr) (device_ip device_port ned_id : field) : list (field * pystr) :=
  [(device_ip, fmt (py"/devices/device{{0}}/address") [device_name]);
   (device_port, fmt (py"/devices/device{{0}}/port") [device_name]);
   (ned_id, fmt (py"/devices/device{{0}}/device-type/netconf/ned-id") [device_name]);
   (FStr device_name, fmt (py"/devices/device{{0}}/authgroup") [device_name]);
   (FStr (py"raw"), fmt (py"/devices/device{{0}}/trace") [device_name]);
   (FStr (py"300"), fmt (py"/devices/device{{0}}/read-timeout") [device_name]);
   (FStr (py"300"), fmt (py"/devices/device{{0}}/write-timeout") [device_name]);
   (FStr (py"false"), fmt (py"/devices/device{{0}}/commit-queue/enabled-by-default") [device_name]);
   (FStr (py"unlocked"), fmt (py"/devices/device{{0}}/state/admin-state") [device_name])].

Definition set_elems (t : nat) (elems : list (field * pystr)) : M unit :=
  _ ← M_map (λ e, call (ESetElem t e.1 e.2)) elems; mret tt.

Definition create_device (device_name : pystr) (device_ip device_port ned_id : field) : M unit :=
  with_trans true write_ctx (λ t,
    _ ← call (ECreate t (fmt (py"/devices/device{{0}}") [device_name]));
    _ ← set_elems t (device_elems device_name device_ip device_port ned_id);
    call (EApply t)).

Definition fetch_host_keys (device_name : pystr) : M unit :=
  _ ← echo (py"Fetch host keys...");
  res ← maapi_run_action (fmt (py"/ncs:devices/device{{0}}/ssh/fetch-host-keys") [device_name])
          (fmt (py"devices device {0} ssh fetch-host-keys") [device_name]);
  _ ← when (contains res (py"result failed")) (call (EFatal res));
  println (py"ok").

Definition sync_from (device_name : pystr) : M unit :=
  _ ← echo (fmt (py"Sync configuration from {0}...") [device_name]);
  res ← maapi_run_action (fmt (py"/ncs:devices/device{{0}}/sync-from") [device_name])
          (fmt (py"devices device {0} sync-from") [device_name]);
  _ ← when (contains res (py"result false")) (call (EFatal res));
  println (py"ok").

(** *** Methods of a device *)

Definition setup_netconf_device (td : device) : M unit :=
  _ ← create_authgroup (device_name td) (username td) (password td);
  _ ← create_device (device_name td) (ip_address td) (netconf_port td) (ned_id td);
  _ ← fetch_host_keys (device_name td);
  sync_from (device_name td).

Definition setup_cli_device (td : device) (cli_port : pystr) : M unit :=
  let template := fmt (py"{0}/bin/device.template") [dir td] in
  let driver := fmt (py"{0}/states/{1}.py") [dir td; device_name td] in
  _ ← call (ECopyfile template driver);
  _ ← maapi_set_elem_str (fmt (py"/devices/device{{0}}/drned-xmnr/cli-port") [device_name td]) cli_port;
  maapi_set_elem_str (fmt (py"/devices/device{{0}}/drned-xmnr/driver") [device_name td]) driver.

Definition setup_drned_xmnr (td : device) : M unit :=
  ex ← call (EExists (fmt (py"/nyat/xmnr/{0}/test/drned-skeleton") [device_name td]));
  when (negb ex) (
    _ ← echo (py"Setup drned-xmnr...");
    res ← maapi_run_action (fmt (py"/ncs:devices/device{{0}}/drned-xmnr:drned-xmnr/setup/setup-xmnr") [device_name td])
            (fmt (py"devices device {0} drned-xmnr setup setup-xmnr overwrite true") [device_name td]);
    when (contains res (py"success")) (println (py"ok"))).

Definition td_record_test (td : device) (state_name : pystr) : M unit :=
  _ ← echo (py"Sync configuration...");
  res ← maapi_run_action (fmt (py"/ncs:devices/device{{0}}/sync-from") [device_name td])
          (fmt (py"devices device {0} sync-from") [device_name td]);
  _ ← when (contains res (py"result true")) (println (py"ok"));
  _ ← echo (py"Record start state...");
  res' ← maapi_run_action (fmt (py"/ncs:devices/device{{0}}/drned-xmnr:drned-xmnr/state/record-state") [device_name td])
           (fmt (py"devices device {0} drned-xmnr state record-state state-name {1} overwrite true")
              [device_name td; state_name]);
  when (contains res' (py"success")) (println (py"ok")).

Definition td_import_tests (td : device) (directory pattern : pystr) : M unit :=
  _ ← echo (fmt (py"import tests from {0}...") [directory]);
  res ← maapi_run_action
          (fmt (py"/ncs:devices/device{{0}}/drned-xmnr:drned-xmnr/state/import-state-files") [device_name td])
          (fmt (py"devices device {0} drned-xmnr state import-state-files format nso-xml file-path-pattern {1}/{2} overwrite true")
             [device_name td; directory; pattern]);
  if contains res (py"success") then println (py"ok") else println (py"fail").

Definition td_test_ned (td : device) (strategy : pystr) : M unit :=
  cli_str ← (if bool_decide (strategy = py"walk") then
      mret (fmt (py"
            devices device {0} drned-xmnr transitions walk-states rollback true
            ") [device_name td])
    else if bool_decide (strategy = py"explore") then
      mret (fmt (py"
            devices device {0} drned-xmnr transitions explore-transitions
            ") [device_name td])
    else raise PyException : M pystr);
  run_checked (py"ncs_cli -C -u admin") (Some cli_str).

(** *** Packages *)

Definition make_cmd (ned_id : pystr) : pystr := fmt (py"make -C /tmp/{0}/src clean all") [ned_id].

Definition build_ned_package (ned_id : pystr) : M unit := run_checked (make_cmd ned_id) None.

Definition ned_id_of (ned_name version : pystr) : pystr := fmt (py"{0}-nc-{1}") [ned_name; version].

Definition package_cmd (ned_name netsim vendor version : pystr) : pystr :=
  fmt (py"ncs-make-package --netconf-ned /tmp/yangs {0} --dest /tmp/{1} --no-java{2} --no-python --no-test --verbose --vendor {3} --package-version {4}")
    [ned_name; ned_id_of ned_name version; netsim; vendor; version].

Definition create_ned_package (ned_name netsim vendor version : pystr) : M pystr :=
  let ned_id := ned_id_of ned_name version in
  _ ← call (ERmtree ned_id);
  _ ← run_checked (package_cmd ned_name netsim vendor version) None;
  mret ned_id.

(** The result of the reload is returned. *)
Definition td_install_ned (td : device) (ned_id : pystr) : M pystr :=
  let package_dir := fmt (py"{0}/packages/{1}") [dir td; ned_id] in
  let src_dir := fmt (py"/tmp/{0}") [ned_id] in
  _ ← call (ERmtree package_dir);
  _ ← call (ECopytree src_dir package_dir []);
  with_session (λ m, output ← call (EReload m); call (EReloadResult output ned_id)).

(** *** The dialogue with the command line *)

(** Wait for one of the texts; the timeout is pexpect's default when it is not given. *)
Definition expect_exact (p : nat) (patterns : list pystr) : M nat := call (EExpectExact p patterns None).
Definition expect_prompt (p : nat) (prompt : pystr) : M unit := _ ← expect_exact p [prompt]; mret tt.
Definition expect_prompt_120 (p : nat) (prompt : pystr) : M unit :=
  _ ← call (EExpectExact p [prompt] (Some 120)); mret tt.

Definition oper_prompt : pystr := py"admin@ncs#".
Definition config_prompt : pystr := py"admin@ncs(config)#".
Definition project_prompt (ned_name version : pystr) : pystr :=
  fmt (py"admin@ncs(config-project-{0}/{1})#") [ned_name; version].

(** [sys.exit(1)] after some messages. *)
Definition exit_1 {A} : M A := raise (SystemExit 1).

(** Poll until no module is left to download. *)
Fixpoint download_loop (fuel : nat) (p : nat) (ned_name version : pystr) : M unit :=
  match fuel with
  | 0 => raise OutOfFuel
  | S k =>
      _ ← call (ESendline p (fmt (py"show netconf-ned-builder project {0} {1} module * status | notab | nomore | exclude deselected | exclude module | exclude downloaded | count") [ned_name; version]));
      m ← call (EExpect p [py"Count: (\d+) lines"]);
      if bool_decide (m.2 = py"0") then mret tt else
      _ ← println (fmt (py"{0} modules left...") [m.2]);
      _ ← call (ESleep 10);
      download_loop k p ned_name version
  end.

Definition create_project (p : nat) (device_name ned_name : pystr) (username : field) (vendor version : pystr) : M unit :=
  _ ← call (ESendline p (fmt (py"no netconf-ned-builder project {0} {1}") [ned_name; version]));
  _ ← expect_prompt p config_prompt;
  _ ← call (ESendline p (py"commit"));
  _ ← echo (py"Create NED Builder project...");
  _ ← call (ESendline p (fmt (py"netconf-ned-builder project {0} {1} device {2} local-user {3} vendor {4}")
               [ned_name; version; device_name; field_str username; vendor]));
  _ ← expect_prompt p (project_prompt ned_name version);
  _ ← call (ESendline p (py"commit"));
  _ ← expect_prompt p (project_prompt ned_name version);
  _ ← call (ESendline p (py"exit"));
  _ ← expect_prompt p config_prompt;
  _ ← call (ESendline p (py"exit"));
  _ ← expect_prompt p oper_prompt;
  println (py"ok").

Definition fetch_module_list (p : nat) (device_name ned_name version : pystr) : M unit :=
  _ ← echo (fmt (py"Fetch list of YANG moduels from {0}...") [device_name]);
  _ ← call (ESendline p (fmt (py"netconf-ned-builder project {0} {1} fetch-module-list") [ned_name; version]));
  _ ← expect_prompt_120 p oper_prompt;
  _ ← call (ESendline p (fmt (py"show netconf-ned-builder project {0} {1} module | nomore") [ned_name; version]));
  index ← call (EExpectExact p [py"% No entries found." ++ ["013"%char] ++ nl ++ py"admin@ncs#"; oper_prompt] (Some 120));
  if (index =? 0)%nat then
    _ ← println (py"error");
    _ ← println (py"Try ned-test.py build-ned -d ... to see what went wrong.");
    exit_1
  else println (py"ok").

Definition download_yang_modules (fuel : nat) (debug : bool) (device_name ned_name : pystr) (username : field)
    (vendor version : pystr) : M unit :=
  p ← call (ESpawn (py"ncs_cli -C -u admin"));
  _ ← when debug (call (ELogRead p));
  _ ← expect_prompt p oper_prompt;
  _ ← echo (py"Fetch hostkeys...");
  _ ← call (ESendline p (fmt (py"devices device {0} ssh fetch-host-keys") [device_name]));
  m ← call (EExpect p [py"result failed"; py"result (updated|unchanged).*admin@ncs#"]);
  _ ← when (m.1 =? 0)%nat (_ ← println (py"error, cannot fetch host keys!"); exit_1);
  _ ← println (py"ok");
  _ ← call (ESendline p (py"devtools true"));
  _ ← expect_prompt p oper_prompt;
  _ ← call (ESendline p (py"config"));
  _ ← expect_prompt p config_prompt;
  _ ← create_project p device_name ned_name username vendor version;
  _ ← fetch_module_list p device_name ned_name version;
  _ ← call (ESendline p (fmt (py"netconf-ned-builder project {0} {1} module * * select") [ned_name; version]));
  _ ← expect_prompt_120 p oper_prompt;
  _ ← println (fmt (py"Downloading YANG modules from {0}...") [device_name]);
  _ ← download_loop fuel p ned_name version;
  _ ← call (ESendline p (py"exit"));
  call (EExpectEof p).

Definition get_yang_modules (fuel : nat) (td : device) (debug : bool) (ned_name vendor version exclude_patterns yang_source : pystr)
    : M unit :=
  src_dir ← (if bool_decide (yang_source = py"device") then
      _ ← download_yang_modules fuel debug (device_name td) ned_name (username td) vendor version;
      mret (fmt (py"state/netconf-ned-builder/cache/{0}-nc-{1}") [ned_name; version])
    else
      d ← call (EIsdir yang_source);
      if (d : bool) then mret yang_source else raise PyException : M pystr);
  _ ← call (ERmtree (py"/tmp/yangs"));
  call (ECopytree src_dir (py"/tmp/yangs") (split " " exclude_patterns)).

(** ** Commands *)

Definition get_device (name : pystr) : M device :=
  cwd ← call EGetcwd;
  with_trans false read_ctx (λ t,
    authgroup ← call (EGetElem t (fmt (py"/devices/device{{0}}/authgroup") [name]));
    has_port ← call (ETExists t (fmt (py"/devices/device{{0}}/drned-xmnr/cli-port") [name]));
    has_driver ← (if (has_port : bool) then call (ETExists t (fmt (py"/devices/device{{0}}/drned-xmnr/driver") [name]))
                  else mret false : M bool);
    run_dir ← (if (has_driver : bool) then
        _ ← call (EGetElem t (fmt (py"/devices/device{{0}}/drned-xmnr/cli-port") [name]));
        path_value ← call (EGetElem t (fmt (py"/devices/device{{0}}/drned-xmnr/driver") [name]));
        mret (replace (as_pyval path_value) (fmt (py"/states/{0}.py") [name]) [])
      else mret cwd : M pystr);
    ip ← call (EGetElem t (fmt (py"/devices/device{{0}}/address") [name]));
    ned ← call (EGetElem t (fmt (py"/devices/device{{0}}/device-type/netconf/ned-id") [name]));
    port ← call (EGetElem t (fmt (py"/devices/device{{0}}/port") [name]));
    encrypted_pw ← call (EGetElem t
      (fmt (py"/devices/authgroups/group{{0}}/default-map/remote-password") [value_str authgroup]));
    _ ← call (ECryptoKeys t);
    cs_node ← call (ECsNode (fmt (py"/devices/authgroups/group{{0}}/default-map/remote-password") [value_str authgroup]));
    pw ← call (EDecrypt (val2str encrypted_pw cs_node));
    user ← call (EGetElem t (fmt (py"/devices/authgroups/group{{0}}/default-map/remote-name") [value_str authgroup]));
    mret (Device run_dir name (FVal ip) (FVal ned) (FVal port) (FStr pw) (FVal user))).

Definition status_cmd : pystr := py"ncs --status 2> /dev/null | grep -E '^status: started$' > /dev/null".

Definition is_nso_running : M Z := call (ERun status_cmd None).

(** The condition of the loop, a return code as a truth value, and its body. *)
Definition not_started : M bool := code ← is_nso_running; mret (negb (code =? 0)%Z).
Definition wait_dot : M unit := _ ← echo (py"."); call (ESleep 5).

Definition wait_for_nso (fuel : nat) : M unit :=
  _ ← echo (py"Wait for NSO to start...");
  _ ← while fuel not_started wait_dot;
  println (py"ok").

Record init_args := InitArgs {
  ia_cli_port : option pystr; ia_dir : pystr; ia_ip_address : pystr; ia_ned_id : pystr; ia_netconf_port : pystr;
  ia_password : pystr; ia_username : pystr; ia_device_name : pystr }.

(** The device of the command line. *)
Definition test_device (a : init_args) : device :=
  Device (ia_dir a) (ia_device_name a) (FStr (ia_ip_address a)) (FStr (ia_ned_id a)) (FStr (ia_netconf_port a))
    (FStr (ia_password a)) (FStr (ia_username a)).

Definition create_test_device (a : init_args) : M unit :=
  let td := test_device a in
  _ ← setup_netconf_device td;
  match ia_cli_port a with Some port => setup_cli_device td port | None => mret tt end.

Record build_args := BuildArgs {
  ba_debug : bool; ba_exclude : pystr; ba_install : bool; ba_netsim : pystr; ba_ned_name : pystr;
  ba_vendor : pystr; ba_version : pystr; ba_yang_source : pystr; ba_device_name : pystr }.

Definition build_ned (fuel : nat) (a : build_args) : M unit :=
  let device_path := fmt (py"/devices/device{{0}}") [ba_device_name a] in
  ex ← maapi_exists device_path;
  _ ← when (negb ex) (raise (TestNedError (fmt (py"Must create the device {0} before we can build the NED.") [device_path])));
  td ← get_device (ba_device_name a);
  _ ← when (negb (field_eqb (ned_id td) (py"netconf")))
        (raise (TestNedError ([] ++ py"ned-id must be " ++ dquote ++ py"netconf" ++ dquote)));
  _ ← get_yang_modules fuel td (ba_debug a) (ba_ned_name a) (ba_vendor a) (ba_version a) (ba_exclude a) (ba_yang_source a);
  id ← create_ned_package (ba_ned_name a) (ba_netsim a) (ba_vendor a) (ba_version a);
  _ ← build_ned_package id;
  _ ← td_install_ned td id;
  when (ba_install a) (maapi_set_ned_id (device_name td) id).

Definition record_test (name state_name : pystr) : M unit :=
  td ← get_device name;
  _ ← setup_drned_xmnr td;
  ex ← maapi_exists (fmt (py"/devices/device{{0}}/drned-xmnr/state/states{{1}}") [name; state_name]);
  if negb ex then td_record_test td state_name
  else raise (TestNedError (fmt (py"{0} already exist") [state_name])).

(** Without a directory [exists(None)] is a TypeError. *)
Definition import_tests (name : pystr) (directory : option pystr) (pattern : pystr) : M unit :=
  td ← get_device name;
  _ ← setup_drned_xmnr td;
  match directory with
  | None => raise TypeError
  | Some d =>
      ex ← call (EExists d);
      if (ex : bool) then td_import_tests td d pattern else raise (TestNedError (fmt (py"{0} must exist") [d]))
  end.

Definition install_ned (name id : pystr) : M unit :=
  td ← get_device name; maapi_set_ned_id (device_name td) id.

Definition test_ned (name strategy : pystr) : M unit :=
  td ← get_device name; td_test_ned td strategy.

Definition cleanup (name : pystr) : M unit :=
  with_trans true write_ctx (λ t,
    _ ← call (EDelete t (fmt (py"/devices/device{{0}}") [name]));
    _ ← call (EDelete t (fmt (py"/devices/authgroups/group{{0}}") [name]));
    call (EApply t)).

Definition debug_reload : M unit :=
  with_session (λ m,
    output ← call (EReload m);
    r ← call (EReloadResult output (py"drned-xmnr"));
    println r).

(** The parsed command line. *)
Inductive command :=
  | CInit (a : init_args)
  | CBuildNed (a : build_args)
  | CRecordTest (name state_name : pystr)
  | CImportTests (name : pystr) (directory : option pystr) (pattern : pystr)
  | CInstallNed (name id : pystr)
  | CTestNed (name strategy : pystr)
  | CCleanup (name : pystr)
  | CDebug.

Definition run_command (fuel : nat) (c : command) : M unit :=
  match c with
  | CInit a => create_test_device a
  | CBuildNed a => build_ned fuel a
  | CRecordTest n s => record_test n s
  | CImportTests n d p => import_tests n d p
  | CInstallNed n i => install_ned n i
  | CTestNed n s => test_ned n s
  | CCleanup n => cleanup n
  | CDebug => debug_reload
  end.

(** What argparse makes of the arguments is given. *)
Definition ned_test (fuel : nat) (parse_args : list pystr → res command) (arguments : list pystr) : M unit :=
  if (length arguments =? 0)%nat then raise (SystemExit 2) else
  c ← lift (parse_args arguments);
  _ ← wait_for_nso fuel;
  run_command fuel c.
End tool.

(** ** What the runs of the tool promise *)

(** *** Transactions *)

(** What is open: transactions, connections and sessions, innermost first. *)
Inductive handle :=
  | HTrans (t : nat)
  | HMaapi (m : nat)
  | HSession (m : nat).

#[export] Instance handle_eq_dec : EqDecision handle.
Proof. solve_decision. Defined.

(** Only the innermost handle may be closed. *)
Definition close (h : handle) (q : list handle) : option (list handle) :=
  match q with h' :: q' => if decide (h = h') then Some q' else None | [] => None end.

(** A handle may be used while it is open. *)
Definition use (h : handle) (q : list handle) : option (list handle) :=
  if decide (h ∈ q) then Some q else None.

Definition opened (h : nat → handle) (q : list handle) (r : res nat) : list handle :=
  match r with Ok t => h t :: q | Raise _ => q end.

(** The discipline of handles. *)
Definition handles_step {value node : Set} (q : list handle) (i : item (@effect value node)) : option (list handle) :=
  match i with Item e r =>
    match e in effect A return res A → option (list handle) with
    | EOpen _ _ => λ r, Some (opened HTrans q r)
    | EClose t => λ _, close (HTrans t) q
    | ETExists t _ | EApply t | ECryptoKeys t => λ _, use (HTrans t) q
    | ECreate t _ | EDelete t _ => λ _, use (HTrans t) q
    | ESetElem t _ _ => λ _, use (HTrans t) q
    | EGetElem t _ => λ _, use (HTrans t) q
    | EAction t _ _ => λ _, use (HTrans t) q
    | EMaapi => λ r, Some (opened HMaapi q r)
    | EMaapiClose m => λ _, close (HMaapi m) q
    | ESession m => λ r, if decide (HMaapi m ∈ q)
        then Some (match r with Ok _ => HSession m :: q | Raise _ => q end) else None
    | ESessionClose m => λ _, close (HSession m) q
    | EReload m => λ _, use (HSession m) q
    | _ => λ _, Some q
    end r
  end.

Section handles.
Context {value node : Set} (value_str : value → pystr) (value_eqb : value → pystr → bool)
  (as_pyval : value → pystr) (val2str : value → node → pystr) (env : environment (@effect value node)).

Local Abbreviation keeps := (keeps handles_step).
Local Abbreviation anywhere := (λ _ : list handle, True).
Local Abbreviation inside t := (λ q : list handle, HTrans t ∈ q).

Lemma use_open h q : h ∈ q → use h q = Some q.
Proof. intros Hq. unfold use. by rewrite decide_True. Qed.

Lemma close_top h q : close h (h :: q) = Some q.
Proof. unfold close. by rewrite decide_True. Qed.

(** Transactions and sessions are closed, on every path out of their bodies. *)
Lemma with_trans_keeps {A : Type} P write ctx (body : nat → PyM (list (item effect)) A) :
  (∀ t, keeps (inside t) (body t)) → keeps P (with_trans env write ctx body).
Proof.
  intros Hb q _. unfold with_trans. eapply (triple_bind _ _ _ (λ t q', q' = HTrans t :: q)).
  - apply triple_act. intros q' r ->. eexists. split; [reflexivity|]. by destruct r.
  - intros t. eapply (triple_finally _ _ _ (λ _ q', q' = HTrans t :: q) (λ q', q' = HTrans t :: q)).
    + eapply triple_conseq; [apply (Hb t (HTrans t :: q)); left|naive_solver..].
    + intros a. apply triple_act. intros q' r ->. exists q. split; [apply close_top|]. by destruct r.
    + apply triple_act. intros q' r ->. exists q. split; [apply close_top|]. by destruct r.
Qed.

Lemma with_session_keeps {A : Type} P (body : nat → PyM (list (item effect)) A) :
  (∀ m, keeps (λ q, HSession m ∈ q) (body m)) → keeps P (with_session env body).
Proof.
  intros Hb q _. unfold with_session. eapply (triple_bind _ _ _ (λ m q', q' = HMaapi m :: q)).
  - apply triple_act. intros q' r ->. eexists. split; [reflexivity|]. by destruct r.
  - intros m. eapply (triple_finally _ _ _ (λ _ q', q' = HMaapi m :: q) (λ q', q' = HMaapi m :: q)).
    + eapply (triple_bind _ _ _ (λ _ q', q' = HSession m :: HMaapi m :: q)).
      * apply triple_act. intros q' r ->. cbn. rewrite decide_True by left. eexists. split; [reflexivity|]. by destruct r.
      * intros _. eapply (triple_finally _ _ _ (λ _ q', q' = HSession m :: HMaapi m :: q) (λ q', q' = HSession m :: HMaapi m :: q)).
        -- eapply triple_conseq; [apply (Hb m (HSession m :: HMaapi m :: q)); left|naive_solver..].
        -- intros a. apply triple_act. intros q' r ->. eexists. split; [apply close_top|]. by destruct r.
        -- apply triple_act. intros q' r ->. eexists. split; [apply close_top|]. by destruct r.
    + intros a. apply triple_act. intros q' r ->. exists q. split; [apply close_top|]. by destruct r.
    + apply triple_act. intros q' r ->. exists q. split; [apply close_top|]. by destruct r.
Qed.

#[local] Create HintDb handledb.

(** A call that opens or closes nothing. *)
Ltac keeps_call :=
  unfold echo, println, call; apply keeps_act; intros; first [reflexivity | cbn; by apply use_open].

Ltac keeps_step :=
  first [ solve [eauto with nocore handledb]
        | apply with_trans_keeps; intros ?
        | apply with_session_keeps; intros ?
        | apply keeps_bind; [|intros ?]
        | apply keeps_when | apply keeps_ret | apply keeps_raise | apply keeps_lift | apply keeps_while
        | keeps_call
        | match goal with |- Trace.keeps _ _ (if ?b then _ else _) => apply keeps_if end
        | match goal with |- Trace.keeps _ _ (match ?x with _ => _ end) => destruct x end
        | progress cbv zeta ].
Ltac keeps_solve := repeat keeps_step.

Lemma run_checked_keeps P cmd input : keeps P (run_checked env cmd input).
Proof. unfold run_checked. keeps_solve. Qed.
Hint Resolve run_checked_keeps : handledb.

Lemma maapi_exists_keeps P x : keeps P (maapi_exists env x).
Proof. unfold maapi_exists. keeps_solve. Qed.
Lemma maapi_set_ned_id_keeps P d i : keeps P (maapi_set_ned_id env d i).
Proof. unfold maapi_set_ned_id. keeps_solve. Qed.
Lemma maapi_set_elem_str_keeps P x s : keeps P (maapi_set_elem_str env x s).
Proof. unfold maapi_set_elem_str. keeps_solve. Qed.
Lemma maapi_run_action_keeps P a s : keeps P (maapi_run_action env a s).
Proof. unfold maapi_run_action. keeps_solve. Qed.
Hint Resolve maapi_exists_keeps maapi_set_ned_id_keeps maapi_set_elem_str_keeps maapi_run_action_keeps : handledb.

Lemma set_elems_keeps t l : keeps (inside t) (set_elems env t l).
Proof.
  unfold set_elems. keeps_step; [|apply keeps_ret].
  induction l as [|e l IH]; cbn [M_map]; keeps_solve.
Qed.
Hint Resolve set_elems_keeps : handledb.

Lemma setup_netconf_device_keeps P td : keeps P (setup_netconf_device env td).
Proof.
  unfold setup_netconf_device, create_authgroup, create_device, fetch_host_keys, sync_from. keeps_solve.
Qed.
Lemma setup_cli_device_keeps P td port : keeps P (setup_cli_device env td port).
Proof. unfold setup_cli_device. keeps_solve. Qed.
Lemma setup_drned_xmnr_keeps P td : keeps P (setup_drned_xmnr env td).
Proof. unfold setup_drned_xmnr. keeps_solve. Qed.
Lemma td_record_test_keeps P td s : keeps P (td_record_test env td s).
Proof. unfold td_record_test. keeps_solve. Qed.
Lemma td_import_tests_keeps P td d p : keeps P (td_import_tests env td d p).
Proof. unfold td_import_tests. keeps_solve. Qed.
Lemma td_test_ned_keeps P td s : keeps P (td_test_ned env td s).
Proof. unfold td_test_ned. keeps_solve. Qed.
Hint Resolve setup_netconf_device_keeps setup_cli_device_keeps setup_drned_xmnr_keeps td_record_test_keeps
  td_import_tests_keeps td_test_ned_keeps : handledb.

Lemma download_loop_keeps P fuel p n v : keeps P (download_loop env fuel p n v).
Proof.
  induction fuel as [|k IH]; cbn [download_loop]; [apply keeps_raise|]. keeps_solve.
Qed.
Lemma download_yang_modules_keeps P fuel dbg d n u v ver :
  keeps P (download_yang_modules value_str env fuel dbg d n u v ver).
Proof.
  pose proof download_loop_keeps.
  unfold download_yang_modules, create_project, fetch_module_list, expect_prompt, expect_prompt_120, expect_exact, exit_1.
  keeps_solve.
Qed.
Hint Resolve download_yang_modules_keeps : handledb.

Lemma get_yang_modules_keeps P fuel td dbg n v ver e y :
  keeps P (get_yang_modules value_str env fuel td dbg n v ver e y).
Proof. unfold get_yang_modules. keeps_solve. Qed.
Lemma create_ned_package_keeps P n s v ver : keeps P (create_ned_package env n s v ver).
Proof. unfold create_ned_package. keeps_solve. Qed.
Lemma td_install_ned_keeps P td i : keeps P (td_install_ned env td i).
Proof. unfold td_install_ned. keeps_solve. Qed.
Lemma get_device_keeps P n : keeps P (get_device value_str as_pyval val2str env n).
Proof. unfold get_device. keeps_solve. Qed.
Lemma wait_for_nso_keeps P fuel : keeps P (wait_for_nso env fuel).
Proof. unfold wait_for_nso, not_started, wait_dot, is_nso_running. keeps_solve. Qed.
Hint Resolve get_yang_modules_keeps create_ned_package_keeps td_install_ned_keeps get_device_keeps wait_for_nso_keeps : handledb.

Lemma run_command_keeps P fuel c : keeps P (run_command value_str value_eqb as_pyval val2str env fuel c).
Proof.
  destruct c; cbn [run_command];
    unfold create_test_device, build_ned, build_ned_package, record_test, import_tests, install_ned, test_ned, cleanup, debug_reload;
    keeps_solve.
Qed.
Hint Resolve run_command_keeps : handledb.
End handles.

(** *** The dialogue *)

(** The modes of the command line: operational, configuration, and the
    configuration of a project. *)
Inductive cli_mode :=
  | MOper
  | MConfig
  | MProject.

(** No session yet; a session with a process and its mode; a session that is left. *)
Inductive cli_state :=
  | CliNone
  | CliIn (p : nat) (mode : cli_mode)
  | CliLeft (p : nat).

Section cli.
Context {value node : Set} (ned_name version : pystr).

Definition mode_prompt (m : cli_mode) : pystr :=
  match m with MOper => oper_prompt | MConfig => config_prompt | MProject => project_prompt ned_name version end.

(** What a line does to the mode. *)
Definition enter_line (p : nat) (m : cli_mode) (line : pystr) : cli_state :=
  match m with
  | MOper =>
      if str_eqb line (py"config") then CliIn p MConfig
      else if str_eqb line (py"exit") then CliLeft p else CliIn p MOper
  | MConfig =>
      if str_eqb line (py"exit") then CliIn p MOper
      else if startswith line (py"netconf-ned-builder project " ++ ned_name ++ py" " ++ version ++ py" ")
      then CliIn p MProject else CliIn p MConfig
  | MProject => if str_eqb line (py"exit") then CliIn p MConfig else CliIn p MProject
  end.

(** A pattern that ends with a prompt. *)
Definition awaits (m : cli_mode) (pattern : pystr) : bool :=
  startswith (reverse pattern) (reverse (mode_prompt m)).

(** Lines are sent to a running session, and the prompts that are waited for are
    those of the mode it is in. *)
Definition cli_step (s : cli_state) (i : item (@effect value node)) : option cli_state :=
  match i with Item e r =>
    match e in effect A return res A → option cli_state with
    | ESpawn _ => λ r, match s, r with
        | CliNone, Ok p => Some (CliIn p MOper) | CliNone, Raise _ => Some CliNone | _, _ => None end
    | ESendline p line => λ _, match s with
        | CliIn p' m => if decide (p = p') then Some (enter_line p m line) else None | _ => None end
    | EExpectExact p patterns _ => λ _, match s with
        | CliIn p' m => if decide (p = p') then (if forallb (awaits m) patterns then Some s else None) else None
        | _ => None end
    | EExpect p _ => λ _, match s with CliIn p' MOper => if decide (p = p') then Some s else None | _ => None end
    | EExpectEof p => λ _, match s with CliLeft p' => if decide (p = p') then Some s else None | _ => None end
    | _ => λ _, Some s
    end r
  end.
End cli.

Section dialogue.
Context {value node : Set} (value_str : value → pystr) (env : environment (@effect value node)) (ned_name version : pystr).

Local Abbreviation step := (cli_step (value := value) (node := node) ned_name version).
(** From one state to another, whatever the answers. *)
Local Abbreviation moves s m s' := (triple step (λ q, q = s) m (λ _ q, q = s') (λ _, True)).

Lemma moves_bind {A B : Type} s s1 s2 (m : PyM (list (item effect)) A) (f : A → PyM (list (item effect)) B) :
  moves s m s1 → (∀ a, moves s1 (f a) s2) → moves s (m ≫= f) s2.
Proof. intros Hm Hf. eapply triple_bind; [exact Hm|]. intros a. apply Hf. Qed.

Lemma moves_ret {A : Type} s (a : A) : moves s (mret a) s.
Proof. apply (triple_ret step a (λ _ q, q = s)). Qed.

Lemma moves_raise {A : Type} s s' e : moves s (raise (A := A) e) s'.
Proof. eapply (triple_conseq _ _ (λ _, True)); [apply (triple_raise step e (λ _ q, q = s'))|done..]. Qed.

Lemma moves_act {A : Set} s s' (e : effect A) :
  (∀ r, step s (Item e r) = Some s') → moves s (call env e) s'.
Proof. intros He. apply triple_act. intros q r ->. exists s'. rewrite He. by destruct r. Qed.

Lemma moves_send p m line s' :
  enter_line ned_name version p m line = s' → moves (CliIn p m) (call env (ESendline p line)) s'.
Proof. intros <-. apply moves_act. intros r. cbn. by rewrite decide_True. Qed.

Lemma moves_expect_exact p m patterns timeout :
  forallb (awaits ned_name version m) patterns = true →
  moves (CliIn p m) (call env (EExpectExact p patterns timeout)) (CliIn p m).
Proof. intros Hp. apply moves_act. intros r. cbn [step cli_step]. by rewrite decide_True, Hp. Qed.

Lemma awaits_prompt m : awaits ned_name version m (mode_prompt ned_name version m) = true.
Proof. apply startswith_refl. Qed.

Lemma moves_prompt p m prompt :
  prompt = mode_prompt ned_name version m → moves (CliIn p m) (expect_prompt env p prompt) (CliIn p m).
Proof.
  intros ->. eapply moves_bind; [|intros ?; apply moves_ret].
  apply moves_expect_exact. cbn [forallb]. by rewrite awaits_prompt.
Qed.

Lemma moves_prompt_120 p m prompt :
  prompt = mode_prompt ned_name version m → moves (CliIn p m) (expect_prompt_120 env p prompt) (CliIn p m).
Proof.
  intros ->. eapply moves_bind; [|intros ?; apply moves_ret].
  apply moves_expect_exact. cbn [forallb]. by rewrite awaits_prompt.
Qed.

Lemma moves_expect p patterns : moves (CliIn p MOper) (call env (EExpect p patterns)) (CliIn p MOper).
Proof. apply moves_act. intros r. cbn. by rewrite decide_True. Qed.

Lemma moves_echo s t : moves s (echo env t) s.
Proof. by apply moves_act. Qed.

Lemma moves_println s t : moves s (println env t) s.
Proof. by apply moves_act. Qed.

Lemma moves_when s b m : moves s m s → moves s (when b m) s.
Proof. destruct b; [done|]. intros _. apply moves_ret. Qed.

(** The line that opens the project. *)
Lemma project_line p device user vendor :
  enter_line ned_name version p MConfig
    (fmt (py"netconf-ned-builder project {0} {1} device {2} local-user {3} vendor {4}") [ned_name; version; device; user; vendor])
  = CliIn p MProject.
Proof.
  unfold enter_line. match goal with |- context [startswith ?l ?x] => assert (startswith l x = true) as -> end.
  - fmt_norm. change (py"netconf-ned-builder project ") with
      ["n"; "e"; "t"; "c"; "o"; "n"; "f"; "-"; "n"; "e"; "d"; "-"; "b"; "u"; "i"; "l"; "d"; "e"; "r"; " ";
       "p"; "r"; "o"; "j"; "e"; "c"; "t"; " "]%char.
    rewrite !app_assoc, <-(app_assoc _ (" "%char :: _)).
    apply startswith_spec. rewrite <-!app_assoc. repeat apply prefix_app. cbn. by eexists.
  - fmt_norm. reflexivity.
Qed.

(** The mode after a line whose beginning decides it. *)
Ltac enter_computed :=
  lazymatch goal with |- ?l = ?s =>
    let r := eval vm_compute in l in
    match r with CliIn _ _ => idtac | CliLeft _ => idtac end; unify s r; vm_compute; reflexivity
  end.

#[local] Create HintDb clidb.
#[local] Opaque fmt.

Ltac dialogue_step :=
  first [ apply moves_ret | apply moves_raise | apply moves_echo | apply moves_println | apply moves_expect
        | apply moves_prompt; reflexivity | apply moves_prompt_120; reflexivity
        | solve [eauto with nocore clidb]
        | apply moves_expect_exact; reflexivity
        | apply moves_when | eapply moves_bind; [|intros ?]
        | apply moves_send; first [apply project_line | enter_computed]
        | apply moves_act; intros; reflexivity
        | apply moves_act; intros; cbn; rewrite decide_True by done; reflexivity ].

Lemma download_loop_moves fuel p : moves (CliIn p MOper) (download_loop env fuel p ned_name version) (CliIn p MOper).
Proof.
  induction fuel as [|k IH]; cbn [download_loop]; [apply moves_raise|]. repeat dialogue_step.
  case_bool_decide; repeat dialogue_step.
Qed.
Hint Resolve download_loop_moves : clidb.

Lemma create_project_moves p device user vendor :
  moves (CliIn p MConfig) (create_project value_str env p device ned_name user vendor version) (CliIn p MOper).
Proof. unfold create_project. repeat dialogue_step. Qed.
Hint Resolve create_project_moves : clidb.

Lemma fetch_module_list_moves p device :
  moves (CliIn p MOper) (fetch_module_list env p device ned_name version) (CliIn p MOper).
Proof.
  unfold fetch_module_list, exit_1. repeat dialogue_step. case_match; repeat dialogue_step.
Qed.
Hint Resolve fetch_module_list_moves : clidb.

Lemma download_yang_modules_moves fuel debug device user vendor :
  triple step (λ q, q = CliNone) (download_yang_modules value_str env fuel debug device ned_name user vendor version)
    (λ _ q, ∃ p, q = CliLeft p) (λ _, True).
Proof.
  unfold download_yang_modules. eapply (triple_bind _ _ _ (λ p q, q = CliIn p MOper)).
  { apply triple_act. intros q r ->. destruct r as [p|e]; eexists; split; done. }
  intros p. eapply triple_conseq with (P := λ q, q = CliIn p MOper) (R := λ _ q, q = CliLeft p) (X := λ _, True);
    [|done|eauto|done].
  unfold exit_1. repeat dialogue_step.
Qed.
#[local] Transparent fmt.
End dialogue.

(** *** Building *)

(** How far the build of a NED has come. *)
Inductive build_phase :=
  | PhFresh
  | PhPackaged
  | PhBuilt
  | PhCopied
  | PhReloaded.

#[export] Instance build_phase_eq_dec : EqDecision build_phase.
Proof. solve_decision. Defined.

(** A phase is left by the success of its command; the packages directory is
    changed after the build, and NSO's configuration after the reload. *)
Definition build_step {value node : Set} (package make id : pystr) (q : build_phase) (i : item (@effect value node))
    : option build_phase :=
  match i with Item e r =>
    match e in effect A return res A → option build_phase with
    | ERun cmd _ => λ r, match q, r with
        | PhFresh, Ok 0%Z => Some (if str_eqb cmd package then PhPackaged else PhFresh)
        | PhPackaged, Ok 0%Z => Some (if str_eqb cmd make then PhBuilt else PhPackaged)
        | _, _ => Some q end
    | ECopytree src dst _ => λ r,
        if contains dst (py"/packages/") then
          if decide (q = PhBuilt) then Some (if is_ok r then PhCopied else q) else None
        else Some q
    | EReloadResult _ package => λ r,
        Some (if decide (q = PhCopied) then (if is_ok r && str_eqb package id then PhReloaded else q) else q)
    | ESetElem _ _ _ => λ _, if decide (q = PhReloaded) then Some q else None
    | EApply _ => λ _, if decide (q = PhReloaded) then Some q else None
    | ECreate _ _ => λ _, None
    | EDelete _ _ => λ _, None
    | _ => λ _, Some q
    end r
  end.

Section building.
Context {value node : Set} (value_str : value → pystr) (value_eqb : value → pystr → bool)
  (as_pyval : value → pystr) (val2str : value → node → pystr) (env : environment (@effect value node)).
Context (package make id : pystr).

Local Abbreviation step := (build_step (value := value) (node := node) package make id).
Local Abbreviation moves q m q' := (triple step (λ x, x = q) m (λ _ x, x = q') (λ _, True)).

(** Reading and talking change no phase. *)
Ltac reads_step :=
  first [ solve [eauto with nocore builddb]
        | apply keeps_bind; [|intros ?] | apply keeps_finally
        | apply keeps_when | apply keeps_ret | apply keeps_raise
        | unfold echo, println, call; apply keeps_act; intros; reflexivity
        | match goal with |- keeps _ _ (if ?b then _ else _) => apply keeps_if end ].

#[local] Create HintDb builddb.

Lemma reads_exists P x : keeps step P (maapi_exists env x).
Proof. unfold maapi_exists, with_trans. repeat reads_step. Qed.

Lemma reads_device P n : keeps step P (get_device value_str as_pyval val2str env n).
Proof. unfold get_device, with_trans. repeat reads_step. Qed.

Lemma reads_loop P fuel p n v : keeps step P (download_loop env fuel p n v).
Proof. induction fuel as [|k IH]; cbn [download_loop]; [apply keeps_raise|]. repeat reads_step. Qed.
Hint Resolve reads_loop : builddb.

Lemma reads_yang P fuel td dbg n v ver e y : keeps step P (get_yang_modules value_str env fuel td dbg n v ver e y).
Proof.
  unfold get_yang_modules, download_yang_modules, create_project, fetch_module_list, expect_prompt, expect_prompt_120,
    expect_exact, exit_1. repeat reads_step.
Qed.

Lemma keeps_moves {A : Type} q (m : PyM (list (item effect)) A) : keeps step (λ _, True) m → moves q m q.
Proof. intros Hm. eapply triple_conseq; [by apply (Hm q)|naive_solver..]. Qed.

Lemma moves_run_checked q q' cmd :
  step q (Item (ERun cmd None) (Ok 0%Z)) = Some q' →
  (∀ r, ∃ x, step q (Item (ERun cmd None) r) = Some x) →
  moves q (run_checked env cmd None) q'.
Proof.
  intros Hq Hall. unfold run_checked.
  eapply (triple_bind _ _ _ (λ code x, code = 0%Z → x = q')).
  - apply triple_act. intros x r ->. destruct (Hall r) as [y Hy]. exists y. split; [done|].
    destruct r as [code|e]; [|done]. intros ->. congruence.
  - intros code. destruct (Z.eqb_spec code 0) as [->|Hc].
    + intros x h Hx. exists [], x. rewrite app_nil_r. split_and!; [done..|]. by apply Hx.
    + intros x h Hx. exists [], x. by rewrite app_nil_r.
Qed.

Lemma moves_package n s v ver :
  package = package_cmd n s v ver → id = ned_id_of n ver →
  triple step (λ x, x = PhFresh) (create_ned_package env n s v ver) (λ i x, i = id ∧ x = PhPackaged) (λ _, True).
Proof.
  intros Hp Hi. unfold create_ned_package. cbv zeta. rewrite <-Hp, <-Hi.
  eapply (triple_bind _ _ _ (λ _ x, x = PhFresh)); [apply triple_act; intros x r ->; exists PhFresh; by destruct r|].
  intros _. eapply (triple_bind _ _ _ (λ _ x, x = PhPackaged)).
  - apply moves_run_checked; [cbn [build_step]; by rewrite str_eqb_refl|]. intros [[| |]|]; by eexists.
  - intros _ x h ->. exists [], PhPackaged. by rewrite app_nil_r.
Qed.

Lemma moves_make : make = make_cmd id → moves PhPackaged (build_ned_package env id) PhBuilt.
Proof.
  intros Hm. unfold build_ned_package. rewrite <-Hm.
  apply moves_run_checked; [cbn [build_step]; by rewrite str_eqb_refl|]. intros [[| |]|]; by eexists.
Qed.

Lemma package_dir_found d : contains (fmt (py"{0}/packages/{1}") [d; id]) (py"/packages/") = true.
Proof. apply contains_true. exists d, id. fmt_norm. by rewrite app_nil_r. Qed.

Lemma moves_install td : moves PhBuilt (td_install_ned env td id) PhReloaded.
Proof.
  unfold td_install_ned. cbv zeta.
  eapply (triple_bind _ _ _ (λ _ x, x = PhBuilt)); [apply triple_act; intros x r ->; exists PhBuilt; by destruct r|].
  intros _. eapply (triple_bind _ _ _ (λ _ x, x = PhCopied)).
  { apply triple_act. intros x r ->. cbn [build_step]. rewrite package_dir_found, decide_True by done.
    eexists. split; [reflexivity|]. by destruct r. }
  intros _. unfold with_session.
  assert (∀ x (e : effect unit), (∀ r, step x (Item e r) = Some x) → moves x (call env e) x) as Hc.
  { intros x e He. apply triple_act. intros y r ->. exists x. rewrite He. by destruct r. }
  assert (∀ (e : effect unit), (∀ x r, step x (Item e r) = Some x) → triple step (λ _, True) (call env e) (λ _ _, True) (λ _, True)) as Hx.
  { intros e He. apply triple_act. intros y r _. exists y. rewrite He. by destruct r. }
  eapply (triple_bind _ _ _ (λ _ x, x = PhCopied)); [apply triple_act; intros x r ->; exists PhCopied; by destruct r|].
  intros m. eapply (triple_finally _ _ _ (λ _ x, x = PhReloaded) (λ _, True)); [|intros _; by apply Hc | by apply Hx].
  eapply (triple_bind _ _ _ (λ _ x, x = PhCopied)); [by apply Hc|]. intros _.
  eapply (triple_finally _ _ _ (λ _ x, x = PhReloaded) (λ _, True)); [|intros _; by apply Hc | by apply Hx].
  eapply (triple_bind _ _ _ (λ _ x, x = PhCopied)); [apply triple_act; intros x r ->; exists PhCopied; by destruct r|].
  intros output. apply triple_act. intros x r ->. cbn [build_step]. rewrite decide_True, str_eqb_refl, andb_true_r by done.
  eexists. split; [reflexivity|]. by destruct r.
Qed.

Lemma moves_set_ned_id d i : moves PhReloaded (maapi_set_ned_id env d i) PhReloaded.
Proof.
  eapply triple_conseq with (P := λ x, x = PhReloaded) (R := λ _ x, x = PhReloaded) (X := λ x, x = PhReloaded); [|done..].
  assert (keeps step (λ x, x = PhReloaded) (maapi_set_ned_id env d i)) as Hk; [|by apply Hk].
  unfold maapi_set_ned_id, with_trans. repeat first [reads_step | apply keeps_act; intros ? ? ->; reflexivity].
Qed.

Lemma build_ned_moves fuel a :
  package = package_cmd (ba_ned_name a) (ba_netsim a) (ba_vendor a) (ba_version a) →
  id = ned_id_of (ba_ned_name a) (ba_version a) → make = make_cmd id →
  moves PhFresh (build_ned value_str value_eqb as_pyval val2str env fuel a) PhReloaded.
Proof.
  intros Hp Hi Hm. unfold build_ned. cbv zeta.
  assert (∀ b e, moves PhFresh (when b (raise e)) PhFresh) as Hw.
  { intros b e. apply keeps_moves, keeps_when, keeps_raise. }
  eapply triple_bind; [apply keeps_moves, reads_exists|intros ex].
  eapply triple_bind; [apply Hw|intros ?].
  eapply triple_bind; [apply keeps_moves, reads_device|intros td].
  eapply triple_bind; [apply Hw|intros ?].
  eapply triple_bind; [apply keeps_moves, reads_yang|intros ?].
  eapply triple_bind; [by apply moves_package|intros i]. 
  eapply triple_bind with (M := λ _ x, i = id ∧ x = PhBuilt).
  { intros x h [-> ->]. destruct (moves_make Hm PhPackaged h eq_refl) as (t & q' & Ht & Hr & Hq).
    exists t, q'. split_and!; [done..|]. by destruct (build_ned_package env id h).1. }
  intros ?. eapply triple_bind with (M := λ _ x, i = id ∧ x = PhReloaded).
  { intros x h [-> ->]. destruct (moves_install td PhBuilt h eq_refl) as (t & q' & Ht & Hr & Hq).
    exists t, q'. split_and!; [done..|]. by destruct (td_install_ned env td id h).1. }
  intros ?. eapply triple_conseq with (P := λ x, x = PhReloaded) (R := λ _ x, x = PhReloaded) (X := λ _, True);
    [|naive_solver|done|done].
  destruct (ba_install a); [apply moves_set_ned_id | apply keeps_moves, keeps_ret].
Qed.
End building.

(** *** Waiting *)

(** The seconds slept so far. *)
Definition item_sleep {value node : Set} (i : item (@effect value node)) : nat :=
  match i with Item e _ => match e with ESleep n => n | _ => 0 end end.
Definition slept {value node : Set} (h : list (item (@effect value node))) : nat := sum_list_with item_sleep h.

Section waiting.
Context {value node : Set} (env : environment (@effect value node)).

(** The console and the clock do not fail. *)
Definition console_ok : Prop :=
  (∀ h s, env unit h (EPrint s) = Ok tt) ∧ (∀ h n, env unit h (ESleep n) = Ok tt).

(** NSO reports that it is started from [start] seconds of waiting on. *)
Definition starts_at (start : nat) : Prop :=
  ∀ h, ∃ code, env Z h (ERun status_cmd None) = Ok code ∧ (code = 0%Z ↔ start ≤ slept h).

Lemma slept_app (h t : list (item (@effect value node))) : slept (h ++ t) = slept h + slept t.
Proof. unfold slept. induction h as [|i h IH]; [done|]. cbn [app sum_list_with]. rewrite IH. lia. Qed.

Lemma poll_run h code :
  env Z h (ERun status_cmd None) = Ok code →
  not_started env h = (Ok (negb (code =? 0)%Z), h ++ [Item (ERun status_cmd None) (Ok code)]).
Proof. intros Hc. unfold not_started, is_nso_running, call, act. monad_unfold. by rewrite Hc. Qed.

Lemma dot_run h : console_ok → ∃ t, wait_dot env h = (Ok tt, h ++ t) ∧ slept t = 5.
Proof.
  intros [Hp Hs]. unfold wait_dot, echo, call, act. monad_unfold. rewrite Hp, Hs, <-app_assoc.
  eexists. split; [reflexivity|done].
Qed.

(** One round of the loop. *)
Lemma round_run fuel h code :
  console_ok → env Z h (ERun status_cmd None) = Ok code → code ≠ 0%Z →
  ∃ t, slept t = 5 ∧
    while (S fuel) (not_started env) (wait_dot env) h = while fuel (not_started env) (wait_dot env) (h ++ t).
Proof.
  intros Hok Hc Hne. destruct (dot_run (h ++ [Item (ERun status_cmd None) (Ok code)]) Hok) as (t & Ht & Hs).
  exists (Item (ERun status_cmd None) (Ok code) :: t). split; [done|].
  cbn [while]. unfold mbind, PyM_bind. rewrite (poll_run h code Hc), (proj2 (Z.eqb_neq _ _) Hne). cbn [negb].
  rewrite Ht. by rewrite <-app_assoc.
Qed.

(** The wait from a moment at which [k] more rounds are needed. *)
Lemma wait_rounds start k fuel h :
  console_ok → starts_at start → start ≤ slept h + 5 * k → (∀ j, j < k → slept h + 5 * j < start) → k < fuel →
  ∃ t, while fuel (not_started env) (wait_dot env) h = (Ok tt, h ++ t) ∧ slept t = 5 * k.
Proof.
  intros Hok Hst. revert fuel h. induction k as [|k IH]; intros fuel h Hle Hlt Hf;
    (destruct fuel as [|fuel]; [lia|]); destruct (Hst h) as (code & Hc & Hz).
  - assert (code = 0%Z) as -> by (apply Hz; lia). cbn [while]. unfold mbind, PyM_bind.
    rewrite (poll_run h 0 Hc). eexists. split; [reflexivity|done].
  - assert (code ≠ 0%Z) as Hne by (intros H; apply Hz in H; pose proof (Hlt 0 ltac:(lia)); lia).
    destruct (round_run fuel h code Hok Hc Hne) as (u & Hu & ->).
    destruct (IH fuel (h ++ u)) as (t & -> & Hs).
    + rewrite slept_app, Hu. lia.
    + intros j Hj. rewrite slept_app, Hu. specialize (Hlt (S j)). lia.
    + lia.
    + exists (u ++ t). rewrite app_assoc, slept_app, Hu, Hs. split; [done|lia].
Qed.

(** Without an answer of zero the wait does not end. *)
Lemma wait_never fuel h :
  console_ok → (∀ h, ∃ code, env Z h (ERun status_cmd None) = Ok code ∧ code ≠ 0%Z) →
  (while fuel (not_started env) (wait_dot env) h).1 = Raise OutOfFuel.
Proof.
  intros Hok Hn. revert h. induction fuel as [|fuel IH]; intros h; [done|].
  destruct (Hn h) as (code & Hc & Hz). destruct (round_run fuel h code Hok Hc Hz) as (u & _ & ->). apply IH.
Qed.

(** The loop inside the messages around it. *)
Lemma wait_for_nso_loop fuel :
  console_ok →
  let '(r, h) := while fuel (not_started env) (wait_dot env) [Item (EPrint (py"Wait for NSO to start...")) (Ok tt)] in
  wait_for_nso env fuel [] =
    match r with Ok _ => (Ok tt, h ++ [Item (EPrint (py"ok" ++ nl)) (Ok tt)]) | Raise e => (Raise e, h) end.
Proof.
  intros [Hp Hs]. unfold wait_for_nso, mbind, PyM_bind. unfold echo at 1, call at 1, act at 1. rewrite Hp. cbn [app].
  destruct (while _ _ _ _) as [[[]|e] h]; [|done]. unfold println, call, act. by rewrite Hp.
Qed.
End waiting.

(** ** Properties *)

(** C24: for every command and every behaviour of NSO, the shell and the files, each
    transaction and session that the tool opens is used only while it is open and is
    closed before the tool ends, innermost first, also when a call raises. *)
Theorem transactions_closed {value node : Set} (value_str : value → pystr) (value_eqb : value → pystr → bool)
    (as_pyval : value → pystr) (val2str : value → node → pystr) (env : environment (@effect value node))
    (fuel : nat) (parse_args : list pystr → res command) (arguments : list pystr) (h : list (item effect)) :
  ∃ t, (ned_test value_str value_eqb as_pyval val2str env fuel parse_args arguments h).2 = h ++ t ∧
    runs handles_step [] t = Some [].
Proof.
  apply (keeps_runs handles_step (λ _, True)); [|done]. unfold ned_test.
  apply keeps_if; [apply keeps_raise|]. apply keeps_bind; [apply keeps_lift|intros c].
  apply keeps_bind; [apply wait_for_nso_keeps | intros _; apply run_command_keeps].
Qed.

(** the dialogue with NSO's command line follows its modes: lines are sent to a
    running session, every prompt that is waited for is the prompt of the mode the
    lines before have led to, and after a complete download the session is left. *)
Theorem dialogue_conforms {value node : Set} (value_str : value → pystr) (env : environment (@effect value node))
    (fuel : nat) (debug : bool) (device_name ned_name : pystr) (username : field) (vendor version : pystr)
    (h : list (item effect)) :
  ∃ t q, (download_yang_modules value_str env fuel debug device_name ned_name username vendor version h).2 = h ++ t ∧
    runs (cli_step ned_name version) CliNone t = Some q ∧
    (is_ok (download_yang_modules value_str env fuel debug device_name ned_name username vendor version h).1 →
     ∃ p, q = CliLeft p).
Proof.
  destruct (download_yang_modules_moves value_str env ned_name version fuel debug device_name username vendor CliNone h eq_refl)
    as (t & q & Ht & Hr & Hq).
  exists t, q. split_and!; [done..|]. destruct (download_yang_modules _ _ _ _ _ _ _ _ _ _).1; [done|]. intros [].
Qed.

(** while a NED is built nothing is copied into the packages directory before
    ncs-make-package and then make have returned zero, and nothing is written in
    NSO before the copied package has been reloaded; if the build returns, all of
    this has happened. *)
Theorem build_order {value node : Set} (value_str : value → pystr) (value_eqb : value → pystr → bool)
    (as_pyval : value → pystr) (val2str : value → node → pystr) (env : environment (@effect value node))
    (fuel : nat) (a : build_args) (h : list (item effect)) :
  let id := ned_id_of (ba_ned_name a) (ba_version a) in
  let step := build_step (package_cmd (ba_ned_name a) (ba_netsim a) (ba_vendor a) (ba_version a)) (make_cmd id) id in
  let result := build_ned value_str value_eqb as_pyval val2str env fuel a h in
  ∃ t q, result.2 = h ++ t ∧ runs step PhFresh t = Some q ∧ (is_ok result.1 → q = PhReloaded).
Proof.
  cbv zeta.
  destruct (build_ned_moves value_str value_eqb as_pyval val2str env _ _ _ fuel a eq_refl eq_refl eq_refl PhFresh h eq_refl)
    as (t & q & Ht & Hr & Hq).
  exists t, q. split_and!; [done..|]. destruct (build_ned _ _ _ _ _ _ _ _).1; [done|]. intros [].
Qed.

(** C36: when NSO reports that it is started after [start] seconds, the tool stops
    waiting, after the first multiple of five seconds from then on, less than five
    seconds later; when it never does, the tool waits for ever. *)
Theorem wait_for_nso_ends {value node : Set} (env : environment (@effect value node)) (start fuel : nat) :
  console_ok env →
  (starts_at env start → (start + 4) / 5 < fuel →
   ∃ h, wait_for_nso env fuel [] = (Ok tt, h) ∧ start ≤ slept h < start + 5) ∧
  ((∀ h, ∃ code, env Z h (ERun status_cmd None) = Ok code ∧ code ≠ 0%Z) →
   (wait_for_nso env fuel []).1 = Raise OutOfFuel).
Proof.
  intros Hok. pose proof (wait_for_nso_loop env fuel Hok) as Hl. set (h0 := [_]) in Hl. split.
  - intros Hst Hf. pose proof (Nat.div_mod_eq (start + 4) 5).
    pose proof (Nat.mod_upper_bound (start + 4) 5 ltac:(lia)).
    destruct (wait_rounds env start ((start + 4) / 5) fuel h0 Hok Hst) as (t & Ht & Hs).
    + change (slept h0) with 0. lia.
    + intros j Hj. change (slept h0) with 0. lia.
    + done.
    + rewrite Ht in Hl. eexists. split; [exact Hl|]. rewrite !slept_app, Hs. change (slept h0) with 0.
      change (slept [_]) with 0. lia.
  - intros Hn. pose proof (wait_never env fuel h0 Hok Hn) as Hw.
    destruct (while _ _ _ h0) as [[]?]; [done|]. by rewrite Hl.
Qed.

(** ** Witnesses *)

(** An environment in which NSO is started after some seconds. *)
Definition ex_env (start : nat) : environment (@effect unit unit) := λ A h e,
  match e in effect A return res A with
  | EPrint _ => Ok tt
  | ESleep _ => Ok tt
  | ERun cmd _ => Ok (if str_eqb cmd status_cmd && (start <=? slept h) then 0%Z else 1%Z)
  | _ => Raise PyException
  end.

Lemma ex_env_console start : console_ok (ex_env start).
Proof. done. Qed.

Lemma ex_env_starts start : starts_at (ex_env start) start.
Proof.
  intros h. exists (if start <=? slept h then 0%Z else 1%Z). split.
  - unfold ex_env. by rewrite str_eqb_refl.
  - destruct (Nat.leb_spec start (slept h)); split; intros; lia.
Qed.

Lemma wait_for_nso_ends_witness :
  ∃ h, wait_for_nso (ex_env 7) 4 [] = (Ok tt, h) ∧ 7 ≤ slept h < 12.
Proof.
  destruct (wait_for_nso_ends (ex_env 7) 7 4 (ex_env_console 7)) as [H _].
  apply H; [apply ex_env_starts | vm_compute; repeat constructor].
Defined.

(** ** What the code does not do *)

(** The directory of import-tests is not required on the command line, and without
    it the tool ends with a TypeError after it has talked to NSO. *)
Lemma import_tests_no_directory {value node : Set} value_str as_pyval val2str
    (env : environment (@effect value node)) name pattern h td h1 h2 :
  get_device value_str as_pyval val2str env name h = (Ok td, h1) → setup_drned_xmnr env td h1 = (Ok tt, h2) →
  import_tests value_str as_pyval val2str env name None pattern h = (Raise TypeError, h2).
Proof. intros H1 H2. unfold import_tests. monad_unfold. by rewrite H1, H2. Qed.

(** The package is built under /tmp, but what is removed before is a directory of
    the same name in the current directory. *)
Lemma rmtree_relative {value node : Set} (env : environment (@effect value node)) n s v ver :
  ∃ r, (create_ned_package env n s v ver []).2 !! 0 = Some (Item (ERmtree (ned_id_of n ver)) r).
Proof.
  unfold create_ned_package, call, act. monad_unfold.
  exists (env unit [] (ERmtree (ned_id_of n ver))). destruct (env unit [] _); [|done].
  unfold run_checked, call, act. monad_unfold. destruct (env Z _ _); [|done]. by destruct (_ =? 0)%Z.
Qed.
