(* ===== verification/Soup.v ===== *)
(** * Trees of tags

    The documents that the YANG tools rewrite with BeautifulSoup: a tree of tags
    with attributes and contents.  A tag has an identity, because the tools hold on
    to tags while they change the tree around them.  The operations are those of
    BeautifulSoup's documentation that the tools use; reading and writing documents
    are arguments of the tools.  No counterpart under src/. *)

From Stdlib Require Import Ascii String.
From S2P Require Import Prelude PyStr PyDict Xml.

(** ** Trees *)

Inductive node (I : Type) :=
  | Tag (id : I) (name : pystr) (attrs : list (pystr * pystr)) (contents : list (node I))
  | Str (s : pystr).
Arguments Tag {_} id name attrs contents.
Arguments Str {_} s.

Section node_ind.
Context {I : Type} (P : node I → Prop).
Context (Htag : ∀ id name attrs contents, Forall P contents → P (Tag id name attrs contents))
  (Hstr : ∀ s, P (Str s)).

Lemma node_ind' n : P n.
Proof.
  revert n. fix IH 1. intros [id name attrs contents|s]; [|apply Hstr]. apply Htag.
  induction contents as [|c cs IHcs]; constructor; [apply IH | exact IHcs].
Qed.
End node_ind.

Section tree.
Context {I : Type} `{EqDecision I}.
Implicit Types (n : node I) (cs : list (node I)).

Definition contents n : list (node I) := match n with Tag _ _ _ cs => cs | Str _ => [] end.

(** [tag.name] and [tag[key]]; texts have neither. *)
Definition has_name (name : pystr) n : bool :=
  match n with Tag _ nm _ _ => str_eqb nm name | Str _ => false end.
Definition attr (key : pystr) n : option pystr :=
  match n with Tag _ _ attrs _ => dict_get key attrs | Str _ => None end.
Definition get_attr (key : pystr) n : res pystr :=
  match attr key n with Some v => Ok v | None => Raise KeyError end.
Definition has_id (id : I) n : bool := match n with Tag i _ _ _ => bool_decide (i = id) | Str _ => false end.

(** A tag and everything below it, in document order. *)
Fixpoint subtree n : list (node I) :=
  n :: match n with Tag _ _ _ cs => concat (subtree <$> cs) | Str _ => [] end.

Definition descendants n : list (node I) := concat (subtree <$> contents n).

(** [tag.find_all(...)] and [tag.find(...)] with a condition on tags. *)
Definition find_all (p : node I → bool) n : list (node I) := List.filter p (descendants n).
Definition find_first (p : node I → bool) n : option (node I) := head (find_all p n).

(** The tag with an identity, and its parent. *)
Definition lookup_tag (id : I) root : option (node I) := head (List.filter (has_id id) (subtree root)).
Definition parent_of (id : I) root : option (node I) :=
  head (List.filter (λ n, existsb (has_id id) (contents n)) (subtree root)).

(** Change the tag with an identity. *)
Fixpoint update (id : I) (f : node I → node I) n : node I :=
  match n with
  | Tag i nm attrs cs =>
      let n' := Tag i nm attrs (update id f <$> cs) in if decide (i = id) then f n' else n'
  | Str _ => n
  end.

(** [tag.append(x)]. *)
Definition add_child (x : node I) n : node I :=
  match n with Tag i nm attrs cs => Tag i nm attrs (cs ++ [x]) | Str _ => n end.
Definition append (id : I) (x : node I) (root : node I) : node I := update id (add_child x) root.

(** [tag.decompose()]: the tag is taken out of its parent's contents. *)
Fixpoint decompose (id : I) n : node I :=
  match n with
  | Tag i nm attrs cs => Tag i nm attrs (concat ((λ c, if has_id id c then [] else [decompose id c]) <$> cs))
  | Str _ => n
  end.

(** The tree without the tags that satisfy a condition. *)
Fixpoint prune (p : node I → bool) n : node I :=
  match n with
  | Tag i nm attrs cs => Tag i nm attrs (concat ((λ c, if p c then [] else [prune p c]) <$> cs))
  | Str _ => n
  end.

(** ** Lemmas *)

Lemma str_eqb_eq a b : str_eqb a b = true → a = b.
Proof.
  revert b. induction a as [|c a IH]; intros [|d b]; cbn; try done.
  intros [->%Ascii.eqb_eq Hab]%andb_true_iff. f_equal. auto.
Qed.

Lemma has_name_true name n : has_name name n = true ↔ ∃ i a cs, n = Tag i name a cs.
Proof.
  destruct n as [i nm a cs|s]; cbn; split; try done.
  - intros ->%str_eqb_eq. by eexists _, _, _.
  - intros (i' & a' & cs' & [= -> -> -> ->]). apply str_eqb_refl.
  - intros (? & ? & ? & ?). done.
Qed.

Lemma subtree_self n : n ∈ subtree n.
Proof. destruct n; left. Qed.

Lemma subtree_child n c x : c ∈ contents n → x ∈ subtree c → x ∈ subtree n.
Proof.
  destruct n as [i nm a cs|s]; cbn [contents subtree]; [|by intros ?%elem_of_nil].
  intros Hc Hx. right. apply list_elem_of_In, in_concat. exists (subtree c). split; [|by apply list_elem_of_In].
  apply list_elem_of_In, list_elem_of_fmap. by exists c.
Qed.

Lemma filter_filter {A} (p q : A → bool) (l : list A) :
  List.filter p (List.filter q l) = List.filter (λ x, p x && q x) l.
Proof.
  induction l as [|x l IH]; [done|]. cbn. destruct (q x) eqn:Hq; cbn; rewrite IH; [|by rewrite andb_false_r].
  by rewrite andb_true_r.
Qed.

Lemma filter_all {A} (p : A → bool) (l : list A) : Forall (λ x, p x = true) l → List.filter p l = l.
Proof. induction 1 as [|x l Hx _ IH]; [done|]. cbn. by rewrite Hx, IH. Qed.

(** A pruned tree has no such tags, and is kept by pruning again. *)
Lemma prune_none p n :
  (∀ i nm a cs cs', p (Tag i nm a cs) = p (Tag i nm a cs')) → (∀ s, p (Str s) = false) →
  find_all p (prune p n) = [].
Proof.
  intros Hp Hs. unfold find_all. assert (∀ m, Forall (λ x, p x = false) (descendants (prune p m))) as H.
  { induction m as [i nm a cs IH|s] using node_ind'; [|constructor].
    unfold descendants. cbn [prune contents]. apply Forall_concat, Forall_fmap, Forall_concat, Forall_fmap.
    eapply Forall_impl; [exact IH|]. intros c Hc. cbn [compose].
    destruct (p c) eqn:Hpc; [constructor|]. apply Forall_singleton.
    destruct c as [j nm' a' cs'|s]; cbn [prune subtree]; apply Forall_cons; (split; [|done || by constructor]).
    - by erewrite Hp.
    - done. }
  specialize (H n). induction H as [|x l Hx _ IHl]; [done|]. cbn. by rewrite Hx.
Qed.

(** *** What a tree contains *)

(** What a condition on tags and texts selects from a tree, in document order. *)
Definition collect {B} (g : node I → option B) n : list B := omap g (subtree n).

Definition node_id n : option I := match n with Tag i _ _ _ => Some i | Str _ => None end.
Definition node_text n : option pystr := match n with Tag _ _ _ _ => None | Str s => Some s end.

(** The identities and the texts. *)
Definition ids n : list I := collect node_id n.
Definition texts n : list pystr := collect node_text n.

(** A selection that does not look at the contents. *)
Definition shallow {B} (g : node I → option B) : Prop := ∀ i nm a cs cs', g (Tag i nm a cs) = g (Tag i nm a cs').

Lemma collect_tag {B} (g : node I → option B) i nm a cs :
  collect g (Tag i nm a cs) = option_list (g (Tag i nm a cs)) ++ concat (collect g <$> cs).
Proof.
  unfold collect. cbn [subtree].
  change (omap g (?x :: ?l)) with (match g x with Some y => y :: omap g l | None => omap g l end).
  assert (omap g (concat (subtree <$> cs)) = concat ((λ c, omap g (subtree c)) <$> cs)) as ->.
  { induction cs as [|c cs IH]; [done|]. rewrite !fmap_cons. cbn [concat]. by rewrite omap_app, IH. }
  by destruct (g _).
Qed.

Lemma collect_shallow {B} (g : node I → option B) i nm a cs :
  shallow g → collect g (Tag i nm a cs) = option_list (g (Tag i nm a [])) ++ concat (collect g <$> cs).
Proof. intros Hg. by rewrite collect_tag, (Hg i nm a cs []). Qed.

Lemma ids_tag i nm a cs : ids (Tag i nm a cs) = i :: concat (ids <$> cs).
Proof. apply (collect_tag node_id). Qed.

Lemma update_absent id f n : id ∉ ids n → update id f n = n.
Proof.
  induction n as [i nm a cs IH|s] using node_ind'; [|done]. rewrite ids_tag.
  intros [Hi Hcs]%not_elem_of_cons. cbn [update]. rewrite decide_False by congruence. f_equal.
  assert (Forall (λ c, update id f c = c) cs) as Hf.
  { clear Hi. induction IH as [|c cs Hc _ IHcs]; constructor;
      rewrite fmap_cons in Hcs; cbn [concat] in Hcs; apply not_elem_of_app in Hcs as [H1 H2]; auto. }
  induction Hf as [|c cs' Hc _ IHf]; [done|]. rewrite fmap_cons, Hc. f_equal.
  apply IHf; [by inversion IH|]. rewrite fmap_cons in Hcs. cbn [concat] in Hcs. by apply not_elem_of_app in Hcs as [_ ?].
Qed.

(** A tag that occurs once: appending to it adds exactly the new tree. *)
Lemma collect_append {B} (g : node I → option B) id x n :
  shallow g → NoDup (ids n) → id ∈ ids n → collect g (append id x n) ≡ₚ collect g n ++ collect g x.
Proof.
  intros Hg. unfold append. induction n as [i nm a cs IH|s] using node_ind'; [|by intros _ ?%elem_of_nil].
  rewrite ids_tag. intros [Hi Hnd]%NoDup_cons Hin. cbn [update]. case_decide as Heq.
  - subst i. assert (update id (add_child x) <$> cs = cs) as ->.
    { clear IH Hin Hnd. induction cs as [|c cs IHcs]; [done|]. rewrite fmap_cons in *. cbn [concat] in Hi.
      apply not_elem_of_app in Hi as [H1 H2]. rewrite update_absent by done. f_equal. auto. }
    cbn [add_child]. rewrite !collect_tag, fmap_app, concat_app, (Hg _ _ _ _ cs). cbn. by rewrite app_nil_r, app_assoc.
  - rewrite !collect_tag, (Hg _ _ _ _ cs), <-app_assoc. f_equiv.
    apply elem_of_cons in Hin as [->|Hin]; [done|]. clear Hi Heq.
    induction IH as [|c cs Hc _ IHcs]; [by apply elem_of_nil in Hin|].
    rewrite !fmap_cons in *. cbn [concat] in *. apply NoDup_app in Hnd as (Hn1 & Hn12 & Hn2).
    destruct (decide (id ∈ ids c)) as [Hc1|Hc1].
    + assert (update id (add_child x) <$> cs = cs) as ->.
      { clear IHcs Hin Hn2. assert (id ∉ concat (ids <$> cs)) as Hno by (intros H; by eapply Hn12).
        clear Hn12. induction cs as [|d cs IHcs]; [done|]. rewrite fmap_cons in *. cbn [concat] in Hno.
        apply not_elem_of_app in Hno as [H1 H2]. rewrite update_absent by done. f_equal. auto. }
      rewrite Hc by done. rewrite <-!app_assoc. f_equiv. apply Permutation_app_comm.
    + apply elem_of_app in Hin as [Hin|Hin]; [done|]. rewrite update_absent by done.
      rewrite IHcs by done. by rewrite app_assoc.
Qed.

(** Pruned trees agree when what is appended is pruned. *)
Lemma prune_append p id x n :
  (∀ i nm a cs cs', p (Tag i nm a cs) = p (Tag i nm a cs')) → p x = true → prune p (append id x n) = prune p n.
Proof.
  intros Hp Hx. unfold append. induction n as [i nm a cs IH|s] using node_ind'; [|done]. cbn [update].
  assert (concat ((λ c, if p c then [] else [prune p c]) <$> (update id (add_child x) <$> cs)) =
          concat ((λ c, if p c then [] else [prune p c]) <$> cs)) as Hcs.
  { induction IH as [|c cs Hc _ IHcs]; [done|]. rewrite !fmap_cons. cbn [concat]. rewrite IHcs. f_equal.
    assert (p (update id (add_child x) c) = p c) as ->; [|by rewrite Hc].
    destruct c as [j nm' a' cs'|s]; [|done]. cbn [update]. by case_decide; cbn [add_child]; apply Hp. }
  case_decide; cbn [add_child prune]; [|by rewrite Hcs].
  by rewrite fmap_app, concat_app, Hcs, fmap_cons, Hx, app_nil_r.
Qed.

Lemma shallow_id : shallow node_id.
Proof. done. Qed.

Lemma shallow_text : shallow node_text.
Proof. done. Qed.

Lemma elem_of_subtree_id m n i : m ∈ subtree n → node_id m = Some i → i ∈ ids n.
Proof. intros Hm Hi. unfold ids, collect. apply list_elem_of_omap. by exists m. Qed.

(** *** Tags found after appending *)

Lemma find_append p id x n :
  (∀ m, p (append id x m) = p m) → List.filter p (subtree x) = [] →
  omap node_id (List.filter p (subtree (append id x n))) = omap node_id (List.filter p (subtree n)).
Proof.
  intros Hp Hx. unfold append in *. set (up := update id (add_child x)) in *.
  induction n as [i nm a cs IH|s] using node_ind'; [|done].
  assert (omap node_id (List.filter p (concat (subtree <$> (up <$> cs)))) =
          omap node_id (List.filter p (concat (subtree <$> cs)))) as Hcs.
  { induction IH as [|c cs Hc _ IHcs]; [done|]. rewrite !fmap_cons. cbn [concat].
    by rewrite !List.filter_app, !omap_app, Hc, IHcs. }
  specialize (Hp (Tag i nm a cs)).
  assert (∃ cs', up (Tag i nm a cs) = Tag i nm a cs' ∧
    omap node_id (List.filter p (concat (subtree <$> cs'))) = omap node_id (List.filter p (concat (subtree <$> cs)))) as (cs' & Hup & Hcs').
  { unfold up. cbn [update]. case_decide; eexists; (split; [reflexivity|]); [|exact Hcs].
    rewrite fmap_app, concat_app, List.filter_app, omap_app. cbn. by rewrite app_nil_r, Hx, app_nil_r. }
  rewrite Hup in Hp |- *. cbn [subtree List.filter]. rewrite Hp. destruct (p (Tag i nm a cs)).
  - change (i :: omap node_id (List.filter p (concat (subtree <$> cs'))) =
            i :: omap node_id (List.filter p (concat (subtree <$> cs)))). by f_equal.
  - exact Hcs'.
Qed.

(** The tags found are the old ones, with what was appended. *)
Lemma filter_append p id x n :
  (∀ m, p (append id x m) = p m) → List.filter p (subtree x) = [] →
  List.filter p (subtree (append id x n)) = append id x <$> List.filter p (subtree n).
Proof.
  intros Hp Hx. unfold append in *. set (up := update id (add_child x)) in *.
  induction n as [i nm a cs IH|s] using node_ind'.
  2: { specialize (Hp (Str s)). unfold up. cbn. by destruct (p (Str s)). }
  assert (List.filter p (concat (subtree <$> (up <$> cs))) = up <$> List.filter p (concat (subtree <$> cs))) as Hcs.
  { induction IH as [|c cs Hc _ IHcs]; [done|]. rewrite !fmap_cons. cbn [concat].
    by rewrite !List.filter_app, fmap_app, Hc, IHcs. }
  specialize (Hp (Tag i nm a cs)).
  assert (∃ cs', up (Tag i nm a cs) = Tag i nm a cs' ∧
    List.filter p (concat (subtree <$> cs')) = up <$> List.filter p (concat (subtree <$> cs))) as (cs' & Hup & Hcs').
  { unfold up at 1. cbn [update]. case_decide; eexists; (split; [reflexivity|]); [|exact Hcs].
    fold up. rewrite fmap_app, concat_app, List.filter_app, Hcs. cbn. by rewrite app_nil_r, Hx, app_nil_r. }
  rewrite Hup in Hp |- *. cbn [subtree List.filter]. rewrite Hp. destruct (p (Tag i nm a cs)); [|exact Hcs'].
  rewrite fmap_cons, Hup. by f_equal.
Qed.

Lemma attr_append key id x n : attr key (append id x n) = attr key n.
Proof. destruct n as [i nm a cs|s]; [|done]. unfold append. cbn [update]. by case_decide. Qed.

Lemma contents_append id x n :
  ∃ extra, contents (append id x n) = (append id x <$> contents n) ++ extra ∧ (extra = [] ∨ extra = [x]).
Proof.
  destruct n as [i nm a cs|s]; [|exists []; by split; [|left]]. unfold append. cbn [update contents].
  case_decide; cbn [add_child contents]; [exists [x]|exists []; rewrite app_nil_r]; auto.
Qed.

Lemma has_id_append i id x n : has_id i (append id x n) = has_id i n.
Proof. destruct n as [j nm a cs|s]; [|done]. unfold append. cbn [update]. by case_decide. Qed.

Lemma has_child_append i id x n :
  has_id i x = false → existsb (has_id i) (contents (append id x n)) = existsb (has_id i) (contents n).
Proof.
  intros Hx. destruct (contents_append id x n) as (extra & -> & He). rewrite existsb_app.
  assert (existsb (has_id i) extra = false) as -> by (destruct He as [->| ->]; cbn; by rewrite ?Hx).
  rewrite orb_false_r. induction (contents n) as [|c cs IH]; [done|]. rewrite fmap_cons. cbn [existsb].
  by rewrite has_id_append, IH.
Qed.

(** A tag that is not there is not found. *)
Lemma absent_tag i n : i ∉ ids n → Forall (λ m, has_id i m = false) (subtree n).
Proof.
  intros Hi. apply Forall_forall. intros m Hm. destruct m as [j nm a cs|s]; [|done]. cbn.
  apply bool_decide_eq_false_2. intros ->. apply Hi. by eapply elem_of_subtree_id.
Qed.

Lemma filter_none {X} (p : X → bool) l : Forall (λ x, p x = false) l → List.filter p l = [].
Proof. induction 1 as [|y l Hy _ IH]; [done|]. cbn. by rewrite Hy. Qed.

Lemma lookup_tag_append i id x n :
  i ∉ ids x → lookup_tag i (append id x n) = append id x <$> lookup_tag i n.
Proof.
  intros Hi. unfold lookup_tag. rewrite filter_append.
  - by destruct (List.filter _ _).
  - intros m. apply has_id_append.
  - by apply filter_none, absent_tag.
Qed.

Lemma parent_of_append i id x n :
  i ∉ ids x → parent_of i (append id x n) = append id x <$> parent_of i n.
Proof.
  intros Hi. pose proof (absent_tag i x Hi) as Hx. rewrite Forall_forall in Hx. unfold parent_of. rewrite filter_append.
  - by destruct (List.filter _ _).
  - intros m. apply has_child_append, Hx, subtree_self.
  - apply filter_none, Forall_forall. intros m Hm. apply not_true_is_false.
    intros (c & Hc%list_elem_of_In & Hid)%existsb_exists.
    assert (c ∈ subtree x) as Hcx; [|by rewrite Hx in Hid].
    clear -Hm Hc. revert m Hm c Hc. induction x as [j nm a cs IH|s] using node_ind'; intros m Hm c Hc.
    + cbn [subtree] in Hm. apply elem_of_cons in Hm as [->|Hm]; [eapply subtree_child; [exact Hc|apply subtree_self]|].
      apply list_elem_of_In, in_concat in Hm as (l & Hl%list_elem_of_In & Hm%list_elem_of_In).
      apply list_elem_of_fmap in Hl as (d & -> & Hd). rewrite Forall_forall in IH.
      eapply subtree_child; [exact Hd|]. by eapply IH.
    + cbn [subtree] in Hm. apply list_elem_of_singleton in Hm as ->. by apply elem_of_nil in Hc.
Qed.

(** The identities found below the root. *)
Lemma find_all_append p id x n :
  (∀ m, p (append id x m) = p m) → List.filter p (subtree x) = [] →
  omap node_id (find_all p (append id x n)) = omap node_id (find_all p n).
Proof.
  intros Hp Hx. pose proof (find_append p id x n Hp Hx) as H. specialize (Hp n). unfold find_all, descendants.
  destruct n as [i nm a cs|s]; [|done]. unfold append in *. cbn [update] in *.
  destruct (decide (i = id)); cbn [add_child contents subtree List.filter] in *; rewrite Hp in H;
    (destruct (p (Tag i nm a cs)); [cbn in H; by injection H | exact H]).
Qed.

Lemma parent_in_tree id n p nm a cs : parent_of id n = Some (Tag p nm a cs) → p ∈ ids n.
Proof.
  unfold parent_of. intros H. assert (Tag p nm a cs ∈ subtree n) as Hin.
  { destruct (List.filter _ (subtree n)) as [|m l] eqn:Hf; [done|]. injection H as ->.
    assert (Tag p nm a cs ∈ List.filter (λ m, existsb (has_id id) (contents m)) (subtree n)) as Hm by (rewrite Hf; left).
    by apply list_elem_of_In, List.filter_In in Hm as [Hm%list_elem_of_In _]. }
  by eapply elem_of_subtree_id.
Qed.

Lemma found_in_tree p n i : i ∈ omap node_id (find_all p n) → i ∈ ids n.
Proof.
  intros (m & Hm & Hi)%list_elem_of_omap. unfold find_all in Hm.
  apply list_elem_of_In, List.filter_In in Hm as [Hm%list_elem_of_In _].
  eapply elem_of_subtree_id; [|exact Hi]. unfold descendants in Hm.
  destruct n as [j nm a cs|s]; [by right | by apply elem_of_nil in Hm].
Qed.

(** *** Pruning *)

Lemma prune_ext p q n : (∀ c, c ∈ descendants n → p c = q c) → prune p n = prune q n.
Proof.
  induction n as [i nm a cs IH|s] using node_ind'; [|done]. intros Hpq. cbn [prune]. f_equal. f_equal.
  assert (Forall (λ c, p c = q c ∧ ∀ d, d ∈ descendants c → p d = q d) cs) as Hcs.
  { apply Forall_forall. intros c Hc. split.
    - apply Hpq. unfold descendants. cbn [contents]. apply list_elem_of_In, in_concat.
      exists (subtree c). split; [|apply list_elem_of_In, subtree_self].
      apply list_elem_of_In, list_elem_of_fmap. by exists c.
    - intros d Hd. apply Hpq. unfold descendants at 1. cbn [contents]. apply list_elem_of_In, in_concat.
      exists (subtree c). split; [apply list_elem_of_In, list_elem_of_fmap; by exists c|]. apply list_elem_of_In.
      destruct c; [by right|by apply elem_of_nil in Hd]. }
  clear Hpq. induction cs as [|c cs IHcs]; [done|]. rewrite !fmap_cons. inversion IH; subst. inversion Hcs as [|? ? [Hc Hd] ?]; subst.
  f_equal; [|by apply IHcs]. rewrite Hc. destruct (q c); [done|]. f_equal. auto.
Qed.

Lemma decompose_prune id n : decompose id n = prune (has_id id) n.
Proof.
  induction n as [i nm a cs IH|s] using node_ind'; [|done]. cbn [decompose prune]. f_equal. f_equal.
  induction IH as [|c cs Hc _ IHcs]; [done|]. rewrite !fmap_cons. f_equal; [|done]. by rewrite Hc.
Qed.

(** Pruning leaves a part of the tree, in its order. *)
Lemma collect_prune {B} (g : node I → option B) p n :
  shallow g → collect g (prune p n) `sublist_of` collect g n.
Proof.
  intros Hg. induction n as [i nm a cs IH|s] using node_ind'; [|done].
  cbn [prune]. rewrite !collect_shallow by done. apply sublist_app; [done|].
  induction IH as [|c cs Hc _ IHcs]; [done|]. rewrite !fmap_cons. cbn [concat].
  rewrite fmap_app, concat_app. apply sublist_app; [|done].
  destruct (p c); cbn; [apply sublist_nil_l|]. by rewrite app_nil_r.
Qed.

Lemma collect_decompose {B} (g : node I → option B) id n :
  shallow g → collect g (decompose id n) `sublist_of` collect g n.
Proof. rewrite decompose_prune. apply collect_prune. Qed.

Lemma prune_prune p q n :
  shallow (λ c, Some (q c)) → prune q (prune p n) = prune (λ c, p c || q c) n.
Proof.
  intros Hq. induction n as [i nm a cs IH|s] using node_ind'; [|done]. cbn [prune]. f_equal.
  induction IH as [|c cs Hc _ IHcs]; [done|]. rewrite !fmap_cons. cbn [concat].
  rewrite fmap_app, concat_app, IHcs. f_equal.
  destruct (p c) eqn:Hp; [done|]. cbn [fmap list_fmap concat orb]. rewrite app_nil_r.
  assert (q (prune p c) = q c) as ->; [|by rewrite Hc].
  destruct c as [j nm' a' cs'|s]; [|done]. cbn [prune].
  pose proof (Hq j nm' a' (concat ((λ c, if p c then [] else [prune p c]) <$> cs')) cs') as H. by injection H.
Qed.

Lemma prune_nothing n : prune (λ _, false) n = n.
Proof.
  induction n as [i nm a cs IH|s] using node_ind'; [|done]. cbn [prune]. f_equal.
  induction IH as [|c cs Hc _ IHcs]; [done|]. rewrite fmap_cons. cbn [concat]. rewrite IHcs, Hc. done.
Qed.

Lemma parent_None id n : parent_of id n = None → ∀ c, c ∈ descendants n → has_id id c = false.
Proof.
  unfold parent_of. intros Hnone.
  assert (∀ m, m ∈ subtree n → existsb (has_id id) (contents m) = false) as H.
  { intros m Hm. apply not_true_is_false. intros Ht.
    assert (m ∈ List.filter (λ n, existsb (has_id id) (contents n)) (subtree n)) as Hin.
    { apply list_elem_of_In, List.filter_In. split; [by apply list_elem_of_In|done]. }
    destruct (List.filter _ (subtree n)); [by apply elem_of_nil in Hin|done]. }
  clear Hnone. induction n as [i nm a cs IH|s] using node_ind'; intros c Hc; [|by apply elem_of_nil in Hc].
  unfold descendants in Hc. cbn [contents] in Hc.
  apply list_elem_of_In, in_concat in Hc as (l & Hl%list_elem_of_In & Hc%list_elem_of_In).
  apply list_elem_of_fmap in Hl as (d & -> & Hd).
  assert (has_id id d = false) as Hid.
  { specialize (H (Tag i nm a cs) (subtree_self _)). cbn [contents] in H. apply not_true_is_false. intros Ht.
    apply not_true_iff_false in H. apply H. apply existsb_exists. exists d. split; [by apply list_elem_of_In|done]. }
  rewrite Forall_forall in IH. assert (∀ m, m ∈ subtree d → existsb (has_id id) (contents m) = false) as Hsub.
  { intros m Hm. apply H. eapply subtree_child; [|exact Hm]. done. }
  destruct d as [j nm' a' cs'|s]; cbn [subtree] in Hc; apply elem_of_cons in Hc as [->|Hc];
    solve [exact Hid | by apply elem_of_nil in Hc | exact (IH _ Hd Hsub _ Hc)].
Qed.

Lemma omap_filter {X Y} (f : X → option Y) (p : X → bool) (l : list X) :
  omap f (List.filter p l) = omap (λ x, if p x then f x else None) l.
Proof. induction l as [|x l IH]; [done|]. cbn. destruct (p x); cbn; by rewrite IH. Qed.

Lemma omap_filter_sublist {X Y} (f : X → option Y) (p : X → bool) (l : list X) :
  omap f (List.filter p l) `sublist_of` omap f l.
Proof.
  induction l as [|x l IH]; [done|]. cbn. destruct (p x); cbn; destruct (f x); try done; by constructor.
Qed.

(** Parts of a list without duplicates are in its order. *)
Lemma sublist_split {X} (l1 l2 u v : list X) x :
  NoDup (u ++ x :: v) → l1 ++ x :: l2 `sublist_of` u ++ x :: v → l1 `sublist_of` u ∧ l2 `sublist_of` v.
Proof.
  intros Hnd (k1 & k2 & Hk & H1 & (k2a & k2b & -> & H2)%sublist_cons_l)%sublist_app_l.
  rewrite app_assoc in Hk. assert (length u = length (k1 ++ k2a)) as Hlen.
  { apply (NoDup_lookup _ _ _ x Hnd); [by rewrite list_lookup_middle|by rewrite Hk, list_lookup_middle]. }
  apply app_inj_1 in Hk as [-> [= ->]]; [|done]. split; [|done]. by apply sublist_inserts_r.
Qed.

Lemma omap_unique {X Y} (f : X → option Y) (l : list X) x y v :
  NoDup (omap f l) → x ∈ l → y ∈ l → f x = Some v → f y = Some v → x = y.
Proof.
  induction l as [|z l IH]; [by intros _ ?%elem_of_nil|]. intros Hnd.
  change (omap f (z :: l)) with (match f z with Some w => w :: omap f l | None => omap f l end) in Hnd.
  assert (∀ u, u ∈ l → f u = Some v → f z = Some v → False) as Hno.
  { intros u Hu Hfu Hfz. rewrite Hfz in Hnd. apply NoDup_cons in Hnd as [Hv _]. apply Hv, list_elem_of_omap. eauto. }
  intros [->|Hx]%elem_of_cons [->|Hy]%elem_of_cons Hfx Hfy; [done|by destruct (Hno y)|by destruct (Hno x)|].
  apply IH; try done. destruct (f z); [by apply NoDup_cons in Hnd as [_ ?]|done].
Qed.

(** Taking out the tags that satisfy a condition, one by one, is pruning. *)
Definition among (l : list I) n : bool := existsb (λ i, has_id i n) l.

Lemma among_found p n :
  NoDup (ids n) → (∀ s, p (Str s) = false) → ∀ c, c ∈ descendants n → among (omap node_id (find_all p n)) c = p c.
Proof.
  intros Hnd Hstr c Hc. unfold among. destruct (p c) eqn:Hp.
  - apply existsb_exists. destruct c as [i nm a cs|s]; [|by rewrite Hstr in Hp].
    exists i. split; [|cbn; by apply bool_decide_eq_true].
    apply list_elem_of_In, list_elem_of_omap. exists (Tag i nm a cs). split; [|done].
    apply list_elem_of_In, List.filter_In. split; [by apply list_elem_of_In|done].
  - apply not_true_is_false. intros (i & Hi%list_elem_of_In & Hid)%existsb_exists.
    apply list_elem_of_omap in Hi as (m & Hm & Hmi).
    apply list_elem_of_In, List.filter_In in Hm as [Hm%list_elem_of_In Hpm].
    assert (∀ d, d ∈ descendants n → d ∈ subtree n) as Hdown.
    { intros d Hd. destruct n; [by right|by apply elem_of_nil in Hd]. }
    assert (node_id c = Some i) as Hci.
    { destruct c as [j nm a cs|s]; [|done]. cbn in Hid |- *. by apply bool_decide_eq_true in Hid as ->. }
    assert (m = c) as -> by (eapply (omap_unique node_id); [exact Hnd|by apply Hdown..|done|done]). congruence.
Qed.

Lemma shallow_has_id i : shallow (λ c, Some (has_id i c)).
Proof. done. Qed.

Lemma among_shallow l : shallow (λ c, Some (among l c)).
Proof. done. Qed.

Lemma decompose_all l n : foldl (λ r i, decompose i r) n l = prune (among l) n.
Proof.
  revert n. induction l as [|i l IH]; intros n; cbn [foldl].
  - unfold among. cbn [existsb]. by rewrite prune_nothing.
  - rewrite IH, decompose_prune, prune_prune by apply among_shallow. done.
Qed.
End tree.
