(* ===== verification/CliDump.v ===== *)
(** * The dump of CLI commands: cmd-path/app/confd_cli_dump.py

    Walks the schema that ConfD has loaded and prints an XML document with a cmd
    element for every node that carries an ID in its meta-data: the command, the
    path of the node, and the types of its parameters.  The schema nodes are
    ConfD's; looking up a key from a list is an argument. *)

From Stdlib Require Import Ascii String.
From S2P Require Import Prelude PyStr PyDict Xml Soup.

(** ** The schema *)

Inductive cs_kind :=
  | KContainer
  | KList
  | KLeafList
  | KLeaf
  | KCase
  | KOther.

#[export] Instance cs_kind_eq_dec : EqDecision cs_kind.
Proof. solve_decision. Defined.

(** A schema node: the prefix of its namespace, its name, its kind, its meta-data
    (a dictionary whose values may be None) if it has any, the type of its values,
    and its children. *)
Inductive cs_node :=
  | Cs (prefix tag : pystr) (kind : cs_kind) (meta_data : option (list (pystr * option pystr)))
      (shallow_type : Z) (children : list cs_node).

Definition prefix2str (n : cs_node) : pystr := match n with Cs p _ _ _ _ _ => p end.
Definition tag2str (n : cs_node) : pystr := match n with Cs _ t _ _ _ _ => t end.
Definition cs_kind_of (n : cs_node) : cs_kind := match n with Cs _ _ k _ _ _ => k end.
Definition cs_meta_data (n : cs_node) : option (list (pystr * option pystr)) := match n with Cs _ _ _ m _ _ => m end.
Definition cs_shallow_type (n : cs_node) : Z := match n with Cs _ _ _ _ s _ => s end.
Definition cs_children (n : cs_node) : list cs_node := match n with Cs _ _ _ _ _ cs => cs end.

(** The names of the types. *)
Definition type_names : list (Z * pystr) :=
  [(1, py"end marker"); (2, py"presence container"); (3, py"not yet used"); (4, py"NUL-terminated strings");
   (5, py"string"); (6, py"int8"); (7, py"int16"); (8, py"int32"); (9, py"int64"); (10, py"uint8"); (11, py"uint16");
   (12, py"uint32"); (13, py"uint64"); (14, py"xs:float,xs:double"); (15, py"inet:ipv4-address");
   (16, py"inet:ipv6-address"); (17, py"boolean"); (18, py"xs:QName"); (19, py"yang:date-and-time"); (20, py"xs:date");
   (23, py"xs:time"); (27, py"enumeration"); (29, py"bits size 32"); (30, py"bits size 64"); (31, py"leaf-list");
   (32, py"start of container or ist entry"); (33, py"end of container or list entry"); (34, py"instance-identifier");
   (35, py"union"); (36, py"see cdb_get_values in confd_lib_cdb(3)"); (37, py"list with CDB instance index");
   (38, py"yang:object-identifier"); (39, py"binary"); (40, py"inet:ipv4-prefix"); (41, py"inet:ipv6-prefix");
   (42, py"default value indicator"); (43, py"decimal64"); (44, py"identityref"); (45, py"deleted list entry");
   (46, py"yang:dotted-quad"); (47, py"yang:hex-string"); (48, py"tailf:ipv4-address-and-prefix-length");
   (49, py"tailf:ipv6-address-and-prefix-length"); (50, py"bits size larger than 64");
   (51, py"OBU list entry moved or inserted first"); (52, py"OBU list entry moved after")]%Z.

Definition type2str (shallow_type : Z) : res pystr := dict_lookup shallow_type type_names.

(** [s.rindex(sub)]. *)
Fixpoint rfind (s sub : pystr) : option nat :=
  match s with
  | [] => if startswith [] sub then Some 0 else None
  | _ :: s' =>
      match rfind s' sub with
      | Some i => Some (S i)
      | None => if startswith s sub then Some 0 else None
      end
  end.
Definition rindex (s sub : pystr) : res nat := match rfind s sub with Some i => Ok i | None => Raise ValueError end.

(** ** The walk *)

Section dump.
(** [_confd.cs_node_cd(node, path)]: the node at a path relative to another, or to
    the root. *)
Context (cs_node_cd : option cs_node → pystr → res cs_node).

(** The local variables of the loop over the meta-data; a command that has been
    created has a name, a source and its parameters. *)
Record md_state := MdState {
  cmd : option (pystr * pystr * list (node unit));
  expose_key_name : option pystr; alt_key_name : option pystr; drop_node : bool; cmd_path : pystr }.

Definition new_tag (name : pystr) (attrs : list (pystr * pystr)) (cs : list (node unit)) : node unit := Tag tt name attrs cs.

(** [tag.string = s]. *)
Definition string_tag (name s : pystr) : node unit := new_tag name [] [Str s].

(** The element of one parameter. *)
Definition param_tag (cs : cs_node) (st : md_state) (mv : option pystr) : res (node unit) :=
  match mv with
  | Some m =>
      let attrs :=
        if bool_decide (expose_key_name st = Some m)
        then [(py"yname", match alt_key_name st with Some alt => alt | None => m end)] else [] in
      key ← cs_node_cd (Some cs) m;
      t ← type2str (cs_shallow_type key);
      Ok (new_tag (py"param") attrs [string_tag (py"type") t])
  | None =>
      t ← type2str (cs_shallow_type cs);
      Ok (new_tag (py"param") [] [string_tag (py"type") t])
  end.

(** One statement of the meta-data. *)
Definition md_step (cs : cs_node) (st : md_state) (entry : pystr * option pystr) : res md_state :=
  let '(md, value) := entry in
  st1 ← (if decide (md = py"tailf:alt-name") then
      match value with
      | None => Raise AttributeError
      | Some alt_name =>
          match find alt_name (py":") with
          | Some i => Ok (MdState (cmd st) (expose_key_name st) (Some (drop (S i) alt_name)) (drop_node st) (cmd_path st))
          | None =>
              i ← rindex (cmd_path st) (tag2str cs);
              Ok (MdState (cmd st) (expose_key_name st) (alt_key_name st) (drop_node st)
                    (take i (cmd_path st) ++ alt_name ++ py" "))
          end
      end
    else Ok st);
  st2 ← (if decide (md = py"tailf:cli-drop-node-name") then
      i ← rindex (cmd_path st1) (tag2str cs);
      Ok (MdState (cmd st1) (expose_key_name st1) (alt_key_name st1) true (take i (cmd_path st1)))
    else Ok st1);
  let st3 := if decide (md = py"tailf:cli-expose-key-name")
             then MdState (cmd st2) value (alt_key_name st2) (drop_node st2) (cmd_path st2) else st2 in
  if startswith md (py"ID ") && negb (drop_node st3) then
    let '(name, source, params) :=
      match cmd st3 with
      | None => (take (length (cmd_path st3) - 1) (cmd_path st3), md, [])
      | Some c => c
      end in
    p ← param_tag cs st3 value;
    Ok (MdState (Some (name, source, params ++ [p])) (expose_key_name st3) (alt_key_name st3) (drop_node st3) (cmd_path st3))
  else Ok st3.

Definition md_loop (cs : cs_node) (new_cmd_path : pystr) : res md_state :=
  let st0 := MdState None None None false new_cmd_path in
  match cs_meta_data cs with
  | Some entries => res_fold (md_step cs) st0 entries
  | None => Ok st0
  end.

(** The cmd element with what its children add to it. *)
Definition cmd_tag (path : pystr) (c : pystr * pystr * list (node unit)) (kids : list (node unit)) : node unit :=
  let '(name, source, params) := c in
  new_tag (py"cmd") [(py"yname", name)]
    ([string_tag (py"xpath") path; string_tag (py"source") source; new_tag (py"params") [] params] ++ kids).

(** What a node and the nodes below it append to the current tag. *)
Fixpoint traverse_cs_nodes (path cmd_path0 : pystr) (cs : cs_node) : res (list (node unit)) :=
  match cs with
  | Cs prefix tag kind _ _ children =>
      match kind with
      | KContainer | KList | KLeafList | KLeaf =>
          let new_path := path ++ py"/" ++ prefix ++ py":" ++ tag in
          st ← md_loop cs (cmd_path0 ++ tag ++ py" ");
          let below := match kind with KList => [] | _ => cmd_path st end in
          kids ← res_map (traverse_cs_nodes new_path below) children;
          Ok (match cmd st with
              | None => concat kids
              | Some c =>
                  match kind with
                  | KContainer | KList => [cmd_tag new_path c (concat kids)]
                  | _ => cmd_tag new_path c [] :: concat kids
                  end
              end)
      | KCase => kids ← res_map (traverse_cs_nodes path cmd_path0) children; Ok (concat kids)
      | KOther => Ok []
      end
  end.

(** [str(soup)] and the nodes of the schema from a root on are given. *)
Context (render : list (node unit) → pystr) (siblings : cs_node → list cs_node).

Definition cli_dump (root_path : pystr) : PyM (list pystr) unit :=
  root ← lift (cs_node_cd None root_path);
  kids ← lift (res_map (traverse_cs_nodes [] []) (siblings root));
  print (replace (render [new_tag (py"cmds") [] (concat kids)]) (py"yname=") (py"name=")).
End dump.

(** ** What is dumped *)

(** The path, the source and the number of parameters of a cmd element. *)
Definition cmd_of (n : node unit) : option (pystr * pystr * nat) :=
  match n with
  | Tag _ nm _ (Tag _ _ _ [Str path] :: Tag _ _ _ [Str source] :: Tag _ _ _ params :: _) =>
      if str_eqb nm (py"cmd") then Some (path, source, length params) else None
  | _ => None
  end.

(** The commands of a document, in document order. *)
Definition commands_of (l : list (node unit)) : list (pystr * pystr * nat) := omap cmd_of (concat (subtree <$> l)).

(** The identifiers of a node's meta-data before it drops its name. *)
Fixpoint ids_before_drop (entries : list (pystr * option pystr)) : list pystr :=
  match entries with
  | [] => []
  | (md, _) :: l =>
      if decide (md = py"tailf:cli-drop-node-name") then []
      else if startswith md (py"ID ") then md :: ids_before_drop l else ids_before_drop l
  end.

Definition node_ids (cs : cs_node) : list pystr :=
  match cs_meta_data cs with Some entries => ids_before_drop entries | None => [] end.

(** The command of a node with its path: its first identifier and how many it has. *)
Definition own_command (path : pystr) (ids : list pystr) : list (pystr * pystr * nat) :=
  match ids with [] => [] | i :: _ => [(path, i, length ids)] end.

(** The commands of the schema, a node before the nodes below it. *)
Fixpoint schema_commands (path : pystr) (cs : cs_node) : list (pystr * pystr * nat) :=
  match cs with
  | Cs prefix tag kind meta_data _ children =>
      match kind with
      | KContainer | KList | KLeafList | KLeaf =>
          let new_path := path ++ py"/" ++ prefix ++ py":" ++ tag in
          own_command new_path (match meta_data with Some entries => ids_before_drop entries | None => [] end) ++
          concat (schema_commands new_path <$> children)
      | KCase => concat (schema_commands path <$> children)
      | KOther => []
      end
  end.

(** ** Lemmas *)

Section facts.
Context (cs_node_cd : option cs_node → pystr → res cs_node).

Lemma cs_node_ind' (P : cs_node → Prop) :
  (∀ p t k m s cs, Forall P cs → P (Cs p t k m s cs)) → ∀ n, P n.
Proof.
  intros H. fix IH 1. intros [p t k m s cs]. apply H.
  induction cs as [|c cs IHcs]; constructor; [apply IH | exact IHcs].
Qed.

(** The source and the number of parameters of the command so far. *)
Definition described (c : option (pystr * pystr * list (node unit))) : option (pystr * nat) :=
  match c with Some (_, source, params) => Some (source, length params) | None => None end.

Definition with_ids (c : option (pystr * nat)) (ids : list pystr) : option (pystr * nat) :=
  match c, ids with
  | Some (s, n), _ => Some (s, n + length ids)
  | None, [] => None
  | None, i :: _ => Some (i, length ids)
  end.

(** Parameters contain no commands. *)
Definition params_ok (c : option (pystr * pystr * list (node unit))) : Prop :=
  match c with Some (_, _, params) => commands_of params = [] | None => True end.

Lemma commands_of_app a b : commands_of (a ++ b) = commands_of a ++ commands_of b.
Proof. unfold commands_of. by rewrite fmap_app, concat_app, omap_app. Qed.

Lemma commands_of_cons n l : commands_of (n :: l) = commands_of [n] ++ commands_of l.
Proof. exact (commands_of_app [n] l). Qed.

Lemma commands_of_concat l : commands_of (concat l) = concat (commands_of <$> l).
Proof. induction l as [|a l IH]; [done|]. cbn [concat]. by rewrite commands_of_app, IH. Qed.

Lemma param_tag_no_command cs st mv p : param_tag cs_node_cd cs st mv = Ok p → commands_of [p] = [].
Proof.
  unfold param_tag. destruct mv as [m|]; cbv zeta; intros Hp; inv_bind; reflexivity.
Qed.

Lemma with_ids_nil c : with_ids c [] = c.
Proof. destruct c as [[s n]|]; cbn; [by rewrite Nat.add_0_r|done]. Qed.

Lemma with_ids_app c a b : with_ids (with_ids c a) b = with_ids c (a ++ b).
Proof.
  destruct c as [[s n]|]; cbn; [by rewrite length_app, Nat.add_assoc|].
  destruct a as [|i a]; cbn; [done|]. by rewrite length_app.
Qed.

(** One statement of the meta-data. *)
Lemma md_step_spec cs st md value st' :
  md_step cs_node_cd cs st (md, value) = Ok st' → params_ok (cmd st) →
  params_ok (cmd st') ∧
  drop_node st' = drop_node st || bool_decide (md = py"tailf:cli-drop-node-name") ∧
  described (cmd st') = with_ids (described (cmd st))
    (if startswith md (py"ID ") && negb (drop_node st') then [md] else []).
Proof.
  intros Hstep Hok. unfold md_step in Hstep. apply bind_Ok in Hstep as (st1 & H1 & Hstep).
  assert (cmd st1 = cmd st ∧ drop_node st1 = drop_node st) as [Hc1 Hd1].
  { clear Hstep. case_decide; [|by apply Ok_inj in H1 as ->]. destruct value as [alt|]; [|done].
    destruct (find alt (py":")); inv_bind; done. }
  apply bind_Ok in Hstep as (st2 & H2 & Hstep).
  assert (cmd st2 = cmd st ∧ drop_node st2 = drop_node st || bool_decide (md = py"tailf:cli-drop-node-name")) as [Hc2 Hd2].
  { clear Hstep. case_decide as Hd.
    - inv_bind. cbn [cmd drop_node]. rewrite bool_decide_true, orb_true_r by done. done.
    - apply Ok_inj in H2 as <-. rewrite bool_decide_false, orb_false_r by done. by rewrite Hc1, Hd1. }
  clear H1 H2. cbv zeta in Hstep. set (st3 := if decide _ then _ else st2) in Hstep.
  assert (cmd st3 = cmd st ∧ drop_node st3 = drop_node st2) as [Hc3 Hd3] by (unfold st3; destruct (decide (md = py"tailf:cli-expose-key-name")); cbn; auto).
  rewrite <-Hd2, <-Hd3. clearbody st3. clear Hd2 Hd3 Hc2 Hc1 Hd1 st1 st2.
  destruct (startswith md (py"ID ") && negb (drop_node st3)) eqn:Hid.
  - destruct (cmd st) as [[[name source] params]|] eqn:Hcmd; rewrite Hc3 in Hstep; inv_bind;
      cbn [cmd drop_node described with_ids params_ok]; rewrite Hid; cbn [length].
    + split_and!; [|done|by rewrite length_app].
      rewrite commands_of_app. unfold params_ok in Hok. rewrite Hok. by eapply param_tag_no_command.
    + split_and!; [|done|done]. by eapply param_tag_no_command.
  - apply Ok_inj in Hstep as <-. rewrite Hid, Hc3, with_ids_nil. done.
Qed.

Lemma md_fold_spec cs entries st st' :
  res_fold (md_step cs_node_cd cs) st entries = Ok st' → params_ok (cmd st) →
  params_ok (cmd st') ∧
  described (cmd st') = with_ids (described (cmd st)) (if drop_node st then [] else ids_before_drop entries).
Proof.
  revert st. induction entries as [|[md value] entries IH]; intros st; cbn [res_fold].
  - intros <-%Ok_inj Hok. split; [done|]. cbn [ids_before_drop].
    destruct (drop_node st); by rewrite with_ids_nil.
  - intros (st1 & H1 & Hf)%bind_Ok Hok. destruct (md_step_spec _ _ _ _ _ H1 Hok) as (Hok1 & Hd & Hc).
    destruct (IH st1 Hf Hok1) as [Hok' Hc']. split; [done|]. rewrite Hc', Hc, Hd. cbn [ids_before_drop].
    rewrite with_ids_app. f_equal. destruct (drop_node st); cbn [orb negb]; [by rewrite andb_false_r|].
    case_decide as Hmd.
    + rewrite bool_decide_true by done. by rewrite andb_false_r.
    + rewrite bool_decide_false by done. rewrite andb_true_r. by destruct (startswith md (py"ID ")).
Qed.

Lemma md_loop_spec cs p st :
  md_loop cs_node_cd cs p = Ok st →
  params_ok (cmd st) ∧ described (cmd st) = with_ids None (node_ids cs).
Proof.
  unfold md_loop, node_ids. destruct (cs_meta_data cs) as [entries|].
  - intros Hf. apply md_fold_spec in Hf; [exact Hf|done].
  - intros <-%Ok_inj. done.
Qed.

Lemma omap_cmd_cons n l :
  omap cmd_of (n :: l) = match cmd_of n with Some c => c :: omap cmd_of l | None => omap cmd_of l end.
Proof. done. Qed.

(** A tag that is no command shows the commands in it. *)
Lemma plain_tag_commands name attrs cs :
  str_eqb name (py"cmd") = false → commands_of [new_tag name attrs cs] = commands_of cs.
Proof.
  intros Hn. unfold commands_of, new_tag. rewrite fmap_cons. cbn [fmap list_fmap concat subtree]. rewrite app_nil_r.
  rewrite omap_cmd_cons.
  assert (cmd_of (Tag tt name attrs cs) = None) as ->; [|done].
  unfold cmd_of. rewrite Hn. by repeat case_match.
Qed.

(** A cmd element shows its command and those of the elements in it. *)
Lemma cmd_tag_commands path name source params kids :
  commands_of params = [] →
  commands_of [cmd_tag path (name, source, params) kids] = (path, source, length params) :: commands_of kids.
Proof.
  intros Hp. unfold cmd_tag. set (cs := _ ++ kids).
  assert (commands_of [new_tag (py"cmd") [(py"yname", name)] cs] = (path, source, length params) :: commands_of cs) as ->.
  { unfold commands_of, new_tag. rewrite fmap_cons. cbn [fmap list_fmap concat subtree]. rewrite app_nil_r.
    rewrite omap_cmd_cons. reflexivity. }
  f_equal. unfold cs. rewrite commands_of_app.
  change [string_tag (py"xpath") path; string_tag (py"source") source; new_tag (py"params") [] params] with
    ([string_tag (py"xpath") path] ++ [string_tag (py"source") source] ++ [new_tag (py"params") [] params]).
  rewrite !commands_of_app. unfold string_tag. rewrite !plain_tag_commands, Hp by reflexivity. done.
Qed.

Lemma described_None c : described c = None → c = None.
Proof. by destruct c as [[[? ?] ?]|]. Qed.

Lemma traverse_commands path cp cs ts :
  traverse_cs_nodes cs_node_cd path cp cs = Ok ts → commands_of ts = schema_commands path cs.
Proof.
  revert path cp ts. induction cs as [prefix tag kind meta sh children IH] using cs_node_ind'. intros path cp ts Ht.
  assert (∀ p c kids, res_map (traverse_cs_nodes cs_node_cd p c) children = Ok kids →
    commands_of (concat kids) = concat (schema_commands p <$> children)) as Hkids.
  { intros p c kids Hk%res_map_Ok. rewrite commands_of_concat. f_equal. clear Ht.
    induction Hk as [|x y l l' Hxy _ IHk]; [done|]. apply Forall_cons in IH as [Hx Hl].
    rewrite !fmap_cons. f_equal; [by eapply Hx | by apply IHk]. }
  assert (∀ st p kids, md_loop cs_node_cd (Cs prefix tag kind meta sh children) p = Ok st →
    commands_of (match cmd st with
      | None => concat kids
      | Some c => match kind with
                  | KContainer | KList => [cmd_tag (path ++ py"/" ++ prefix ++ py":" ++ tag) c (concat kids)]
                  | _ => cmd_tag (path ++ py"/" ++ prefix ++ py":" ++ tag) c [] :: concat kids end end) =
    own_command (path ++ py"/" ++ prefix ++ py":" ++ tag) (node_ids (Cs prefix tag kind meta sh children)) ++
      commands_of (concat kids)) as Hown.
  { intros st p kids Hmd. destruct (md_loop_spec _ _ _ Hmd) as [Hok Hdesc].
    destruct (node_ids _) as [|i ids]; cbn [with_ids] in Hdesc.
    - apply described_None in Hdesc as ->. done.
    - destruct (cmd st) as [[[name source] params]|]; [|done]. cbn [described] in Hdesc.
      injection Hdesc as -> Hlen. cbn [own_command app length]. rewrite <-Hlen.
      destruct kind; try (by apply cmd_tag_commands);
        rewrite commands_of_cons, cmd_tag_commands by exact Hok; done. }
  unfold node_ids in Hown. cbn [cs_meta_data] in Hown.
  destruct kind; cbn [traverse_cs_nodes schema_commands] in *; cbv zeta in Ht.
  1-4: apply bind_Ok in Ht as (st & Hmd & Ht); apply bind_Ok in Ht as (kids & Hk & Ht); apply Ok_inj in Ht as <-;
    rewrite (Hown st _ kids Hmd); f_equal; by eapply Hkids.
  - apply bind_Ok in Ht as (kids & Hk & Ht). apply Ok_inj in Ht as <-. by eapply Hkids.
  - by apply Ok_inj in Ht as <-.
Qed.
End facts.

(** ** Properties *)

(** C3: the document that is printed has one cmd element for every node of the
    schema with an identifier in its meta-data that is not dropped before, in the
    order of the schema, with the node's path, its first identifier as the source
    and one parameter for each identifier. *)
Theorem dump_commands (cs_node_cd : option cs_node → pystr → res cs_node) (render : list (node unit) → pystr)
    (siblings : cs_node → list cs_node) (root_path : pystr) (root : cs_node) (out : list pystr) :
  cs_node_cd None root_path = Ok root →
  cli_dump cs_node_cd render siblings root_path [] = (Ok tt, out) →
  ∃ elements, out = [replace (render [new_tag (py"cmds") [] elements]) (py"yname=") (py"name=") ++ nl] ∧
    commands_of elements = concat (schema_commands [] <$> siblings root).
Proof.
  intros Hroot. unfold cli_dump, print. unfold mbind, PyM_bind, lift. rewrite Hroot.
  destruct (res_map _ (siblings root)) as [kids|e] eqn:Hk; [|done].
  unfold modify. intros [= <-]. exists (concat kids). split; [done|].
  apply res_map_Ok in Hk. rewrite commands_of_concat. f_equal.
  induction Hk as [|x y l l' Hxy _ IH]; [done|]. rewrite !fmap_cons. f_equal; [|done]. by eapply traverse_commands.
Qed.

(** ** Witnesses *)

Definition ex_schema : cs_node :=
  Cs (py"ex") (py"ip") KContainer None 32
    [Cs (py"ex") (py"vrf") KList (Some [(py"ID ex:7", Some (py"name")); (py"ID ex:9", Some (py"rd"))]) 32
       [Cs (py"ex") (py"name") KLeaf None 5 [];
        Cs (py"ex") (py"mtu") KLeaf (Some [(py"tailf:alt-name", Some (py"size")); (py"ID ex:3", None)]) 11 []]].

Definition ex_cd (from : option cs_node) (path : pystr) : res cs_node :=
  match from with
  | None => Ok ex_schema
  | Some n => match List.filter (λ c, str_eqb (tag2str c) path) (cs_children n) with c :: _ => Ok c | [] => Ok n end
  end.

Lemma dump_commands_witness :
  ∃ elements, commands_of elements =
    [(py"/ex:ip/ex:vrf", py"ID ex:7", 2); (py"/ex:ip/ex:vrf/ex:mtu", py"ID ex:3", 1)].
Proof.
  destruct (dump_commands ex_cd (λ _, py"<cmds/>") (λ n, [n]) (py"/ip") ex_schema [py"<cmds/>" ++ nl] eq_refl)
    as (elements & _ & He); [vm_compute; reflexivity|].
  exists elements. rewrite He. vm_compute. reflexivity.
Defined.

(** ** What the code does not do *)

(** A node whose name is replaced and then dropped: its old name is looked for in
    the command, where it is no longer, or is part of another word. *)
Definition renamed_and_dropped : cs_node :=
  Cs (py"ex") (py"a") KLeaf
    (Some [(py"tailf:alt-name", Some (py"x")); (py"tailf:cli-drop-node-name", None)]) 5 [].

Lemma rename_then_drop cd :
  md_loop cd renamed_and_dropped (py"cmd a ") = Raise ValueError ∧
  cmd_path <$> md_loop cd renamed_and_dropped (py"vlan a ") = Ok (py"vl").
Proof. split; reflexivity. Qed.
