(* ===== verification/TagYang.v ===== *)
(** * Tagging YANG modules: cmd-path/app/confd_tag_yang.py

    Gives every leaf, leaf-list and presence container of a YANG module an
    identifier in a tailf:meta-data statement, and copies some tailf extensions to
    meta-data, so that the schema dump can find the CLI commands.  The module is
    converted to YIN by pyang, its text is adapted for BeautifulSoup, the tree is
    changed, and the way back is taken.  pyang and BeautifulSoup's reading and
    writing are arguments. *)

From Stdlib Require Import Ascii String.
From S2P Require Import Prelude PyStr PyDict Xml Soup.

(** ** The tree that is changed *)

(** The document and the next identity of a tag. *)
Record soup := Soup { root : node nat; fresh : nat }.

Abbreviation M := (PyM soup).

(** The meta-data statement that is added. *)
Definition md_stmt (n : nat) (md : pystr) (mv : option pystr) : node nat :=
  Tag n (py"tailf_prefix_meta-data") []
    (Tag (n + 1) (py"tailf_prefix_value") [] [Str md] ::
     match mv with Some v => [Tag (n + 2) (py"tailf_prefix_meta-value") [(py"value", v)] []] | None => [] end).

Definition append_md_val (node_stmt : nat) (md : pystr) (mv : option pystr) : M unit :=
  modify (λ s, Soup (append node_stmt (md_stmt (fresh s) md mv) (root s)) (fresh s + 3)).

(** [tag.find_previous_sibling(name)]: the last one before the tag. *)
Fixpoint previous_sibling (name : pystr) (id : nat) (found : option (node nat)) (cs : list (node nat)) : option (node nat) :=
  match cs with
  | [] => None
  | c :: cs' =>
      if has_id id c then found
      else previous_sibling name id (if has_name name c then Some c else found) cs'
  end.

(** A tag that is not in the tree has no attributes to read. *)
Definition the_tag (id : nat) (root : node nat) : res (node nat) :=
  match lookup_tag id root with Some n => Ok n | None => Raise AttributeError end.

(** The tag that gets the meta-data of a statement, with the value: the list, when
    the statement is one of its keys. *)
Definition md_place (node_stmt : nat) (mv : option pystr) (root : node nat) : res (nat * option pystr) :=
  match parent_of node_stmt root with
  | Some (Tag p nm _ cs) =>
      if str_eqb nm (py"list") then
        match previous_sibling (py"key") node_stmt None cs with
        | Some key_stmt =>
            n ← the_tag node_stmt root;
            yname ← get_attr (py"yname") n;
            value ← get_attr (py"value") key_stmt;
            if contains value yname
            then Ok (p, Some (match mv with None => yname | Some v => yname ++ py":" ++ v end))
            else Ok (node_stmt, mv)
        | None => Ok (node_stmt, mv)
        end
      else Ok (node_stmt, mv)
  | _ => Ok (node_stmt, mv)
  end.

Definition append_md (node_stmt : nat) (md : pystr) (mv : option pystr) : M unit :=
  s ← get;
  place ← lift (md_place node_stmt mv (root s));
  append_md_val place.1 md place.2.

(** ** The passes over the document *)

(** The identities of the tags with a name, in document order. *)
Definition find_ids (p : node nat → bool) (root : node nat) : list nat := omap node_id (find_all p root).

Fixpoint M_each {A} (f : A → M unit) (l : list A) : M unit :=
  match l with [] => mret tt | x :: l' => _ ← f x; M_each f l' end.

(** Existing meta-data is removed; a statement inside a removed one has no parent. *)
Definition remove_one (i : nat) : M unit :=
  modify (λ s, match parent_of i (root s) with Some _ => Soup (decompose i (root s)) (fresh s) | None => s end).

Definition remove_metadata : M unit :=
  s ← get;
  M_each remove_one (find_ids (has_name (py"tailf_prefix_metadata")) (root s)).

(** One tailf extension is copied to meta-data of its parent. *)
Definition copy_one (name : pystr) (value : node nat → res (option pystr)) (i : nat) : M unit :=
  s ← get;
  n ← lift (the_tag i (root s));
  mv ← lift (value n);
  match parent_of i (root s) with
  | Some (Tag p _ _ _) => append_md p name mv
  | _ => raise AttributeError
  end.

(** All extensions with a name. *)
Definition copy_extension (name : pystr) (value : node nat → res (option pystr)) : M unit :=
  s ← get; M_each (copy_one name value) (find_ids (has_name name) (root s)).

(** The next identifiers for a list of statements. *)
Fixpoint tag_ids (prefix : res pystr) (l : list nat) (id : nat) : M nat :=
  match l with
  | [] => mret id
  | i :: l' =>
      p ← lift prefix;
      _ ← append_md i (py"ID " ++ p ++ py":" ++ str_nat id) None;
      tag_ids prefix l' (id + 1)
  end.

Definition has_presence (n : node nat) : bool := existsb (has_name (py"presence")) (contents n).

(** [nsprefix['value']]; without a prefix statement there is nothing to subscript. *)
Definition prefix_value (nsprefix : option (node nat)) : res pystr :=
  match nsprefix with Some n => get_attr (py"value") n | None => Raise TypeError end.

Definition tag_soup : M unit :=
  s ← get;
  let nsprefix := find_first (has_name (py"prefix")) (root s) in
  _ ← remove_metadata;
  _ ← copy_extension (py"tailf_prefix_alt_name") (λ n, Some <$> get_attr (py"yname") n);
  _ ← copy_extension (py"tailf_prefix_cli_drop_node_name") (λ _, Ok None);
  _ ← copy_extension (py"tailf_prefix_cli_expose_key_name") (λ _, Ok None);
  s ← get;
  id ← tag_ids (prefix_value nsprefix) (find_ids (has_name (py"leaf")) (root s)) 0;
  s ← get;
  id ← tag_ids (prefix_value nsprefix) (find_ids (has_name (py"leaflist")) (root s)) id;
  s ← get;
  _ ← tag_ids (prefix_value nsprefix) (find_ids (λ n, has_name (py"container") n && has_presence n) (root s)) id;
  mret tt.

(** ** The tool *)

(** Names that BeautifulSoup would not take as tags and attributes. *)
Definition hidden_names : list (pystr * pystr) :=
  [(py"tailf:", py"tailf_prefix_"); (py"name=", py"yname="); (py"leaf-list", py"leaflist");
   (py"tailf_prefix_meta-data", py"tailf_prefix_metadata"); (py"tailf_prefix_alt-name", py"tailf_prefix_alt_name");
   (py"tailf_prefix_cli-drop-node-name", py"tailf_prefix_cli_drop_node_name");
   (py"tailf_prefix_cli-expose-key-name", py"tailf_prefix_cli_expose_key_name"); (py"xmlns:", py"xmlns_")].

Definition restored_names : list (pystr * pystr) :=
  [(py"tailf_prefix_", py"tailf:"); (py"tailf:alt_name", py"tailf:alt-name");
   (py"tailf:cli_drop_node_name", py"tailf:cli-drop-node-name");
   (py"tailf:cli_expose_key_name", py"tailf:cli-expose-key-name"); (py"yname=", py"name=");
   (py"leaflist", py"leaf-list"); (py"xmlns_", py"xmlns:")].

Definition replace_all (l : list (pystr * pystr)) (s : pystr) : pystr := foldl (λ s p, replace s p.1 p.2) s l.

Section tool.
Context (CONFD_DIR : option pystr) (pyang : list pystr → option pystr → pystr)
  (parse : pystr → soup) (render : node nat → pystr).

(** The directory of a path; without a slash it is the current one. *)
Definition yang_dir (yang_file : pystr) : pystr :=
  match before_last "/" yang_file with Some d => d | None => py"./" end.

(** What is printed.  Without CONFD_DIR the message is not reached: the module sys
    is not imported. *)
Definition tailf_info_path (yang_file : pystr) : res pystr :=
  match CONFD_DIR with
  | None => Raise NameError
  | Some confd_dir =>
      let yang_path := yang_dir yang_file in
      let yin_content := pyang [py"-f"; py"yin"; py"-p"; yang_path; py"-p"; confd_dir ++ py"/src/confd/yang"; yang_file] None in
      match tag_soup (parse (replace_all hidden_names yin_content)) with
      | (Ok _, s) =>
          let yin_soup_str := replace_all restored_names (render (root s)) in
          Ok (pyang [py"-f"; py"yang"; py"-p"; yang_path; py"-p"; confd_dir] (Some yin_soup_str) ++ nl)
      | (Raise e, _) => Raise e
      end
  end.
End tool.

(** ** Lemmas *)

(** Identities are distinct and below the next one. *)
Definition soup_ok (s : soup) : Prop := NoDup (ids (root s)) ∧ Forall (λ i, i < fresh s) (ids (root s)).

(** The added statements. *)
Definition is_md (n : node nat) : bool := has_name (py"tailf_prefix_meta-data") n.
Definition is_old_md (n : node nat) : bool := has_name (py"tailf_prefix_metadata") n.

(** A meta-data statement that is added: the tag that gets it, its text and its value. *)
Record addition := Addition { at_tag : nat; md_text : pystr; md_value : option pystr }.

Definition add (s : soup) (a : addition) : soup :=
  Soup (append (at_tag a) (md_stmt (fresh s) (md_text a) (md_value a)) (root s)) (fresh s + 3).

(** Where the meta-data of the statement [i] belongs, and its value: to the list, with
    the name of the statement before the value, if the statement is one of its keys
    (its name occurs in the key statement before it); else to the statement. *)
Definition key_of (r : node nat) (i l : nat) (y : pystr) : Prop :=
  ∃ la lcs k n v, parent_of i r = Some (Tag l (py"list") la lcs) ∧ previous_sibling (py"key") i None lcs = Some k ∧
    lookup_tag i r = Some n ∧ attr (py"yname") n = Some y ∧ attr (py"value") k = Some v ∧ contains v y = true.

Inductive placed (r : node nat) (i : nat) (mv : option pystr) : nat → option pystr → Prop :=
  | placed_list l y :
      key_of r i l y → placed r i mv l (Some (match mv with None => y | Some m => y ++ py":" ++ m end))
  | placed_here : (∀ l y, ¬ key_of r i l y) → placed r i mv i mv.

(** The meta-data for an extension [i]: its name, at the place of its parent. *)
Definition copied (r : node nat) (name : pystr) (value : node nat → res (option pystr)) (i : nat) (a : addition) : Prop :=
  ∃ n q mv, lookup_tag i r = Some n ∧ value n = Ok mv ∧ (parent_of i r ≫= node_id) = Some q ∧
    md_text a = name ∧ placed r q mv (at_tag a) (md_value a).

Lemma md_stmt_ids n md mv : ids (md_stmt n md mv) = n :: (n + 1) :: match mv with Some _ => [n + 2] | None => [] end.
Proof. by destruct mv. Qed.

(** *** What an added statement leaves *)

Lemma md_fresh s a i : soup_ok s → i ∈ ids (root s) → i ∉ ids (md_stmt (fresh s) (md_text a) (md_value a)).
Proof.
  intros [_ Hlt] Hi. rewrite Forall_forall in Hlt. specialize (Hlt i Hi). rewrite md_stmt_ids.
  destruct (md_value a); set_unfold; lia.
Qed.

(** The soup [s'] shows of the tags of [s] what [s] shows. *)
Record same (s s' : soup) : Prop := Same {
  same_ok : soup_ok s';
  same_ids : ids (root s) ⊆ ids (root s');
  same_tag i : i ∈ ids (root s) → ∃ f, lookup_tag i (root s') = f <$> lookup_tag i (root s) ∧
    ∀ n key, attr key (f n) = attr key n;
  same_parent i : i ∈ ids (root s) → (parent_of i (root s') ≫= node_id) = (parent_of i (root s) ≫= node_id);
  same_place i mv : i ∈ ids (root s) → md_place i mv (root s') = md_place i mv (root s);
  same_rest : prune is_md (root s') = prune is_md (root s);
  same_found p : (∀ i n x md mv, p (append i (md_stmt x md mv) n) = p n) →
    (∀ x md mv, List.filter p (subtree (md_stmt x md mv)) = []) →
    find_ids p (root s') = find_ids p (root s) }.

Lemma same_refl s : soup_ok s → same s s.
Proof. intros Hs. split; try done. intros i _. exists id. split; [by destruct (lookup_tag i (root s))|done]. Qed.

Lemma same_trans s1 s2 s3 : same s1 s2 → same s2 s3 → same s1 s3.
Proof.
  intros [Hok1 Hi1 Ht1 Hp1 Hm1 Hr1 Hf1] [Hok2 Hi2 Ht2 Hp2 Hm2 Hr2 Hf2]. split.
  - done.
  - set_solver.
  - intros i Hi. destruct (Ht1 i Hi) as (f & Hl & Hf). destruct (Ht2 i (Hi1 i Hi)) as (g & -> & Hg).
    exists (g ∘ f). rewrite Hl. split; [by destruct (lookup_tag i (root s1))|]. intros n key. cbn. by rewrite Hg, Hf.
  - intros i Hi. rewrite Hp2 by auto. auto.
  - intros i mv Hi. rewrite Hm2 by auto. auto.
  - congruence.
  - intros p Hp Hx. rewrite Hf2, Hf1 by done. done.
Qed.

Lemma previous_sibling_append name i j x found cs extra :
  existsb (has_id i) cs = true →
  previous_sibling name i (append j x <$> found) ((append j x <$> cs) ++ extra) =
    append j x <$> previous_sibling name i found cs.
Proof.
  revert found. induction cs as [|c cs IH]; intros found; [done|]. rewrite fmap_cons.
  cbn [existsb previous_sibling app]. rewrite has_id_append. destruct (has_id i c); [done|]. cbn [orb]. intros H.
  assert (has_name name (append j x c) = has_name name c) as ->.
  { destruct c as [k nm a ds|s]; [|done]. unfold append. cbn [update]. by case_decide. }
  destruct (has_name name c); [exact (IH (Some c) H)|by apply IH].
Qed.

Lemma parent_has_child i (r p : node nat) : parent_of i r = Some p → existsb (has_id i) (contents p) = true.
Proof.
  unfold parent_of. intros H. destruct (List.filter _ _) as [|q l] eqn:Hf; [done|]. injection H as ->.
  assert (In p (List.filter (λ n, existsb (has_id i) (contents n)) (subtree r))) as Hin by (rewrite Hf; by left).
  by apply List.filter_In in Hin as [_ ?].
Qed.

Lemma md_place_append i mv j x r : i ∉ ids x → md_place i mv (append j x r) = md_place i mv r.
Proof.
  intros Hi. unfold md_place, the_tag. rewrite parent_of_append, lookup_tag_append by done.
  destruct (parent_of i r) as [[p nm a cs|]|] eqn:Hp; [|done..]. apply parent_has_child in Hp. cbn [contents] in Hp.
  destruct (contents_append j x (Tag p nm a cs)) as (extra & Hc & _). cbn [contents] in Hc.
  assert (append j x (Tag p nm a cs) = Tag p nm a ((append j x <$> cs) ++ extra)) as Happ.
  { rewrite <-Hc. unfold append. cbn [update]. by case_decide. }
  cbn [fmap option_fmap option_map]. rewrite Happ.
  destruct (str_eqb nm (py"list")); [|done].
  pose proof (previous_sibling_append (py"key") i j x None cs extra Hp) as Hps. cbn in Hps. rewrite Hps.
  clear Hps. destruct (previous_sibling (py"key") i None cs) as [k|]; [|reflexivity]. cbn [fmap option_fmap option_map].
  destruct (lookup_tag i r) as [n|]; [|reflexivity]. cbn [fmap option_fmap option_map mbind res_bind]. unfold get_attr.
  by rewrite !attr_append.
Qed.

Lemma same_add s a : soup_ok s → at_tag a ∈ ids (root s) → same s (add s a).
Proof.
  intros Hok Hi. pose proof (md_fresh s a) as Hfresh. destruct Hok as [Hnd Hlt].
  set (x := md_stmt (fresh s) (md_text a) (md_value a)) in *.
  pose proof (collect_append node_id (at_tag a) x (root s) shallow_id Hnd Hi) as Hids. fold (ids x) in Hids.
  assert (Hx := md_stmt_ids (fresh s) (md_text a) (md_value a)). fold x in Hx. rewrite Forall_forall in Hlt.
  split; unfold add; fold x; cbn [root fresh].
  - split; cbn [root fresh]; unfold ids; rewrite Hids, Hx.
    + apply NoDup_app. split_and!; [done| |].
      * intros y Hy%Hlt Hin. destruct (md_value a); set_unfold; lia.
      * destruct (md_value a); repeat (apply NoDup_cons; split; [set_unfold; lia|]); apply NoDup_nil_2.
    + apply Forall_app. split; [apply Forall_forall; intros y Hy%Hlt; lia|].
      destruct (md_value a); repeat (apply Forall_cons; split; [lia|]); apply Forall_nil_2.
  - intros y Hy. unfold ids. rewrite Hids. apply elem_of_app. by left.
  - intros i Hin. exists (append (at_tag a) x). split; [|intros; apply attr_append].
    apply lookup_tag_append. apply Hfresh; [by split; [|apply Forall_forall]|done].
  - intros i Hin. rewrite parent_of_append by (apply Hfresh; [by split; [|apply Forall_forall]|done]).
    destruct (parent_of i (root s)) as [[p nm la cs|]|]; [|done..]. cbn. unfold append. cbn [update]. by case_decide.
  - intros i mv Hin. apply md_place_append. apply Hfresh; [by split; [|apply Forall_forall]|done].
  - by apply prune_append.
  - intros p Hp Hf. unfold find_ids. apply find_all_append; [intros m; apply Hp|apply Hf].
Qed.

(** *** The places *)

Lemma md_place_in_tree i mv r place : md_place i mv r = Ok place → i ∈ ids r → place.1 ∈ ids r.
Proof.
  unfold md_place. intros Hp Hi.
  destruct (parent_of i r) as [[p nm a cs|]|] eqn:Hpar; [|by apply Ok_inj in Hp as <-..].
  apply parent_in_tree in Hpar. destruct (str_eqb nm _); [|by apply Ok_inj in Hp as <-].
  destruct (previous_sibling _ _ _ _); [|by apply Ok_inj in Hp as <-].
  inv_bind. case_match; by match goal with H : Ok _ = Ok _ |- _ => apply Ok_inj in H as <- end.
Qed.

Lemma the_tag_Ok i r n : the_tag i r = Ok n → lookup_tag i r = Some n.
Proof. unfold the_tag. destruct (lookup_tag i r); [by intros [= ->]|done]. Qed.

Lemma get_attr_value key (n : node nat) v : get_attr key n = Ok v → attr key n = Some v.
Proof. unfold get_attr. destruct (attr key n); [by intros [= ->]|done]. Qed.

Lemma md_place_placed i mv r place : md_place i mv r = Ok place → placed r i mv place.1 place.2.
Proof.
  unfold md_place. intros Hp.
  destruct (parent_of i r) as [[p nm a cs|]|] eqn:Hpar.
  2,3: apply Ok_inj in Hp as <-; cbn [fst snd]; apply placed_here; intros l y (la & lcs & k & n & v & H & _); rewrite Hpar in H; discriminate.
  destruct (str_eqb nm _) eqn:Hnm.
  2: { apply Ok_inj in Hp as <-. cbn [fst snd]. apply placed_here. intros l y (la & lcs & k & n & v & H & _).
       rewrite Hpar in H. injection H as -> -> _ _. by rewrite str_eqb_refl in Hnm. }
  apply str_eqb_eq in Hnm as ->. destruct (previous_sibling _ _ _ _) as [k|] eqn:Hk.
  2: { apply Ok_inj in Hp as <-. cbn [fst snd]. apply placed_here. intros l y (la & lcs & k & n & v & H & H2 & _).
       rewrite Hpar in H. injection H as -> _ ->. congruence. }
  apply bind_Ok in Hp as (n & Hn%the_tag_Ok & Hp). apply bind_Ok in Hp as (y & Hy%get_attr_value & Hp).
  apply bind_Ok in Hp as (v & Hv%get_attr_value & Hp). destruct (contains v y) eqn:Hc; apply Ok_inj in Hp as <-; cbn [fst snd].
  - apply placed_list. exists a, cs, k, n, v. split_and!; done.
  - apply placed_here. intros l y' (la & lcs & k' & n' & v' & H1 & H2 & H3 & H4 & H5 & H6).
    rewrite Hpar in H1. injection H1 as -> _ ->. simplify_eq. congruence.
Qed.

(** A statement is tagged as it would have been in the soup [s0]. *)
Lemma append_md_add s0 i md mv s s' :
  append_md i md mv s = (Ok tt, s') → same s0 s → i ∈ ids (root s0) →
  ∃ a, s' = add s a ∧ same s0 s' ∧ md_text a = md ∧ placed (root s0) i mv (at_tag a) (md_value a).
Proof.
  unfold append_md, get, lift, mbind, PyM_bind. intros Hs Hsame Hi.
  destruct (md_place i mv (root s)) as [place|e] eqn:Hp; [|done].
  exists (Addition place.1 md place.2). injection Hs as <-. split; [done|].
  rewrite (same_place _ _ Hsame) in Hp by done. split; [|split; [done|by apply md_place_placed]].
  eapply same_trans; [exact Hsame|]. apply (same_add s (Addition place.1 md place.2)); [by eapply same_ok|].
  eapply same_ids; [exact Hsame|]. by eapply md_place_in_tree.
Qed.

(** The identifiers of a list of statements. *)
Definition id_texts (p : pystr) (from n : nat) : list pystr := (λ k, py"ID " ++ p ++ py":" ++ str_nat k) <$> seq from n.

Lemma tag_ids_adds s0 p l from s n s' :
  tag_ids (Ok p) l from s = (Ok n, s') → same s0 s → l ⊆ ids (root s0) →
  ∃ as_, n = from + length l ∧ s' = foldl add s as_ ∧ same s0 s' ∧
    Forall2 (λ i a, placed (root s0) i None (at_tag a) (md_value a)) l as_ ∧ md_text <$> as_ = id_texts p from (length l).
Proof.
  revert from s. induction l as [|i l IH]; intros from s; cbn [tag_ids].
  - intros [= <- <-] Hsame _. exists []. by split_and!; [cbn; lia|..].
  - unfold lift at 1, mbind, PyM_bind. intros Ht Hsame Hl.
    destruct (append_md i _ None s) as [[[]|e] s1] eqn:Ha; [|done].
    apply (append_md_add s0) in Ha as (a & -> & Hs1 & Htext & Hplace); [|done|set_solver].
    destruct (IH (from + 1) _ Ht Hs1) as (as_ & -> & -> & Hs' & Hall & Htexts); [set_solver|].
    exists (a :: as_). split_and!; [cbn; lia|done|done|by constructor|].
    rewrite fmap_cons, Htext, Htexts. unfold id_texts. cbn [length seq]. by rewrite fmap_cons, Nat.add_1_r.
Qed.

(** The copies of the extensions with a name. *)
Lemma copy_one_adds s0 name value i s s' :
  (∀ n n', (∀ key, attr key n' = attr key n) → value n' = value n) →
  copy_one name value i s = (Ok tt, s') → same s0 s → i ∈ ids (root s0) →
  ∃ a, s' = add s a ∧ same s0 s' ∧ copied (root s0) name value i a.
Proof.
  unfold copy_one, get, lift, mbind, PyM_bind. intros Hval H1 Hsame Hi.
  destruct (the_tag i (root s)) as [m|e] eqn:Hm; [|done]. apply the_tag_Ok in Hm.
  destruct (value m) as [mv|e] eqn:Hv; [|done].
  destruct (parent_of i (root s)) as [[p nm la cs|]|] eqn:Hp; [|done..].
  pose proof (same_parent _ _ Hsame i Hi) as Hpar. rewrite Hp in Hpar. cbn in Hpar.
  destruct (same_tag _ _ Hsame i Hi) as (f & Hf & Hattr). rewrite Hm in Hf.
  destruct (lookup_tag i (root s0)) as [n|] eqn:Hn; [|done]. injection Hf as ->.
  apply (append_md_add s0) in H1 as (a & -> & Hs' & Htext & Hplace); [|done|].
  - exists a. split_and!; [done..|]. exists n, p, mv. split_and!; [done| |by symmetry|done..].
    rewrite <-Hv. symmetry. apply Hval. intros key. apply Hattr.
  - destruct (parent_of i (root s0)) as [[q ? ? ?|]|] eqn:Hq; cbn in Hpar; [|done..]. injection Hpar as ->.
    by eapply parent_in_tree.
Qed.

Lemma copy_each_adds s0 name value l s s' :
  (∀ n n', (∀ key, attr key n' = attr key n) → value n' = value n) →
  M_each (copy_one name value) l s = (Ok tt, s') → same s0 s → l ⊆ ids (root s0) →
  ∃ as_, s' = foldl add s as_ ∧ same s0 s' ∧ Forall2 (copied (root s0) name value) l as_.
Proof.
  intros Hval. revert s. induction l as [|i l IH]; intros s; cbn [M_each].
  - unfold mret, PyM_ret. intros [= <-] Hsame _. by exists [].
  - unfold mbind, PyM_bind. destruct (copy_one name value i s) as [[[]|e] s1] eqn:H1; [|done]. intros Hl Hsame Hsub.
    apply (copy_one_adds s0) in H1 as (a & -> & Hs1 & Ha); [|done..|set_solver].
    destruct (IH _ Hl Hs1) as (as_ & -> & Hs' & Hall); [set_solver|]. exists (a :: as_). by split_and!; [..|constructor].
Qed.

(** The names are found where they were. *)
Lemma has_name_stable name i x n : has_name (I := nat) name (append i x n) = has_name name n.
Proof. destruct n as [j nm a cs|s]; [|done]. unfold append. cbn [update]. by case_decide. Qed.

Lemma has_presence_stable i x md mv n : has_presence (append i (md_stmt x md mv) n) = has_presence n.
Proof.
  unfold has_presence. destruct n as [j nm a cs|s]; [|done]. unfold append at 1. cbn [update].
  assert (existsb (has_name (py"presence")) (update i (add_child (md_stmt x md mv)) <$> cs) =
          existsb (has_name (py"presence")) cs) as Hcs.
  { induction cs as [|c cs IH]; [done|]. rewrite fmap_cons. cbn [existsb]. rewrite IH. f_equal.
    apply (has_name_stable (py"presence") i (md_stmt x md mv) c). }
  case_decide; cbn [add_child contents]; [|exact Hcs].
  rewrite existsb_app, Hcs. cbn. by rewrite orb_false_r.
Qed.

Lemma md_stmt_named name x md mv :
  Forall (λ n, str_eqb n name = false) [py"tailf_prefix_meta-data"; py"tailf_prefix_value"; py"tailf_prefix_meta-value"] →
  List.filter (has_name name) (subtree (md_stmt x md mv)) = [].
Proof.
  rewrite !Forall_cons. intros (H1 & H2 & H3 & _). destruct mv; cbn [md_stmt subtree fmap list_fmap concat app List.filter has_name];
    by rewrite ?H1, ?H2, ?H3.
Qed.

(** The statements that are tagged: their identities in the order they are tagged. *)
Definition tagged (r : node nat) : list nat :=
  find_ids (has_name (py"leaf")) r ++ find_ids (has_name (py"leaflist")) r ++
  find_ids (λ n, has_name (py"container") n && has_presence n) r.

Lemma find_ids_in_tree p (r : node nat) : find_ids p r ⊆ ids r.
Proof. intros i Hi. by eapply found_in_tree. Qed.

Lemma same_named name s s' :
  Forall (λ n, str_eqb n name = false) [py"tailf_prefix_meta-data"; py"tailf_prefix_value"; py"tailf_prefix_meta-value"] →
  same s s' → find_ids (has_name name) (root s') = find_ids (has_name name) (root s).
Proof.
  intros Hn Hs. apply (same_found _ _ Hs); intros; [apply has_name_stable|by apply md_stmt_named].
Qed.

Lemma same_presence s s' :
  same s s' → find_ids (λ n, has_name (py"container") n && has_presence n) (root s') =
    find_ids (λ n, has_name (py"container") n && has_presence n) (root s).
Proof.
  intros Hs. apply (same_found _ _ Hs); intros; [by rewrite has_name_stable, has_presence_stable|by destruct mv].
Qed.

Lemma copy_extension_adds s0 name value s s' :
  Forall (λ n, str_eqb n name = false) [py"tailf_prefix_meta-data"; py"tailf_prefix_value"; py"tailf_prefix_meta-value"] →
  (∀ n n', (∀ key, attr key n' = attr key n) → value n' = value n) →
  copy_extension name value s = (Ok tt, s') → same s0 s →
  ∃ as_, s' = foldl add s as_ ∧ same s0 s' ∧ Forall2 (copied (root s0) name value) (find_ids (has_name name) (root s0)) as_.
Proof.
  intros Hname Hval. unfold copy_extension, get, mbind, PyM_bind. intros Hc Hsame.
  rewrite (same_named _ _ _ Hname Hsame) in Hc. apply (copy_each_adds s0) in Hc; [done..|]. apply find_ids_in_tree.
Qed.

(** *** The removal of old meta-data *)

Lemma remove_each l s :
  M_each remove_one l s = (Ok tt, Soup (prune (among l) (root s)) (fresh s)).
Proof.
  rewrite <-decompose_all. revert s. induction l as [|i l IH]; intros s; cbn [M_each foldl]; [by destruct s|].
  unfold mbind, PyM_bind, remove_one at 1, modify. rewrite IH. f_equal.
  destruct (parent_of i (root s)) eqn:Hp; [done|]. cbn [root fresh]. f_equal. f_equal.
  rewrite decompose_prune, <-(prune_nothing (root s)) at 1. symmetry. apply prune_ext. by apply parent_None.
Qed.

Lemma remove_metadata_prunes s :
  soup_ok s → remove_metadata s = (Ok tt, Soup (prune is_old_md (root s)) (fresh s)).
Proof.
  intros [Hnd _]. unfold remove_metadata, get, mbind, PyM_bind. rewrite remove_each. do 2 f_equal.
  apply prune_ext. by apply among_found.
Qed.

Lemma pruned_ok p s : soup_ok s → soup_ok (Soup (prune p (root s)) (fresh s)).
Proof.
  intros [Hnd Hlt]. pose proof (collect_prune node_id p (root s) shallow_id) as Hs. split; cbn [root fresh].
  - by eapply sublist_NoDup.
  - rewrite Forall_forall in Hlt |- *. intros x Hx. apply Hlt. by eapply sublist_subseteq.
Qed.

(** A step of the whole. *)
Lemma M_bind_Ok {A B : Type} (m : M A) (f : A → M B) s b s' :
  (m ≫= f) s = (Ok b, s') → ∃ a s1, m s = (Ok a, s1) ∧ f a s1 = (Ok b, s').
Proof.
  unfold mbind, PyM_bind. destruct (m s) as [[a|e] s1]; [|done]. intros H. by exists a, s1.
Qed.

Lemma id_texts_app p a b c : id_texts p a (b + c) = id_texts p a b ++ id_texts p (a + b) c.
Proof. unfold id_texts. by rewrite seq_app, fmap_app. Qed.

Lemma id_texts_distinct p from n : NoDup (id_texts p from n).
Proof.
  apply NoDup_fmap_2_strong; [|apply NoDup_seq]. intros i j _ _ H.
  apply app_inv_head, app_inv_head, app_inv_head in H. by apply str_nat_inj.
Qed.

(** The three rounds of identifiers. *)
Lemma rounds_adds s0 p s s' :
  (s ← get;
   id ← tag_ids (Ok p) (find_ids (has_name (py"leaf")) (root s)) 0;
   s ← get;
   id ← tag_ids (Ok p) (find_ids (has_name (py"leaflist")) (root s)) id;
   s ← get;
   _ ← tag_ids (Ok p) (find_ids (λ n, has_name (py"container") n && has_presence n) (root s)) id;
   mret tt) s = (Ok tt, s') → same s0 s →
  ∃ as_, s' = foldl add s as_ ∧ same s0 s' ∧
    Forall2 (λ i a, placed (root s0) i None (at_tag a) (md_value a)) (tagged (root s0)) as_ ∧
    md_text <$> as_ = id_texts p 0 (length (tagged (root s0))).
Proof.
  intros Ht Hs. apply M_bind_Ok in Ht as (? & ? & [= <- <-] & Ht). apply M_bind_Ok in Ht as (n5 & s5 & H5 & Ht).
  apply M_bind_Ok in Ht as (? & ? & [= <- <-] & Ht). apply M_bind_Ok in Ht as (n6 & s6 & H6 & Ht).
  apply M_bind_Ok in Ht as (? & ? & [= <- <-] & Ht). apply M_bind_Ok in Ht as (n7 & s7 & H7 & [= <-]).
  rewrite (same_named _ s0) in H5; [|vm_decide|done].
  apply (tag_ids_adds s0) in H5 as (a5 & -> & -> & Hs5 & F5 & T5); [|done|apply find_ids_in_tree].
  rewrite (same_named _ s0) in H6; [|vm_decide|done].
  apply (tag_ids_adds s0) in H6 as (a6 & -> & -> & Hs6 & F6 & T6); [|done|apply find_ids_in_tree].
  rewrite (same_presence s0) in H7 by done.
  apply (tag_ids_adds s0) in H7 as (a7 & -> & -> & Hs7 & F7 & T7); [|done|apply find_ids_in_tree].
  exists (a5 ++ a6 ++ a7). rewrite !foldl_app. split; [done|]. split; [done|]. unfold tagged. split.
  - by repeat apply Forall2_app.
  - rewrite !length_app, !id_texts_app, !fmap_app, T5, T6, T7. done.
Qed.

(** ** Properties *)

(** C26: when a module is tagged, its old meta-data statements are removed, at any depth,
    and to what is left nothing happens but that meta-data statements are added, one
    after the other: one for every copied extension, with its name, and one for every
    leaf, leaf-list and presence container, with the identifiers of the module's prefix
    from 0 on, no two the same.  Each of them is added to the statement itself (for an
    extension to its parent), or to the list it is a key of with its name before the
    value. *)
Theorem identifiers_tagged (s s' : soup) (p : pystr) :
  soup_ok s → prefix_value (find_first (has_name (py"prefix")) (root s)) = Ok p →
  tag_soup s = (Ok tt, s') →
  let r := prune is_old_md (root s) in
  let copies name value := Forall2 (copied r name value) (find_ids (has_name name) r) in
  ∃ alts drops exposes identifiers,
    s' = foldl add (Soup r (fresh s)) (alts ++ drops ++ exposes ++ identifiers) ∧
    prune is_md (root s') = prune is_md r ∧
    copies (py"tailf_prefix_alt_name") (λ n, Some <$> get_attr (py"yname") n) alts ∧
    copies (py"tailf_prefix_cli_drop_node_name") (λ _, Ok None) drops ∧
    copies (py"tailf_prefix_cli_expose_key_name") (λ _, Ok None) exposes ∧
    Forall2 (λ i a, placed r i None (at_tag a) (md_value a)) (tagged r) identifiers ∧
    md_text <$> identifiers = (λ k, py"ID " ++ p ++ py":" ++ str_nat k) <$> seq 0 (length (tagged r)) ∧
    NoDup (md_text <$> identifiers).
Proof.
  intros Hok Hp Ht r copies. subst copies. cbv beta. unfold tag_soup in Ht.
  apply M_bind_Ok in Ht as (s0 & s0' & [= <- <-] & Ht). cbv zeta in Ht. rewrite Hp in Ht.
  apply M_bind_Ok in Ht as ([] & s1 & Hrem & Ht). rewrite remove_metadata_prunes in Hrem by done. injection Hrem as <-.
  fold r in Ht. assert (soup_ok (Soup r (fresh s))) as Hok1 by (by apply pruned_ok).
  set (s1 := Soup r (fresh s)) in *.
  apply M_bind_Ok in Ht as ([] & s2 & H2 & Ht). apply M_bind_Ok in Ht as ([] & s3 & H3 & Ht).
  apply M_bind_Ok in Ht as ([] & s4 & H4 & Ht).
  apply (copy_extension_adds s1) in H2 as (alts & -> & Hs2 & F2);
    [|vm_decide|by intros n n' Hattr; unfold get_attr; rewrite Hattr|by apply same_refl].
  apply (copy_extension_adds s1) in H3 as (drops & -> & Hs3 & F3); [|vm_decide|done..].
  apply (copy_extension_adds s1) in H4 as (exposes & -> & Hs4 & F4); [|vm_decide|done..].
  apply (rounds_adds s1) in Ht as (identifiers & -> & Hs' & F5 & T5); [|done].
  exists alts, drops, exposes, identifiers. rewrite !foldl_app.
  split_and!; [done|apply Hs'|done|done|done|done|done|]. rewrite T5. apply id_texts_distinct.
Qed.

(** ** Witnesses *)

(** A module with a list keyed by its leaf, another leaf with an alternative name and old
    meta-data, and a presence container. *)
Definition ex_module : soup := Soup
  (Tag 0 (py"[document]") []
    [Tag 1 (py"module") [(py"yname", py"ex")]
      [Tag 2 (py"prefix") [(py"value", py"x")] [];
       Tag 3 (py"list") [(py"yname", py"user")]
         [Tag 4 (py"key") [(py"value", py"username")] [];
          Tag 5 (py"leaf") [(py"yname", py"username")] [];
          Tag 6 (py"leaf") [(py"yname", py"name")]
            [Tag 9 (py"tailf_prefix_alt_name") [(py"yname", py"n")] []; Tag 10 (py"tailf_prefix_metadata") [] []]];
       Tag 7 (py"container") [(py"yname", py"on")] [Tag 8 (py"presence") [(py"value", py"yes")] []]]]) 11.

Lemma ex_module_ok : soup_ok ex_module.
Proof. split; [vm_decide|vm_decide]. Qed.

Lemma identifiers_tagged_witness :
  ∃ alts identifiers,
    (tag_soup ex_module).2 = foldl add (Soup (prune is_old_md (root ex_module)) 11) (alts ++ identifiers) ∧
    length alts = 1 ∧ md_text <$> identifiers = [py"ID x:0"; py"ID x:1"; py"ID x:2"].
Proof.
  destruct (identifiers_tagged ex_module (tag_soup ex_module).2 (py"x") ex_module_ok) as
    (alts & drops & exposes & identifiers & Hs & _ & Ha & Hd & He & _ & Ht & _); [reflexivity|vm_compute; reflexivity|].
  apply Forall2_nil_inv_l in Hd as ->. apply Forall2_nil_inv_l in He as ->.
  exists alts, identifiers. split; [exact Hs|]. split; [by apply Forall2_length in Ha|]. rewrite Ht. vm_compute. reflexivity.
Defined.

(** ** What the code does not do *)

(** A leaf whose name is a part of the name of a key is taken for a key: both
    identifiers of the leaves of the list go to the list. *)
Lemma key_by_substring : (λ p, p.1) <$> md_place 6 None (root ex_module) = Ok 3.
Proof. reflexivity. Qed.

(** A key statement after its leaf is not seen. *)
Lemma key_after_leaf :
  md_place 2 None (Tag 1 (py"list") [] [Tag 2 (py"leaf") [(py"yname", py"id")] []; Tag 3 (py"key") [(py"value", py"id")] []])
    = Ok (2, None).
Proof. reflexivity. Qed.

(** Without CONFD_DIR the tool fails on the name sys. *)
Lemma no_confd_dir pyang parse render f : tailf_info_path None pyang parse render f = Raise NameError.
Proof. reflexivity. Qed.
