(* ===== verification/AnnStmt.v ===== *)
(** * Extracting annotations: ann-stmt/app

    tailf_ann_stmt.py moves must, when and other statements of a YANG module into an
    annotation module of their own, with the path of the place they were at;
    tailf_sanitize.py removes tailf extensions.  pyang and BeautifulSoup's reading
    and writing are arguments. *)

From Stdlib Require Import Ascii String.
From S2P Require Import Prelude PyStr PyDict Xml Soup TagYang.

(** ** Documents *)

(** The module and the annotation module.  Tags of the annotation module that the
    code does not hold on to have no identity. *)
Record ann_state := AnnState { yin : node nat; ann : node (option nat) }.

Abbreviation A := (PyM ann_state).

(** [copy.copy(tag)]: the tag with everything below it, without its identity. *)
Fixpoint copy (n : node nat) : node (option nat) :=
  match n with
  | Tag _ nm attrs cs => Tag None nm attrs (copy <$> cs)
  | Str s => Str s
  end.

(** The texts of the annotation module. *)
Definition gen_ann_module (revdate name ns prefix : pystr) : pystr := fmt (xq"<?xml version=`1.0` encoding=`utf-8`?>
<module>
  <namespace uri=`{0}-ann`/>
  <prefix value=`{1}-ann`/>
  <import module=`tailf-common`>
    <prefix value=`tailf`/>
  </import>
  <revision date=`{2}`>
    <description>
      <text>Initial revision</text>
    </description>
  </revision>
  <tailf_prefix_annotate_module module_name=`{3}`/>
</module>") [ns; prefix; revdate; name].

(** ** The place of a statement *)

(** The tags before a tag, in document order. *)
Fixpoint before_tag (id : nat) (l : list (node nat)) : list (node nat) :=
  match l with
  | [] => []
  | n :: l' => if has_id id n then [] else n :: before_tag id l'
  end.
Definition find_all_previous (p : node nat → bool) (id : nat) (root : node nat) : list (node nat) :=
  List.filter p (before_tag id (subtree root)).

(** The step of a statement path that leads to a tag. *)
Definition statement_step (id : nat) (nm : pystr) (attrs : list (pystr * pystr)) (root : node nat) : res pystr :=
  if str_eqb nm (py"augment") then
    target ← dict_lookup (py"target_node") attrs;
    let conflicting := find_all_previous
      (λ n, has_name nm n && bool_decide (attr (py"target_node") n = Some target)) id root in
    if (length conflicting =? 0)%nat then Ok (fmt (py"{0}[name='{1}']") [nm; target])
    else Ok (fmt (py"{0}[{1}]") [nm; str_nat (length (find_all_previous (has_name nm) id root) + 1)])
  else
    match attrs with
    | [] => Ok nm
    | (key, value) :: _ => Ok (fmt (py"{0}[{1}='{2}']") [nm; key; value])
    end.

Definition annotate_statement (path : pystr) (content : node (option nat)) : node (option nat) :=
  Tag None (py"tailf:annotate-statement") [(py"statement_path", path)] [content].

(** The statement inside the steps from the module down to it. *)
Fixpoint add_stmt (fuel : nat) (id : nat) (ann_node : node (option nat)) (root : node nat) : res (node (option nat)) :=
  match fuel with
  | 0 => Raise OutOfFuel
  | S k =>
      match parent_of id root with
      | Some (Tag p nm attrs _) =>
          if str_eqb nm (py"module") || str_eqb nm (py"submodule") then Ok ann_node else
          path ← statement_step p nm attrs root;
          add_stmt k p (annotate_statement path ann_node) root
      | _ => Raise AttributeError
      end
  end.

(** ** Extraction *)

Definition is_module {I} (n : node I) : bool := has_name (py"module") n.
Definition is_annotate_module (n : node (option nat)) : bool := has_name (py"tailf_prefix_annotate_module") n.

(** [ann_soup.module.tailf_prefix_annotate_module.append(x)]. *)
Definition append_annotation (x : node (option nat)) (r : node (option nat)) : res (node (option nat)) :=
  match find_first is_module r with
  | Some m =>
      match find_first is_annotate_module m with
      | Some (Tag i _ _ _) => Ok (append i x r)
      | _ => Raise AttributeError
      end
  | None => Raise AttributeError
  end.

(** A statement that still is in the module moves to the annotation module, when its
    parent satisfies a condition. *)
Definition extract_one (cond : node nat → bool) (id : nat) : A unit :=
  s ← get;
  match parent_of id (yin s) with
  | Some p =>
      if cond p then
        stmt ← lift (the_tag id (yin s));
        annotate_statements ← lift (add_stmt (length (subtree (yin s))) id (copy stmt) (yin s));
        ann' ← lift (append_annotation annotate_statements (ann s));
        put (AnnState (decompose id (yin s)) ann')
      else mret tt
  | None => mret tt
  end.

Fixpoint A_each (f : nat → A unit) (l : list nat) : A unit :=
  match l with [] => mret tt | x :: l' => _ ← f x; A_each f l' end.

(** One loop over the statements; was there one? *)
Definition extract (p cond : node nat → bool) : A bool :=
  s ← get;
  _ ← A_each (extract_one cond) (find_ids p (yin s));
  mret (negb (length (find_ids p (yin s)) =? 0)%nat).

Definition extract_if (flag : bool) (p cond : node nat → bool) : A bool := if flag then extract p cond else mret false.

Definition anywhere (_ : node nat) : bool := true.

(** Names with the replaced prefix of tailf extensions. *)
Definition tailf_named {I} (n : node I) : bool :=
  match n with Tag _ nm _ _ => contains nm (py"tailf_prefix_") | Str _ => false end.
Definition not_in_tailf (n : node nat) : bool :=
  match n with Tag _ nm _ _ => negb (startswith nm (py"tailf_prefix_")) | Str _ => true end.

(** A type becomes string. *)
Definition to_string (n : node nat) : node nat :=
  match n with Tag i nm attrs _ => Tag i nm (dict_set (py"yname") (py"string") attrs) [] | Str s => Str s end.
Definition to_string_all (p : node nat → bool) (r : node nat) : node nat :=
  foldl (λ r i, update i to_string r) r (find_ids p r).

Record flags := Flags {
  parse_must : bool; parse_when : bool; parse_min_elem : bool; parse_max_elem : bool; parse_mandatory : bool;
  parse_unique : bool; parse_pattern : bool; parse_tailf : bool; parse_callpoint : bool; parse_validate : bool;
  sanitize : bool; parse_leafref : bool }.

(** The loops, and whether an annotation module is to be written. *)
Definition extract_all (f : flags) : A bool :=
  must_stmt ← extract_if (parse_must f) (has_name (py"must")) anywhere;
  when_stmt ← extract_if (parse_when f) (has_name (py"when")) anywhere;
  _ ← extract_if (parse_min_elem f) (has_name (py"min-elements")) anywhere;
  _ ← extract_if (parse_max_elem f) (has_name (py"max-elements")) anywhere;
  _ ← extract_if (parse_mandatory f) (has_name (py"mandatory")) anywhere;
  _ ← extract_if (parse_unique f) (has_name (py"unique")) anywhere;
  _ ← extract_if (parse_pattern f) (has_name (py"pattern")) anywhere;
  tailf_extension ← extract_if (parse_tailf f) tailf_named not_in_tailf;
  found ← (if parse_leafref f then
      _ ← modify (λ s, AnnState
            (to_string_all (λ n, bool_decide (attr (py"yname") n = Some (py"leafref"))) (yin s)) (ann s));
      mret (false, false)
    else
      callpoint_stmt ← extract_if (parse_callpoint f) (has_name (py"tailf_prefix_callpoint")) anywhere;
      validate_stmt ← extract_if (parse_validate f) (has_name (py"tailf_prefix_validate")) anywhere;
      mret (callpoint_stmt, validate_stmt) : A (bool * bool));
  mret (negb (sanitize f ||
    (negb tailf_extension && negb must_stmt && negb when_stmt && negb found.1 && negb found.2))).

(** ** Imports and the header of the annotation module *)

Definition import_of {I} (module : pystr) (n : node I) : bool :=
  has_name (py"import") n && bool_decide (attr (py"module") n = Some module).

(** Without tailf extensions the import of tailf-common goes, and its types. *)
Definition drop_tailf_import : A unit :=
  modify (λ s,
    match find_first tailf_named (yin s) with
    | Some _ => s
    | None =>
        match find_first (import_of (py"tailf-common")) (yin s) with
        | Some (Tag i _ _ _) =>
            let r := decompose i (yin s) in
            AnnState (to_string_all (λ n, has_name (py"type") n &&
              match attr (py"yname") n with Some v => contains v (py"tailf_prefix") | None => false end) r) (ann s)
        | _ => s
        end
    end).

(** [tag.insert_before(x)], by the identity of the tag. *)
Fixpoint insert_before (id : option nat) (x : node (option nat)) (n : node (option nat)) : node (option nat) :=
  match n with
  | Tag i nm attrs cs =>
      Tag i nm attrs (concat ((λ c, if has_id id c then [x; c] else [insert_before id x c]) <$> cs))
  | Str s => Str s
  end.

(** The attributes and the other imports of the module, and the name. *)
Definition copy_header : A unit :=
  s ← get;
  m ← lift (match find_first is_module (yin s) with
            | Some m => Ok m
            | None => match find_first (has_name (py"submodule")) (yin s) with Some m => Ok m | None => Raise AttributeError end
            end);
  am ← lift (match find_first is_module (ann s) with Some (Tag i _ _ _) => Ok i | _ => Raise AttributeError end);
  let imports := List.filter (has_name (py"import")) (contents m) in
  others ← lift (res_map (λ n, v ← get_attr (py"module") n; Ok (v, n)) imports);
  let others := List.filter (λ p, negb (str_eqb p.1 (py"tailf-common"))) others in
  ann1 ← lift (match others, find_first (import_of (py"tailf-common")) (ann s) with
    | [], _ => Ok (ann s)
    | _, Some (Tag i _ _ _) => Ok (foldl (λ r p, insert_before i (copy p.2) r) (ann s) others)
    | _, _ => Raise AttributeError
    end);
  name ← lift (get_attr (py"yname") m);
  let attrs := match m with Tag _ _ attrs _ => attrs | Str _ => [] end in
  put (AnnState (yin s)
    (update am (λ n, match n with
       | Tag i nm _ cs => Tag i nm (dict_set (py"yname") (fmt (py"{0}-ann") [name]) attrs) cs
       | Str t => Str t end) ann1)).

(** ** The tools *)

Definition hidden_ann : list (pystr * pystr) :=
  [(py"tailf:", py"tailf_prefix_"); (py"name=", py"yname="); (py"target-node=", py"target_node="); (py"xmlns:", py"xmlns_")].
Definition restored_yin : list (pystr * pystr) :=
  [(py"tailf_prefix_", py"tailf:"); (py"yname=", py"name="); (py"target_node=", py"target-node="); (py"xmlns_", py"xmlns:")].
Definition restored_ann : list (pystr * pystr) :=
  [(py"tailf_prefix_", py"tailf:"); (py"annotate_module", py"annotate-module"); (py"module_name=", py"module-name=");
   (py"statement_path=", py"statement-path="); (py"yname=", py"name="); (py"target_node=", py"target-node=");
   (py"xmlns_", py"xmlns:")].

Inductive file_effect :=
  | Mkdir (path : pystr)
  | WriteFile (path content : pystr).

Section tools.
Context (CONFD_DIR : option pystr) (today : pystr) (pyang : list pystr → option pystr → pystr)
  (parse : pystr → node nat) (parse_ann : pystr → node (option nat))
  (render : node nat → pystr) (render_ann : node (option nat) → pystr).

(** The file name of a path, and a name without its extension. *)
Definition base_name (path : pystr) : pystr :=
  match before_last "/" path with Some d => drop (S (length d)) path | None => path end.
Definition without_ext (name : pystr) : pystr := match before_last "." name with Some n => n | None => name end.

Definition tag_attr {I} (key : pystr) (n : option (node I)) : res pystr :=
  match n with Some n => get_attr key n | None => Raise TypeError end.

(** The annotation module for the kind of document; none when it is no module. *)
Definition annotate_module (yang_filename : pystr) (y : node nat) : res (option pystr) :=
  match find_first is_module y with
  | Some m =>
      ns ← tag_attr (py"uri") (find_first (has_name (py"namespace")) m);
      prefix ← tag_attr (py"value") (find_first (has_name (py"prefix")) m);
      Ok (Some (gen_ann_module today (without_ext yang_filename) ns prefix))
  | None =>
      match find_first (has_name (py"submodule")) y with
      | Some m =>
          prefix ← tag_attr (py"value") (find_first (has_name (py"prefix")) m);
          ns ← get_attr (fmt (py"xmlns_{0}") [prefix]) m;
          Ok (Some (gen_ann_module today (without_ext yang_filename) ns prefix))
      | None => Ok None
      end
  end.

(** The files that are written.  Without CONFD_DIR the name is unbound after the
    message. *)
Definition tailf_ann_stmt (f : flags) (out_path yang_file : pystr) : res (list file_effect) :=
  match CONFD_DIR with
  | None => Raise UnboundLocalError
  | Some confd_dir =>
      let yang_path := yang_dir yang_file in
      let yang_filename := base_name yang_file in
      let yin0 := parse (replace_all hidden_ann (pyang [py"-f"; py"yin"; py"-p"; yang_path; py"-p"; confd_dir; yang_file] None)) in
      am ← annotate_module yang_filename yin0;
      match am with
      | None => Ok []
      | Some text =>
          match (create ← extract_all f; _ ← drop_tailf_import; _ ← copy_header; mret create : A bool)
                  (AnnState yin0 (parse_ann text)) with
          | (Raise e, _) => Raise e
          | (Ok create, s) =>
              let yang_content := pyang [py"-f"; py"yang"; py"-p"; yang_path; py"-p"; confd_dir]
                                    (Some (replace_all restored_yin (render (yin s)))) in
              let ann_content := pyang [py"-f"; py"yang"; py"--ignore-error=UNUSED_IMPORT"; py"-p"; yang_path; py"-p"; confd_dir]
                                   (Some (replace_all restored_ann (render_ann (ann s)))) in
              Ok ([Mkdir out_path; WriteFile (out_path ++ py"/" ++ yang_filename) yang_content] ++
                  if (create : bool)
                  then [WriteFile (out_path ++ py"/" ++ fmt (py"{0}-ann.yang") [without_ext yang_filename]) ann_content]
                  else [])
          end
      end
  end.

(** tailf_sanitize.py: the extensions and the import go, what is left is printed.  A
    path without a directory is taken for the directory. *)
Definition sanitized (y : node nat) : node nat :=
  let r := foldl (λ r i, decompose i r) y (find_ids tailf_named y) in
  match find_first (import_of (py"tailf-common")) r with
  | Some (Tag i _ _ _) => decompose i r
  | _ => r
  end.

Definition tailf_sanitize (yang_file : pystr) : res pystr :=
  match CONFD_DIR with
  | None => Raise KeyError
  | Some confd_dir =>
      let yang_path := match before_last "/" yang_file with Some d => d | None => yang_file end in
      let yin_content := pyang [py"-f"; py"yin"; py"-p"; yang_path; py"-p"; confd_dir; yang_file] None in
      Ok (pyang [py"-f"; py"yang"; py"-p"; yang_path; py"-p"; confd_dir]
            (Some (render (sanitized (parse (replace yin_content (py"tailf:") (py"tailf_prefix_")))))) ++ ["013"%char])
  end.
End tools.

(** ** Where a tag is *)

Lemma Forall_collect {B} (g : node nat → option B) n :
  (∀ m, m ∈ subtree n → g m = None) → collect g n = [].
Proof.
  unfold collect. induction (subtree n) as [|m l IH]; [done|]. intros H.
  change (omap g (m :: l)) with (match g m with Some y => y :: omap g l | None => omap g l end).
  rewrite H by left. apply IH. intros x Hx. apply H. by right.
Qed.

Lemma collect_nil {B} (g : node nat → option B) n m : collect g n = [] → m ∈ subtree n → g m = None.
Proof.
  intros H Hm. destruct (g m) as [y|] eqn:Hg; [|done]. exfalso.
  assert (y ∈ collect g n) as Hy by (apply list_elem_of_omap; eauto). rewrite H in Hy. by apply elem_of_nil in Hy.
Qed.

(** The identities below a tag of the tree are a stretch of those of the tree. *)
Lemma ids_stretch (n m : node nat) : m ∈ subtree n → ∃ a b, ids n = a ++ ids m ++ b.
Proof.
  induction n as [i nm at_ cs IH|s] using node_ind'; intros Hm.
  - cbn [subtree] in Hm. apply elem_of_cons in Hm as [->|Hm]; [by exists [], []; rewrite app_nil_r|].
    rewrite ids_tag. apply list_elem_of_In, in_concat in Hm as (l & Hl%list_elem_of_In & Hm%list_elem_of_In).
    apply list_elem_of_fmap in Hl as (c & -> & Hc). rewrite Forall_forall in IH.
    destruct (IH c Hc Hm) as (a & b & He). apply list_elem_of_split in Hc as (l1 & l2 & ->).
    rewrite fmap_app, fmap_cons, concat_app. cbn [concat]. rewrite He.
    exists (i :: concat (ids <$> l1) ++ a), (b ++ concat (ids <$> l2)). cbn. by rewrite <-!app_assoc.
  - cbn in Hm. apply list_elem_of_singleton in Hm as ->. by exists [], [].
Qed.

Lemma parent_spec id (y p : node nat) :
  parent_of id y = Some p → p ∈ subtree y ∧ ∃ c, c ∈ contents p ∧ has_id id c = true.
Proof.
  unfold parent_of. intros H. destruct (List.filter _ (subtree y)) as [|m l] eqn:Hf; [done|]. injection H as ->.
  assert (p ∈ List.filter (λ n, existsb (has_id id) (contents n)) (subtree y)) as Hm by (rewrite Hf; left).
  apply list_elem_of_In, List.filter_In in Hm as [Hm%list_elem_of_In Hc]. split; [done|].
  apply existsb_exists in Hc as (c & Hc%list_elem_of_In & Hid). by exists c.
Qed.

Lemma has_id_node id (c : node nat) : has_id id c = true → node_id c = Some id.
Proof. destruct c as [i nm a cs|s]; [|done]. cbn. by intros ->%bool_decide_eq_true. Qed.

Lemma child_id (p c : node nat) i : c ∈ contents p → node_id c = Some i → i ∈ concat (ids <$> contents p).
Proof.
  intros Hc Hi. apply list_elem_of_In, in_concat. exists (ids c). split; apply list_elem_of_In.
  - apply list_elem_of_fmap. by exists c.
  - eapply elem_of_subtree_id; [apply subtree_self|done].
Qed.

(** The parent comes before the tag. *)
Lemma parent_before id (y : node nat) p nm a cs i :
  NoDup (ids y) → ids y !! i = Some id → parent_of id y = Some (Tag p nm a cs) → ∃ j, ids y !! j = Some p ∧ j < i.
Proof.
  intros Hnd Hi (Hm & c & Hc & Hid%has_id_node)%parent_spec.
  pose proof (child_id _ _ _ Hc Hid) as Hin. destruct (ids_stretch _ _ Hm) as (l1 & l2 & He).
  rewrite ids_tag in He. cbn [contents] in Hin. apply list_elem_of_split in Hin as (u & v & Huv). rewrite Huv in He.
  assert (ids y !! length l1 = Some p) as Hp by (rewrite He; cbn [app]; by rewrite list_lookup_middle).
  assert (ids y !! (length (l1 ++ p :: u)) = Some id) as Hq.
  { rewrite He. replace (l1 ++ (p :: u ++ id :: v) ++ l2) with ((l1 ++ p :: u) ++ id :: (v ++ l2)).
    - by rewrite list_lookup_middle.
    - rewrite <-!app_assoc. cbn [app]. by rewrite <-!app_assoc. }
  exists (length l1). split; [done|]. rewrite (NoDup_lookup _ _ _ _ Hnd Hi Hq), length_app. cbn. lia.
Qed.

(** Tags that are alone with their identity. *)
Lemma same_id (y m m' : node nat) i :
  NoDup (ids y) → m ∈ subtree y → m' ∈ subtree y → node_id m = Some i → node_id m' = Some i → m = m'.
Proof. apply omap_unique. Qed.

Lemma the_tag_found (y c : node nat) id :
  NoDup (ids y) → c ∈ subtree y → node_id c = Some id → the_tag id y = Ok c.
Proof.
  intros Hnd Hc Hid. unfold the_tag, lookup_tag.
  assert (c ∈ List.filter (has_id id) (subtree y)) as Hf.
  { apply list_elem_of_In, List.filter_In. split; [by apply list_elem_of_In|].
    destruct c as [j nm a cs|s]; [|done]. cbn in *. injection Hid as ->. by apply bool_decide_eq_true. }
  destruct (List.filter (has_id id) (subtree y)) as [|t l] eqn:He; [by apply elem_of_nil in Hf|]. cbn [head].
  assert (t ∈ List.filter (has_id id) (subtree y)) as Ht by (rewrite He; left).
  apply list_elem_of_In, List.filter_In in Ht as [Ht%list_elem_of_In Htid%has_id_node].
  f_equal. by eapply same_id.
Qed.

Lemma descendants_child (y d m : node nat) : d ∈ contents y → m ∈ subtree d → m ∈ descendants y.
Proof.
  intros Hd Hm. unfold descendants. apply list_elem_of_In, in_concat. exists (subtree d).
  split; apply list_elem_of_In; [apply list_elem_of_fmap; by exists d|done].
Qed.

Lemma descendants_subtree (y m : node nat) : m ∈ descendants y → m ∈ subtree y.
Proof. destruct y; [by right|by intros ?%elem_of_nil]. Qed.

Lemma descendants_in (y m : node nat) : m ∈ descendants y → ∃ d, d ∈ contents y ∧ m ∈ subtree d.
Proof.
  unfold descendants. intros (l & Hl%list_elem_of_In & Hm%list_elem_of_In)%list_elem_of_In%in_concat.
  apply list_elem_of_fmap in Hl as (d & -> & Hd). by exists d.
Qed.

Lemma child_descendant (y p c : node nat) : p ∈ subtree y → c ∈ contents p → c ∈ descendants y.
Proof.
  intros Hp Hc. induction y as [i nm a cs IH|s] using node_ind'.
  - cbn [subtree] in Hp. apply elem_of_cons in Hp as [->|Hp].
    + eapply descendants_child; [exact Hc|apply subtree_self].
    + apply (descendants_in (Tag i nm a cs)) in Hp as (d & Hd & Hp). rewrite Forall_forall in IH.
      eapply descendants_child; [exact Hd|]. apply descendants_subtree. by apply IH.
  - cbn in Hp. apply list_elem_of_singleton in Hp as ->. by apply elem_of_nil in Hc.
Qed.

Lemma root_not_below (y m : node nat) i :
  NoDup (ids y) → node_id y = Some i → m ∈ descendants y → node_id m ≠ Some i.
Proof.
  destruct y as [j nm a cs|s]; [|done]. rewrite ids_tag. intros [Hi _]%NoDup_cons [= ->] Hm Heq. apply Hi.
  apply descendants_in in Hm as (d & Hd & Hm). cbn [contents] in Hd.
  apply list_elem_of_In, in_concat. exists (ids d). split; apply list_elem_of_In.
  - apply list_elem_of_fmap. by exists d.
  - by eapply elem_of_subtree_id.
Qed.

(** ** Taking a tag out *)

Lemma decompose_absent id (n : node nat) : id ∉ ids n → decompose id n = n.
Proof.
  intros Hid. rewrite decompose_prune. rewrite <-(prune_nothing n) at 2. apply prune_ext. intros c Hc.
  apply not_true_is_false. intros Ht%has_id_node. apply Hid. eapply elem_of_subtree_id; [|exact Ht].
  by apply descendants_subtree.
Qed.

(** What the tree and the tag that was taken out have is what the tree had. *)
Lemma collect_taken {B} (g : node nat → option B) id n t :
  shallow g → NoDup (ids n) → t ∈ descendants n → node_id t = Some id →
  collect g n ≡ₚ collect g (decompose id n) ++ collect g t.
Proof.
  intros Hg Hnd Ht Hid. induction n as [i nm a cs IH|s] using node_ind'; [|by apply elem_of_nil in Ht].
  apply descendants_in in Ht as (d & Hd & Ht). cbn [contents] in Hd.
  rewrite ids_tag in Hnd. apply NoDup_cons in Hnd as [_ Hnd]. cbn [decompose].
  rewrite !(collect_shallow g i nm a) by done. rewrite <-app_assoc. f_equiv.
  apply list_elem_of_split in Hd as (l1 & l2 & ->).
  rewrite fmap_app, fmap_cons, concat_app in Hnd. cbn [concat] in Hnd.
  apply NoDup_app in Hnd as (Hn1 & H1 & Hn2). apply NoDup_app in Hn2 as (Hnd & H2 & Hn2).
  assert (id ∈ ids d) as Hidd by (by eapply elem_of_subtree_id).
  assert (∀ l, id ∉ concat (ids <$> l) →
    concat ((λ c, if has_id id c then [] else [decompose id c]) <$> l) = l) as Hother.
  { clear. intros l. induction l as [|c l IHl]; [done|]. rewrite !fmap_cons. cbn [concat].
    intros [Hc Hl]%not_elem_of_app. rewrite IHl, decompose_absent by done.
    destruct (has_id id c) eqn:Hc'; [|done]. exfalso. apply Hc. apply has_id_node in Hc'.
    eapply elem_of_subtree_id; [apply subtree_self|done]. }
  assert (id ∉ concat (ids <$> l1)) as Hl1 by (intros H; apply (H1 id H), elem_of_app; by left).
  assert (id ∉ concat (ids <$> l2)) as Hl2 by (intros H; by apply (H2 id)).
  rewrite !fmap_app, !fmap_cons, !concat_app. cbn [concat].
  rewrite (Hother _ Hl1), (Hother _ Hl2), !fmap_app, !concat_app, <-!app_assoc. f_equiv.
  rewrite (Permutation_app_comm (concat (collect g <$> l2)) (collect g t)), app_assoc. f_equiv.
  destruct d as [j nm' a' cs'|s]; [|by cbn in Ht; apply list_elem_of_singleton in Ht as ->].
  destruct (has_id id (Tag j nm' a' cs')) eqn:Hj.
  - apply has_id_node in Hj. cbn [fmap list_fmap concat app].
    by rewrite (same_id _ t (Tag j nm' a' cs') id Hnd Ht (subtree_self _) Hid Hj).
  - cbn [fmap list_fmap concat]. rewrite app_nil_r. rewrite Forall_forall in IH. apply IH; [|done|].
    + apply elem_of_app. right. left.
    + cbn [subtree] in Ht. apply elem_of_cons in Ht as [->|Ht]; [|done].
      cbn in Hid, Hj. injection Hid as ->. by rewrite bool_decide_eq_true_2 in Hj.
Qed.

(** ** The module *)

(** An augment without a target. *)
Definition stray_augment (n : node nat) : option unit :=
  if has_name (py"augment") n && bool_decide (attr (py"target_node") n = None) then Some tt else None.

Definition top_name (n : node nat) : bool :=
  match n with Tag _ _ _ _ => is_module n || has_name (py"submodule") n | Str _ => true end.

(** What pyang prints: one identity per tag, a module or submodule at the top of the
    document, and augments with a target. *)
Record module_ok (y : node nat) : Prop := {
  ok_nodup : NoDup (ids y);
  ok_root : ∃ i nm a cs, y = Tag i nm a cs ∧ tailf_named y = false;
  ok_top : Forall (λ c, top_name c = true) (contents y);
  ok_augment : collect stray_augment y = [] }.

(** A tag that is not at the top. *)
Definition below_top (y : node nat) (id : nat) : Prop := Forall (λ c, has_id id c = false) (contents y).

Lemma shallow_augment : shallow stray_augment.
Proof. done. Qed.

Lemma decompose_ok id y : module_ok y → module_ok (decompose id y).
Proof.
  intros [Hnd (j & nm & a & cs & -> & Ht) Htop Haug]. split.
  - pose proof (collect_decompose node_id id (Tag j nm a cs) shallow_id). by eapply sublist_NoDup.
  - by eexists _, _, _, _.
  - cbn [decompose contents] in *. apply Forall_concat, Forall_fmap. eapply Forall_impl; [exact Htop|].
    intros c Hc. cbn [compose]. destruct (has_id id c); [constructor|]. apply Forall_singleton.
    by destruct c.
  - pose proof (collect_decompose stray_augment id (Tag j nm a cs) shallow_augment) as H.
    rewrite Haug in H. by apply sublist_nil_r in H.
Qed.

Lemma decompose_below id id' y : below_top y id → below_top (decompose id' y) id.
Proof.
  destruct y as [j nm a cs|s]; [|done]. unfold below_top. cbn [decompose contents]. intros H.
  apply Forall_concat, Forall_fmap. eapply Forall_impl; [exact H|]. intros c Hc. cbn [compose].
  destruct (has_id id' c); [constructor|]. apply Forall_singleton. by destruct c.
Qed.

(** Every step of a statement path can be written. *)
Lemma statement_step_ok y p nm a cs root :
  module_ok y → Tag p nm a cs ∈ subtree y → ∃ step, statement_step p nm a root = Ok step.
Proof.
  intros Hok Hin. unfold statement_step. destruct (str_eqb nm (py"augment")) eqn:Hnm.
  - pose proof (collect_nil _ _ _ (ok_augment _ Hok) Hin) as H. unfold stray_augment in H.
    cbn [has_name attr] in H. rewrite Hnm in H. cbn [andb] in H. unfold dict_lookup.
    destruct (dict_get _ a) as [t|]; [|by rewrite bool_decide_eq_true_2 in H].
    cbn. destruct (_ =? 0)%nat; eauto.
  - destruct a as [|[k v] a]; eauto.
Qed.

(** The statement is found in its steps. *)
Definition in_steps (steps : list pystr) (n : node (option nat)) : node (option nat) :=
  foldl (λ n step, annotate_statement step n) n steps.

Lemma add_stmt_ok fuel id n y i :
  module_ok y → below_top y id → (∃ p, parent_of id y = Some p) → ids y !! i = Some id → i < fuel →
  ∃ steps, add_stmt fuel id n y = Ok (in_steps steps n).
Proof.
  revert id n i. induction fuel as [|fuel IH]; intros id n i Hok Hbelow [m Hm] Hi Hlt; [lia|].
  destruct (parent_spec _ _ _ Hm) as (Hin & c & Hc & Hid). cbn [add_stmt]. rewrite Hm.
  destruct m as [p nm a cs|s]; [|by apply elem_of_nil in Hc].
  destruct (str_eqb nm (py"module") || str_eqb nm (py"submodule")) eqn:Hnm; [by exists []|].
  destruct (statement_step_ok y p nm a cs y Hok Hin) as [step ->].
  change (Ok step ≫= ?f) with (f step). cbv beta.
  assert (below_top y p) as Hp.
  { apply Forall_forall. intros d Hd. apply not_true_is_false. intros Hdp%has_id_node.
    assert (d ∈ subtree y) as Hdy by (eapply subtree_child; [exact Hd|apply subtree_self]).
    assert (d = Tag p nm a cs) as -> by (by eapply same_id; [apply ok_nodup, Hok|..]).
    pose proof (ok_top _ Hok) as Ht. rewrite Forall_forall in Ht. specialize (Ht _ Hd).
    unfold top_name, is_module in Ht. cbn [has_name] in Ht. congruence. }
  assert (∃ q, parent_of p y = Some q) as Hq.
  { destruct (parent_of p y) as [q|] eqn:Hq; [by exists q|]. exfalso.
    pose proof (parent_None _ _ Hq) as Hno.
    destruct y as [r rn ra rcs|s]; cbn [subtree] in Hin; [|by apply list_elem_of_singleton in Hin].
    apply elem_of_cons in Hin as [[= -> -> -> ->]|Hin].
    - unfold below_top in Hbelow. rewrite Forall_forall in Hbelow. by rewrite Hbelow in Hid.
    - specialize (Hno _ Hin). cbn in Hno. by rewrite bool_decide_eq_true_2 in Hno. }
  destruct (parent_before _ _ _ _ _ _ _ (ok_nodup _ Hok) Hi Hm) as (j & Hj & Hji).
  destruct (IH p (annotate_statement step n) j Hok Hp Hq Hj ltac:(lia)) as [steps ->].
  by exists (step :: steps).
Qed.

(** ** The annotation module *)

(** What a document says: names with attributes, and texts, without the statements
    that say where an annotation belongs. *)
Definition said {I} (n : node I) : option (pystr * list (pystr * pystr) + pystr) :=
  match n with
  | Tag _ nm a _ => if str_eqb nm (py"tailf:annotate-statement") then None else Some (inl (nm, a))
  | Str s => Some (inr s)
  end.

Lemma said_shallow {I} : shallow (I := I) said.
Proof. done. Qed.

Lemma said_copy n : collect said (copy n) = collect said n.
Proof.
  induction n as [i nm a cs IH|s] using node_ind'; [|done]. cbn [copy]. rewrite !collect_tag. f_equal. f_equal.
  induction IH as [|c cs Hc _ IHcs]; [done|]. rewrite !fmap_cons. by rewrite Hc, IHcs.
Qed.

Lemma said_in_steps steps n : collect said (in_steps steps n) = collect said n.
Proof.
  revert n. induction steps as [|st steps IH]; intros n; [done|].
  change (in_steps (st :: steps) n) with (in_steps steps (annotate_statement st n)).
  rewrite IH. unfold annotate_statement. rewrite collect_tag. cbn. by rewrite app_nil_r.
Qed.

Lemma copy_unnamed k n : Some k ∉ ids (copy n).
Proof.
  induction n as [i nm a cs IH|s] using node_ind'; [|apply not_elem_of_nil].
  cbn [copy]. rewrite ids_tag. intros [?|Hin]%elem_of_cons; [done|].
  induction IH as [|c cs Hc _ IHcs]; [by apply elem_of_nil in Hin|].
  rewrite !fmap_cons in Hin. cbn [concat] in Hin. apply elem_of_app in Hin as [Hin|Hin]; auto.
Qed.

Lemma in_steps_unnamed k steps n : Some k ∉ ids n → Some k ∉ ids (in_steps steps n).
Proof.
  revert n. induction steps as [|st steps IH]; intros n Hn; [done|]. apply IH. unfold annotate_statement.
  rewrite ids_tag. intros [?|Hin]%elem_of_cons; [done|]. cbn in Hin. by rewrite app_nil_r in Hin.
Qed.

(** The annotation module around the annotations. *)
Record frame := Frame {
  doc_id : option nat; doc_name : pystr; doc_attrs : list (pystr * pystr);
  mod_id : option nat; mod_attrs : list (pystr * pystr);
  before : list (node (option nat)); ann_id : nat; ann_attrs : list (pystr * pystr); after : list (node (option nat)) }.

Definition fill (F : frame) (body : list (node (option nat))) : node (option nat) :=
  Tag (doc_id F) (doc_name F) (doc_attrs F)
    [Tag (mod_id F) (py"module") (mod_attrs F)
       (before F ++ Tag (Some (ann_id F)) (py"tailf_prefix_annotate_module") (ann_attrs F) body :: after F)].

Definition unnamed (F : frame) (n : node (option nat)) : Prop := Some (ann_id F) ∉ ids n.

Record frame_ok (F : frame) : Prop := {
  frame_doc : doc_id F ≠ Some (ann_id F);
  frame_mod : mod_id F ≠ Some (ann_id F);
  frame_before : Forall (unnamed F) (before F);
  frame_after : Forall (unnamed F) (after F);
  frame_first : Forall (λ n, List.filter is_annotate_module (subtree n) = []) (before F) }.

Lemma update_others F f l : Forall (unnamed F) l → update (Some (ann_id F)) f <$> l = l.
Proof. induction 1 as [|n l Hn _ IH]; [done|]. rewrite fmap_cons, IH. f_equal. by apply update_absent. Qed.

Lemma append_fill F body x :
  frame_ok F → Forall (unnamed F) body → append_annotation x (fill F body) = Ok (fill F (body ++ [x])).
Proof.
  intros [Hd Hm Hb Ha Hf] Hbody. unfold append_annotation.
  assert (∀ T, find_first is_module (Tag (doc_id F) (doc_name F) (doc_attrs F) [Tag (mod_id F) (py"module") (mod_attrs F) T]) =
               Some (Tag (mod_id F) (py"module") (mod_attrs F) T)) as Hmod by done.
  unfold fill at 1. rewrite Hmod.
  assert (find_first is_annotate_module (Tag (mod_id F) (py"module") (mod_attrs F)
    (before F ++ Tag (Some (ann_id F)) (py"tailf_prefix_annotate_module") (ann_attrs F) body :: after F)) =
    Some (Tag (Some (ann_id F)) (py"tailf_prefix_annotate_module") (ann_attrs F) body)) as ->.
  { unfold find_first, find_all, descendants. cbn [contents]. rewrite fmap_app, concat_app, List.filter_app.
    assert (List.filter is_annotate_module (concat (subtree <$> before F)) = []) as ->; [|done].
    clear -Hf. induction Hf as [|n l Hn _ IH]; [done|]. rewrite fmap_cons. cbn [concat]. by rewrite List.filter_app, Hn, IH. }
  f_equal. unfold append, fill. cbn [update]. rewrite decide_False by done.
  f_equal. cbn [fmap list_fmap]. f_equal. cbn [update]. rewrite decide_False by done. f_equal.
  rewrite fmap_app, fmap_cons, !update_others by done. cbn [update]. rewrite decide_True by done.
  cbn [add_child]. by rewrite update_others.
Qed.

Lemma collect_fill {B} (g : node (option nat) → option B) F body l :
  shallow g → collect g (fill F (body ++ l)) ≡ₚ collect g (fill F body) ++ concat (collect g <$> l).
Proof.
  intros Hg. unfold fill. rewrite !collect_shallow by done. cbn [fmap list_fmap concat].
  rewrite !collect_shallow, !app_nil_r by done. rewrite !fmap_app, !concat_app, !fmap_cons. cbn [concat].
  rewrite !collect_shallow, fmap_app, concat_app by done. rewrite <-!app_assoc. do 5 f_equiv.
  apply Permutation_app_comm.
Qed.

(** ** Extraction of statements *)

Definition state_ok (F : frame) (s : ann_state) : Prop :=
  module_ok (yin s) ∧ ∃ body, ann s = fill F body ∧ Forall (unnamed F) body.

(** What both documents say. *)
Definition sayings (s : ann_state) : list (pystr * list (pystr * pystr) + pystr) :=
  collect said (yin s) ++ collect said (ann s).

(** More annotations, nothing lost. *)
Record moves (F : frame) (s s' : ann_state) : Prop := {
  moves_ok : state_ok F s';
  moves_below : ∀ i, below_top (yin s) i → below_top (yin s') i;
  moves_ann : ∀ body, ann s = fill F body → ∃ l, ann s' = fill F (body ++ l);
  moves_said : sayings s' ≡ₚ sayings s }.

Lemma moves_refl F s : state_ok F s → moves F s s.
Proof. intros Hok. split; try done. intros body Hb. exists []. by rewrite app_nil_r. Qed.

Lemma moves_trans F s1 s2 s3 : moves F s1 s2 → moves F s2 s3 → moves F s1 s3.
Proof.
  intros [H1 B1 A1 S1] [H2 B2 A2 S2]. split; [done|eauto| |by rewrite S2].
  intros body Hb. destruct (A1 _ Hb) as [l Hl]. destruct (A2 _ Hl) as [l' Hl']. exists (l ++ l').
  by rewrite app_assoc.
Qed.

Lemma decompose_gone id (y : node nat) : parent_of id y = None → decompose id y = y.
Proof.
  intros Hp. rewrite decompose_prune. transitivity (prune (λ _, false) y); [|apply prune_nothing].
  apply prune_ext. by apply parent_None.
Qed.

Lemma ids_bound i (y : node nat) id : ids y !! i = Some id → i < length (subtree y).
Proof.
  intros Hi%lookup_lt_Some. eapply Nat.lt_le_trans; [exact Hi|]. unfold ids, collect. clear.
  induction (subtree y) as [|n l IH]; [done|]. destruct n; cbn in *; lia.
Qed.

Lemma extract_one_spec F cond id s :
  frame_ok F → state_ok F s → below_top (yin s) id →
  (∃ p, parent_of id (yin s) = Some p ∧ cond p = false ∧ extract_one cond id s = (Ok tt, s)) ∨
  ∃ s', extract_one cond id s = (Ok tt, s') ∧ moves F s s' ∧ yin s' = decompose id (yin s).
Proof.
  intros HF [Hok (body & Hb & Hbody)] Hbelow. unfold extract_one, mbind, PyM_bind, get.
  destruct (parent_of id (yin s)) as [p|] eqn:Hp.
  2:{ right. exists s. split; [done|]. split; [apply moves_refl; split; [done|by exists body]|].
      by rewrite decompose_gone. }
  destruct (cond p) eqn:Hc; [right|by left; eauto].
  destruct (parent_spec _ _ _ Hp) as (Hin & t & Ht & Hid%has_id_node).
  pose proof (child_descendant _ _ _ Hin Ht) as Hd. pose proof (descendants_subtree _ _ Hd) as Hsub.
  unfold lift. rewrite (the_tag_found _ _ _ (ok_nodup _ Hok) Hsub Hid).
  assert (id ∈ ids (yin s)) as Hids by (by eapply elem_of_subtree_id).
  apply list_elem_of_lookup in Hids as [i Hi].
  pose proof (ids_bound _ _ _ Hi) as Hlt.
  destruct (add_stmt_ok _ id (copy t) _ i Hok Hbelow (ex_intro _ p Hp) Hi Hlt) as [steps ->].
  rewrite Hb, append_fill by done. eexists. split; [reflexivity|]. split; [|done]. split; cbn [yin ann].
  - split; [by apply decompose_ok|]. eexists. split; [done|]. apply Forall_app. split; [done|].
    apply Forall_singleton. apply in_steps_unnamed, copy_unnamed.
  - intros j Hj. by apply decompose_below.
  - intros body' Hb'. rewrite Hb in Hb'. exists [in_steps steps (copy t)]. f_equal. f_equal.
    unfold fill in Hb'. injection Hb' as Hb'. apply app_inv_head in Hb'. by injection Hb'.
  - unfold sayings. cbn [yin ann]. rewrite Hb, collect_fill by done. cbn [fmap list_fmap concat].
    rewrite app_nil_r, said_in_steps, said_copy.
    rewrite (collect_taken said id (yin s) t) by (done || apply ok_nodup, Hok).
    rewrite <-!app_assoc. f_equiv. apply Permutation_app_comm.
Qed.

(** Conditions that do not look at contents and do not take the module itself. *)
Definition statement (p : node nat → bool) : Prop :=
  shallow (λ n, Some (p n)) ∧ ∀ n, p n = true → (∃ i nm a cs, n = Tag i nm a cs) ∧ top_name n = false.

Lemma named_statement nm : nm ≠ py"module" → nm ≠ py"submodule" → statement (has_name nm).
Proof.
  intros H1 H2. split; [done|]. intros n (i & a & cs & ->)%has_name_true. split; [eauto|].
  unfold top_name, is_module, has_name. apply orb_false_iff.
  assert (∀ m, nm ≠ m → str_eqb nm m = false) as Hne; [|by rewrite !Hne].
  intros m Hm. apply not_true_is_false. intros He. apply Hm.
  assert (has_name m (Tag i nm a cs) = true) as (? & ? & ? & [= _ -> _ _])%has_name_true by done. done.
Qed.

Lemma tailf_statement : statement tailf_named.
Proof.
  split; [done|]. intros [i nm a cs|s]; [|done]. cbn. intros Hc. split; [eauto|].
  unfold top_name, is_module. apply not_true_is_false.
  intros [H|H]%orb_true_iff; apply (has_name_true _ (Tag i nm a cs)) in H as (? & ? & ? & [= _ -> _ _]);
    by vm_compute in Hc.
Qed.

Lemma found_below p y : module_ok y → statement p → Forall (below_top y) (find_ids p y).
Proof.
  intros Hok [_ Hp]. apply Forall_forall. intros i (m & Hm & Hi)%list_elem_of_omap.
  apply list_elem_of_In, List.filter_In in Hm as [Hm%list_elem_of_In Hpm].
  apply Forall_forall. intros c Hc. apply not_true_is_false. intros Hid%has_id_node.
  assert (m = c) as ->.
  { eapply (same_id y); [apply ok_nodup, Hok|by apply descendants_subtree| |done|done].
    eapply subtree_child; [exact Hc|apply subtree_self]. }
  pose proof (ok_top _ Hok) as Ht. rewrite Forall_forall in Ht. specialize (Ht _ Hc). destruct (Hp _ Hpm). congruence.
Qed.

Lemma among_app l1 l2 (n : node nat) : among (l1 ++ l2) n = among l1 n || among l2 n.
Proof. apply existsb_app. Qed.

Lemma among_one i (n : node nat) : among [i] n = has_id i n.
Proof. unfold among. cbn. apply orb_false_r. Qed.

Lemma among_text l s : among l (Str (I := nat) s) = false.
Proof. by induction l. Qed.

(** One more tag taken out. *)
Lemma prune_one l1 i (y : node nat) : decompose i (prune (among l1) y) = prune (among (l1 ++ [i])) y.
Proof.
  rewrite decompose_prune, prune_prune by done. apply prune_ext. intros c _. by rewrite among_app, among_one.
Qed.

(** A loop that may leave a tag: it takes out what it finds, when a tag that it would
    leave is gone by then. *)
Lemma each_spec F cond y l1 l2 s :
  frame_ok F → state_ok F s → yin s = prune (among l1) y → Forall (below_top (yin s)) l2 →
  (∀ la i lb p s', l2 = la ++ i :: lb → state_ok F s' → yin s' = prune (among (l1 ++ la)) y →
     parent_of i (yin s') = Some p → cond p = true) →
  ∃ s', A_each (extract_one cond) l2 s = (Ok tt, s') ∧ moves F s s' ∧ yin s' = prune (among (l1 ++ l2)) y.
Proof.
  intros HF. revert l1 s. induction l2 as [|i l2 IH]; intros l1 s Hok Hy Hb Hcond; cbn [A_each].
  - exists s. rewrite app_nil_r. split; [done|]. split; [by apply moves_refl|done].
  - apply Forall_cons in Hb as [Hi Hb].
    destruct (extract_one_spec F cond i s HF Hok Hi) as [(p & Hp & Hc & _)|(s1 & H1 & Hm & Hy1)].
    { rewrite (Hcond [] i l2 p s) in Hc; [done|done|done|by rewrite app_nil_r|done]. }
    unfold mbind, PyM_bind. rewrite H1. rewrite Hy, prune_one in Hy1.
    destruct (IH (l1 ++ [i]) s1) as (s' & Hs' & Hm' & Hy').
    + apply Hm.
    + done.
    + eapply Forall_impl; [exact Hb|]. apply Hm.
    + intros la j lb p s' -> Hok' Hys'. apply (Hcond (i :: la) j lb p s'); [done|done|].
      by rewrite <-app_assoc in Hys'.
    + exists s'. rewrite <-app_assoc in Hy'. split; [done|]. split; [by eapply moves_trans|done].
Qed.

(** Inner tailf extensions are gone when their turn comes. *)
Lemma inner_gone y l1 i l2 p :
  module_ok y → find_ids tailf_named y = l1 ++ i :: l2 → module_ok (prune (among l1) y) →
  parent_of i (prune (among l1) y) = Some p → not_in_tailf p = true.
Proof.
  intros Hok Hl Hok1 Hp. destruct p as [q nm a cs|s]; [|done]. unfold not_in_tailf. apply negb_true_iff, not_true_is_false.
  intros [k Hnm]%startswith_spec. destruct (parent_spec _ _ _ Hp) as (Hin & c & Hc & Hid%has_id_node).
  pose (g := λ n : node nat, if tailf_named n then node_id n else None).
  assert (tailf_named (Tag q nm a cs) = true) as Ht by (cbn; apply contains_true; by exists [], k).
  assert (q ∈ find_ids tailf_named y) as Hq.
  { assert (q ∈ collect g y) as Hq.
    { eapply sublist_subseteq; [apply (collect_prune g (among l1)); done|].
      apply list_elem_of_omap. exists (Tag q nm a cs). split; [done|]. unfold g. by rewrite Ht. }
    destruct (ok_root _ Hok) as (r & rn & ra & rcs & -> & Hr). unfold find_ids, find_all. rewrite omap_filter.
    unfold collect in Hq. cbn [subtree] in Hq. apply list_elem_of_omap in Hq as (m & Hm & Hg).
    apply elem_of_cons in Hm as [->|Hm]; [unfold g in Hg; by rewrite Hr in Hg|].
    apply list_elem_of_omap. by exists m. }
  assert (i ∈ ids y) as Hi.
  { apply (found_in_tree tailf_named). fold (find_ids tailf_named y). rewrite Hl. apply elem_of_app. right. left. }
  apply list_elem_of_split in Hi as (u & v & Hy).
  pose proof (ok_nodup _ Hok) as Hnd. rewrite Hy in Hnd.
  (* the parent is before the tag *)
  assert (q ∈ u) as Hqu.
  { assert (i ∈ ids (prune (among l1) y)) as (x & Hx)%list_elem_of_lookup.
    { eapply elem_of_subtree_id; [|exact Hid]. by apply descendants_subtree, (child_descendant _ (Tag q nm a cs)). }
    destruct (parent_before _ _ _ _ _ _ _ (ok_nodup _ Hok1) Hx Hp) as (j & Hj & Hjx).
    pose proof (collect_prune node_id (among l1) y shallow_id) as Hsub. fold (ids (prune (among l1) y)) in Hsub.
    fold (ids y) in Hsub. rewrite Hy, <-(take_drop_middle _ _ _ Hx) in Hsub.
    destruct (sublist_split _ _ _ _ _ Hnd Hsub) as [Hs _]. eapply sublist_subseteq; [exact Hs|].
    apply list_elem_of_lookup. exists j. by rewrite lookup_take_lt. }
  assert (q ∈ l1) as Hq1.
  { pose proof (omap_filter_sublist node_id tailf_named (subtree y)) as Hsub.
    assert (omap node_id (List.filter tailf_named (subtree y)) = l1 ++ i :: l2) as Hfull.
    { rewrite <-Hl. destruct (ok_root _ Hok) as (r & rn & ra & rcs & -> & Hr). cbn [subtree List.filter]. by rewrite Hr. }
    fold (collect node_id y) in Hsub. fold (ids y) in Hsub. rewrite Hfull, Hy in Hsub.
    destruct (sublist_split _ _ _ _ _ Hnd Hsub) as [_ Hs2]. rewrite Hl in Hq.
    apply NoDup_app in Hnd as (_ & Hdis & _).
    apply elem_of_app in Hq as [Hq|[Hqi|Hq]%elem_of_cons]; [done| |]; exfalso; apply (Hdis q Hqu).
    - rewrite Hqi. left.
    - right. by eapply sublist_subseteq. }
  assert (among l1 (Tag q nm a cs) = true) as Ha.
  { apply existsb_exists. exists q. split; [by apply list_elem_of_In|]. cbn. by apply bool_decide_eq_true. }
  destruct (ok_root _ Hok) as (r & rn & ra & rcs & -> & Hr).
  cbn [prune subtree] in Hin. apply elem_of_cons in Hin as [[= -> -> -> _]|Hin]; [cbn in Ht, Hr; congruence|].
  assert (find_all (among l1) (prune (among l1) (Tag r rn ra rcs)) = []) as Hnone.
  { apply prune_none; [done|apply among_text]. }
  assert (Tag q nm a cs ∈ find_all (among l1) (prune (among l1) (Tag r rn ra rcs))) as Hf.
  { apply list_elem_of_In, List.filter_In. split; [by apply list_elem_of_In|done]. }
  rewrite Hnone in Hf. by apply elem_of_nil in Hf.
Qed.

(** ** The loops together *)

Lemma extract_if_spec F flag p cond s :
  frame_ok F → state_ok F s → statement p → cond = anywhere ∨ (p = tailf_named ∧ cond = not_in_tailf) →
  ∃ b s', extract_if flag p cond s = (Ok b, s') ∧ moves F s s' ∧ yin s' = prune (λ n, flag && p n) (yin s).
Proof.
  intros HF Hok Hp Hcond. destruct flag.
  2:{ exists false, s. split; [done|]. split; [by apply moves_refl|]. by rewrite prune_nothing. }
  unfold extract_if, extract, mbind, PyM_bind, get.
  destruct (each_spec F cond (yin s) [] (find_ids p (yin s)) s HF Hok) as (s' & -> & Hm & Hy).
  - symmetry. apply prune_nothing.
  - apply found_below; [apply Hok|done].
  - intros la i lb q s1 Hl Hok1 Hy1 Hq. destruct Hcond as [->|[-> ->]]; [done|]. cbn [app] in Hy1.
    eapply (inner_gone (yin s) la i lb); [apply Hok|done| |].
    + rewrite <-Hy1. apply Hok1.
    + by rewrite <-Hy1.
  - eexists _, s'. split; [reflexivity|]. split; [done|]. rewrite Hy. apply prune_ext. cbn [app andb].
    apply among_found; [apply ok_nodup, Hok|]. intros t. destruct (p (Str t)) eqn:Ht; [|done].
    by destruct (proj2 Hp _ Ht) as [(? & ? & ? & ? & ?) _].
Qed.

(** The statements that the options select. *)
Definition selections (f : flags) : list (bool * (node nat → bool)) :=
  [(parse_must f, has_name (py"must")); (parse_when f, has_name (py"when"));
   (parse_min_elem f, has_name (py"min-elements")); (parse_max_elem f, has_name (py"max-elements"));
   (parse_mandatory f, has_name (py"mandatory")); (parse_unique f, has_name (py"unique"));
   (parse_pattern f, has_name (py"pattern")); (parse_tailf f, tailf_named);
   (negb (parse_leafref f) && parse_callpoint f, has_name (py"tailf_prefix_callpoint"));
   (negb (parse_leafref f) && parse_validate f, has_name (py"tailf_prefix_validate"))].
Definition selected (f : flags) (n : node nat) : bool := existsb (λ fp : bool * (node nat → bool), fp.1 && fp.2 n) (selections f).

Definition is_leafref (n : node nat) : bool := bool_decide (attr (py"yname") n = Some (py"leafref")).

Ltac extraction_step Hok :=
  match goal with
  | |- context [extract_if ?flag ?p ?cond ?s] =>
      let H := fresh "H" in let m := fresh "Hm" in let y := fresh "Hy" in let b := fresh "b" in let s' := fresh "s" in
      destruct (extract_if_spec _ flag p cond s ltac:(eassumption) (moves_ok _ _ _ Hok)
        ltac:(apply tailf_statement || (apply named_statement; vm_decide)) ltac:(auto)) as (b & s' & H & m & y);
      rewrite H; cbv beta iota; clear H;
      apply (moves_trans _ _ _ _ Hok) in m; clear Hok; rename m into Hok
  end.

(** C21: the extraction loops return for every module that pyang can print; the
    module that is left is the module without the statements that the options select
    (and, on request, with string for its leafrefs), the annotations are added to the
    annotation module, and if leafrefs are kept ([parse_leafref] is off) nothing is
    lost: what both documents say together, texts and tags with their attributes, is
    what they said before.  With that option the leafrefs' types are replaced, and what
    they said is gone. *)
Theorem statements_moved (F : frame) (f : flags) (y : node nat) (body : list (node (option nat))) :
  frame_ok F → module_ok y → Forall (unnamed F) body →
  let s := AnnState y (fill F body) in
  ∃ create s' moved, extract_all f s = (Ok create, s') ∧
    yin s' = (if parse_leafref f then to_string_all is_leafref else id) (prune (selected f) y) ∧
    ann s' = fill F (body ++ moved) ∧
    (parse_leafref f = false → sayings s' ≡ₚ sayings s).
Proof.
  intros HF Hy Hbody s. assert (state_ok F s) as Hs by (split; [done|by exists body]).
  pose proof (moves_refl F s Hs) as Hmoves. unfold extract_all, mbind, PyM_bind.
  do 8 (extraction_step Hmoves).
  match type of Hmoves with moves F s ?s8 => assert (yin s8 = prune (λ n, existsb (λ fp : bool * (node nat → bool), fp.1 && fp.2 n) (take 8 (selections f))) y) as Hy8 end.
  { repeat match goal with E : yin _ = prune _ (yin _) |- _ => rewrite E; clear E end.
    rewrite !prune_prune by done. apply prune_ext. intros c _. cbn. by rewrite orb_false_r, !orb_assoc. }
  unfold selected, selections in *. cbn [take] in Hy8. destruct (parse_leafref f) eqn:Hleaf.
  - unfold modify, mret, PyM_ret. eexists _, _. cbn [yin ann].
    destruct (moves_ann _ _ _ Hmoves body eq_refl) as [moved Hann]. exists moved.
    split; [reflexivity|]. split; [|done]. cbn [yin]. by rewrite Hy8.
  - do 2 (extraction_step Hmoves). unfold mret, PyM_ret. eexists _, _.
    destruct (moves_ann _ _ _ Hmoves body eq_refl) as [moved Hann]. exists moved.
    split; [reflexivity|]. split; [|split; [done|intros _; apply Hmoves]].
    repeat match goal with E : yin _ = prune _ (yin _) |- _ => rewrite E; clear E end.
    rewrite !prune_prune by done. apply prune_ext. intros c _. cbn. by rewrite !orb_false_r, !orb_assoc.
Qed.

(** A module with a must, a when, a mandatory and a tailf extension. *)
Definition ex_yin : node nat := Tag 0 (py"[document]") []
  [Tag 1 (py"module") [(py"yname", py"m")]
    [Tag 2 (py"augment") [(py"target_node", py"/c")]
      [Tag 3 (py"leaf") [(py"yname", py"l")]
        [Tag 4 (py"must") [(py"condition", py"x")] [Tag 5 (py"error-message") [] [Str (py"no")]];
         Tag 6 (py"mandatory") [(py"value", py"true")] [];
         Tag 7 (py"tailf_prefix_info") [] [Tag 8 (py"tailf_prefix_text") [] [Str (py"info")]]]]]].

Definition ex_frame : frame := Frame (Some 0) (py"[document]") [] (Some 1) []
  [Tag (Some 2) (py"prefix") [(py"value", py"m-ann")] []] 3 [(py"module_name", py"m")] [Str nl].

Definition only_must : flags := Flags true false false false false false false true false false false false.
Definition only_mandatory : flags := Flags false false false false true false false false false false false false.

Lemma ex_frame_ok : frame_ok ex_frame.
Proof. split; vm_decide. Qed.

Lemma ex_yin_ok : module_ok ex_yin.
Proof. split; [vm_decide| |vm_decide|done]. by eexists _, _, _, _. Qed.

Lemma statements_moved_witness :
  ∃ create s' moved, extract_all only_must (AnnState ex_yin (fill ex_frame [])) = (Ok create, s') ∧
    yin s' = prune (selected only_must) ex_yin ∧ ann s' = fill ex_frame ([] ++ moved) ∧
    (parse_leafref only_must = false → sayings s' ≡ₚ sayings (AnnState ex_yin (fill ex_frame []))).
Proof.
  exact (statements_moved ex_frame only_must ex_yin [] ex_frame_ok ex_yin_ok (List.Forall_nil _)).
Defined.

(** The annotations in their places. *)
Example ex_annotations :
  ann (extract_all only_must (AnnState ex_yin (fill ex_frame []))).2 =
  fill ex_frame
    [annotate_statement (py"augment[name='/c']") (annotate_statement (py"leaf[yname='l']")
       (Tag None (py"must") [(py"condition", py"x")] [Tag None (py"error-message") [] [Str (py"no")]]));
     annotate_statement (py"augment[name='/c']") (annotate_statement (py"leaf[yname='l']")
       (Tag None (py"tailf_prefix_info") [] [Tag None (py"tailf_prefix_text") [] [Str (py"info")]]))].
Proof. by vm_compute. Qed.

(** ** What it does not mean to do *)

(** Mandatory statements alone are taken out of the module, and the annotation module
    that has them is not written. *)
Example mandatory_lost :
  let r := extract_all only_mandatory (AnnState ex_yin (fill ex_frame [])) in
  r.1 = Ok false ∧ find_all (has_name (py"mandatory")) (yin r.2) = [] ∧
  length (find_all (λ n, has_name (py"mandatory") n) (ann r.2)) = 1.
Proof. by vm_compute. Qed.

(** Without CONFD_DIR the message is followed by an unbound name. *)
Lemma ann_no_confd_dir today pyang parse parse_ann render render_ann f out yang_file :
  tailf_ann_stmt None today pyang parse parse_ann render render_ann f out yang_file = Raise UnboundLocalError.
Proof. done. Qed.

(** Sanitizing leaves no tailf extension. *)
Lemma sanitized_clean (y : node nat) : NoDup (ids y) → find_all tailf_named (sanitized y) = [].
Proof.
  intros Hnd. unfold sanitized. rewrite decompose_all.
  assert (prune (among (find_ids tailf_named y)) y = prune tailf_named y) as ->.
  { apply prune_ext. apply among_found; done. }
  assert (∀ q, shallow (λ n, Some (q n)) → (∀ s, q (Str s) = false) →
    find_all tailf_named (prune q (prune tailf_named y)) = []) as Hq.
  { intros q Hq Hs. rewrite prune_prune by done.
    assert (find_all (λ c, tailf_named c || q c) (prune (λ c, tailf_named c || q c) y) = []) as H.
    { apply prune_none; [|by intros s; cbn]. intros i nm a cs cs'. specialize (Hq i nm a cs cs'). injection Hq as ->. done. }
    unfold find_all in *. induction (descendants _) as [|c l IH]; [done|]. cbn in *.
    destruct (tailf_named c); [done|]. cbn in H. destruct (q c); [done|]. by apply IH. }
  destruct (find_first _ _) as [[i nm a cs|s]|]; [rewrite decompose_prune; by apply Hq| |];
    rewrite <-(prune_nothing (prune tailf_named y)); by apply Hq.
Qed.

(** But the names of tailf types keep the prefix they were read with. *)
Example tailf_type_left :
  let y := Tag 0 (py"[document]") [] [Tag 1 (py"leaf") [] [Tag 2 (py"type") [(py"name", py"tailf_prefix_size")] []]] in
  sanitized y = y.
Proof. by vm_compute. Qed.
