(* ===== verification/ArgParse.v ===== *)
(** * argparse

    What the programs use of Python's argparse module: options with one argument, a
    list of one argument, repeated arguments or none, choices and conversions,
    required options, at most one positional argument, abbreviations of long
    options, joined short options, [--], help and version.  The steps are those of
    the module's [parse_known_args]: the arguments are classified, then consumed from
    left to right.  No counterpart under src/. *)

From Stdlib Require Import Ascii String.
From S2P Require Import Prelude PyStr PyDict.

(** ** Parsers *)

Inductive value :=
  | VNone
  | VStr (s : pystr)
  | VBool (b : bool)
  | VInt (z : Z)
  | VFloat (s : pystr)
  | VList (l : list pystr).

#[export] Instance value_eq_dec : EqDecision value.
Proof. solve_decision. Defined.

(** [type=...] *)
Inductive conv := CStr | CInt | CFloat.

(** [action=...], with [nargs=1] as a list. *)
Inductive action :=
  | Store (c : conv) (choices : option (list pystr))
  | StoreList
  | Append
  | StoreConst (v : value)
  | Help
  | Version.

Record optional := Opt { opt_strings : list pystr; opt_action : action; dest : pystr; default : value; required : bool }.

Inductive arity := One | OneList | Maybe.

#[export] Instance arity_eq_dec : EqDecision arity.
Proof. solve_decision. Defined.

Record positional := Pos { pos_dest : pystr; pos_arity : arity; pos_default : value }.

Record parser := Parser { optionals : list optional; pos : option positional }.

(** The options of every parser. *)
Definition help_option : optional := Opt [py"-h"; py"--help"] Help (py"help") VNone false.
Definition new_parser (opts : list optional) (p : option positional) : parser := Parser (help_option :: opts) p.

(** Short forms of [add_argument]. *)
Definition store (ss : list pystr) (d : pystr) (v : value) : optional := Opt ss (Store CStr None) d v false.
Definition choice (ss : list pystr) (d : pystr) (l : list pystr) (v : pystr) : optional :=
  Opt ss (Store CStr (Some l)) d (VStr v) false.
Definition store_true (ss : list pystr) (d : pystr) : optional := Opt ss (StoreConst (VBool true)) d (VBool false) false.
Definition needed (ss : list pystr) (d : pystr) : optional := Opt ss (Store CStr None) d VNone true.

(** ** Conversions *)

Fixpoint digits (s : pystr) : bool := match s with [] => true | c :: s' => is_digit c && digits s' end.

(** [^-\d+$|^-\d*\.\d+$] *)
Definition negative_number (s : pystr) : bool :=
  match s with
  | c :: s' => bool_decide (c = "-"%char) &&
      match split1 "." s' with
      | [a] => negb (bool_decide (a = [])) && digits a
      | [a; b] => digits a && negb (bool_decide (b = [])) && digits b
      | _ => false
      end
  | [] => false
  end.

(** Digits with single underscores between them. *)
Definition digit_part (s : pystr) : bool :=
  forallb (λ w, negb (bool_decide (w = [])) && digits w) (split "_" s).

Definition unsigned (s : pystr) : pystr :=
  match s with c :: s' => if decide (c ∈ ["+"; "-"]%char) then s' else s | [] => [] end.

Definition lower (c : ascii) : ascii :=
  let n := nat_of_ascii c in if (65 <=? n)%nat && (n <=? 90)%nat then ascii_of_nat (n + 32) else c.

(** The texts that [float] accepts. *)
Definition is_float (s : pystr) : bool :=
  let t := lower <$> unsigned (strip s) in
  bool_decide (t ∈ [py"inf"; py"infinity"; py"nan"]) ||
  match split1 "e" t with
  | m :: e =>
      match e with [] => true | e :: _ => digit_part (unsigned e) end &&
      match split1 "." m with
      | [a] => digit_part a
      | [[]; b] => digit_part b
      | [a; []] => digit_part a
      | [a; b] => digit_part a && digit_part b
      | _ => false
      end
  | [] => false
  end.

Definition exit_2 {A} : res A := Raise (SystemExit 2).
Definition exit_0 {A} : res A := Raise (SystemExit 0).

Definition convert (c : conv) (choices : option (list pystr)) (s : pystr) : res value :=
  match c with
  | CStr => if match choices with Some l => bool_decide (s ∈ l) | None => true end then Ok (VStr s) else exit_2
  | CInt => match py_int s with Some z => Ok (VInt z) | None => exit_2 end
  | CFloat => if is_float s then Ok (VFloat s) else exit_2
  end.

(** ** Classification *)

(** An option with the string it was found by and the argument that is part of the
    same string. *)
Definition found := (optional * pystr * option pystr)%type.

Inductive token :=
  | TArg (s : pystr)
  | TDash
  | TOpt (s : pystr) (o : option found).

(** The table of option strings. *)
Definition option_table (p : parser) : list (pystr * optional) :=
  concat ((λ o, (λ s, (s, o)) <$> opt_strings o) <$> optionals p).

Definition is_long (s : pystr) : bool := startswith s (py"--").

(** [_get_option_tuples]: options that a string abbreviates. *)
Definition option_tuples (p : parser) (s : pystr) : list found :=
  if is_long s then
    match split1 "=" s with
    | [pre; e] => omap (λ so : pystr * optional, if startswith so.1 pre then Some (so.2, so.1, Some e) else None) (option_table p)
    | _ => omap (λ so : pystr * optional, if startswith so.1 s then Some (so.2, so.1, None) else None) (option_table p)
    end
  else
    omap (λ so : pystr * optional,
      if decide (so.1 = take 2 s) then Some (so.2, so.1, Some (drop 2 s))
      else if startswith so.1 s then Some (so.2, so.1, None) else None) (option_table p).

(** [_parse_optional] *)
Definition parse_optional (p : parser) (s : pystr) : res token :=
  if negb (startswith s (py"-")) then Ok (TArg s) else
  match dict_get s (option_table p) with
  | Some o => Ok (TOpt s (Some (o, s, None)))
  | None =>
      if (length s =? 1)%nat then Ok (TArg s) else
      match (match split1 "=" s with
             | [a; e] => match dict_get a (option_table p) with Some o => Some (o, a, Some e) | None => None end
             | _ => None end : option found) with
      | Some f => Ok (TOpt s (Some f))
      | None =>
          match option_tuples p s with
          | [f] => Ok (TOpt s (Some f))
          | _ :: _ :: _ => exit_2
          | [] => if negative_number s || contains s (py" ") then Ok (TArg s) else Ok (TOpt s None)
          end
      end
  end.

Fixpoint classify (p : parser) (l : list pystr) : res (list token) :=
  match l with
  | [] => Ok []
  | s :: l' =>
      if decide (s = py"--") then Ok (TDash :: (TArg <$> l')) else
      t ← parse_optional p s;
      ts ← classify p l';
      Ok (t :: ts)
  end.

(** ** Consumption *)

Definition namespace := list (pystr * value).

Definition takes_argument (o : optional) : bool :=
  match opt_action o with Store _ _ | StoreList | Append => true | _ => false end.

(** An option's action on its arguments. *)
Definition take_action (o : optional) (arg : option pystr) (ns : namespace) : res namespace :=
  match opt_action o, arg with
  | Store c ch, Some s => v ← convert c ch s; Ok (dict_set (dest o) v ns)
  | StoreList, Some s => Ok (dict_set (dest o) (VList [s]) ns)
  | Append, Some s =>
      let l := match dict_get (dest o) ns with Some (VList l) => l | _ => [] end in
      Ok (dict_set (dest o) (VList (l ++ [s])) ns)
  | StoreConst v, _ => Ok (dict_set (dest o) v ns)
  | Help, _ | Version, _ => exit_0
  | _, None => exit_2
  end.

(** Joined short options: the options without an argument before the last one. *)
Fixpoint joined (p : parser) (o : optional) (short : bool) (e : pystr) : res (list optional * (optional * option pystr)) :=
  if takes_argument o then Ok ([], (o, Some e)) else
  if negb short then exit_2 else
  match e with
  | [] => exit_2
  | c :: e' =>
      match dict_get ["-"%char; c] (option_table p) with
      | None => exit_2
      | Some o' =>
          match e' with
          | [] => Ok ([o], (o', None))
          | _ => r ← joined p o' true e'; Ok (o :: r.1, r.2)
          end
      end
  end.

Definition parts (p : parser) (f : found) : res (list optional * (optional * option pystr)) :=
  let '(o, s, e) := f in
  match e with Some e => joined p o (negb (is_long s)) e | None => Ok ([], (o, None)) end.

(** The namespace, the options that were seen, whether the positional argument is
    still missing, and the arguments that were not recognized. *)
Record pstate := PState { ns : namespace; seen : list pystr; missing : bool; extras : list pystr }.

Definition add_extra (s : pystr) (st : pstate) : pstate := PState (ns st) (seen st) (missing st) (extras st ++ [s]).

Definition take_seen (o : optional) (arg : option pystr) (st : pstate) : res pstate :=
  n ← take_action o arg (ns st); Ok (PState n (dest o :: seen st) (missing st) (extras st)).

Definition take_positional (q : positional) (s : pystr) (st : pstate) : pstate :=
  PState (dict_set (pos_dest q) (match pos_arity q with OneList => VList [s] | _ => VStr s end) (ns st))
    (seen st) false (extras st).

Fixpoint consume (p : parser) (ts : list token) (st : pstate) : res pstate :=
  match ts with
  | [] => Ok st
  | TOpt s None :: ts' => consume p ts' (add_extra s st)
  | TOpt s (Some f) :: ts' =>
      r ← parts p f;
      let '(flags, (o, e)) := r in
      if takes_argument o then
        match e, ts' with
        | Some a, _ => st1 ← res_fold (λ st o, take_seen o None st) st flags; st2 ← take_seen o (Some a) st1; consume p ts' st2
        | None, TArg a :: ts2 => st1 ← res_fold (λ st o, take_seen o None st) st flags; st2 ← take_seen o (Some a) st1; consume p ts2 st2
        | None, _ => exit_2
        end
      else st1 ← res_fold (λ st o, take_seen o None st) st flags; st2 ← take_seen o None st1; consume p ts' st2
  | TArg s :: ts' =>
      match pos p, missing st with
      | Some q, true =>
          match ts' with
          | TDash :: ts2 => consume p ts2 (take_positional q s st)
          | _ => consume p ts' (take_positional q s st)
          end
      | _, _ => consume p ts' (add_extra s st)
      end
  | TDash :: ts' =>
      match pos p, missing st with
      | Some q, true =>
          match ts' with
          | TArg s :: ts2 => consume p ts2 (take_positional q s st)
          | _ => match pos_arity q with
                 | Maybe => consume p ts' st
                 | _ => consume p ts' (add_extra (py"--") st)
                 end
          end
      | _, _ => consume p ts' (add_extra (py"--") st)
      end
  end.

(** ** Parsing *)

Definition has_default (o : optional) : bool := match opt_action o with Help | Version => false | _ => true end.

Definition defaults (p : parser) : namespace :=
  ((λ o, (dest o, default o)) <$> List.filter has_default (optionals p)) ++
  match pos p with Some q => [(pos_dest q, pos_default q)] | None => [] end.

Definition needs_positional (p : parser) : bool :=
  match pos p with Some q => negb (bool_decide (pos_arity q = Maybe)) | None => false end.

Definition parse_known_args (p : parser) (args : list pystr) : res (namespace * list pystr) :=
  ts ← classify p args;
  st ← consume p ts (PState (defaults p) [] true []);
  if existsb (λ o, required o && negb (bool_decide (dest o ∈ seen st))) (optionals p) || (needs_positional p && missing st)
  then exit_2 else Ok (ns st, extras st).

Definition parse_args (p : parser) (args : list pystr) : res namespace :=
  r ← parse_known_args p args;
  match r.2 with [] => Ok r.1 | _ => exit_2 end.

(** Sub-commands, [add_subparsers]: the parser of the first argument gets the rest; a
    parser with sub-commands has the option for help only. *)
Fixpoint sub_args (top : parser) (ts : list token) (args : list pystr) (ex : list pystr) : res (option (pystr * list pystr) * list pystr) :=
  match ts, args with
  | TOpt s None :: ts', _ :: args' => sub_args top ts' args' (ex ++ [s])
  | TOpt _ (Some f) :: _, _ => _ ← parts top f; exit_0
  | TDash :: _, [_] => Ok (None, ex ++ [py"--"])
  | TDash :: _, _ :: s :: args' | TArg _ :: _, s :: args' => Ok (Some (s, args'), ex)
  | _, _ => Ok (None, ex)
  end.

Definition parse_sub {C} (commands : list (pystr * (parser * C))) (args : list pystr) : res (option (C * namespace)) :=
  let top := new_parser [] None in
  ts ← classify top args;
  r ← sub_args top ts args [];
  match r with
  | (Some (s, rest), ex) =>
      match dict_get s commands with
      | None => exit_2
      | Some (p, c) =>
          r ← parse_known_args p rest;
          match ex ++ r.2 with [] => Ok (Some (c, r.1)) | _ => exit_2 end
      end
  | (None, []) => Ok None
  | (None, _) => exit_2
  end.

(** ** What a parser returns *)

(** The values that an option sets, and those that it has in the end. *)
Definition opt_sets (o : optional) (v : value) : bool :=
  match opt_action o, v with
  | Store CStr (Some l), VStr s => bool_decide (s ∈ l)
  | Store CStr None, VStr _ => true
  | Store CInt _, VInt _ => true
  | Store CFloat _, VFloat s => is_float s
  | StoreList, VList [_] => true
  | Append, VList _ => true
  | StoreConst w, _ => bool_decide (v = w)
  | _, _ => false
  end.
Definition opt_typed (o : optional) (v : value) : bool :=
  opt_sets o v || (negb (required o) && bool_decide (v = default o)).

Definition pos_sets (q : positional) (v : value) : bool :=
  match pos_arity q, v with OneList, VList [_] => true | OneList, _ => false | _, VStr _ => true | _, _ => false end.
Definition pos_typed (q : positional) (v : value) : bool :=
  pos_sets q v || (bool_decide (pos_arity q = Maybe) && bool_decide (v = pos_default q)).

(** The options that set attributes, and the attributes. *)
Definition setters (p : parser) : list optional := List.filter has_default (optionals p).
Definition attributes (p : parser) : list pystr :=
  (dest <$> setters p) ++ match pos p with Some q => [pos_dest q] | None => [] end.

(** A namespace of a parser: every attribute has a value of its type. *)
Record typed (p : parser) (n : namespace) : Prop := {
  typed_keys : n.*1 = attributes p;
  typed_opts : ∀ o, o ∈ setters p → ∃ v, dict_get (dest o) n = Some v ∧ opt_typed o v = true;
  typed_pos : ∀ q, pos p = Some q → ∃ v, dict_get (pos_dest q) n = Some v ∧ pos_typed q v = true }.

Definition exits (e : exn) : Prop := e = SystemExit 0 ∨ e = SystemExit 2.

(** A call that ends with a value or leaves the program. *)
Definition good {A : Type} (P : A → Prop) (r : res A) : Prop := match r with Ok a => P a | Raise e => exits e end.

Lemma good_bind {A B : Type} (P : A → Prop) (Q : B → Prop) (m : res A) (f : A → res B) :
  good P m → (∀ a, P a → good Q (f a)) → good Q (m ≫= f).
Proof. destruct m as [a|e]; cbn; auto. Qed.

Lemma good_weaken {A : Type} (P Q : A → Prop) (m : res A) : good P m → (∀ a, P a → Q a) → good Q m.
Proof. destruct m; cbn; auto. Qed.

Lemma good_2 {A : Type} (P : A → Prop) : good P exit_2.
Proof. by right. Qed.

Lemma good_0 {A : Type} (P : A → Prop) : good P exit_0.
Proof. by left. Qed.

#[local] Hint Resolve good_2 good_0 : core.

Lemma good_fold {A B : Type} (P : B → Prop) (f : B → A → res B) l b :
  P b → (∀ b x, P b → x ∈ l → good P (f b x)) → good P (res_fold f b l).
Proof.
  revert b. induction l as [|x l IH]; intros b Hb Hf; [done|]. cbn [res_fold].
  apply (good_bind P); [apply Hf; [done|left]|]. intros b' Hb'. apply IH; [done|]. intros b'' y Hb'' Hy. apply Hf; [done|by right].
Qed.

(** *** Options that are found are those of the parser *)

Section found.
Context (p : parser).

Definition of_parser (f : found) : Prop := f.1.1 ∈ optionals p.
Definition token_ok (t : token) : Prop := match t with TOpt _ (Some f) => of_parser f | _ => True end.

Lemma table_opt s o : (s, o) ∈ option_table p → o ∈ optionals p.
Proof.
  unfold option_table. intros (l & Hl%list_elem_of_In & Hs%list_elem_of_In)%list_elem_of_In%in_concat.
  apply list_elem_of_fmap in Hl as (o' & -> & Ho'). by apply list_elem_of_fmap in Hs as (s' & [= -> ->] & _).
Qed.

Lemma lookup_opt s o : dict_get s (option_table p) = Some o → o ∈ optionals p.
Proof. intros H. eapply table_opt, dict_get_elem, H. Qed.

Lemma tuples_ok s : Forall of_parser (option_tuples p s).
Proof.
  assert (∀ g : pystr * optional → option found, (∀ so f, g so = Some f → f.1.1 = so.2) → Forall of_parser (omap g (option_table p))) as H.
  { intros g Hg. apply Forall_forall. intros f ([s' o] & Hin & Hf)%list_elem_of_omap. unfold of_parser.
    rewrite (Hg _ _ Hf). by eapply table_opt. }
  unfold option_tuples. destruct (is_long s); [destruct (split1 _ s) as [|? [|? [|? ?]]]|];
    apply H; intros [s' o] f; cbn; repeat case_match; by intros [= <-].
Qed.

Lemma parse_optional_ok s : good token_ok (parse_optional p s).
Proof.
  unfold parse_optional. destruct (negb _); [done|]. destruct (dict_get s _) as [o|] eqn:Ho; [by apply lookup_opt in Ho|].
  destruct (length s =? 1)%nat; [done|]. pose proof (tuples_ok s) as Ht.
  assert (good token_ok match option_tuples p s with [f] => Ok (TOpt s (Some f)) | _ :: _ :: _ => exit_2
    | [] => if negative_number s || contains s (py" ") then Ok (TArg s) else Ok (TOpt s None) end) as Hrest.
  { destruct (option_tuples p s) as [|f [|? ?]]; [by destruct (_ || _)|by inversion Ht|apply good_2]. }
  destruct (split1 "=" s) as [|a [|e [|? ?]]]; try done.
  destruct (dict_get a _) as [o|] eqn:Ha; [|done]. by apply lookup_opt in Ha.
Qed.

Lemma classify_ok l : good (Forall token_ok) (classify p l).
Proof.
  induction l as [|s l IH]; [by constructor|]. cbn [classify]. destruct (decide (s = _)).
  - constructor; [done|]. apply Forall_fmap, Forall_true. done.
  - apply (good_bind token_ok); [apply parse_optional_ok|]. intros t Ht.
    apply (good_bind (Forall token_ok)); [done|]. intros ts Hts. by constructor.
Qed.

Definition parts_ok (r : list optional * (optional * option pystr)) : Prop :=
  Forall (λ o, o ∈ optionals p ∧ takes_argument o = false) r.1 ∧ r.2.1 ∈ optionals p.

Lemma joined_ok o short e : o ∈ optionals p → good parts_ok (joined p o short e).
Proof.
  revert o short. induction e as [|c e IH]; intros o short Ho; cbn [joined].
  - destruct (takes_argument o); [by split|]. by destruct (negb short).
  - destruct (takes_argument o) eqn:Ht; [by split|]. destruct (negb short); [done|].
    destruct (dict_get _ _) as [o'|] eqn:Ho'; [|done]. apply lookup_opt in Ho'.
    destruct e as [|c' e']; [split; [by apply Forall_singleton|done]|].
    apply (good_bind parts_ok); [by apply IH|]. intros r [Hr1 Hr2]. split; [by constructor|done].
Qed.

Lemma parts_good f : of_parser f → good parts_ok (parts p f).
Proof. destruct f as [[o s] [e|]]; cbn; intros Ho; [by apply joined_ok|]. by split. Qed.
End found.

(** *** Consuming keeps namespaces typed *)

Section consume.
Context (p : parser) (Hp : NoDup (attributes p)).

Record state_ok (st : pstate) : Prop := {
  so_keys : (ns st).*1 = attributes p;
  so_opts : ∀ o, o ∈ setters p →
    ∃ v, dict_get (dest o) (ns st) = Some v ∧ (opt_sets o v = true ∨ ((dest o ∉ seen st) ∧ v = default o));
  so_pos : ∀ q, pos p = Some q →
    ∃ v, dict_get (pos_dest q) (ns st) = Some v ∧ (pos_sets q v = true ∨ (missing st = true ∧ v = pos_default q)) }.

Lemma attribute_opt o : o ∈ setters p → dest o ∈ attributes p.
Proof. intros Ho. apply elem_of_app. left. apply list_elem_of_fmap. by exists o. Qed.

Lemma attribute_pos q : pos p = Some q → pos_dest q ∈ attributes p.
Proof. intros Hq. apply elem_of_app. right. rewrite Hq. left. Qed.

Lemma same_dest o o' : o ∈ setters p → o' ∈ setters p → dest o = dest o' → o = o'.
Proof.
  intros (i & Hi)%list_elem_of_lookup (j & Hj)%list_elem_of_lookup Hd. unfold attributes in Hp.
  apply NoDup_app in Hp as (Hnd & _ & _). assert (i = j) as ->; [|congruence].
  apply (NoDup_lookup _ _ _ (dest o) Hnd); rewrite list_lookup_fmap; [by rewrite Hi|by rewrite Hj, Hd].
Qed.

Lemma opt_pos_dest o q : o ∈ setters p → pos p = Some q → dest o ≠ pos_dest q.
Proof.
  intros Ho Hq Heq. unfold attributes in Hp. rewrite Hq in Hp. apply NoDup_app in Hp as (_ & Hno & _).
  apply (Hno (dest o)); [apply list_elem_of_fmap; by exists o|]. rewrite Heq. left.
Qed.

(** The state after an option has set its attribute. *)
Lemma set_opt_ok o v st :
  state_ok st → o ∈ setters p → opt_sets o v = true →
  state_ok (PState (dict_set (dest o) v (ns st)) (dest o :: seen st) (missing st) (extras st)).
Proof.
  intros [Hk Ho Hq] Hin Hv. split; cbn [ns seen missing].
  - rewrite dict_keys_set, Hk. rewrite decide_True; [done|by apply attribute_opt].
  - intros o' Ho'. destruct (decide (dest o = dest o')) as [Heq|Hne].
    + assert (o = o') as <- by (by apply same_dest). rewrite dict_get_set_eq. eauto.
    + rewrite dict_get_set_ne by done. destruct (Ho o' Ho') as (w & Hw & Hor). exists w. split; [done|].
      destruct Hor as [?|[Hs ?]]; [by left|]. right. split; [|done]. by apply not_elem_of_cons.
  - intros q Hpos. rewrite dict_get_set_ne by (by apply opt_pos_dest). by apply Hq.
Qed.

Lemma set_pos_ok q v st :
  state_ok st → pos p = Some q → pos_sets q v = true →
  state_ok (PState (dict_set (pos_dest q) v (ns st)) (seen st) false (extras st)).
Proof.
  intros [Hk Ho Hq] Hpos Hv. split; cbn [ns seen missing].
  - rewrite dict_keys_set, Hk. rewrite decide_True; [done|by apply attribute_pos].
  - intros o Hin. rewrite dict_get_set_ne; [by apply Ho|]. intros Heq. by eapply opt_pos_dest.
  - intros q' Hq'. assert (q' = q) as -> by congruence. rewrite dict_get_set_eq. eauto.
Qed.

Lemma convert_sets o c ch s : opt_action o = Store c ch → good (λ v, opt_sets o v = true) (convert c ch s).
Proof.
  intros Ho. unfold opt_sets. rewrite Ho. destruct c; cbn.
  - destruct ch as [l|]; [|done]. destruct (bool_decide (s ∈ l)) eqn:Hs; [done|apply good_2].
  - destruct (py_int s); [done|apply good_2].
  - destruct (is_float s) eqn:Hs; [done|apply good_2].
Qed.

Lemma setter o : o ∈ optionals p → has_default o = true → o ∈ setters p.
Proof. intros Ho Hd. apply list_elem_of_In, List.filter_In. split; [by apply list_elem_of_In|done]. Qed.

Lemma take_seen_ok o arg st : state_ok st → o ∈ optionals p → good state_ok (take_seen o arg st).
Proof.
  intros Hst Ho. unfold take_seen, take_action. unfold has_default in *.
  destruct (opt_action o) as [c ch| | |v| |] eqn:Ha; [| | | |apply good_0|apply good_0];
    (assert (o ∈ setters p) as Hs by (apply setter; [done|unfold has_default; by rewrite Ha]));
    (destruct arg as [s|]; [|try apply good_2]).
  - apply (good_bind (λ n, state_ok (PState n (dest o :: seen st) (missing st) (extras st)))); [|done].
    apply (good_bind (λ v, opt_sets o v = true)); [by apply convert_sets|]. intros v Hv. by apply set_opt_ok.
  - apply set_opt_ok; [done..|]. unfold opt_sets. by rewrite Ha.
  - apply set_opt_ok; [done..|]. unfold opt_sets. by rewrite Ha.
  - apply set_opt_ok; [done..|]. unfold opt_sets. rewrite Ha. by apply bool_decide_eq_true.
  - apply set_opt_ok; [done..|]. unfold opt_sets. rewrite Ha. by apply bool_decide_eq_true.
Qed.

Lemma add_extra_ok s st : state_ok st → state_ok (add_extra s st).
Proof. by intros [Hk Ho Hq]. Qed.

Lemma take_positional_ok q s st : state_ok st → pos p = Some q → state_ok (take_positional q s st).
Proof. intros Hst Hq. apply set_pos_ok; [done..|]. unfold pos_sets. by destruct (pos_arity q). Qed.

Lemma consume_ok ts st : Forall (token_ok p) ts → state_ok st → good state_ok (consume p ts st).
Proof.
  remember (length ts) as n eqn:Hn. assert (length ts ≤ n) as Hle by lia. clear Hn. revert ts st Hle.
  induction n as [|n IH]; intros [|t ts] st Hle Hts Hst; cbn [length] in Hle; [done|lia|done|].
  apply Forall_cons in Hts as [Ht Hts]. destruct t as [s| |s [f|]]; cbn [consume].
  - destruct (pos p) as [q|] eqn:Hq; [destruct (missing st)|]; [|apply IH; [lia|done|by apply add_extra_ok]..].
    pose proof (take_positional_ok q s st Hst Hq) as Hst'.
    destruct ts as [|[| |] ts]; cbn [length] in Hle; try (apply IH; [cbn [length]; lia|done|done]).
    apply Forall_cons in Hts as [_ Hts]. apply IH; [lia|done|done].
  - destruct (pos p) as [q|] eqn:Hq; [destruct (missing st)|]; [|apply IH; [lia|done|by apply add_extra_ok]..].
    destruct ts as [|[s| |] ts]; cbn [length] in Hle;
      try (destruct (pos_arity q); (apply IH; [cbn [length]; lia|done|done || by apply add_extra_ok])).
    apply Forall_cons in Hts as [_ Hts]. apply IH; [lia|done|by apply take_positional_ok].
  - apply (good_bind (parts_ok p)); [by apply parts_good|]. intros [flags [o e]] [Hf Ho]. cbn [fst snd] in Hf, Ho.
    assert (good state_ok (res_fold (λ st o, take_seen o None st) st flags)) as Hfl.
    { apply good_fold; [done|]. intros b x Hb Hx. apply take_seen_ok; [done|]. rewrite Forall_forall in Hf. by apply Hf. }
    assert (∀ arg ts', length ts' ≤ n → Forall (token_ok p) ts' →
      good state_ok (st1 ← res_fold (λ st o, take_seen o None st) st flags; st2 ← take_seen o arg st1; consume p ts' st2)) as Hrest.
    { intros arg ts' Hl Hts'. apply (good_bind state_ok); [done|]. intros st1 Hst1.
      apply (good_bind state_ok); [by apply take_seen_ok|]. intros st2 Hst2. by apply IH. }
    destruct (takes_argument o); [|apply Hrest; [lia|done]].
    destruct e as [a|]; [apply Hrest; [lia|done]|].
    destruct ts as [|[a| |] ts]; [apply good_2| |apply good_2|apply good_2].
    cbn [length] in Hle. apply Forall_cons in Hts as [_ Hts]. apply Hrest; [lia|done].
  - apply IH; [lia|done|by apply add_extra_ok].
Qed.

Lemma defaults_ok : state_ok (PState (defaults p) [] true []).
Proof.
  assert ((defaults p).*1 = attributes p) as Hk.
  { unfold defaults, attributes. rewrite fmap_app, <-list_fmap_compose. f_equal. by destruct (pos p). }
  assert (dict_wf (defaults p)) as Hwf by (unfold dict_wf; by rewrite Hk).
  split; cbn [ns seen missing]; [done| |].
  - intros o Ho. exists (default o). split; [|right; split; [apply not_elem_of_nil|done]].
    apply dict_elem_get; [done|]. apply elem_of_app. left. apply list_elem_of_fmap. by exists o.
  - intros q Hq. exists (pos_default q). split; [|by right].
    apply dict_elem_get; [done|]. apply elem_of_app. right. rewrite Hq. left.
Qed.

(** A parser returns a namespace of its own, or leaves the program. *)
Lemma parse_known_args_typed args : good (λ r, typed p r.1) (parse_known_args p args).
Proof.
  unfold parse_known_args. apply (good_bind (Forall (token_ok p))); [apply classify_ok|]. intros ts Hts.
  apply (good_bind state_ok); [apply consume_ok; [done|apply defaults_ok]|]. intros st [Hk Ho Hq].
  destruct (_ || _) eqn:Hreq; [apply good_2|]. apply orb_false_iff in Hreq as [Hopts Hpos]. split; [done| |]; cbn [fst].
  - intros o Hin. destruct (Ho o Hin) as (v & Hv & Hor). exists v. split; [done|]. unfold opt_typed.
    destruct Hor as [->|[Hs ->]]; [done|]. rewrite bool_decide_eq_true_2, andb_true_r by done.
    apply orb_true_iff. right. apply negb_true_iff, not_true_is_false. intros Hr. apply not_true_iff_false in Hopts. apply Hopts.
    apply existsb_exists. exists o. unfold setters in Hin. apply list_elem_of_In, List.filter_In in Hin as [Hin _].
    split; [done|]. rewrite Hr. by rewrite bool_decide_eq_false_2.
  - intros q Hqp. destruct (Hq q Hqp) as (v & Hv & Hor). exists v. split; [done|]. unfold pos_typed.
    destruct Hor as [->|[Hm ->]]; [done|]. rewrite (bool_decide_eq_true_2 (pos_default q = _)), andb_true_r by done.
    apply orb_true_iff. right. unfold needs_positional in Hpos. rewrite Hqp, Hm, andb_true_r in Hpos.
    by apply negb_false_iff in Hpos.
Qed.

Lemma parse_args_typed args : good (typed p) (parse_args p args).
Proof.
  unfold parse_args. apply (good_bind (λ r, typed p r.1)); [apply parse_known_args_typed|].
  intros [n [|? ?]] Hn; [done|apply good_2].
Qed.
End consume.
