(* ===== verification/CommandLines.v ===== *)
(** * The command lines of the programs

    The parsers of the gNMI server and client, the NED test tool and the YANG tools,
    on ArgParse, and the main programs that hand the parsed arguments to the
    functions of the other files. *)

From Stdlib Require Import Ascii String.
From S2P Require Import Client.
From S2P Require Import Prelude PyStr PyDict Xml ArgParse Server NedTest Soup CliDump TagYang AnnStmt.

(** ** Attributes *)

(** [args.name], used as a text, a flag, an optional text or a list of one. *)
Definition attribute (k : pystr) (n : namespace) : res value :=
  match dict_get k n with Some v => Ok v | None => Raise AttributeError end.
Definition text (k : pystr) (n : namespace) : res pystr :=
  v ← attribute k n; match v with VStr s => Ok s | _ => Raise TypeError end.
Definition flag (k : pystr) (n : namespace) : res bool :=
  v ← attribute k n; match v with VBool b => Ok b | _ => Raise TypeError end.
Definition maybe (k : pystr) (n : namespace) : res (option pystr) :=
  v ← attribute k n; match v with VStr s => Ok (Some s) | VNone => Ok None | _ => Raise TypeError end.
Definition first (k : pystr) (n : namespace) : res pystr :=
  v ← attribute k n; match v with VList (s :: _) => Ok s | VList [] => Raise IndexError | _ => Raise TypeError end.

(** ** Common options: confd_gnmi_common.py *)

Definition VERSION : pystr := py"0.3.0-dev".
Definition HOST : pystr := py"localhost".
Definition PORT : Z := 50061.

Definition integer (ss : list pystr) (d : pystr) (z : Z) : optional := Opt ss (Store CInt None) d (VInt z) false.
Definition seconds (ss : list pystr) (d : pystr) (s : pystr) : optional := Opt ss (Store CFloat None) d (VFloat s) false.
Definition repeated (ss : list pystr) (d : pystr) : optional := Opt ss Append d (VList []) false.

Definition common_optparse_options : list optional :=
  [choice [py"--logging"] (py"logging") [py"error"; py"warning"; py"info"; py"debug"] (py"warning");
   store_true [py"--insecure"] (py"insecure");
   integer [py"--port"] (py"port") PORT;
   store [py"--host"] (py"host") (VStr HOST)].

(** The levels of the module logging. *)
Definition logging_level (name : pystr) : option Z :=
  dict_get name [(py"error", 40); (py"warning", 30); (py"info", 20); (py"debug", 10)]%Z.

(** ** Server: confd_gnmi_server.py *)

Inductive confd_level := DEBUG | TRACE | PROTO_TRACE | SILENT.

Inductive server_call :=
  | SetLoggers (level : Z)
  | ConfigLogging (level : option Z)
  | SetDebug (level : confd_level)
  | SetConfdAddr (addr : value)
  | SetConfdPort (port : value)
  | SetExternalPort (port : Z)
  | SetMonitorExternalChanges (b : bool)
  | LoadConfigString (cfg : pystr)
  | AddGNMIServicer (t : AdapterType)
  | AddInsecurePort (address : pystr)
  | AddSecurePort (address key crt : pystr)
  | StartServer
  | WaitForTermination.

Abbreviation S := (PyM (list server_call)).

Definition do (c : server_call) : S unit := modify (λ l, l ++ [c]).

Definition set_logging_level (level : option Z) : S unit :=
  _ ← match level with Some l => do (SetLoggers l) | None => mret tt end;
  do (ConfigLogging level).

Definition common_optparse_process (opt : namespace) : S unit :=
  l ← lift (text (py"logging") opt); set_logging_level (logging_level l).

Definition server_parser (CONFD_ADDR : pystr) (CONFD_PORT EXTERNAL_PORT : Z) : parser := new_parser
  ([Opt [py"-v"; py"--version"] Version (py"version") VNone false;
    choice [py"-t"; py"--type"] (py"type") [py"api"; py"demo"] (py"demo")] ++
   common_optparse_options ++
   [choice [py"-d"; py"--confd-debug"] (py"confd_debug") [py"trace"; py"debug"; py"silent"; py"proto"] (py"debug");
    store [py"--confd-addr"] (py"confd_addr") (VStr CONFD_ADDR);
    store [py"--confd-port"] (py"confd_port") (VInt CONFD_PORT);
    store_true [py"--monitor-external-changes"] (py"monitor_external_changes");
    integer [py"--external-port"] (py"external_port") EXTERNAL_PORT;
    store [py"--cfg"] (py"cfg") VNone;
    store [py"--key"] (py"key") (VStr (py"server.key"));
    store [py"--crt"] (py"crt") (VStr (py"server.crt"))]) None.

Definition set_confd_debug_level (level : pystr) : S unit :=
  do (SetDebug (match dict_get level [(py"debug", DEBUG); (py"trace", TRACE); (py"proto", PROTO_TRACE); (py"silent", SILENT)] with
                | Some l => l | None => TRACE end)).

(** The defaults of the ConfD adapter, the port of the ConfD library, and the files. *)
Section server.
Context (CONFD_ADDR : pystr) (CONFD_PORT EXTERNAL_PORT confd_port : Z) (read_file : pystr → res pystr).

Definition set_confd_port (port : value) : S unit :=
  do (SetConfdPort (match port with VNone => VInt confd_port | _ => port end)).

Definition serve (port : Z) (adapter_type : AdapterType) (insecure : bool) (key_file crt_file : option pystr) : S unit :=
  _ ← do (AddGNMIServicer adapter_type);
  _ ← (if insecure then do (AddInsecurePort (fmt (py"[::]:{0}") [str_nat (Z.to_nat port)]))
       else match key_file, crt_file with
            | Some key_file, Some crt_file =>
                key ← lift (read_file key_file);
                crt ← lift (read_file crt_file);
                do (AddSecurePort (fmt (py"[::]:{0}") [str_nat (Z.to_nat port)]) key crt)
            | _, _ => raise AssertionError
            end);
  do StartServer.

(** The choice of the adapter and its settings. *)
Definition configure (opt : namespace) : S AdapterType :=
  type ← lift (text (py"type") opt);
  if decide (type = py"api") then
    level ← lift (text (py"confd_debug") opt);
    _ ← set_confd_debug_level level;
    addr ← lift (attribute (py"confd_addr") opt);
    _ ← do (SetConfdAddr addr);
    port ← lift (attribute (py"confd_port") opt);
    _ ← set_confd_port port;
    ext ← lift (attribute (py"external_port") opt);
    _ ← match ext with VInt z => do (SetExternalPort z) | _ => raise TypeError end;
    m ← lift (flag (py"monitor_external_changes") opt);
    _ ← do (SetMonitorExternalChanges m);
    mret API
  else if decide (type = py"demo") then
    cfg ← lift (maybe (py"cfg") opt);
    _ ← match cfg with
        | Some (_ :: _ as f) => text ← lift (read_file f); do (LoadConfigString text)
        | _ => mret tt
        end;
    mret DEMO
  else mret DEMO.

Definition server_main (args : list pystr) : S unit :=
  opt ← lift (parse_args (server_parser CONFD_ADDR CONFD_PORT EXTERNAL_PORT) args);
  _ ← common_optparse_process opt;
  adapter_type ← configure opt;
  insecure ← lift (flag (py"insecure") opt);
  key ← lift (maybe (py"key") opt);
  crt ← lift (maybe (py"crt") opt);
  _ ← serve PORT adapter_type insecure key crt;
  do WaitForTermination.
End server.

(** ** Client: confd_gnmi_client.py *)

Definition client_parser : parser := new_parser
  ([Opt [py"--version"] Version (py"version") VNone false;
    choice [py"-o"; py"--oper"] (py"operation") [py"capabilities"; py"set"; py"get"; py"delete"; py"subscribe"] (py"capabilities")] ++
   common_optparse_options ++
   [store [py"--prefix"] (py"prefix") (VStr []);
    repeated [py"-p"; py"--path"] (py"paths");
    choice [py"-t"; py"--data-type"] (py"datatype") [py"ALL"; py"CONFIG"; py"STATE"; py"OPERATIONAL"] (py"CONFIG");
    repeated [py"-v"; py"--val"] (py"vals");
    choice [py"-s"; py"--sub-mode"] (py"submode") [py"ONCE"; py"POLL"; py"STREAM"] (py"ONCE");
    integer [py"--poll-count"] (py"pollcount") 5;
    seconds [py"--poll-interval"] (py"pollinterval") (py"0.5");
    store_true [py"--interactive-poll"] (py"interactivepoll");
    seconds [py"--subscription-end-delay"] (py"subscription_end_delay") (py"0.0");
    integer [py"--read-count"] (py"readcount") 4;
    store [py"--server-crt"] (py"servercrt") VNone;
    store [py"--user"] (py"username") (VStr (py"admin"));
    store [py"--password"] (py"password") (VStr (py"admin"));
    choice [py"--encoding"] (py"encoding") [py"JSON"; py"JSON_IETF"] (py"JSON_IETF")]) None.

(** ** NED test tool: ned-test.py *)

Definition device_name_arg : option positional := Some (Pos (py"device_name") One VNone).

Definition init_parser (cwd : pystr) : parser := new_parser
  [store [py"-c"; py"--cli-port"] (py"cli_port") VNone;
   store [py"-d"; py"--dir"] (py"dir") (VStr cwd);
   needed [py"-i"; py"--ip-address"] (py"ip_address");
   store [py"-N"; py"--ned-id"] (py"ned_id") (VStr (py"netconf"));
   store [py"-n"; py"--netconf-port"] (py"netconf_port") (VStr (py"830"));
   store [py"-p"; py"--password"] (py"password") (VStr (py"admin"));
   store [py"-u"; py"--username"] (py"username") (VStr (py"admin"))] device_name_arg.

Definition build_ned_parser : parser := new_parser
  [store_true [py"-d"; py"--debug"] (py"debug");
   store [py"-e"; py"--exclude"] (py"exclude") (VStr (dquote ++ dquote));
   store_true [py"-i"; py"--install"] (py"install");
   Opt [py"-m"; py"--netsim"] (StoreConst (VStr (py" "))) (py"netsim") (VStr (py" --no-netsim")) false;
   needed [py"-N"; py"--ned-name"] (py"ned_name");
   store [py"-n"; py"--netconf-port"] (py"netconf_port") (VStr (py"830"));
   needed [py"-v"; py"--vendor"] (py"vendor");
   needed [py"-V"; py"--version"] (py"version");
   store [py"-y"; py"--yang-source"] (py"yang_source") (VStr (py"device"))]
  (Some (Pos (py"device_name") Maybe (VStr (py"nedbuilder")))).

Definition record_test_parser : parser := new_parser [needed [py"-s"; py"--state-name"] (py"state_name")] device_name_arg.
Definition import_tests_parser : parser := new_parser
  [store [py"-d"; py"--directory"] (py"directory") VNone; store [py"-p"; py"--pattern"] (py"pattern") (VStr (py"*.xml"))]
  device_name_arg.
Definition install_ned_parser : parser := new_parser [needed [py"-N"; py"--ned-id"] (py"ned_id")] device_name_arg.
Definition test_ned_parser : parser := new_parser [store [py"-s"; py"--strategy"] (py"strategy") (VStr (py"walk"))] device_name_arg.
Definition cleanup_parser : parser := new_parser [] device_name_arg.
Definition debug_parser : parser := new_parser [] device_name_arg.

(** What [args.func] reads of the arguments. *)
Definition init_command (n : namespace) : res command :=
  cli_port ← maybe (py"cli_port") n; dir ← text (py"dir") n; ip ← text (py"ip_address") n;
  ned_id ← text (py"ned_id") n; port ← text (py"netconf_port") n; password ← text (py"password") n;
  username ← text (py"username") n; name ← text (py"device_name") n;
  Ok (CInit (InitArgs cli_port dir ip ned_id port password username name)).

Definition build_command (n : namespace) : res command :=
  debug ← flag (py"debug") n; exclude ← text (py"exclude") n; install ← flag (py"install") n;
  netsim ← text (py"netsim") n; ned_name ← text (py"ned_name") n; vendor ← text (py"vendor") n;
  version ← text (py"version") n; yang_source ← text (py"yang_source") n; name ← text (py"device_name") n;
  Ok (CBuildNed (BuildArgs debug exclude install netsim ned_name vendor version yang_source name)).

Definition with_name (f : pystr → res command) (n : namespace) : res command := name ← text (py"device_name") n; f name.

Definition ned_commands (cwd : pystr) : list (pystr * (parser * (namespace → res command))) :=
  [(py"init", (init_parser cwd, init_command));
   (py"build-ned", (build_ned_parser, build_command));
   (py"record-test", (record_test_parser, λ n, with_name (λ name, s ← text (py"state_name") n; Ok (CRecordTest name s)) n));
   (py"import-tests", (import_tests_parser, λ n, with_name (λ name,
      d ← maybe (py"directory") n; p ← text (py"pattern") n; Ok (CImportTests name d p)) n));
   (py"install-ned", (install_ned_parser, λ n, with_name (λ name, i ← text (py"ned_id") n; Ok (CInstallNed name i)) n));
   (py"test-ned", (test_ned_parser, λ n, with_name (λ name, s ← text (py"strategy") n; Ok (CTestNed name s)) n));
   (py"cleanup", (cleanup_parser, λ n, with_name (λ name, Ok (CCleanup name)) n));
   (py"debug", (debug_parser, λ n, Ok CDebug))].

(** Without a sub-command there is no function. *)
Definition ned_parse (cwd : pystr) (arguments : list pystr) : res command :=
  r ← parse_sub (ned_commands cwd) arguments;
  match r with Some (f, n) => f n | None => Raise AttributeError end.

(** ** YANG and CLI tools *)

Definition filename_arg : option positional := Some (Pos (py"filename") OneList VNone).

Definition ann_stmt_parser : parser := new_parser
  [store_true [py"-m"; py"--must"] (py"must"); store_true [py"-w"; py"--when"] (py"when");
   store_true [py"-i"; py"--minelem"] (py"minelem"); store_true [py"-l"; py"--leafref"] (py"leafref");
   store_true [py"-x"; py"--maxelem"] (py"maxelem"); store_true [py"-a"; py"--mandatory"] (py"mandatory");
   store_true [py"-u"; py"--unique"] (py"unique"); store_true [py"-p"; py"--pattern"] (py"pattern");
   store_true [py"-t"; py"--tailf"] (py"tailf"); store_true [py"-c"; py"--callpoint"] (py"callpoint");
   store_true [py"-v"; py"--validate"] (py"validate"); store_true [py"-s"; py"--sanitize"] (py"sanitize");
   Opt [py"-o"; py"--output"] StoreList (py"output") (VStr []) false] filename_arg.

(** The arguments of the call of [tailf_ann_stmt]. *)
Definition ann_stmt_main (args : list pystr) : res (flags * pystr * pystr) :=
  n ← parse_args ann_stmt_parser args;
  out ← attribute (py"output") n;
  output ← match out with
    | VStr [] | VList [] => Ok (py".")
    | VStr (c :: _) => Ok [c]
    | VList (s :: _) => Ok s
    | _ => Raise TypeError
    end;
  must ← flag (py"must") n; when ← flag (py"when") n; minelem ← flag (py"minelem") n;
  maxelem ← flag (py"maxelem") n; mandatory ← flag (py"mandatory") n; unique ← flag (py"unique") n;
  pattern ← flag (py"pattern") n; tailf ← flag (py"tailf") n; callpoint ← flag (py"callpoint") n;
  validate ← flag (py"validate") n; sanitize ← flag (py"sanitize") n; leafref ← flag (py"leafref") n;
  file ← first (py"filename") n;
  Ok (Flags must when minelem maxelem mandatory unique pattern tailf callpoint validate sanitize leafref, output, file).

Definition file_parser : parser := new_parser [] filename_arg.

(** The file name that confd_tag_yang.py and tailf_sanitize.py are called with. *)
Definition file_main (args : list pystr) : res pystr := n ← parse_args file_parser args; first (py"filename") n.

Definition cli_dump_parser : parser := new_parser
  [Opt [py"-r"; py"--root"] StoreList (py"root") (VStr (py"/native")) false] None.

(** The root is passed on as it is; the ConfD library takes texts only. *)
Definition cli_dump_main (load_schemas : res unit) (dump : pystr → PyM (list pystr) unit) (args : list pystr) : PyM (list pystr) unit :=
  n ← lift (parse_args cli_dump_parser args);
  _ ← lift load_schemas;
  root ← lift (text (py"root") n);
  dump root.

(** ** Lemmas *)

(** A text, a flag, an optional text: the values an attribute can have. *)
Definition is_text (v : value) : bool := match v with VStr _ => true | _ => false end.
Definition is_flag (v : value) : bool := match v with VBool _ => true | _ => false end.
Definition is_none (v : value) : bool := match v with VNone => true | _ => false end.
Definition is_int (v : value) : bool := match v with VInt _ => true | _ => false end.

(** An option whose values satisfy a condition that its texts satisfy. *)
Definition gives (P : value → bool) (o : optional) : bool :=
  match opt_action o with
  | Store CStr _ => P (VStr []) && (required o || P (default o))
  | Store CInt _ => P (VInt 0) && (required o || P (default o))
  | StoreConst v => P v && (required o || P (default o))
  | _ => false
  end.
Definition pos_gives (P : value → bool) (q : positional) : bool :=
  match pos_arity q with One => P (VStr []) | Maybe => P (VStr []) && P (pos_default q) | OneList => false end.

Definition reads (P : value → bool) (p : parser) (k : pystr) : bool :=
  existsb (λ o, str_eqb (dest o) k && gives P o) (setters p) ||
  match pos p with Some q => str_eqb (pos_dest q) k && pos_gives P q | None => false end.

(** Conditions on the kind of a value only. *)
Definition on_kind (P : value → bool) : Prop := (∀ s, P (VStr s) = P (VStr [])) ∧ (∀ z, P (VInt z) = P (VInt 0)).

Lemma reads_value P p n k : on_kind P → typed p n → reads P p k = true → ∃ v, dict_get k n = Some v ∧ P v = true.
Proof.
  intros [Hs Hi] [_ Ho Hq] [(o & Hin%list_elem_of_In & [Hk%str_eqb_eq Hg]%andb_true_iff)%existsb_exists|H]%orb_true_iff.
  - subst k. destruct (Ho o Hin) as (v & Hv & Ht). exists v. split; [done|]. unfold opt_typed, opt_sets, gives in *.
    apply orb_true_iff in Ht as [Ht|[Hr ->%bool_decide_eq_true]%andb_true_iff].
    + destruct (opt_action o) as [[] ch| | |w| |]; try done.
      * apply andb_true_iff in Hg as [Hg _]. destruct v, ch; try done; by rewrite Hs.
      * apply andb_true_iff in Hg as [Hg _]. destruct v; try done. by rewrite Hi.
      * apply andb_true_iff in Hg as [Hg _]. by apply bool_decide_eq_true in Ht as ->.
    + apply negb_true_iff in Hr. rewrite Hr in Hg. destruct (opt_action o) as [[] ch| | |w| |]; try done;
        by apply andb_true_iff in Hg as [_ Hg].
  - destruct (pos p) as [q|] eqn:Hp; [|done]. apply andb_true_iff in H as [<-%str_eqb_eq Hg].
    destruct (Hq q eq_refl) as (v & Hv & Ht). exists v. split; [done|]. unfold pos_typed, pos_sets, pos_gives in *.
    apply orb_true_iff in Ht as [Ht|[Hm ->%bool_decide_eq_true]%andb_true_iff].
    + destruct (pos_arity q), v; try done; [by rewrite Hs|]. apply andb_true_iff in Hg as [Hg _]. by rewrite Hs.
    + apply bool_decide_eq_true in Hm. rewrite Hm in Hg. by apply andb_true_iff in Hg as [_ Hg].
Qed.

Definition done_with {A : Type} : A → Prop := λ _, True.

Lemma text_good p n k : typed p n → reads is_text p k = true → good done_with (text k n).
Proof.
  intros Hn Hr. destruct (reads_value is_text p n k ltac:(done) Hn Hr) as (v & Hv & Ht).
  unfold text, attribute. rewrite Hv. by destruct v.
Qed.

Lemma flag_good p n k : typed p n → reads is_flag p k = true → good done_with (flag k n).
Proof.
  intros Hn Hr. destruct (reads_value is_flag p n k ltac:(done) Hn Hr) as (v & Hv & Ht).
  unfold flag, attribute. rewrite Hv. by destruct v.
Qed.

Lemma maybe_good p n k :
  typed p n → reads (λ v, is_text v || is_none v) p k = true → good done_with (maybe k n).
Proof.
  intros Hn Hr. destruct (reads_value (λ v, is_text v || is_none v) p n k ltac:(done) Hn Hr) as (v & Hv & Ht).
  unfold maybe, attribute. rewrite Hv. by destruct v.
Qed.

Lemma attribute_good p n k : typed p n → bool_decide (k ∈ attributes p) = true → good done_with (attribute k n).
Proof.
  intros [Hk _ _] Hr%bool_decide_eq_true. unfold attribute. destruct (dict_get k n) eqn:Hv; [done|].
  apply dict_get_None in Hv. by rewrite Hk in Hv.
Qed.

Lemma first_good p n q : typed p n → pos p = Some q → pos_arity q = OneList → good done_with (first (pos_dest q) n).
Proof.
  intros [_ _ Hq] Hp Ha. destruct (Hq q Hp) as (v & Hv & Ht). unfold first, attribute. rewrite Hv.
  unfold pos_typed, pos_sets in Ht. rewrite Ha in Ht. rewrite bool_decide_eq_false_2, orb_false_r in Ht by done.
  destruct v as [| | | | |[|? ?]]; done.
Qed.

Lemma filename_good p n : typed p n → pos p = filename_arg → good done_with (first (py"filename") n).
Proof. intros Hn Hp. exact (first_good p n (Pos (py"filename") OneList VNone) Hn Hp eq_refl). Qed.

Create HintDb args.
#[local] Hint Extern 1 (good done_with (text _ _)) => eapply text_good; [eassumption|reflexivity] : args.
#[local] Hint Extern 1 (good done_with (flag _ _)) => eapply flag_good; [eassumption|reflexivity] : args.
#[local] Hint Extern 1 (good done_with (maybe _ _)) => eapply maybe_good; [eassumption|reflexivity] : args.
#[local] Hint Extern 1 (good done_with (attribute _ _)) => eapply attribute_good; [eassumption|vm_compute; reflexivity] : args.
#[local] Hint Extern 1 (good done_with (first _ _)) => eapply filename_good; [eassumption|reflexivity] : args.

(** Read attributes one after the other. *)
Ltac read_attributes :=
  repeat (apply (good_bind done_with); [solve [auto with args]|intros ? _]); try done.

(** A parser's attributes have different names. *)
Lemma parser_attributes p : bool_decide (NoDup (attributes p)) = true → NoDup (attributes p).
Proof. apply bool_decide_eq_true. Qed.

Ltac no_dup := apply parser_attributes; vm_compute; reflexivity.

(** ** Commands *)

Lemma init_command_good cwd n : typed (init_parser cwd) n → good done_with (init_command n).
Proof. intros Hn. unfold init_command. read_attributes. Qed.

Lemma build_command_good n : typed build_ned_parser n → good done_with (build_command n).
Proof. intros Hn. unfold build_command. read_attributes. Qed.

Lemma sub_args_some top ts args ex r :
  sub_args top ts args ex = Ok r → length ts = length args → r.1 = None → (ts = [] ∧ r.2 = ex) ∨ r.2 ≠ [].
Proof.
  revert args ex. induction ts as [|t ts IH]; intros [|s args] ex Hr Hlen Hnone; try done.
  - left. cbn in Hr. apply Ok_inj in Hr as <-. done.
  - right. destruct t as [a| |a [f|]]; cbn [sub_args] in Hr.
    + apply Ok_inj in Hr as <-. done.
    + destruct args; apply Ok_inj in Hr as <-; [|done]. cbn. by destruct ex.
    + destruct (parts top f); done.
    + injection Hlen as Hlen. destruct (IH args (ex ++ [a]) Hr Hlen Hnone) as [[-> Hex]|]; [|done].
      rewrite Hex. by destruct ex.
Qed.

Lemma classify_length p l ts : classify p l = Ok ts → length ts = length l.
Proof.
  revert ts. induction l as [|s l IH]; intros ts; cbn [classify]; [by intros <-%Ok_inj|].
  destruct (decide (s = py"--")).
  - intros <-%Ok_inj. cbn. by rewrite length_fmap.
  - intros H. inv_bind. cbn. f_equal. by apply IH.
Qed.

(** The sub-command's parser and its function. *)
Lemma parse_sub_good {C : Type} (commands : list (pystr * (parser * C))) (args : list pystr) (P : C → namespace → Prop) :
  args ≠ [] →
  Forall (λ c, ∀ l, good (λ r, P c.2.2 r.1) (parse_known_args c.2.1 l)) commands →
  good (λ r, ∃ c n, r = Some (c, n) ∧ P c n) (parse_sub commands args).
Proof.
  intros Hne Hc. unfold parse_sub.
  destruct (classify (new_parser [] None) args) as [ts|e] eqn:Hts.
  2:{ pose proof (classify_ok (new_parser [] None) args) as H. by rewrite Hts in H. }
  pose proof (classify_length _ _ _ Hts) as Hlen. change (Ok ts ≫= ?f) with (f ts). cbv beta.
  assert (∀ ts args ex, Forall (token_ok (new_parser [] None)) ts → good done_with (sub_args (new_parser [] None) ts args ex)) as Hsub.
  { clear. induction ts as [|t ts IH]; intros args ex Hok; [by destruct args|]. apply Forall_cons in Hok as [Ht Hok].
    destruct t as [a| |a [f|]], args as [|s args]; cbn [sub_args]; try done.
    - by destruct args.
    - apply (good_bind done_with); [|by intros; apply good_0]. eapply good_weaken; [by apply parts_good|done].
    - apply (good_bind done_with); [|by intros; apply good_0]. eapply good_weaken; [by apply parts_good|done].
    - by apply IH. }
  specialize (Hsub ts args []).
  pose proof (classify_ok (new_parser [] None) args) as Hok. rewrite Hts in Hok. specialize (Hsub Hok).
  destruct (sub_args _ ts args []) as [[[[s rest]|] ex]|e] eqn:Hr; [| |done]; change (Ok ?x ≫= ?f) with (f x); cbv beta iota.
  - destruct (dict_get s commands) as [[p c]|] eqn:Hg; [|apply good_2].
    apply dict_get_elem in Hg. rewrite Forall_forall in Hc. specialize (Hc _ Hg rest). cbn [fst snd] in Hc.
    apply (good_bind (λ r, P c r.1)); [exact Hc|]. intros [n l] Hn. destruct (ex ++ _); [|apply good_2].
    cbn. eauto.
  - destruct (sub_args_some _ _ _ _ _ Hr Hlen eq_refl) as [[-> _]|Hex]; [by destruct args|].
    cbn [snd] in Hex. destruct ex; [done|apply good_2].
Qed.

Lemma ned_parse_good cwd arguments : arguments ≠ [] → good done_with (ned_parse cwd arguments).
Proof.
  intros Hne. unfold ned_parse.
  apply (good_bind (λ r, ∃ c n, r = Some (c, n) ∧ good done_with (c n : res command))).
  - apply (parse_sub_good _ _ (λ c n, good done_with (c n : res command))); [done|].
    unfold ned_commands. repeat (apply Forall_cons; split); [..|constructor]; cbn [fst snd]; intros l;
      (eapply good_weaken; [apply parse_known_args_typed; no_dup|]); intros [n x] Hn; cbn [fst] in *.
    + by eapply init_command_good.
    + by apply build_command_good.
    + unfold with_name. read_attributes.
    + unfold with_name. read_attributes.
    + unfold with_name. read_attributes.
    + unfold with_name. read_attributes.
    + unfold with_name. read_attributes.
    + done.
  - intros r (c & n & -> & H). exact H.
Qed.

Lemma ann_stmt_main_good args : good done_with (ann_stmt_main args).
Proof.
  unfold ann_stmt_main. apply (good_bind (typed ann_stmt_parser)); [apply parse_args_typed; no_dup|]. intros n Hn.
  destruct (typed_opts _ _ Hn (Opt [py"-o"; py"--output"] StoreList (py"output") (VStr []) false)) as (v & Hv & Ht).
  { apply list_elem_of_In. vm_compute. tauto. }
  unfold attribute at 1. cbn [dest] in Hv. rewrite Hv. change (Ok v ≫= ?f) with (f v). cbv beta.
  apply (good_bind done_with); [|intros ? _; read_attributes].
  unfold opt_typed, opt_sets in Ht. cbn in Ht. destruct v as [|[|? ?]| | | |[|? ?]]; done.
Qed.

Lemma file_main_good args : good done_with (file_main args).
Proof.
  unfold file_main. apply (good_bind (typed file_parser)); [apply parse_args_typed; no_dup|]. intros n Hn.
  auto with args.
Qed.

(** ** The server *)

Section server_facts.
Context (CONFD_ADDR : pystr) (CONFD_PORT EXTERNAL_PORT confd_port : Z) (read_file : pystr → res pystr).

Local Abbreviation parser_ := (server_parser CONFD_ADDR CONFD_PORT EXTERNAL_PORT).

(** A call of the main program that returns, leaves the program, or cannot read a
    file. *)
Definition allowed (e : exn) : Prop := exits e ∨ ∃ f, read_file f = Raise e.
Definition ends {A : Type} (P : A → list server_call → Prop) (m : S A) : Prop :=
  ∀ l, match m l with (Ok a, l') => ∃ k, l' = l ++ k ∧ P a k | (Raise e, _) => allowed e end.

Lemma ends_bind {A B : Type} (P : A → list server_call → Prop) (Q : B → list server_call → Prop) (m : S A) (f : A → S B) :
  ends P m → (∀ a k, P a k → ends (λ b k', Q b (k ++ k')) (f a)) → ends Q (m ≫= f).
Proof.
  intros Hm Hf l. unfold mbind, PyM_bind. specialize (Hm l). destruct (m l) as [[a|e] l1]; [|done].
  destruct Hm as (k & -> & Hk). specialize (Hf a k Hk (l ++ k)). destruct (f a (l ++ k)) as [[b|e] l2]; [|done].
  destruct Hf as (k' & -> & HQ). exists (k ++ k'). by rewrite app_assoc.
Qed.

Lemma ends_lift {A : Type} (P : A → Prop) (r : res A) : good P r → ends (λ a k, k = [] ∧ P a) (lift r).
Proof. intros Hr l. unfold lift. destruct r; cbn in *; [|by left]. exists []. by rewrite app_nil_r. Qed.

Lemma ends_do c : ends (λ _ k, k = [c]) (do c).
Proof. intros l. exists [c]. done. Qed.

Lemma ends_ret {A : Type} (a : A) : ends (λ b k, b = a ∧ k = []) (mret a).
Proof. intros l. exists []. by rewrite app_nil_r. Qed.

Lemma ends_weaken {A : Type} (P Q : A → list server_call → Prop) (m : S A) :
  ends P m → (∀ a k, P a k → Q a k) → ends Q m.
Proof. intros Hm HPQ l. specialize (Hm l). destruct (m l) as [[a|e] l1]; [|done]. destruct Hm as (k & ? & ?). eauto. Qed.

Lemma ends_read f : ends (λ _ k, k = []) (lift (read_file f)).
Proof. intros l. unfold lift. destruct (read_file f) as [t|e] eqn:Hf; [exists []; by rewrite app_nil_r|]. right. by exists f. Qed.

Definition whatever {A : Type} : A → list server_call → Prop := λ _ _, True.

Lemma ends_bind' {A B : Type} (m : S A) (f : A → S B) : ends whatever m → (∀ a, ends whatever (f a)) → ends whatever (m ≫= f).
Proof. intros Hm Hf. apply (ends_bind whatever); [done|]. intros a k _. apply Hf. Qed.

Lemma ends_good {A : Type} (r : res A) : good done_with r → ends whatever (lift r).
Proof. intros Hr. eapply ends_weaken; [by eapply ends_lift|done]. Qed.

Lemma ends_do' c : ends whatever (do c).
Proof. eapply ends_weaken; [apply ends_do|done]. Qed.

Lemma ends_ret' {A : Type} (a : A) : ends whatever (mret a).
Proof. eapply ends_weaken; [apply ends_ret|done]. Qed.

Lemma configure_ends n : typed parser_ n → ends whatever (configure confd_port read_file n).
Proof.
  intros Hn. unfold configure.
  repeat (apply ends_bind'; [solve [apply ends_good; auto with args | apply ends_do']|intros ?]).
  destruct (decide _); [|destruct (decide _); [|apply ends_ret']].
  - do 6 (apply ends_bind'; [solve [apply ends_good; auto with args | apply ends_do']|intros ?]).
    destruct (reads_value is_int parser_ n (py"external_port") ltac:(done) Hn eq_refl) as (v & Hv & Hi).
    unfold attribute at 1. rewrite Hv. apply (ends_bind (λ a k, k = [] ∧ a = v)); [by apply ends_lift|].
    intros w k [_ ->]. apply (ends_weaken whatever); [|done]. destruct v; try done.
    repeat (apply ends_bind'; [solve [apply ends_good; auto with args | apply ends_do']|intros ?]). apply ends_ret'.
  - apply ends_bind'; [apply ends_good; auto with args|]. intros cfg. apply ends_bind'; [|intros; apply ends_ret'].
    destruct cfg as [[|c f]|]; [apply ends_ret'| |apply ends_ret'].
    apply ends_bind'; [eapply ends_weaken; [apply ends_read|done]|]. intros t. apply ends_do'.
Qed.

(** The ports the server adds. *)
Definition default_address (c : server_call) : bool :=
  match c with
  | AddInsecurePort a | AddSecurePort a _ _ => str_eqb a (py"[::]:50061")
  | _ => false
  end.

Lemma serve_ends adapter_type insecure key crt :
  ends (λ _ k, Exists (λ c, default_address c = true) k) (serve read_file PORT adapter_type insecure (Some key) (Some crt)).
Proof.
  unfold serve. apply (ends_bind (λ _ k, k = [AddGNMIServicer adapter_type])); [apply ends_do|]. intros _ k ->.
  apply (ends_bind (λ _ k, Exists (λ c, default_address c = true) k)).
  - destruct insecure.
    + eapply ends_weaken; [apply ends_do|]. intros _ k ->. by apply Exists_cons; left.
    + apply (ends_bind (λ _ k, k = [])); [apply ends_read|]. intros kt k ->.
      apply (ends_bind (λ _ k, k = [])); [apply ends_read|]. intros ct k ->.
      eapply ends_weaken; [apply ends_do|]. intros _ k ->. by apply Exists_cons; left.
  - intros _ k Hk. eapply ends_weaken; [apply ends_do|]. intros _ k' ->. apply Exists_app. right.
    apply Exists_app. by left.
Qed.

(** Whatever port is asked for. *)
Lemma server_main_ends args :
  ends (λ _ k, Exists (λ c, default_address c = true) k) (server_main CONFD_ADDR CONFD_PORT EXTERNAL_PORT confd_port read_file args).
Proof.
  unfold server_main. apply (ends_bind (λ n k, k = [] ∧ typed parser_ n)).
  { apply ends_lift, parse_args_typed. no_dup. }
  intros n k [_ Hn].
  assert (∃ key, maybe (py"key") n = Ok (Some key)) as [key Hkey].
  { destruct (reads_value is_text parser_ n (py"key") ltac:(done) Hn eq_refl) as (v & Hv & Hi).
    unfold maybe, attribute. rewrite Hv. destruct v; try done. by exists s. }
  assert (∃ crt, maybe (py"crt") n = Ok (Some crt)) as [crt Hcrt].
  { destruct (reads_value is_text parser_ n (py"crt") ltac:(done) Hn eq_refl) as (v & Hv & Hi).
    unfold maybe, attribute. rewrite Hv. destruct v; try done. by exists s. }
  apply (ends_bind whatever).
  { unfold common_optparse_process, set_logging_level. apply ends_bind'; [apply ends_good; auto with args|].
    intros l. apply ends_bind'; [|intros; apply ends_do']. destruct (logging_level l); [apply ends_do'|apply ends_ret']. }
  intros _ k1 _. apply (ends_bind whatever); [by apply configure_ends|]. intros t k2 _.
  apply (ends_bind whatever); [apply ends_good; auto with args|]. intros insecure k3 _.
  rewrite Hkey, Hcrt. apply (ends_bind (λ a k, k = [] ∧ a = Some key)); [by apply ends_lift|]. intros ? k4 [_ ->].
  apply (ends_bind (λ a k, k = [] ∧ a = Some crt)); [by apply ends_lift|]. intros ? k5 [_ ->].
  apply (ends_bind (λ _ k, Exists (λ c, default_address c = true) k)); [apply serve_ends|].
  intros _ k6 Hk6. eapply ends_weaken; [apply ends_do|]. intros _ k7 _. rewrite !Exists_app. tauto.
Qed.
End server_facts.

(** ** Properties *)

(** The parsers of the programs. *)
Inductive program_parser : parser → Prop :=
  | server_program a p e : program_parser (server_parser a p e)
  | client_program : program_parser client_parser
  | ann_stmt_program : program_parser ann_stmt_parser
  | file_program : program_parser file_parser
  | cli_dump_program : program_parser cli_dump_parser.

(** C30: the parsers of the gNMI server and client, of the two annotation tools and of
    the CLI dump: every command line either gives arguments in which every attribute
    has a value of the type that is declared for it (one of the choices, a number, a
    flag, a list; required ones a text), or ends the program with status 0 or 2.  With
    them the NED tool gets a command, the annotation tools get their arguments, and
    the server ends only by returning, by such an exit or by a file that cannot be
    read.  Of the main programs it is about these four only, and it says nothing of
    what is not declared: the port of ConfD has no type and is passed on as a text
    ([confd_port_text]), the CLI dump fails for a root that is given
    ([cli_dump_root_list]), and the NED tool's import-tests for a directory that is
    not ([import_tests_no_directory] of NedTest). *)
Theorem command_lines_typed :
  (∀ p args, program_parser p → good (typed p) (parse_args p args)) ∧
  (∀ cwd args, args ≠ [] → good done_with (ned_parse cwd args)) ∧
  (∀ args, good done_with (ann_stmt_main args) ∧ good done_with (file_main args)) ∧
  (∀ addr port ext confd_port read_file args,
     match (server_main addr port ext confd_port read_file args []).1 with
     | Ok _ => True
     | Raise e => exits e ∨ ∃ f, read_file f = Raise e
     end).
Proof.
  split_and!.
  - intros p args []; apply parse_args_typed; no_dup.
  - apply ned_parse_good.
  - intros args. split; [apply ann_stmt_main_good|apply file_main_good].
  - intros addr port ext confd_port read_file args.
    pose proof (server_main_ends addr port ext confd_port read_file args []) as H.
    by destruct (server_main _ _ _ _ _ _ _) as [[a|e] l].
Qed.

(** ** Witnesses *)

(** A repeated option, an abbreviation, a joined short option and an explicit
    argument. *)
Definition ex_client_args : list pystr :=
  [py"-oget"; py"-p"; py"/a"; py"--path=/b"; py"--poll-c"; py"7"; py"--insecure"].

Lemma command_lines_typed_witness :
  ∃ n c, parse_args client_parser ex_client_args = Ok n ∧ typed client_parser n ∧
    dict_get (py"paths") n = Some (VList [py"/a"; py"/b"]) ∧ dict_get (py"pollcount") n = Some (VInt 7) ∧
    ned_parse (py"/nso") [py"init"; py"dev"; py"-i"; py"10.0.0.1"] = Ok c.
Proof.
  pose proof (proj1 command_lines_typed client_parser ex_client_args client_program) as Hc.
  pose proof (proj1 (proj2 command_lines_typed) (py"/nso") [py"init"; py"dev"; py"-i"; py"10.0.0.1"] ltac:(discriminate)) as Hn.
  destruct (parse_args client_parser ex_client_args) as [n|e] eqn:Hp; [|vm_compute in Hp; discriminate].
  destruct (ned_parse _ _) as [c|e] eqn:Hq; [|vm_compute in Hq; discriminate].
  exists n, c. cbn [good] in Hc. split; [reflexivity|]. split; [exact Hc|].
  vm_compute in Hp. injection Hp as <-. split; [reflexivity|]. split; [reflexivity|]. reflexivity.
Defined.

(** The arguments of a device, in any order. *)
Example ex_init :
  ned_parse (py"/nso") [py"init"; py"-c"; py"22"; py"dev"; py"-i"; py"10.0.0.1"; py"-Nrouter-nc-1.0"] =
  Ok (CInit (InitArgs (Some (py"22")) (py"/nso") (py"10.0.0.1") (py"router-nc-1.0") (py"830") (py"admin") (py"admin") (py"dev"))).
Proof. by vm_compute. Qed.

(** Missing and unknown arguments. *)
Example ex_exits :
  ned_parse (py"/nso") [py"init"; py"dev"] = Raise (SystemExit 2) ∧
  ned_parse (py"/nso") [py"init"; py"--help"] = Raise (SystemExit 0) ∧
  ned_parse (py"/nso") [py"start"; py"dev"] = Raise (SystemExit 2) ∧
  parse_args client_parser [py"--encoding"; py"XML"] = Raise (SystemExit 2) ∧
  parse_args client_parser [py"--p"; py"x"] = Raise (SystemExit 2).
Proof. by vm_compute. Qed.

(** The defaults are those that the client is modelled with. *)
Example ex_client_defaults :
  ∃ n, parse_args client_parser [] = Ok n ∧
    text (py"operation") n = Ok (Client.o_operation Client.default_options) ∧
    text (py"datatype") n = Ok (Client.o_datatype Client.default_options) ∧
    text (py"submode") n = Ok (Client.o_submode Client.default_options) ∧
    text (py"encoding") n = Ok (Client.o_encoding Client.default_options) ∧
    attribute (py"paths") n = Ok (VList (Client.o_paths Client.default_options)) ∧
    attribute (py"pollcount") n = Ok (VInt (Z.of_nat (Client.o_pollcount Client.default_options))) ∧
    attribute (py"readcount") n = Ok (VInt (Client.o_readcount Client.default_options)).
Proof. by vm_compute; eexists. Qed.

(** ** What the code does not mean to do *)

(** The server listens on its default port, whatever port it is told to. *)
Lemma server_ignores_port addr port ext confd_port read_file args l :
  server_main addr port ext confd_port read_file args [] = (Ok tt, l) → Exists (λ c, default_address c = true) l.
Proof.
  intros H. pose proof (server_main_ends addr port ext confd_port read_file args []) as He.
  rewrite H in He. by destruct He as (k & -> & Hk).
Qed.

Example server_on_9339 :
  server_main (py"127.0.0.1") 4565 5055 4565 (λ _, Raise PyException) [py"--port"; py"9339"; py"--insecure"] [] =
  (Ok tt, [SetLoggers 30; ConfigLogging (Some 30%Z); AddGNMIServicer DEMO; AddInsecurePort (py"[::]:50061");
           StartServer; WaitForTermination]).
Proof. by vm_compute. Qed.

(** The port of ConfD has no type: given on the command line it is a text. *)
Example confd_port_text :
  (λ r, take 5 r.2) (server_main (py"127.0.0.1") 4565 5055 4565 (λ _, Raise PyException)
    [py"-t"; py"api"; py"--insecure"; py"--confd-port"; py"4565"] []) =
  [SetLoggers 30; ConfigLogging (Some 30%Z); SetDebug DEBUG; SetConfdAddr (VStr (py"127.0.0.1")); SetConfdPort (VStr (py"4565"))].
Proof. by vm_compute. Qed.

(** A root given on the command line is a list. *)
Example cli_dump_root_list load_schemas dump :
  cli_dump_main (Ok load_schemas) dump [py"--root"; py"/config"] [] = (Raise TypeError, []).
Proof. reflexivity. Qed.

(** The server exits when it cannot read its certificates, and without a key option
    it looks for them in the working directory. *)
Example no_certificate :
  (server_main (py"127.0.0.1") 4565 5055 4565 (λ f, Raise KeyError) [] []).1 = Raise KeyError.
Proof. by vm_compute. Qed.
