(* ===== verification/YinAnn.v ===== *)
(** * Annotations as annotated statements: ann2ann-stmt/app/yin_ann_stmt.py

    The tool rewrites tailf:annotate statements, which name their target by a path
    of data nodes, as nested tailf:annotate-statement ones, which name the statements
    on the way to it.  It looks for all statements with the name at the end of the
    path and climbs from each of them along the path.  BeautifulSoup's reading and
    writing are arguments. *)

From Stdlib Require Import Ascii String.
From S2P Require Import Prelude PyStr PyDict Xml Soup.

(** ** Statements *)

(** The annotation module is a tree of tags without identities: it is only added to,
    and its annotate statements are used once. *)
Abbreviation ann := (node unit).

Definition node_name {I} (n : node I) : pystr := match n with Tag _ nm _ _ => nm | Str _ => [] end.
Definition named {I} (n : node I) (name : pystr) : bool := str_eqb (node_name n) name.
Definition has_attr {I} (key : pystr) (n : node I) : bool := negb (bool_decide (attr key n = None)).

Definition annotate_statement (name arg : pystr) (content : list ann) : ann :=
  Tag tt (py"tailf:annotate-statement") [(py"statement_path", fmt (py"{0}[name='{1}']") [name; arg])] content.

Definition last_of (l : list pystr) : pystr := default [] (last l).

Section annotate.
Context (module_soup : node nat) (module_prefix : pystr).

Definition parent (m : node nat) : res (node nat) :=
  match m with
  | Tag i _ _ _ => match parent_of i module_soup with Some p => Ok p | None => Raise AttributeError end
  | Str _ => Raise AttributeError
  end.

(** [node['yname'] == name] when the node is a choice. *)
Definition choice_named (n : node nat) (name : pystr) : res bool :=
  if named n (py"choice") then y ← get_attr (py"yname") n; Ok (str_eqb y name) else Ok false.

(** A choice without a case, or inside the path. *)
Definition short_choice (m p : node nat) (name : pystr) (path_tags : list pystr) : res bool :=
  c1 ← choice_named p name;
  c2 ← (if c1 : bool then Ok true else choice_named m name);
  c3 ← (if c2 : bool then Ok true else
        match last path_tags with Some t => choice_named p (last_of (split ":" t)) | None => Ok false end);
  Ok (c3 && negb (named m (py"case"))).

(** Is a grouping used at a node of the name? *)
Fixpoint used_at (name : pystr) (uses : list (node nat)) : res bool :=
  match uses with
  | [] => Ok false
  | u :: us =>
      p ← parent u;
      if has_attr (py"yname") p && negb (named p (py"grouping")) then
        y ← get_attr (py"yname") p; if str_eqb y name then Ok true else used_at name us
      else match attr (py"target_node") p with
           | Some t => if str_eqb (last_of (split ":" (last_of (split "/" t)))) name then Ok true else used_at name us
           | None => Ok true
           end
  end.

(** A statement of the module that climbs, with what has been wrapped so far. *)
Definition climber : Type := node nat * ann.

(** One step of one climber inside the module: it goes on, or it ends, possibly in a
    statement of its own; a choice may use up one more name of the path. *)
Inductive outcome := Goes (c : climber) | Ends (o : option ann).

Definition step (c : climber) (name : pystr) (path_tags : list pystr) : res (outcome * pystr * list pystr) :=
  let '(m, a) := c in
  p ← parent m;
  short ← short_choice m p name path_tags;
  if short : bool then
    y ← get_attr (py"yname") p;
    here ← choice_named p name;
    if here : bool then
      my ← get_attr (py"yname") m;
      let extra_choice_node := Tag tt (py"remove_next_node") [(py"extra_choice_node", my)] [a] in
      Ok (Goes (p, annotate_statement (node_name p) y [extra_choice_node]), name, path_tags)
    else
      match last path_tags with
      | None => Raise IndexError
      | Some t => Ok (Goes (p, annotate_statement (node_name p) y [a]), last_of (split ":" t), removelast path_tags)
      end
  else if bool_decide (attr (py"yname") p = Some name) then
    Ok (Goes (p, annotate_statement (node_name p) name [a]), name, path_tags)
  else if named p (py"grouping") then
    uses_name ← get_attr (py"yname") p;
    let uses_nodes := find_all (λ n, has_name (py"uses") n && bool_decide (attr (py"yname") n = Some uses_name)) module_soup in
    found ← (if (length uses_nodes =? 0)%nat then Ok true else used_at name uses_nodes);
    Ok (Ends (if found : bool then Some (annotate_statement (node_name p) uses_name [a]) else None), name, path_tags)
  else if named p (py"augment") then
    t ← get_attr (py"target_node") p;
    Ok (Ends (if str_eqb (last_of (split ":" (last_of (split "/" t)))) name
              then Some (annotate_statement (node_name p) t [a]) else None), name, path_tags)
  else Ok (Ends None, name, path_tags).

(** The climbers of one name of the path, with the rest of the path and the
    statements of the climbers that ended. *)
Fixpoint steps (cs : list climber) (name : pystr) (path_tags : list pystr) : res (list climber * list pystr * list ann) :=
  match cs with
  | [] => Ok ([], path_tags, [])
  | c :: cs' =>
      r ← step c name path_tags;
      let '(o, name', tags') := r in
      r' ← steps cs' name' tags';
      let '(kept, tags, ended) := r' in
      Ok (match o with
          | Goes c' => (c' :: kept, tags, ended)
          | Ends (Some a) => (kept, tags, a :: ended)
          | Ends None => (kept, tags, ended)
          end)
  end.

(** The path leaves the module. *)
Definition leave (c : climber) : res (list climber) :=
  let '(m, a) := c in
  if has_attr (py"yname") m && negb (named m (py"grouping")) then
    p ← parent m;
    if named p (py"grouping") || named p (py"augment") then
      y ← match attr (py"target_node") p with Some t => Ok t | None => get_attr (py"yname") p end;
      Ok [(m, annotate_statement (node_name p) y [a])]
    else Ok (if named p (py"module") then [c] else [])
  else Ok [c].

(** The names of the path from its end. *)
Fixpoint climb (fuel : nat) (path_tags : list pystr) (cs : list climber) (tmp : list ann) : res (list ann) :=
  match last path_tags with
  | None => Ok (cs.*2 ++ tmp)
  | Some t =>
      match fuel with
      | 0 => Raise OutOfFuel
      | S k =>
          let path_tag := split ":" t in
          let rest := removelast path_tags in
          if str_eqb (default [] (head path_tag)) module_prefix then
            r ← steps cs (last_of path_tag) rest;
            let '(cs', rest', ended) := r in
            climb k rest' cs' (tmp ++ ended)
          else
            cs' ← (if (length rest =? 0)%nat then Ok cs else ls ← res_map leave cs; Ok (concat ls));
            climb k [] cs' tmp
      end
  end.

Definition is_annotate (n : ann) : bool := has_name (py"annotate") n || has_name (py"tailf:annotate") n.
Definition is_tag {I} (n : node I) : bool := match n with Tag _ _ _ _ => true | Str _ => false end.

(** [number="{} of {}"] *)
Definition conflict (n i : nat) (a : ann) : ann :=
  Tag tt (py"conflict") [(py"number", fmt (py"{0} of {1}") [str_nat (i + 1); str_nat n])] [a].
Definition skipped (target : pystr) : ann := Tag tt (py"skipped") [(py"target", target)] [].

(** What is appended for the statements that were found. *)
Definition append_nodes (target : pystr) (l : list ann) : list ann :=
  match l with
  | [] => [skipped target]
  | [a] => [a]
  | _ => imap (conflict (length l)) l
  end.

(** A path without the empty name before a leading slash. *)
Definition path_names (path : pystr) : list pystr :=
  match split "/" path with [] :: l => l | l => l end.

(** What is appended for an annotate statement.  The nested ones are taken out of it
    when the first statement of the module is handled, so that the others do not get
    them. *)
Fixpoint handle_annotate_node (n : ann) : res (list ann) :=
  match n with
  | Str _ => Raise TypeError
  | Tag _ _ attrs cs =>
      ann_path ← dict_lookup (py"target") attrs;
      let path_tags := path_names ann_path in
      match last path_tags with
      | None => Raise IndexError
      | Some t =>
          let name := last_of (split ":" t) in
          climbers ← match find_all (λ m, bool_decide (attr (py"yname") m = Some name)) module_soup with
            | [] => Ok []
            | m0 :: ms =>
                bodies ← res_map (λ c, if is_annotate c then handle_annotate_node c
                                       else Ok (if is_tag c then [c] else [])) cs;
                let plain := List.filter (λ c, is_tag c && negb (is_annotate c)) cs in
                Ok ((m0, annotate_statement (node_name m0) name (concat bodies)) ::
                    ((λ m, (m, annotate_statement (node_name m) name plain)) <$> ms))
            end;
          l ← climb (length path_tags) (removelast path_tags) climbers [];
          Ok (append_nodes ann_path l)
      end
  end.
End annotate.

(** ** The tool *)

(** [elem.unwrap()] for the extra choice nodes and the statements in them. *)
Fixpoint unwrap_extra (n : ann) : ann :=
  match n with
  | Tag i nm attrs cs =>
      Tag i nm attrs (concat ((λ c,
        if has_name (py"remove_next_node") c
        then concat ((λ d, match d with Tag _ _ _ ds => ds | Str _ => [d] end) <$> contents (unwrap_extra c))
        else [unwrap_extra c]) <$> cs))
  | Str _ => n
  end.

(** The module tag with its annotate statements replaced by one annotate-module. *)
Definition annotate_module (module_soup : node nat) (module_prefix module_name : pystr) (m : ann) : res ann :=
  match m with
  | Tag i nm attrs cs =>
      l ← res_map (handle_annotate_node module_soup module_prefix) (List.filter (has_name (py"tailf:annotate")) cs);
      Ok (Tag i nm attrs (List.filter (λ c, negb (has_name (py"tailf:annotate") c)) cs ++
            [Tag tt (py"tailf:annotate-module") [(py"module_name", module_name)] (concat l)]))
  | Str _ => Raise AttributeError
  end.

(** The first tag of the name in document order is replaced. *)
Fixpoint replace_first (name : pystr) (f : ann → res ann) (l : list ann) : res (list ann) :=
  match l with
  | [] => Raise AttributeError
  | c :: cs => if has_name name c then c' ← f c; Ok (c' :: cs) else cs' ← replace_first name f cs; Ok (c :: cs')
  end.

Section tool.
Context (parse_module : pystr → node nat) (parse_ann : pystr → ann) (render : ann → pystr).

(** Files by name. *)
Abbreviation F := (PyM (list (pystr * pystr))).

Definition read_file (f : pystr) : F pystr :=
  files ← get; match dict_get f files with Some t => mret t | None => raise PyException end.
Definition write_file (f t : pystr) : F unit := modify (dict_set f t).

(** Line by line; the patterns have no line feed. *)
Definition pattern_replace (file_path pattern subst : pystr) : F unit :=
  t ← read_file file_path; write_file file_path (replace t pattern subst).

Definition base (file : pystr) : pystr :=
  last_of (split "/" (match before_last "." file with Some p => p | None => file end)).

(** The annotation module, transformed. *)
Definition transform (module_name : pystr) (module_soup : node nat) (ann_soup : ann) : res ann :=
  match find_first (λ n, has_name (py"import") n && bool_decide (attr (py"module") n = Some module_name)) ann_soup with
  | None => Raise AttributeError
  | Some imp =>
      match find_first (has_name (py"prefix")) imp with
      | None => Raise TypeError
      | Some pre =>
          module_prefix ← get_attr (py"value") pre;
          match ann_soup with
          | Tag i nm attrs cs =>
              cs' ← replace_first (py"module") (annotate_module module_soup module_prefix module_name) cs;
              Ok (unwrap_extra (Tag i nm attrs cs'))
          | Str _ => Raise AttributeError
          end
      end
  end.

Definition mod_file (ann_file_name : pystr) : pystr := fmt (py"{0}mod") [ann_file_name].

Definition trim_yin (module_file_name ann_file_name : pystr) : F unit :=
  _ ← pattern_replace module_file_name (py"name=") (py"yname=");
  _ ← pattern_replace module_file_name (py"target-node=") (py"target_node=");
  _ ← pattern_replace ann_file_name (py"name=") (py"yname=");
  module_text ← read_file module_file_name;
  ann_text ← read_file ann_file_name;
  soup ← lift (transform (base module_file_name) (parse_module module_text) (parse_ann ann_text));
  _ ← write_file (mod_file ann_file_name) (render soup);
  _ ← pattern_replace module_file_name (py"yname=") (py"name=");
  _ ← pattern_replace module_file_name (py"target_node=") (py"target-node=");
  _ ← pattern_replace ann_file_name (py"yname=") (py"name=");
  _ ← pattern_replace (mod_file ann_file_name) (py"yname=") (py"name=");
  _ ← pattern_replace (mod_file ann_file_name) (py"statement_path") (py"statement-path");
  pattern_replace (mod_file ann_file_name) (py"module_name") (py"module-name").
End tool.

(** ** What is appended *)

Definition last_name (path : pystr) : pystr := last_of (split ":" path).

(** Why a statement [p] is put around one that leads to its child [m], for a path with
    the data nodes [names]: it has one of the names; or it augments a node of such a
    name; or it is a grouping that nothing uses, that is used at such a node, or whose
    use cannot be told; or a choice is on the way, whose cases the path may leave out;
    or the path has left the module.  The argument of the statement is that of [p]. *)
Inductive leads_up (module_soup : node nat) (names : list pystr) (m p : node nat) : pystr → Prop :=
  | by_name nm : nm ∈ names → attr (py"yname") p = Some nm → leads_up module_soup names m p nm
  | by_augment t : named p (py"augment") = true → attr (py"target_node") p = Some t →
      last_name (last_of (split "/" t)) ∈ names → leads_up module_soup names m p t
  | by_grouping g uses nm : named p (py"grouping") = true → attr (py"yname") p = Some g → nm ∈ names →
      uses = find_all (λ n, has_name (py"uses") n && bool_decide (attr (py"yname") n = Some g)) module_soup →
      uses = [] ∨ used_at module_soup nm uses = Ok true → leads_up module_soup names m p g
  | by_choice y nm : nm ∈ names → choice_named m nm = Ok true ∨ choice_named p nm = Ok true →
      attr (py"yname") p = Some y → leads_up module_soup names m p y
  | by_leaving y : has_attr (py"yname") m = true → named m (py"grouping") = false →
      named p (py"grouping") = true ∨ named p (py"augment") = true →
      attr (py"target_node") p = Some y ∨ attr (py"target_node") p = None ∧ attr (py"yname") p = Some y →
      leads_up module_soup names m p y.

(** A statement of the annotation module that leads to a statement of the module:
    the innermost annotate-statement names one with the name that was looked for and
    has the annotations; every other names the parent of the one inside it, because
    the path leads there. *)
Inductive located (module_soup : node nat) (names : list pystr) (name : pystr) (plain : list ann) : node nat → ann → Prop :=
  | located_at m body :
      m ∈ subtree module_soup → attr (py"yname") m = Some name → plain `sublist_of` body →
      located module_soup names name plain m (annotate_statement (node_name m) name body)
  | located_below m p a arg :
      located module_soup names name plain m a → parent module_soup m = Ok p → leads_up module_soup names m p arg →
      located module_soup names name plain p (annotate_statement (node_name p) arg [a])
  | located_choice m p a arg c :
      located module_soup names name plain m a → parent module_soup m = Ok p → arg ∈ names →
      choice_named p arg = Ok true → attr (py"yname") m = Some c →
      located module_soup names name plain p
        (annotate_statement (node_name p) arg [Tag tt (py"remove_next_node") [(py"extra_choice_node", c)] [a]]).

Section facts.
Context (module_soup : node nat) (module_prefix : pystr) (names : list pystr) (name : pystr) (plain : list ann).

Local Abbreviation located := (located module_soup names name plain).

Definition leads (a : ann) : Prop := ∃ m, located m a.

(** The rest of the path has names of the path only. *)
Definition names_of (path_tags : list pystr) : Prop := Forall (λ t, last_name t ∈ names) path_tags.

Lemma get_attr_Ok key (n : node nat) v : get_attr key n = Ok v → attr key n = Some v.
Proof. unfold get_attr. destruct (attr key n); [by intros [= ->]|done]. Qed.

Lemma str_eqb_same a b : str_eqb a b = true → a = b.
Proof.
  intros H. assert (has_name b (Tag tt a [] []) = true) as (? & ? & ? & [= _ -> _ _])%has_name_true by done. done.
Qed.

Lemma length_removelast {A} (l : list A) : length (removelast l) = length l - 1.
Proof. induction l as [|x [|y l] IH]; [done..|]. cbn [removelast length] in *. lia. Qed.

Definition outcome_ok (o : outcome) : Prop :=
  match o with Goes c => located c.1 c.2 | Ends (Some a) => leads a | Ends None => True end.

Lemma choice_named_true n nm : choice_named n nm = Ok true → attr (py"yname") n = Some nm.
Proof.
  unfold choice_named. destruct (named _ _); [|done]. intros (y & Hy%get_attr_Ok & H)%bind_Ok.
  apply Ok_inj in H. apply str_eqb_same in H as ->. done.
Qed.

Lemma removelast_names l : names_of l → names_of (removelast l).
Proof.
  unfold names_of. intros H. induction H as [|t l Ht Hl IH]; [constructor|]. destruct l; [constructor|].
  cbn [removelast] in *. by constructor.
Qed.

Lemma last_in_names l t : names_of l → last l = Some t → last_name t ∈ names.
Proof. intros H Hl. apply last_Some in Hl as [l' ->]. apply Forall_app in H as [_ H]. by inversion H. Qed.

(** A choice without a case: one of the two is a choice with a name of the path. *)
Lemma short_choice_true m p nm tags :
  nm ∈ names → names_of tags → short_choice m p nm tags = Ok true → choice_named p nm = Ok false →
  ∃ nm', nm' ∈ names ∧ (choice_named m nm' = Ok true ∨ choice_named p nm' = Ok true).
Proof.
  intros Hnm Htags H Hno. unfold short_choice in H. rewrite Hno in H. cbn [mbind res_bind] in H.
  apply bind_Ok in H as (c2 & H2 & H). apply bind_Ok in H as (c3 & H3 & H). apply Ok_inj in H.
  apply andb_true_iff in H as [-> _]. destruct c2; [exists nm; eauto|].
  destruct (last tags) as [t|] eqn:Hl; [|done]. exists (last_name t). split; [by eapply last_in_names|]. by right.
Qed.

Lemma step_located c path_name path_tags o n' t' :
  located c.1 c.2 → path_name ∈ names → names_of path_tags →
  step module_soup c path_name path_tags = Ok (o, n', t') → outcome_ok o ∧ n' ∈ names ∧ names_of t'.
Proof.
  destruct c as [m a]. cbn [fst snd]. intros Hc Hn Hts. unfold step. intros H.
  apply bind_Ok in H as (p & Hp & H). apply bind_Ok in H as (short & Hsh & H). destruct short.
  - apply bind_Ok in H as (y & Hy%get_attr_Ok & H). apply bind_Ok in H as (here & Hh & H). destruct here.
    + apply bind_Ok in H as (my & Hmy%get_attr_Ok & H). apply Ok_inj in H. injection H as <- <- <-.
      split; [|done]. pose proof (choice_named_true _ _ Hh) as Hy2. rewrite Hy in Hy2. injection Hy2 as ->.
      by apply (located_choice _ _ _ _ m).
    + destruct (last path_tags) eqn:Hl; [|done]. apply Ok_inj in H. injection H as <- <- <-.
      split; [|split; [by eapply last_in_names | by apply removelast_names]].
      destruct (short_choice_true _ _ _ _ Hn Hts Hsh Hh) as (nm & ? & ?).
      apply (located_below _ _ _ _ m); [done..|]. by eapply by_choice.
  - destruct (bool_decide _) eqn:Hy.
    { apply bool_decide_eq_true in Hy. apply Ok_inj in H. injection H as <- <- <-. split; [|done].
      apply (located_below _ _ _ _ m); [done..|]. by apply by_name. }
    destruct (named p (py"grouping")) eqn:Hg.
    { apply bind_Ok in H as (y & Hu%get_attr_Ok & H). apply bind_Ok in H as (found & Hf & H).
      apply Ok_inj in H. injection H as <- <- <-. split; [|done]. destruct found; [|done]. exists p.
      apply (located_below _ _ _ _ m); [done..|]. eapply by_grouping; [done..|].
      destruct (find_all _ _); [by left|right; exact Hf]. }
    destruct (named p (py"augment")) eqn:Ha.
    { apply bind_Ok in H as (t & Ht%get_attr_Ok & H). apply Ok_inj in H. injection H as <- <- <-. split; [|done].
      destruct (str_eqb _ _) eqn:He; [|done]. apply str_eqb_same in He. exists p.
      apply (located_below _ _ _ _ m); [done..|]. apply by_augment; [done..|]. unfold last_name. by rewrite He. }
    apply Ok_inj in H. by injection H as <- <- <-.
Qed.

Lemma steps_located cs path_name path_tags kept t' ended :
  Forall (λ c : climber, located c.1 c.2) cs → path_name ∈ names → names_of path_tags →
  steps module_soup cs path_name path_tags = Ok (kept, t', ended) →
  Forall (λ c : climber, located c.1 c.2) kept ∧ Forall leads ended ∧ names_of t'.
Proof.
  intros Hcs. revert path_name path_tags kept t' ended.
  induction Hcs as [|c cs Hc _ IH]; intros pn pt kept t' ended Hn Hts H; cbn [steps] in H.
  - apply Ok_inj in H. by injection H as <- <- <-.
  - apply bind_Ok in H as ([[o n'] t1] & Ho & H). apply bind_Ok in H as ([[k t2] e] & Hr & H).
    destruct (step_located _ _ _ _ _ _ Hc Hn Hts Ho) as (Hok & Hn1 & Ht1). destruct (IH _ _ _ _ _ Hn1 Ht1 Hr) as (Hk & He & Hl2).
    apply Ok_inj in H. destruct o as [c'|[a|]]; injection H as <- <- <-; split_and!; try done; by constructor.
Qed.

Lemma leave_located c l : located c.1 c.2 → leave module_soup c = Ok l → Forall (λ c : climber, leads c.2) l.
Proof.
  destruct c as [m a]. cbn [fst snd]. intros Hc. unfold leave. assert (leads a) as Ha by (by exists m).
  destruct (_ && _) eqn:Hm; [|intros <-%Ok_inj; by apply Forall_singleton].
  apply andb_true_iff in Hm as [Hm1 Hm2%negb_true_iff].
  intros (p & Hp & H)%bind_Ok. destruct (_ || _) eqn:Hpn.
  - apply orb_true_iff in Hpn. apply bind_Ok in H as (y & Hy & H). apply Ok_inj in H as <-.
    apply Forall_singleton. exists p. cbn [snd]. apply (located_below _ _ _ _ m); [done..|]. apply by_leaving; [done..|].
    destruct (attr (py"target_node") p) as [t|] eqn:Ht; [apply Ok_inj in Hy as <-; by left|].
    apply get_attr_Ok in Hy. by right.
  - apply Ok_inj in H as <-. destruct (named p (py"module")); [by apply Forall_singleton|constructor].
Qed.

Lemma Forall_leads (cs : list climber) : Forall (λ c : climber, located c.1 c.2) cs → Forall leads cs.*2.
Proof. intros H. apply Forall_fmap. eapply Forall_impl; [exact H|]. intros c Hc. by exists c.1. Qed.

Lemma climb_located fuel path_tags cs tmp l :
  Forall (λ c : climber, located c.1 c.2) cs → Forall leads tmp → names_of path_tags →
  climb module_soup module_prefix fuel path_tags cs tmp = Ok l → Forall leads l.
Proof.
  revert path_tags cs tmp. induction fuel as [|k IH]; intros path_tags cs tmp Hcs Htmp Hts; cbn [climb];
    (destruct (last path_tags) as [t|] eqn:Hl; [|intros <-%Ok_inj; apply Forall_app; split; [by apply Forall_leads|done]]); [done|].
  destruct (str_eqb _ _).
  - intros ([[cs' rest'] ended] & Hs & H)%bind_Ok. 
    destruct (steps_located _ _ _ _ _ _ Hcs (last_in_names _ _ Hts Hl) (removelast_names _ Hts) Hs) as (Hk & He & Hr).
    apply (IH rest' cs' (tmp ++ ended)); [done| |done|done]. by apply Forall_app.
  - intros (cs' & Hs & H)%bind_Ok. destruct (length _ =? 0)%nat.
    + apply Ok_inj in Hs as <-. apply (IH [] cs tmp); [done..|constructor|done].
    + apply bind_Ok in Hs as (ls & Hls & Hs). apply Ok_inj in Hs as <-. apply res_map_Ok in Hls.
      assert (l = (concat ls).*2 ++ tmp) as -> by (destruct k; cbn in H; by apply Ok_inj in H).
      apply Forall_app. split; [|done]. apply Forall_fmap, Forall_concat.
      clear -Hls Hcs. induction Hls as [|c y cs ls Hcy _ IH]; [constructor|]. inversion Hcs; subst.
      constructor; [by eapply leave_located|by apply IH].
Qed.

(** The names of the path are used up. *)
Lemma no_fuel_bind {A B : Type} (m : res A) (f : A → res B) :
  m ≠ Raise OutOfFuel → (∀ a, m = Ok a → f a ≠ Raise OutOfFuel) → (m ≫= f) ≠ Raise OutOfFuel.
Proof. destruct m as [a|e]; cbn; [intros _ H; by apply H|congruence]. Qed.

Lemma get_attr_fuel key (n : node nat) : get_attr key n ≠ Raise OutOfFuel.
Proof. unfold get_attr. by destruct (attr key n). Qed.

Lemma parent_fuel m : parent module_soup m ≠ Raise OutOfFuel.
Proof. unfold parent. destruct m; [by destruct (parent_of _ _)|done]. Qed.

Lemma choice_named_fuel n nm : choice_named n nm ≠ Raise OutOfFuel.
Proof. unfold choice_named. destruct (named _ _); [|done]. apply no_fuel_bind; [apply get_attr_fuel|done]. Qed.

#[local] Hint Resolve get_attr_fuel parent_fuel choice_named_fuel : core.

Lemma short_choice_fuel m p nm tags : short_choice m p nm tags ≠ Raise OutOfFuel.
Proof.
  unfold short_choice. apply no_fuel_bind; [auto|]. intros c1 _. apply no_fuel_bind; [by destruct c1|]. intros c2 _.
  apply no_fuel_bind; [|done]. destruct c2; [done|]. by destruct (last tags).
Qed.

Lemma used_at_fuel nm us : used_at module_soup nm us ≠ Raise OutOfFuel.
Proof.
  induction us as [|u us IH]; [done|]. cbn [used_at]. apply no_fuel_bind; [auto|]. intros p _.
  destruct (_ && _); [apply no_fuel_bind; [auto|intros y _; by destruct (str_eqb y nm)]|].
  destruct (attr _ p); [by destruct (str_eqb _ _)|done].
Qed.

Lemma step_fuel c nm tags : step module_soup c nm tags ≠ Raise OutOfFuel.
Proof.
  destruct c as [m a]. unfold step. apply no_fuel_bind; [auto|]. intros p _.
  apply no_fuel_bind; [apply short_choice_fuel|]. intros short _. destruct short.
  - apply no_fuel_bind; [auto|]. intros y _. apply no_fuel_bind; [auto|]. intros here _. destruct here.
    + by apply no_fuel_bind.
    + by destruct (last tags).
  - destruct (bool_decide _); [done|]. destruct (named p _).
    + apply no_fuel_bind; [auto|]. intros u _. apply no_fuel_bind; [|done].
      destruct (_ =? 0)%nat; [done|apply used_at_fuel].
    + destruct (named p _); [|done]. by apply no_fuel_bind.
Qed.

Lemma steps_fuel cs nm tags : steps module_soup cs nm tags ≠ Raise OutOfFuel.
Proof.
  revert nm tags. induction cs as [|c cs IH]; intros nm tags; [done|]. cbn [steps].
  apply no_fuel_bind; [apply step_fuel|]. intros [[o n'] t'] _. apply no_fuel_bind; [apply IH|].
  intros [[k t] e] _. done.
Qed.

Lemma step_tags c nm tags o n' t' : step module_soup c nm tags = Ok (o, n', t') → length t' ≤ length tags.
Proof.
  destruct c as [m a]. unfold step. intros (p & _ & H)%bind_Ok. apply bind_Ok in H as (short & _ & H). destruct short.
  - apply bind_Ok in H as (y & _ & H). apply bind_Ok in H as (here & _ & H). destruct here.
    + apply bind_Ok in H as (my & _ & H). apply Ok_inj in H. by injection H as <- <- <-.
    + destruct (last tags); [|done]. apply Ok_inj in H. injection H as <- <- <-. rewrite length_removelast. lia.
  - repeat case_match; inv_bind; by simplify_eq.
Qed.

Lemma steps_tags cs nm tags k t' e : steps module_soup cs nm tags = Ok (k, t', e) → length t' ≤ length tags.
Proof.
  revert nm tags k t' e. induction cs as [|c cs IH]; intros nm tags k t' e H; cbn [steps] in H.
  - apply Ok_inj in H. by injection H as <- <- <-.
  - apply bind_Ok in H as ([[o n'] t1] & Ho & H). apply bind_Ok in H as ([[k2 t2] e2] & Hr & H).
    apply step_tags in Ho. apply IH in Hr. apply Ok_inj in H. destruct o as [?|[?|]]; injection H as <- <- <-; lia.
Qed.

Lemma leave_fuel c : leave module_soup c ≠ Raise OutOfFuel.
Proof.
  destruct c as [m a]. unfold leave. destruct (_ && _); [|done]. apply no_fuel_bind; [auto|]. intros p _.
  destruct (_ || _); [|done]. apply no_fuel_bind; [|done]. by destruct (attr _ p).
Qed.

Lemma climb_fuel fuel tags cs tmp :
  length tags ≤ fuel → climb module_soup module_prefix fuel tags cs tmp ≠ Raise OutOfFuel.
Proof.
  revert tags cs tmp. induction fuel as [|k IH]; intros tags cs tmp Hle; cbn [climb]; (destruct (last tags) eqn:Hl; [|done]).
  - destruct tags; [done|cbn in Hle; lia].
  - assert (length (removelast tags) ≤ k) as Hr.
    { rewrite length_removelast. lia. }
    destruct (str_eqb _ _).
    + apply no_fuel_bind; [apply steps_fuel|]. intros [[cs' rest'] e] Hs%steps_tags. apply IH. lia.
    + apply no_fuel_bind; [|intros; apply IH; cbn; lia]. destruct (_ =? 0)%nat; [done|].
      apply no_fuel_bind; [|done]. clear. induction cs as [|c cs IHc]; [done|]. cbn [res_map].
      apply no_fuel_bind; [apply leave_fuel|]. intros. by apply no_fuel_bind.
Qed.
End facts.

(** *** Modules of containers, lists and leaves *)

(** No choice, grouping or augment. *)
Definition plain_module (module_soup : node nat) : Prop :=
  attr (py"yname") module_soup = None ∧
  Forall (λ n, named n (py"choice") = false ∧ named n (py"grouping") = false ∧ named n (py"augment") = false)
    (subtree module_soup).

(** A statement around a statement of the module, whose parent has the name. *)
Definition up (module_soup : node nat) (nm : pystr) (c : climber) : option climber :=
  match parent module_soup c.1 with
  | Ok p => if bool_decide (attr (py"yname") p = Some nm)
            then Some (p, annotate_statement (node_name p) nm [c.2]) else None
  | Raise _ => None
  end.

(** The statements around it for the names on the way to it, if those are the names of
    its parent, of the parent's parent and so on. *)
Fixpoint wrap (module_soup : node nat) (names : list pystr) (c : climber) : option ann :=
  match names with
  | [] => Some c.2
  | nm :: ns => c' ← up module_soup nm c; wrap module_soup ns c'
  end.

Section plain.
Context (module_soup : node nat) (module_prefix : pystr) (Hplain : plain_module module_soup).

Lemma parent_Ok m :
  m ∈ descendants module_soup → is_tag m = true → ∃ p, parent module_soup m = Ok p ∧ p ∈ subtree module_soup.
Proof.
  destruct m as [i nm attrs cs|]; [|done]. intros Hm _. unfold parent.
  destruct (parent_of i module_soup) as [p|] eqn:Hp.
  - exists p. split; [done|]. unfold parent_of in Hp. apply head_Some_elem_of in Hp.
    by apply list_elem_of_In, List.filter_In in Hp as [Hp%list_elem_of_In _].
  - pose proof (parent_None _ _ Hp _ Hm) as H. cbn in H. by rewrite bool_decide_eq_true_2 in H.
Qed.

Lemma named_below n y : n ∈ subtree module_soup → attr (py"yname") n = Some y → n ∈ descendants module_soup.
Proof.
  intros Hn Hy. destruct Hplain as [Hr _]. destruct module_soup as [i nm attrs cs|]; cbn [subtree] in Hn.
  - apply elem_of_cons in Hn as [->|Hn]; [congruence|done].
  - apply list_elem_of_singleton in Hn as ->. congruence.
Qed.

Lemma step_plain c nm tags :
  c.1 ∈ descendants module_soup → is_tag c.1 = true →
  step module_soup c nm tags = Ok (match up module_soup nm c with Some c' => Goes c' | None => Ends None end, nm, tags).
Proof.
  intros Hc Ht. destruct c as [m a]. cbn [fst] in *. destruct (parent_Ok m Hc Ht) as (p & Hp & Hin).
  unfold step, up. cbn [fst snd]. rewrite Hp. cbn [mbind res_bind].
  destruct Hplain as [_ Hall]. rewrite Forall_forall in Hall.
  destruct (Hall p Hin) as (Hp1 & Hp2 & Hp3).
  assert (named m (py"choice") = false) as Hm1.
  { apply Hall. destruct module_soup; [by right|by apply elem_of_nil in Hc]. }
  unfold short_choice, choice_named. rewrite Hp1, Hm1. cbn [mbind res_bind].
  destruct (last tags); cbn [mbind res_bind andb]; rewrite Hp2, Hp3; by destruct (bool_decide _).
Qed.

Lemma up_below nm c c' :
  c.1 ∈ descendants module_soup → is_tag c.1 = true → up module_soup nm c = Some c' →
  c'.1 ∈ descendants module_soup ∧ is_tag c'.1 = true.
Proof.
  intros Hc Ht. destruct (parent_Ok _ Hc Ht) as (p & Hp & Hin). unfold up. rewrite Hp.
  case_bool_decide as Hy; [|done]. intros [= <-]. cbn [fst]. split; [by eapply named_below|].
  by destruct p.
Qed.

Definition below (c : climber) : Prop := c.1 ∈ descendants module_soup ∧ is_tag c.1 = true.

Lemma steps_plain cs nm tags :
  Forall below cs → steps module_soup cs nm tags = Ok (omap (up module_soup nm) cs, tags, []).
Proof.
  induction 1 as [|c cs [Hc Ht] _ IH]; [done|]. cbn [steps]. rewrite step_plain by done. cbn [mbind res_bind].
  rewrite IH. cbn [mbind res_bind omap list_omap]. by destruct (up module_soup nm c).
Qed.

Lemma climb_plain fuel ns cs :
  length ns ≤ fuel → Forall below cs → Forall (λ t, head (split ":" t) = Some module_prefix) ns →
  climb module_soup module_prefix fuel (reverse ns) cs [] = Ok (omap (wrap module_soup (last_name <$> ns)) cs).
Proof.
  intros Hlen Hcs Hns. revert fuel cs Hlen Hcs. induction Hns as [|t ns Ht _ IH]; intros fuel cs Hlen Hcs.
  - assert (climb module_soup module_prefix fuel (reverse []) cs [] = Ok (cs.*2 ++ [])) as -> by (by destruct fuel).
    f_equal. rewrite app_nil_r. clear. by induction cs as [|c cs IH]; [|cbn; f_equal].
  - destruct fuel as [|fuel]; cbn in Hlen; [lia|]. cbn [climb]. rewrite reverse_cons, last_snoc, removelast_last, Ht.
    cbn [default]. rewrite str_eqb_refl, steps_plain by done. cbn [mbind res_bind]. rewrite app_nil_r.
    rewrite IH; [|lia|].
    + f_equal. cbn [fmap list_fmap wrap]. change (last_of (split ":" t)) with (last_name t).
      clear. induction cs as [|c cs IH]; [done|]. cbn [omap list_omap].
      destruct (up module_soup (last_name t) c) as [c'|]; cbn [mbind option_bind omap list_omap]; [|done].
      by destruct (wrap _ _ c'); rewrite IH.
    + clear -Hcs Hplain. induction Hcs as [|c cs [Hc Htag] _ IH]; [constructor|]. cbn [omap list_omap].
      destruct (up _ _ c) eqn:Hup; [|done]. constructor; [|done]. by eapply up_below.
Qed.
End plain.

(** The statements of the module with a name; the first of them has the annotations of
    the nested annotate statements too. *)
Definition starts (name : pystr) (first rest : list ann) (ms : list (node nat)) : list climber :=
  imap (λ i m, (m, annotate_statement (node_name m) name (if (i =? 0)%nat then first else rest))) ms.

(** *** Annotate statements *)

Definition plain_of (cs : list ann) : list ann := List.filter (λ c, is_tag c && negb (is_annotate c)) cs.

Lemma plain_sublist (f : ann → res (list ann)) cs bodies :
  res_map (λ c, if is_annotate c then f c else Ok (if is_tag c then [c] else [])) cs = Ok bodies →
  plain_of cs `sublist_of` concat bodies.
Proof.
  intros H%res_map_Ok. unfold plain_of. induction H as [|c b cs bodies Hc _ IH]; [done|]. cbn [List.filter concat].
  destruct (is_annotate c); cbn [negb]; [rewrite andb_false_r; by apply sublist_inserts_l|].
  apply Ok_inj in Hc as <-. rewrite andb_true_r. destruct (is_tag c); [|done]. by apply sublist_skip.
Qed.

(** What an annotate statement says: its target, the names on the way to it and the
    name at its end. *)
Definition target_of (n : ann) (target : pystr) (names : list pystr) (name : pystr) : Prop :=
  attr (py"target") n = Some target ∧ last_name <$> path_names target = names ++ [name].

Lemma handle_fuel module_soup module_prefix n : handle_annotate_node module_soup module_prefix n ≠ Raise OutOfFuel.
Proof.
  induction n as [[] nm attrs cs IH|s] using node_ind'; [|done]. cbn [handle_annotate_node].
  apply no_fuel_bind; [unfold dict_lookup; by destruct (dict_get _ _)|]. intros path _.
  destruct (last (path_names path)) as [t|] eqn:Ht; [|done].
  apply no_fuel_bind.
  - destruct (find_all _ _) as [|m0 ms]; [done|]. apply no_fuel_bind; [|done].
    induction IH as [|c cs Hc _ IHcs]; [done|]. cbn [res_map]. apply no_fuel_bind; [by destruct (is_annotate c)|].
    intros. by apply no_fuel_bind.
  - intros cl _. apply no_fuel_bind; [|done]. apply climb_fuel. rewrite length_removelast. lia.
Qed.

Lemma append_nodes_cases target l :
  append_nodes target l = [skipped target] ∧ l = [] ∨ (∃ a, append_nodes target l = [a] ∧ l = [a]) ∨
  (2 ≤ length l ∧ append_nodes target l = imap (conflict (length l)) l).
Proof. destruct l as [|a [|b l]]; [by left|right; left; by exists a|right; right]. split; [cbn; lia|done]. Qed.

Lemma append_cases (P : ann → Prop) target l :
  Forall P l →
  append_nodes target l = [skipped target] ∨ (∃ a, append_nodes target l = [a] ∧ P a) ∨
  ∃ as_, 2 ≤ length as_ ∧ Forall P as_ ∧ append_nodes target l = imap (conflict (length as_)) as_.
Proof.
  intros Hl. destruct (append_nodes_cases target l) as [[-> ->]|[(a & -> & ->)|[Hlen ->]]].
  - by left.
  - right. left. exists a. split; [done|]. by inversion Hl.
  - right. right. by exists l.
Qed.

Lemma find_all_subtree p (n m : node nat) : m ∈ find_all p n → m ∈ subtree n ∧ p m = true.
Proof.
  intros [Hm%list_elem_of_In Hp]%list_elem_of_In%List.filter_In. split; [|done].
  destruct n; [by right|by apply elem_of_nil in Hm].
Qed.

(** The statements that climb first. *)
Lemma start_climbers module_soup name (f : ann → res (list ann)) cs climbers :
  match find_all (λ m, bool_decide (attr (py"yname") m = Some name)) module_soup with
  | [] => Ok []
  | m0 :: ms =>
      bodies ← res_map (λ c, if is_annotate c then f c else Ok (if is_tag c then [c] else [])) cs;
      Ok ((m0, annotate_statement (node_name m0) name (concat bodies)) ::
          ((λ m, (m, annotate_statement (node_name m) name (plain_of cs))) <$> ms))
  end = Ok climbers →
  ∃ first, (Forall (λ c, is_annotate c = false) cs → first = plain_of cs) ∧ plain_of cs `sublist_of` first ∧
    climbers = starts name first (plain_of cs) (find_all (λ m, bool_decide (attr (py"yname") m = Some name)) module_soup).
Proof.
  destruct (find_all _ _) as [|m0 ms]; [intros <-%Ok_inj; by exists (plain_of cs)|].
  intros (bodies & Hb & H)%bind_Ok. apply Ok_inj in H as <-. exists (concat bodies). split_and!.
  - intros Hno. apply res_map_Ok in Hb. unfold plain_of. clear -Hno Hb.
    induction Hb as [|c b cs bodies Hc _ IH]; [done|]. inversion Hno as [|?? Hn Hns]; subst.
    cbn [List.filter concat]. rewrite Hn in *. apply Ok_inj in Hc as <-. rewrite IH by done.
    cbn [negb]. rewrite andb_true_r. by destruct (is_tag c).
  - by eapply plain_sublist.
  - unfold starts. cbn [imap]. f_equal. rewrite <-imap_const. by apply imap_ext.
Qed.

Lemma starts_located module_soup names name first plain :
  plain `sublist_of` first →
  Forall (λ c : climber, located module_soup names name plain c.1 c.2)
    (starts name first plain (find_all (λ m, bool_decide (attr (py"yname") m = Some name)) module_soup)).
Proof.
  intros Hs. apply Forall_lookup. intros i c Hi. unfold starts in Hi. rewrite list_lookup_imap in Hi.
  apply fmap_Some in Hi as (m & Hm & ->). apply list_elem_of_lookup_2, find_all_subtree in Hm as [Hm Hy%bool_decide_eq_true].
  apply located_at; [done..|]. by destruct (i =? 0)%nat.
Qed.

Lemma starts_below module_soup name first plain :
  Forall (below module_soup)
    (starts name first plain (find_all (λ m, bool_decide (attr (py"yname") m = Some name)) module_soup)).
Proof.
  apply Forall_lookup. intros i c Hi. unfold starts in Hi. rewrite list_lookup_imap in Hi.
  apply fmap_Some in Hi as (m & Hm & ->). apply list_elem_of_lookup_2 in Hm.
  apply list_elem_of_In, List.filter_In in Hm as [Hm%list_elem_of_In Hy%bool_decide_eq_true]. split; [done|]. by destruct m.
Qed.

(** ** Texts that are replaced and put back *)

(** No end of a text begins the other one, and it begins none of its ends. *)
Definition apart (w b : pystr) : Prop := ∀ u v, w = u ++ v → v ≠ [] → ¬ v `prefix_of` b ∧ ¬ b `prefix_of` v.

Lemma apart_tail x w b : apart (x :: w) b → apart w b.
Proof. intros H u v -> Hv. by apply (H (x :: u) v). Qed.

Fixpoint apart_dec (w b : pystr) : bool :=
  match w with [] => true | _ :: w' => negb (startswith b w) && negb (startswith w b) && apart_dec w' b end.

Lemma apart_dec_spec w b : apart_dec w b = true → apart w b.
Proof.
  induction w as [|x w IH]; cbn [apart_dec].
  - intros _ u v Huv Hv. by destruct u, v.
  - intros [[H1%negb_true_iff H2%negb_true_iff]%andb_true_iff H3]%andb_true_iff [|y u] v Huv Hv.
    + cbn in Huv. subst v. by split; apply startswith_false.
    + injection Huv as <- ->. by apply (IH H3 u v).
Qed.

Lemma prefixes_compare (a b l : pystr) : a `prefix_of` l → b `prefix_of` l → a `prefix_of` b ∨ b `prefix_of` a.
Proof.
  intros Ha Hb. destruct (decide (length a ≤ length b)); [left|right]; eapply prefix_by_length; done || lia.
Qed.

(** Texts apart from the pattern are kept. *)
Lemma replace_through w b c s : apart w b → replace (w ++ s) b c = w ++ replace s b c.
Proof.
  intros Hw. induction w as [|x w IH]; [done|]. cbn [app]. rewrite replace_miss.
  - f_equal. apply IH. by eapply apart_tail.
  - apply startswith_false. intros Hp. destruct (Hw [] (x :: w) eq_refl ltac:(done)) as [H1 H2].
    destruct (prefixes_compare (x :: w) b (x :: w ++ s)); [by exists s|done|done|done].
Qed.

(** A text apart from the new pattern was there before. *)
Lemma replace_reveals a b s v :
  a ≠ [] → apart v b → startswith (replace s a b) v = true → startswith s v = true.
Proof.
  intros Ha. revert s. induction v as [|c v IH]; intros s Hv Hs; [apply startswith_nil|].
  destruct (startswith s a) eqn:Hsa.
  - exfalso. apply startswith_spec in Hsa as [k ->]. rewrite replace_hit in Hs by done.
    apply startswith_spec in Hs. destruct (Hv [] (c :: v) eq_refl ltac:(done)) as [H1 H2].
    destruct (prefixes_compare (c :: v) b (b ++ replace k a b)); [done|by eexists|done|done].
  - destruct s as [|x s]; [done|]. rewrite replace_miss in Hs by done. cbn [startswith] in Hs |- *.
    destruct (decide (c = x)); [|done]. apply IH; [by eapply apart_tail|done].
Qed.

(** Replacing and putting back gives the text, when the new pattern does not occur in
    it or ends with the old one. *)
Lemma replace_back a b s :
  a ≠ [] → b ≠ [] → apart (tail b) b → (contains s b = false ∨ ∃ x, b = x :: a) → replace (replace s a b) b a = s.
Proof.
  intros Ha Hb Hu Hor. remember (length s) as n eqn:Hn. assert (length s ≤ n) as Hle by lia. clear Hn.
  revert s Hle Hor. induction n as [|n IH]; intros s Hle Hor.
  { destruct s; [|cbn in Hle; lia]. done. }
  destruct (startswith s a) eqn:Hsa.
  - apply startswith_spec in Hsa as [k ->]. rewrite replace_hit by done. rewrite replace_hit by done. f_equal.
    apply IH; [rewrite length_app in Hle; destruct a; [done|]; cbn in Hle; lia|].
    destruct Hor as [Hno|]; [left; by eapply contains_app_false|by right].
  - destruct s as [|x s]; [done|]. rewrite replace_miss by done.
    assert (startswith (x :: replace s a b) b = false) as Hmiss.
    { apply not_true_is_false. intros Ht. destruct b as [|y v]; [done|]. cbn [startswith tail] in Ht, Hu.
      destruct (decide (y = x)) as [->|]; [|done].
      pose proof (replace_reveals a (x :: v) s v Ha Hu Ht) as [k ->]%startswith_spec.
      destruct Hor as [Hno|[z [= -> ->]]].
      - apply not_true_iff_false in Hno. apply Hno, contains_true. by exists [], k.
      - rewrite replace_hit in Ht by done. apply startswith_spec in Ht.
        destruct (Hu [] a eq_refl Ha) as [H1 _]. apply H1.
        apply (prefix_by_length _ _ ((z :: a) ++ replace k a (z :: a))); [done|by eexists|]. cbn. lia. }
    rewrite replace_miss by done. f_equal. apply IH; [cbn in Hle; lia|].
    destruct Hor as [Hno|]; [left; by apply (contains_app_false [x])|by right].
Qed.

(** Replacements of texts apart from each other commute. *)
Lemma replace_commute a a' b b' s :
  a ≠ [] → b ≠ [] → apart a b → apart a' b → apart b a → apart b' a → apart b a' → apart a b' →
  replace (replace s a a') b b' = replace (replace s b b') a a'.
Proof.
  intros Ha Hb H1 H2 H3 H4 H5 H6. remember (length s) as n eqn:Hn. assert (length s ≤ n) as Hle by lia. clear Hn.
  revert s Hle. induction n as [|n IH]; intros s Hle.
  { destruct s; [|cbn in Hle; lia]. done. }
  destruct (startswith s a) eqn:Hsa; [|destruct (startswith s b) eqn:Hsb].
  - apply startswith_spec in Hsa as [k ->]. rewrite replace_hit, replace_through by done.
    rewrite (replace_through a b) by done. rewrite replace_hit by done. f_equal. apply IH.
    rewrite length_app in Hle. destruct a; [done|]. cbn in Hle. lia.
  - apply startswith_spec in Hsb as [k ->]. rewrite (replace_through b a), (replace_hit b b') by done.
    rewrite replace_hit, replace_through by done. f_equal. apply IH.
    rewrite length_app in Hle. destruct b; [done|]. cbn in Hle. lia.
  - destruct s as [|x s]; [done|]. rewrite (replace_miss x s a), (replace_miss x s b) by done.
    assert (∀ p q q' : pystr, p ≠ [] → q ≠ [] → apart q q' → startswith (x :: s) q = false →
      startswith (x :: replace s p q') q = false) as Hmiss.
    { intros p q q' Hp Hq Hqq Hno. apply not_true_is_false. intros Ht. destruct q as [|y q]; [done|].
      cbn [startswith] in Ht, Hno. destruct (decide (y = x)); [|done].
      apply replace_reveals in Ht; [congruence|done|]. by eapply apart_tail. }
    rewrite !replace_miss by (by apply Hmiss). f_equal. apply IH. cbn in Hle. lia.
Qed.

(** *** The files *)

Section files.
Context (parse_module : pystr → node nat) (parse_ann : pystr → ann) (render : ann → pystr).

Lemma pattern_replace_Ok f p s fs u fs' :
  pattern_replace f p s fs = (Ok u, fs') → ∃ t, dict_get f fs = Some t ∧ fs' = dict_set f (replace t p s) fs.
Proof.
  unfold pattern_replace, read_file, write_file. monad_unfold. destruct (dict_get f fs) as [t|]; [|done].
  intros [= _ <-]. by exists t.
Qed.

Lemma F_bind {A B : Type} (m : PyM (list (pystr * pystr)) A) (f : A → PyM (list (pystr * pystr)) B) s b s' :
  (m ≫= f) s = (Ok b, s') → ∃ a s1, m s = (Ok a, s1) ∧ f a s1 = (Ok b, s').
Proof. unfold mbind, PyM_bind. destruct (m s) as [[a|e] s1]; [|done]. eauto. Qed.

Lemma read_Ok f fs t fs' : read_file f fs = (Ok t, fs') → dict_get f fs = Some t ∧ fs' = fs.
Proof. unfold read_file. monad_unfold. destruct (dict_get f fs); [|done]. by intros [= -> ->]. Qed.

Lemma mod_file_ne a : mod_file a ≠ a.
Proof.
  unfold mod_file. change (fmt (py"{0}mod") [a]) with (a ++ ["m"; "o"; "d"]%char). intros H.
  apply (f_equal length) in H. rewrite length_app in H. cbn in H. lia.
Qed.

(** The patterns of the module do not disturb each other. *)
Lemma patterns_back t :
  contains t (py"target_node=") = false →
  replace (replace (replace (replace t (py"name=") (py"yname=")) (py"target-node=") (py"target_node="))
    (py"yname=") (py"name=")) (py"target_node=") (py"target-node=") = t.
Proof.
  intros Ht. rewrite (replace_commute (py"name=") (py"yname=") (py"target-node=") (py"target_node="));
    [|vm_decide|vm_decide|apply apart_dec_spec; by vm_compute..].
  rewrite (replace_back (py"name=") (py"yname="));
    [|vm_decide|vm_decide|apply apart_dec_spec; by vm_compute|right; by exists "y"%char].
  apply replace_back; [vm_decide|vm_decide|apply apart_dec_spec; by vm_compute|by left].
Qed.

Lemma names_back t : replace (replace t (py"name=") (py"yname=")) (py"yname=") (py"name=") = t.
Proof. apply replace_back; [vm_decide|vm_decide|apply apart_dec_spec; by vm_compute|right; by exists "y"%char]. Qed.
End files.

(** ** Properties *)

(** C20: for an annotate statement the tool appends a skipped tag with its target when
    nothing of the module leads to it, or one statement, or several marked as
    conflicts and counted; each of them leads, parent by parent and for a reason in
    the path ([leads_up]), to a statement of the module with the last name of the path
    and has the annotations that are not annotate statements themselves.  In a module
    without choices, groupings and augments, for a path that stays in it, they are
    exactly the statements with the last name whose parent, the parent's parent and so
    on have the names of the path.  Climbing the path ends. *)
Theorem annotations_located (module_soup : node nat) (module_prefix : pystr) (n : ann) :
  match handle_annotate_node module_soup module_prefix n with
  | Raise e => e ≠ OutOfFuel
  | Ok l => ∃ target names name, target_of n target names name ∧
      let leads := leads module_soup names name (plain_of (contents n)) in
      (l = [skipped target] ∨ (∃ a, l = [a] ∧ leads a) ∨
       ∃ as_, 2 ≤ length as_ ∧ Forall leads as_ ∧ l = imap (conflict (length as_)) as_) ∧
      (plain_module module_soup → Forall (λ t, head (split ":" t) = Some module_prefix) (path_names target) →
       ∃ first, (Forall (λ c, is_annotate c = false) (contents n) → first = plain_of (contents n)) ∧
         l = append_nodes target (omap (wrap module_soup (reverse names))
               (starts name first (plain_of (contents n))
                  (find_all (λ m, bool_decide (attr (py"yname") m = Some name)) module_soup))))
  end.
Proof.
  pose proof (handle_fuel module_soup module_prefix n) as Hfuel.
  destruct (handle_annotate_node module_soup module_prefix n) as [l|e] eqn:Hh; [clear Hfuel|congruence].
  destruct n as [[] nm attrs cs|s]; [|done]. cbn [handle_annotate_node] in Hh.
  apply bind_Ok in Hh as (target & Ht & Hh). destruct (last (path_names target)) as [t|] eqn:Hlast; [|done].
  apply bind_Ok in Hh as (climbers & Hc & Hh). apply bind_Ok in Hh as (l' & Hl' & Hh). apply Ok_inj in Hh as <-.
  apply last_Some in Hlast as [tags Htags]. rewrite Htags in *. rewrite removelast_last in Hl'.
  exists target, (last_name <$> tags), (last_name t). split.
  { unfold target_of. cbn [attr]. unfold dict_lookup in Ht. destruct (dict_get _ attrs); [|done].
    apply Ok_inj in Ht as ->. split; [done|]. by rewrite Htags, fmap_app. }
  change (last_of (split ":" t)) with (last_name t) in *.
  destruct (start_climbers _ _ _ _ _ Hc) as (first & Hfirst & Hsub & ->). cbv zeta. cbn [contents]. split.
  - apply append_cases. eapply climb_located; [by apply starts_located|constructor| |exact Hl'].
    apply Forall_forall. intros u Hu. by apply list_elem_of_fmap_2.
  - intros Hplain Hpre. exists first. split; [done|]. f_equal.
    rewrite <-(reverse_involutive tags) in Hl'. rewrite climb_plain in Hl'; [|done|..].
    + apply Ok_inj in Hl' as <-. by rewrite fmap_reverse.
    + rewrite length_app, !length_reverse. lia.
    + apply starts_below.
    + apply Forall_reverse. rewrite Htags in Hpre. by apply Forall_app in Hpre as [? _].
Qed.

(** when the tool is done, the module and the annotations are as they were, only
    the file with the result is new, and its text is the rendered transformed
    module with the names of YIN. *)
Theorem files_restored (parse_module : pystr → node nat) (parse_ann : pystr → ann) (render : ann → pystr)
    (m a text : pystr) (files files' : list (pystr * pystr)) :
  m ≠ a → m ≠ mod_file a → dict_get m files = Some text → contains text (py"target_node=") = false →
  trim_yin parse_module parse_ann render m a files = (Ok tt, files') →
  (∀ f, f ≠ mod_file a → dict_get f files' = dict_get f files) ∧
  ∃ ann_text soup, dict_get a files = Some ann_text ∧
    transform (base m) (parse_module (replace (replace text (py"name=") (py"yname=")) (py"target-node=") (py"target_node=")))
      (parse_ann (replace ann_text (py"name=") (py"yname="))) = Ok soup ∧
    dict_get (mod_file a) files' = Some
      (replace (replace (replace (render soup) (py"yname=") (py"name=")) (py"statement_path") (py"statement-path"))
        (py"module_name") (py"module-name")).
Proof.
  intros Hma Hmod Hm Htext. unfold trim_yin. pose proof (mod_file_ne a) as Hmf. intros H.
  repeat lazymatch goal with H : (_ ≫= _) _ = (Ok _, _) |- _ =>
    let x := fresh "x" in let s := fresh "fs" in let E := fresh "E" in apply F_bind in H as (x & s & E & H) end.
  repeat match goal with
  | H : pattern_replace _ _ _ _ = (Ok _, _) |- _ =>
      let t := fresh "t" in let E := fresh "G" in let F := fresh "F" in apply pattern_replace_Ok in H as (t & E & F)
  | H : read_file _ _ = (Ok _, _) |- _ => let F := fresh "F" in apply read_Ok in H as [H F]
  | H : write_file _ _ _ = (Ok _, _) |- _ => injection H as _ H
  | H : lift _ _ = (Ok _, _) |- _ => injection H as H F
  end.
  injection E4 as Htr <-. subst.
  rewrite ?dict_get_set_ne, ?dict_get_set_eq in * by done.
  repeat (match goal with H : Some _ = Some _ |- _ => injection H as H; subst end ||
          (progress rewrite ?dict_get_set_ne, ?dict_get_set_eq in * by done)).
  simplify_eq. split.
  - intros f Hf. rewrite !dict_get_set. repeat case_decide; subst; try done.
    + by rewrite names_back.
    + by rewrite patterns_back.
  - exists t5, x4. split; [done|]. split; [done|]. done.
Qed.

(** ** Witnesses *)

(** A module with a leaf in a container, another one of the name in a list, and a
    choice without a case. *)
Definition ex_module : node nat := Tag 0 (py"[document]") []
  [Tag 1 (py"module") [(py"yname", py"m")]
    [Tag 2 (py"container") [(py"yname", py"c")] [Tag 3 (py"leaf") [(py"yname", py"l")] []];
     Tag 4 (py"list") [(py"yname", py"d")] [Tag 5 (py"leaf") [(py"yname", py"l")] []];
     Tag 6 (py"choice") [(py"yname", py"h")] [Tag 7 (py"container") [(py"yname", py"e")] []]]].

Definition info (t : pystr) : ann := Tag tt (py"tailf:info") [] [Str t].
Definition ex_annotate (target : pystr) (cs : list ann) : ann := Tag tt (py"tailf:annotate") [(py"target", target)] cs.

Definition ex_ann : ann := Tag tt (py"[document]") []
  [Tag tt (py"module") [(py"yname", py"m-ann")]
    [Tag tt (py"import") [(py"module", py"m")] [Tag tt (py"prefix") [(py"value", py"m")] []];
     ex_annotate (py"/m:c/m:l") [info (py"one")];
     ex_annotate (py"/m:x") [info (py"two")]]].

Definition ex_files : list (pystr * pystr) :=
  [(py"a/m.yin", py"<module name='m'><augment target-node='t'/>"); (py"m-ann.yin", py"<module name='m-ann'/>")].

Definition ex_run : res unit * list (pystr * pystr) :=
  trim_yin (λ _, ex_module) (λ _, ex_ann) (λ _, py"<module yname='x'/>") (py"a/m.yin") (py"m-ann.yin") ex_files.

Lemma files_restored_witness :
  dict_get (py"a/m.yin") ex_run.2 = dict_get (py"a/m.yin") ex_files ∧
  dict_get (py"m-ann.yin") ex_run.2 = dict_get (py"m-ann.yin") ex_files.
Proof.
  destruct (files_restored (λ _, ex_module) (λ _, ex_ann) (λ _, py"<module yname='x'/>") (py"a/m.yin") (py"m-ann.yin")
    (py"<module name='m'><augment target-node='t'/>") ex_files ex_run.2) as [H _];
    [vm_decide|vm_decide|reflexivity|vm_compute; reflexivity|vm_compute; reflexivity|].
  split; apply H; vm_decide.
Defined.

(** The module without the choice. *)
Definition ex_plain : node nat := Tag 0 (py"[document]") []
  [Tag 1 (py"module") [(py"yname", py"m")]
    [Tag 2 (py"container") [(py"yname", py"c")] [Tag 3 (py"leaf") [(py"yname", py"l")] []];
     Tag 4 (py"list") [(py"yname", py"d")] [Tag 5 (py"leaf") [(py"yname", py"l")] []]]].

Lemma annotations_located_witness :
  handle_annotate_node ex_plain (py"m") (ex_annotate (py"/m:c/m:l") [info (py"one")]) =
    Ok (append_nodes (py"/m:c/m:l") (omap (wrap ex_plain [py"c"])
      [(Tag 3 (py"leaf") [(py"yname", py"l")] [], annotate_statement (py"leaf") (py"l") [info (py"one")]);
       (Tag 5 (py"leaf") [(py"yname", py"l")] [], annotate_statement (py"leaf") (py"l") [info (py"one")])])).
Proof.
  pose proof (annotations_located ex_plain (py"m") (ex_annotate (py"/m:c/m:l") [info (py"one")])) as H.
  destruct (handle_annotate_node _ _ _) as [l|e] eqn:Hh; [|vm_compute in Hh; discriminate].
  destruct H as (target & names & name & [Ht Hn] & _ & H).
  injection Ht as <-. change (last_name <$> path_names (py"/m:c/m:l")) with ([py"c"] ++ [py"l"]) in Hn.
  apply app_inj_tail in Hn as [<- <-]. destruct H as (first & Hf & ->).
  - split; [reflexivity|]. repeat constructor.
  - repeat constructor.
  - rewrite Hf by repeat constructor. reflexivity.
Defined.

(** The leaf of the container only; a node that is not there; a choice. *)
Example ex_located :
  handle_annotate_node ex_module (py"m") (ex_annotate (py"/m:c/m:l") [info (py"one")]) =
  Ok [annotate_statement (py"container") (py"c") [annotate_statement (py"leaf") (py"l") [info (py"one")]]].
Proof. by vm_compute. Qed.

Example ex_skipped : handle_annotate_node ex_module (py"m") (ex_annotate (py"/m:x") []) = Ok [skipped (py"/m:x")].
Proof. by vm_compute. Qed.

(** Both leaves end a path of one name. *)
Example ex_conflicts :
  handle_annotate_node ex_module (py"m") (ex_annotate (py"/m:l") [info (py"i")]) =
  Ok [conflict 2 0 (annotate_statement (py"leaf") (py"l") [info (py"i")]);
      conflict 2 1 (annotate_statement (py"leaf") (py"l") [info (py"i")])].
Proof. by vm_compute. Qed.

(** ** What the code does not mean to do *)

(** The annotations of a nested annotate statement go to the first of several
    statements only. *)
Example nested_once :
  handle_annotate_node ex_module (py"m") (ex_annotate (py"/m:l") [ex_annotate (py"/m:d") [info (py"i")]]) =
  Ok [conflict 2 0 (annotate_statement (py"leaf") (py"l") [annotate_statement (py"list") (py"d") [info (py"i")]]);
      conflict 2 1 (annotate_statement (py"leaf") (py"l") [])].
Proof. by vm_compute. Qed.

(** A path without prefixes is taken to leave the module, and everything with the last
    name below the top is dropped. *)
Example unprefixed_dropped :
  handle_annotate_node ex_module (py"m") (ex_annotate (py"/a/b/l") [info (py"i")]) = Ok [skipped (py"/a/b/l")].
Proof. by vm_compute. Qed.

(** When the annotations do not import the module the tool fails with its input files
    changed. *)
Example inputs_left_changed :
  let r := trim_yin (λ _, ex_module) (λ _, Tag tt (py"[document]") [] []) (λ _, []) (py"a/m.yin") (py"m-ann.yin") ex_files in
  r.1 = Raise AttributeError ∧ dict_get (py"m-ann.yin") r.2 = Some (py"<module yname='m-ann'/>").
Proof. by vm_compute. Qed.
