(* ===== verification/Daemons.v ===== *)
(** * Main programs that run for ever

    [RouteMain]: the threads of route_status.py (confdgnmi/src), as a step relation.
    [Subscriber]: the main loop of modif-subscriber.py (confd-and-docker).
    [Pending]: the action of check-build.py (confd-nso-interop/router_nso), which
    waits until no module of a NED project is pending.  The latter two are
    sequences of calls answered by an environment. *)

From Stdlib Require Import Ascii String.
From stdpp Require Import relations.
From S2P Require Import Prelude PyStr Trace NetconfFraming SyncNc ModifSubscriber RouteStatus.

(** ** The route provider *)

Module RouteMain.

(** The change thread sleeps and makes changes, then asks whether to stop; the ConfD
    thread creates its pipe, then serves ConfD. *)
Inductive change_pc := CNot | CSleep | CCheck | CEnded.
Inductive confd_pc := KNot | KNew | KLoop | KEnded.

(** The main program: in the try block with the thread objects it has made, in the
    finally block with what it found there, and at its end. *)
Inductive main_pc :=
  | Init
  | Try0 | Try1 | Try2 | Try3 | Try4
  | Finally (change confd : bool)
  | JoinChange (change confd : bool)
  | StopLoop (confd : bool)
  | JoinConfd
  | CloseDp
  | Died (e : exn)
  | Done.

(** The pipe, once it is there, with whether the stop byte is in it. *)
Record state := State {
  main : main_pc; change : change_pc; confd : confd_pc; stop_thread : bool; stop_pipe : option bool; closed : bool }.

Definition start : state := State Init CNot KNot false None false.

(** Whether a thread's object exists when the try block is left. *)
Definition left_try (p : main_pc) : option (bool * bool) :=
  match p with
  | Try0 => Some (false, false)
  | Try1 | Try2 => Some (true, false)
  | Try3 | Try4 => Some (true, true)
  | _ => None
  end.

Definition in_finally (p : main_pc) : bool :=
  match p with Finally _ _ | JoinChange _ _ | StopLoop _ | JoinConfd | CloseDp => true | _ => false end.

Inductive step : state → state → Prop :=
  (* main *)
  | init_dp c k s p d : step (State Init c k s p d) (State Try0 c k s p d)
  | init_dp_fails c k s p d e : step (State Init c k s p d) (State (Died e) c k s p d)
  | new_change c k s p d : step (State Try0 c k s p d) (State Try1 c k s p d)
  | start_change c k s p d : step (State Try1 c k s p d) (State Try2 CSleep k s p d)
  | new_confd c k s p d : step (State Try2 c k s p d) (State Try3 c k s p d)
  | start_confd c k s p d : step (State Try3 c k s p d) (State Try4 c KNew s p d)
  | leave_try m c k s p d x y : left_try m = Some (x, y) → step (State m c k s p d) (State (Finally x y) c k s p d)
  | set_stop x y c k s p d : step (State (Finally x y) c k s p d) (State (JoinChange x y) c k true p d)
  | no_change y c k s p d : step (State (JoinChange false y) c k s p d) (State (StopLoop y) c k s p d)
  | join_change y k s p d : step (State (JoinChange true y) CEnded k s p d) (State (StopLoop y) CEnded k s p d)
  | join_unstarted y k s p d : step (State (JoinChange true y) CNot k s p d) (State (Died RuntimeError) CNot k s p d)
  | no_confd c k s p d : step (State (StopLoop false) c k s p d) (State CloseDp c k s p d)
  | stop_confd_loop c k s b d : step (State (StopLoop true) c k s (Some b) d) (State JoinConfd c k s (Some true) d)
  | stop_no_pipe c k s d : step (State (StopLoop true) c k s None d) (State (Died TypeError) c k s None d)
  | join_confd c s p d : step (State JoinConfd c KEnded s p d) (State CloseDp c KEnded s p d)
  | close_dp c k s b d : step (State CloseDp c k s (Some b) d) (State Done c k s (Some b) true)
  | close_no_pipe c k s d : step (State CloseDp c k s None d) (State (Died TypeError) c k s None true)
  | interrupted m c k s p d : in_finally m = true → step (State m c k s p d) (State (Died KeyboardInterrupt) c k s p d)
  (* the change thread *)
  | change_wakes m k s p d : step (State m CSleep k s p d) (State m CCheck k s p d)
  | change_fails m k s p d : step (State m CSleep k s p d) (State m CEnded k s p d)
  | change_goes_on m k p d : step (State m CCheck k false p d) (State m CSleep k false p d)
  | change_stops m k p d : step (State m CCheck k true p d) (State m CEnded k true p d)
  (* the ConfD thread *)
  | new_pipe m c s p d : step (State m c KNew s p d) (State m c KLoop s (Some false) d)
  | serve m c s b d fd r : stop_fd r = b → confd_step fd r = Running →
      step (State m c KLoop s (Some b) d) (State m c KLoop s (Some b) d)
  | serve_fails m c s b d fd r : stop_fd r = b → confd_step fd r = Failed →
      step (State m c KLoop s (Some b) d) (State m c KEnded s (Some b) d)
  | serve_stops m c s b d fd r : stop_fd r = b → confd_step fd r = Stopped →
      step (State m c KLoop s (Some b) d) (State m c KEnded s (Some false) d).

Abbreviation steps := (rtc step).
Definition reachable (s : state) : Prop := steps start s.

(** A thread that runs or will run. *)
Definition change_runs (s : state) : Prop := change s = CSleep ∨ change s = CCheck.
Definition confd_runs (s : state) : Prop := confd s = KNew ∨ confd s = KLoop.

(** What holds at each point of the main program. *)
Definition inv (s : state) : Prop :=
  (confd s = KNot ∨ confd s = KNew → stop_pipe s = None) ∧
  (confd s = KLoop → is_Some (stop_pipe s)) ∧
  (stop_pipe s = Some true → stop_thread s = true ∧ ¬ change_runs s) ∧
  (closed s = true → ¬ change_runs s ∧ ¬ confd_runs s) ∧
  match main s with
  | Init | Try0 | Try1 => change s = CNot ∧ confd s = KNot ∧ closed s = false ∧ stop_thread s = false
  | Try2 | Try3 => change s ≠ CNot ∧ confd s = KNot ∧ closed s = false ∧ stop_thread s = false
  | Try4 => change s ≠ CNot ∧ confd s ≠ KNot ∧ closed s = false ∧ stop_thread s = false
  | Finally x y | JoinChange x y => closed s = false ∧ (x = false → change s = CNot) ∧ (y = false → confd s = KNot) ∧
      (main s = JoinChange x y → stop_thread s = true)
  | StopLoop y => closed s = false ∧ ¬ change_runs s ∧ (y = false → confd s = KNot) ∧ stop_thread s = true
  | JoinConfd => closed s = false ∧ ¬ change_runs s ∧ stop_thread s = true
  | CloseDp => closed s = false ∧ ¬ change_runs s ∧ ¬ confd_runs s ∧ stop_thread s = true
  | Died _ => True
  | Done => closed s = true ∧ ¬ change_runs s ∧ ¬ confd_runs s ∧ stop_thread s = true
  end.

Lemma inv_step s s' : inv s → step s s' → inv s'.
Proof.
  intros Hi Hs. unfold inv, change_runs, confd_runs in *.
  destruct Hs; cbn [main change confd stop_thread stop_pipe closed] in *; try (destruct m; cbn in *; try done);
    repeat match goal with H : Some _ = Some _ |- _ => injection H as H; subst end; naive_solver.
Qed.

Lemma inv_reachable s : reachable s → inv s.
Proof.
  unfold reachable. assert (inv start) as H0 by (unfold inv, change_runs, confd_runs; cbn; naive_solver).
  intros Hs. revert H0. induction Hs as [|s1 s2 s3 Hstep _ IH]; [done|]. intros Hi. by apply IH, (inv_step s1).
Qed.

(** The change thread can end once it is told to, and the ConfD thread once the byte is
    in its pipe and ConfD is silent. *)
Lemma change_can_end m c k p d : c ≠ CNot → steps (State m c k true p d) (State m CEnded k true p d).
Proof.
  intros Hc. destruct c; [done| | |].
  - eapply rtc_l; [apply change_wakes|]. apply rtc_once, change_stops.
  - apply rtc_once, change_stops.
  - apply rtc_refl.
Qed.

Lemma confd_can_end m c s d : steps (State m c KLoop s (Some true) d) (State m c KEnded s (Some false) d).
Proof. apply rtc_once, (serve_stops _ _ _ _ _ FdOk (Build_ready_fds false false true)); done. Qed.

Lemma finally_can_finish c p d :
  c ≠ CNot → steps (State (Finally true true) c KLoop false (Some p) d) (State Done CEnded KEnded true (Some false) true).
Proof.
  intros Hc. eapply rtc_l; [apply set_stop|]. etrans; [by apply change_can_end|].
  eapply rtc_l; [apply join_change|]. eapply rtc_l; [apply stop_confd_loop|].
  etrans; [apply confd_can_end|]. eapply rtc_l; [apply join_confd|]. apply rtc_once, close_dp.
Qed.

(** C31: in every interleaving of the main program, the change thread, the ConfD
    thread and ConfD, interrupts included: the sockets are closed only when both
    threads are not running; the stop byte is sent only after the change thread has
    been joined; and when the main program leaves its try block with both threads at
    work it can always stop them, close the sockets and end. *)
Theorem shutdown (s : state) :
  reachable s →
  (closed s = true → ¬ change_runs s ∧ ¬ confd_runs s) ∧
  (stop_pipe s = Some true → stop_thread s = true ∧ ¬ change_runs s) ∧
  (main s = Done → closed s = true ∧ ¬ change_runs s ∧ ¬ confd_runs s) ∧
  (left_try (main s) = Some (true, true) → change_runs s → confd s = KLoop →
     ∃ s', steps s s' ∧ main s' = Done ∧ closed s' = true).
Proof.
  intros Hi%inv_reachable. pose proof Hi as (_ & Hloop & Hbyte & Hclosed & Hmain). split_and!; [done|done| |].
  - intros Hd. rewrite Hd in Hmain. tauto.
  - intros Hleft Hc Hk. destruct s as [m c k st p d]. cbn in *. subst k.
    destruct (Hloop eq_refl) as [b Hb]. cbn in Hb. subst p.
    exists (State Done CEnded KEnded true (Some false) true). split; [|done].
    assert (st = false) as -> by (destruct m; cbn in Hleft; try discriminate; tauto).
    eapply rtc_l; [apply leave_try; exact Hleft|]. apply finally_can_finish. unfold change_runs in Hc. cbn in Hc. destruct Hc; congruence.
Qed.

(** The program at work. *)
Definition at_work : state := State Try4 CSleep KLoop false (Some false) false.

Lemma at_work_reachable : reachable at_work.
Proof.
  eapply rtc_l; [apply init_dp|]. eapply rtc_l; [apply new_change|]. eapply rtc_l; [apply start_change|].
  eapply rtc_l; [apply new_confd|]. eapply rtc_l; [apply start_confd|]. apply rtc_once, new_pipe.
Qed.

Lemma shutdown_witness : ∃ s', steps at_work s' ∧ main s' = Done ∧ closed s' = true.
Proof.
  destruct (shutdown at_work at_work_reachable) as (_ & _ & _ & H). apply H; [reflexivity|by left|reflexivity].
Defined.

(** When the program is interrupted before the ConfD thread has made its pipe, the
    main program dies in its finally block, and the loop is never told to stop. *)
Definition stranded : state := State (Died TypeError) CEnded KNew true None false.

Lemma stranded_reachable : reachable stranded.
Proof.
  eapply rtc_l; [apply init_dp|]. eapply rtc_l; [apply new_change|]. eapply rtc_l; [apply start_change|].
  eapply rtc_l; [apply new_confd|]. eapply rtc_l; [apply start_confd|]. eapply rtc_l; [by apply leave_try|].
  eapply rtc_l; [apply set_stop|]. etrans; [by apply change_can_end|].
  eapply rtc_l; [apply join_change|]. apply rtc_once, stop_no_pipe.
Qed.

Lemma stranded_for_ever s : steps stranded s → stop_pipe s ≠ Some true ∧ closed s = false ∧ main s = Died TypeError.
Proof.
  intros Hs. assert (stop_pipe s ≠ Some true ∧ closed s = false ∧ main s = Died TypeError ∧ stop_pipe stranded ≠ Some true) as H; [|tauto].
  remember stranded as s0 eqn:E. assert (stop_pipe s0 ≠ Some true ∧ closed s0 = false ∧ main s0 = Died TypeError) as H0 by (by rewrite E).
  clear E. induction Hs as [|s1 s2 s3 Hstep _ IH]; [tauto|]. destruct H0 as (Hp & Hd & Hm).
  assert (stop_pipe s2 ≠ Some true ∧ closed s2 = false ∧ main s2 = Died TypeError) as H2; [|tauto].
  destruct Hstep; cbn in *; subst; try done; split_and!; done || congruence.
Qed.
End RouteMain.

(** ** The subscriber that prints changes *)

Module Subscriber.
Section subscriber.
(** The modifications and their text, as ModifSubscriber renders them, and the
    namespace of the subscription. *)
Context {mods : Set} (process_modifications : mods → pystr) (ns_hash : Z).

Definition CONFD_ADDR : pystr := py"127.0.0.1".
Definition ROOT_PATH : pystr := py"/folder-user".

(** The calls of the program. *)
Inductive effect : Set → Type :=
  | ESetDebug : effect unit
  | ESocket : effect nat
  | EMaapiConnect (s : nat) (addr : pystr) : effect unit
  | ELoadSchemas (s : nat) : effect unit
  | ECdbConnect (s : nat) (addr : pystr) : effect unit
  | ESubscribe (s : nat) (prio ns : Z) (path : pystr) : effect Z
  | ESubscribeDone (s : nat) : effect unit
  | ESelect (s : nat) : effect (list nat)
  | EReadSubscription (s : nat) : effect (list Z)
  | EGetModifications (s : nat) (point : Z) : effect mods
  | EWrite (t : pystr) : effect unit
  | ESync (s : nat) : effect unit
  | EClose (s : nat) : effect unit.

Abbreviation M := (PyM (list (item effect))).

Context (env : environment effect).
Definition call {A : Set} (e : effect A) : M A := act env e.

Fixpoint each {A} (f : A → M unit) (l : list A) : M unit :=
  match l with [] => mret tt | x :: l' => _ ← f x; each f l' end.

Definition process_subscriptions (spoint : Z) (subsock : nat) : M unit :=
  sub_points ← call (EReadSubscription subsock);
  each (λ s, when (bool_decide (s = spoint))
    (modifications ← call (EGetModifications subsock spoint);
     _ ← call (EWrite (process_modifications modifications));
     call (ESync subsock))) sub_points.

(** One round of the loop; errors that another program caused are passed over. *)
Definition sub_round (spoint : Z) (subsock : nat) : M unit :=
  r ← call (ESelect subsock);
  each (λ rs, when (bool_decide (rs = subsock))
    (try_except (process_subscriptions spoint subsock)
       (λ e, match e with ConfdError true => Some (mret tt) | _ => None end))) r.

Definition run (fuel : nat) : M unit :=
  _ ← call ESetDebug;
  subsock ← call ESocket;
  maapisock ← call ESocket;
  _ ← call (EMaapiConnect maapisock CONFD_ADDR);
  _ ← call (ELoadSchemas maapisock);
  _ ← call (ECdbConnect subsock CONFD_ADDR);
  spoint ← call (ESubscribe subsock 3 ns_hash ROOT_PATH);
  _ ← call (ESubscribeDone subsock);
  try_finally
    (try_except (while fuel (mret true) (sub_round spoint subsock))
       (λ e, match e with KeyboardInterrupt => Some (call (EWrite (nl ++ py"Ctrl-C pressed" ++ nl ++ nl))) | _ => None end))
    (call (EClose subsock)).

(** *** The dialogue with ConfD *)

(** Before the subscription is done, between notifications, with modifications that
    have not been written, with modifications that have not been acknowledged, and
    after the socket has been closed. *)
Inductive phase := PSetup | PReady | PRead | PWritten | PClosed.

#[export] Instance phase_eq_dec : EqDecision phase.
Proof. solve_decision. Defined.

(** Modifications are read between notifications only; when they have been read they
    are written and acknowledged, unless a call fails; nothing follows the close. *)
Definition dialogue (q : phase) (i : item effect) : option phase :=
  match i with Item e r =>
    match e in effect A return res A → option phase with
    | ESubscribeDone _ => λ r, if decide (q = PSetup) then Some (if is_ok r then PReady else PSetup) else None
    | ESelect _ | EReadSubscription _ => λ _, if decide (q = PReady) then Some PReady else None
    | EGetModifications _ _ => λ r, if decide (q = PReady) then Some (if is_ok r then PRead else PReady) else None
    | EWrite _ => λ r, match q with
        | PRead => Some (if is_ok r then PWritten else PReady)
        | PReady => Some PReady
        | _ => None end
    | ESync _ => λ _, if decide (q = PWritten) then Some PReady else None
    | EClose _ => λ _, if decide (q = PReady) then Some PClosed else None
    | _ => λ _, if decide (q = PSetup) then Some PSetup else None
    end r
  end.

Local Abbreviation triple := (triple dialogue).
Local Abbreviation ready := (λ q : phase, q = PReady).

Lemma each_ready {A} (f : A → M unit) l :
  (∀ x, triple ready (f x) (λ _, ready) ready) → triple ready (each f l) (λ _, ready) ready.
Proof.
  intros Hf. induction l as [|x l IH]; cbn [each]; [apply (triple_ret dialogue tt (λ _, ready))|].
  eapply triple_bind; [apply Hf|]. intros []. exact IH.
Qed.

Lemma process_ready spoint subsock : triple ready (process_subscriptions spoint subsock) (λ _, ready) ready.
Proof.
  unfold process_subscriptions. eapply triple_bind.
  - apply (triple_act dialogue env _ ready (λ _, ready) ready). intros q r ->. exists PReady. split; [done|]. by destruct r.
  - intros l. apply each_ready. intros s. apply triple_when; [|by intros _ q ->]. intros _.
    eapply triple_bind.
    { apply (triple_act dialogue env _ ready (λ _ q, q = PRead) ready). intros q r ->. eexists. split; [reflexivity|]. by destruct r. }
    intros m. eapply triple_bind.
    { apply (triple_act dialogue env _ (λ q, q = PRead) (λ _ q, q = PWritten) ready). intros q r ->. eexists. split; [reflexivity|]. by destruct r. }
    intros []. apply triple_act. intros q r ->. exists PReady. split; [done|]. by destruct r.
Qed.

Lemma round_ready spoint subsock : triple ready (sub_round spoint subsock) (λ _, ready) ready.
Proof.
  unfold sub_round. eapply triple_bind.
  - apply (triple_act dialogue env _ ready (λ _, ready) ready). intros q r ->. exists PReady. split; [done|]. by destruct r.
  - intros l. apply each_ready. intros s. apply triple_when; [|by intros _ q ->]. intros _.
    apply (triple_except dialogue ready _ _ _ ready); [apply process_ready| |done].
    intros e k He. assert (k = mret tt) as ->.
    { destruct e; try discriminate. destruct external; [by injection He as <-|discriminate]. }
    apply (triple_ret dialogue tt (λ _, ready)).
Qed.

(** From its start every run follows the dialogue, and when the subscription was made
    the socket is closed in the end. *)
Lemma run_dialogue fuel :
  triple (λ q, q = PSetup) (run fuel) (λ _ q, q = PClosed) (λ q, q = PSetup ∨ q = PClosed).
Proof.
  unfold run.
  assert (∀ A (e : effect A), (∀ q r, q = PSetup → dialogue q (Item e r) = Some PSetup) →
    triple (λ q, q = PSetup) (call e) (λ _ q, q = PSetup) (λ q, q = PSetup ∨ q = PClosed)) as Hsetup.
  { intros A e He. apply triple_act. intros q r ->. exists PSetup. split; [by apply He|]. destruct r; auto. }
  do 7 (eapply triple_bind; [apply Hsetup; by intros q r ->|intros ?]).
  eapply triple_bind.
  { apply (triple_act dialogue env _ (λ q, q = PSetup) (λ _, ready) (λ q, q = PSetup ∨ q = PClosed)).
    intros q r ->. eexists. split; [reflexivity|]. destruct r; cbn; auto. }
  intros [].
  assert (triple ready (call (EClose a0)) (λ _ q, q = PClosed) (λ q, q = PSetup ∨ q = PClosed)) as Hclose.
  { apply triple_act. intros q r ->. exists PClosed. split; [done|]. destruct r; auto. }
  apply (triple_finally dialogue ready _ (λ _, ready) ready _ (λ _ q, q = PClosed)).
  - apply (triple_except dialogue ready _ _ _ ready); [| |done].
    + eapply triple_conseq; [apply (triple_while dialogue fuel ready _ _ (λ _, ready) ready)| | |]; try done.
      * apply (triple_ret dialogue true (λ _, ready)).
      * apply round_ready.
    + intros e k He.
      assert (k = call (EWrite (nl ++ py"Ctrl-C pressed" ++ nl ++ nl))) as ->.
      { destruct e; try discriminate. by injection He as <-. }
      apply triple_act. intros q r ->. exists PReady. split; [done|]. by destruct r.
  - intros []. exact Hclose.
  - eapply triple_conseq; [exact Hclose|done| |done]. intros _ q ->. by right.
Qed.
End subscriber.
End Subscriber.

(** ** Waiting for pending modules *)

Module Pending.
Definition STATUS_PATH : pystr := py"/netconf-ned-builder/project{router 1.0}/module/status".
Definition PENDING : pystr := py"selected pending".

(** The calls of the action. *)
Inductive effect : Set → Type :=
  | EOpen (user ctx : pystr) : effect nat
  | ESaveConfig (t : nat) (path : pystr) : effect Z
  | ESocket : effect nat
  | EStreamConnect (s : nat) (id : Z) (addr : pystr) : effect unit
  | ERecv (s : nat) (n : Z) : effect pystr
  | ECloseSocket (s : nat) : effect unit
  | ESleep (seconds : Z) : effect unit
  | EClose (t : nat) : effect unit.

Abbreviation M := (PyM (list (item effect))).

Section pending.
Context (env : environment effect).
Definition call {A : Set} (e : effect A) : M A := act env e.

(** Every piece is decoded on its own. *)
Fixpoint recv_all_and_close (fuel : nat) (c_sock : nat) (data : pystr) : M pystr :=
  match fuel with
  | 0 => raise OutOfFuel
  | Datatypes.S k =>
      buf ← call (ERecv c_sock 4096);
      if bool_decide (buf = []) then _ ← call (ECloseSocket c_sock); mret data
      else if utf8_valid buf then recv_all_and_close k c_sock (data ++ buf)
      else raise UnicodeDecodeError
  end.

Definition read_config (fuel : nat) (trans : nat) (path : pystr) : M pystr :=
  c_id ← call (ESaveConfig trans path);
  c_sock ← call ESocket;
  _ ← call (EStreamConnect c_sock c_id (py"127.0.0.1"));
  recv_all_and_close fuel c_sock [].

(** One round of the loop: was something pending?  The transaction is held while the
    action sleeps. *)
Definition poll (fuel : nat) : M bool :=
  t ← call (EOpen (py"admin") (py"admin"));
  try_finally
    (save_data ← read_config fuel t STATUS_PATH;
     if contains save_data PENDING then _ ← call (ESleep 1); mret true else mret false)
    (call (EClose t)).

Definition cb_action (fuel reads : nat) : M unit := while fuel (poll reads) (mret tt).

(** *** What the action has seen *)

(** Between rounds, in a round with the text that has come, after a round that slept,
    and after one that found nothing pending. *)
Inductive seen := Between | Reading (t : nat) (text : pystr) | Slept (t : nat).

#[export] Instance seen_eq_dec : EqDecision seen.
Proof. solve_decision. Defined.

(** The action sleeps only when something is pending in the text of the round. *)
Definition watch (q : seen) (i : item effect) : option seen :=
  match i with Item e r =>
    match e in effect A return res A → option seen with
    | EOpen _ _ => λ r, if decide (q = Between) then Some (match r with Ok t => Reading t [] | Raise _ => Between end) else None
    | ERecv _ _ => λ r, match q with
        | Reading t text => Some (Reading t (match r with Ok b => text ++ b | Raise _ => text end))
        | _ => None end
    | ESleep _ => λ r, match q with
        | Reading t text => if contains text PENDING then Some (Slept t) else None
        | _ => None end
    | EClose t => λ r, match q with
        | Reading t' text => if decide (t = t') then Some Between else None
        | Slept t' => if decide (t = t') then Some Between else None
        | Between => None end
    | _ => λ _, match q with Reading _ _ => Some q | _ => None end
    end r
  end.

Local Abbreviation triple := (triple watch).
Local Abbreviation inside t := (λ q : seen, (∃ text, q = Reading t text) ∨ q = Slept t).

Lemma recv_reads fuel c_sock t data :
  triple (λ q, q = Reading t data) (recv_all_and_close fuel c_sock data) (λ d q, q = Reading t d) (inside t).
Proof.
  revert data. induction fuel as [|k IH]; intros data; cbn [recv_all_and_close].
  - eapply triple_conseq; [apply (triple_raise watch OutOfFuel (λ d q, q = Reading t d) (inside t))| |done..]. intros q ->. eauto.
  - eapply triple_bind.
    { apply (triple_act watch env _ (λ q, q = Reading t data) (λ b q, q = Reading t (data ++ b)) (inside t)).
      intros q r ->. eexists. split; [reflexivity|]. destruct r; eauto. }
    intros buf. apply triple_if; intros Hb.
    + apply bool_decide_eq_true in Hb as ->. rewrite app_nil_r. eapply triple_bind.
      { apply (triple_act watch env _ (λ q, q = Reading t data) (λ _ q, q = Reading t data) (inside t)).
        intros q r ->. eexists. split; [reflexivity|]. destruct r; eauto. }
      intros []. apply (triple_ret watch data (λ d q, q = Reading t d)).
    + apply triple_if; intros _; [apply IH|].
      eapply triple_conseq; [apply (triple_raise watch UnicodeDecodeError (λ d q, q = Reading t d) (inside t))| |done..].
      intros q ->. eauto.
Qed.

Lemma read_config_reads fuel t path :
  triple (λ q, q = Reading t []) (read_config fuel t path) (λ d q, q = Reading t d) (inside t).
Proof.
  unfold read_config.
  assert (∀ A (e : effect A), (∀ r, watch (Reading t []) (Item e r) = Some (Reading t [])) →
    triple (λ q, q = Reading t []) (call e) (λ _ q, q = Reading t []) (inside t)) as Hkeep.
  { intros A e He. apply triple_act. intros q r ->. exists (Reading t []). split; [apply He|]. destruct r; eauto. }
  do 3 (eapply triple_bind; [by apply Hkeep|intros ?]). apply recv_reads.
Qed.

Lemma round_watches fuel :
  triple (λ q, q = Between) (poll fuel) (λ _ q, q = Between) (λ q, q = Between).
Proof.
  unfold poll. eapply triple_bind.
  { apply (triple_act watch env _ (λ q, q = Between) (λ t q, q = Reading t []) (λ q, q = Between)).
    intros q r ->. eexists. split; [reflexivity|]. by destruct r. }
  intros t. apply (triple_finally watch _ _ (λ _, inside t) (inside t)).
  - eapply triple_bind; [apply read_config_reads|]. intros d. apply triple_if; intros Hd.
    + eapply triple_bind.
      { apply (triple_act watch env _ (λ q, q = Reading t d) (λ _, inside t) (inside t)).
        intros q r ->. exists (Slept t). cbn. rewrite Hd. split; [done|]. destruct r; eauto. }
      intros []. apply (triple_ret watch true (λ _, inside t)).
    + eapply triple_conseq; [apply (triple_ret watch false (λ _, inside t) (inside t))| |done..]. intros q ->. eauto.
  - intros b. apply triple_act. intros q r [[text ->]| ->]; exists Between; cbn; rewrite decide_True by done; by destruct r.
  - apply triple_act. intros q r [[text ->]| ->]; exists Between; cbn; rewrite decide_True by done; by destruct r.
Qed.

(** Every transaction is closed, and the action sleeps only when something is
    pending. *)
Lemma cb_action_watches fuel reads h :
  ∃ t, (cb_action fuel reads h).2 = h ++ t ∧ runs watch Between t = Some Between.
Proof.
  destruct (triple_while watch fuel (λ q, q = Between) (poll reads) (mret tt) (λ _ q, q = Between) (λ q, q = Between)
    ltac:(apply round_watches) ltac:(apply (triple_ret watch tt (λ _ q, q = Between))) ltac:(done) Between h eq_refl)
    as (t & q & Ht & Hr & Hq).
  exists t. split; [exact Ht|]. rewrite Hr. by destruct (while _ _ _ _).1; subst.
Qed.
End pending.

End Pending.
