(* ===== verification/Hoare.v ===== *)
(** * Pre- and postconditions of stateful programs

    [hoare P m R X]: from a state with [P], the program [m] returns a value and a
    state with [R], or raises with [X].  [stable I X m]: [m] keeps [I] when it
    returns, and raises with [X]. *)

From S2P Require Import Prelude.

Section hoare.
Context {S : Type}.

Definition hoare {A : Type} (P : S → Prop) (m : PyM S A) (R : A → S → Prop) (X : exn → S → Prop) : Prop :=
  ∀ s, P s → match m s with (Ok a, s') => R a s' | (Raise e, s') => X e s' end.

Lemma hoare_bind {A B : Type} P (m : PyM S A) (f : A → PyM S B) Q R X :
  hoare P m Q X → (∀ a, hoare (Q a) (f a) R X) → hoare P (m ≫= f) R X.
Proof.
  intros Hm Hf s HP. specialize (Hm s HP). unfold mbind, PyM_bind. destruct (m s) as [[a|e] s']; [|done]. by apply Hf.
Qed.

Lemma hoare_ret {A : Type} (a : A) (R : A → S → Prop) X : hoare (R a) (mret a) R X.
Proof. by intros s HR. Qed.

Lemma hoare_raise {A : Type} e (R : A → S → Prop) (X : exn → S → Prop) : hoare (X e) (raise e) R X.
Proof. by intros s HX. Qed.

Lemma hoare_lift {A : Type} (P : S → Prop) (r : res A) (R : A → S → Prop) (X : exn → S → Prop) :
  (∀ s, P s → match r with Ok a => R a s | Raise e => X e s end) → hoare P (lift r) R X.
Proof. intros Hr s HP. specialize (Hr s HP). unfold lift. by destruct r. Qed.

Lemma hoare_modify (P : S → Prop) (f : S → S) (R : unit → S → Prop) X : (∀ s, P s → R tt (f s)) → hoare P (modify f) R X.
Proof. intros Hf s HP. by apply Hf. Qed.

Lemma hoare_get {A : Type} P (f : S → PyM S A) R X : (∀ s, P s → hoare (λ s', s' = s) (f s) R X) → hoare P (s ← get; f s) R X.
Proof. intros Hf s HP. by apply (Hf s HP). Qed.

Lemma hoare_weaken {A : Type} (P P' : S → Prop) (m : PyM S A) (R R' : A → S → Prop) (X X' : exn → S → Prop) :
  hoare P m R X → (∀ s, P' s → P s) → (∀ a s, R a s → R' a s) → (∀ e s, X e s → X' e s) → hoare P' m R' X'.
Proof. intros Hm HP HR HX s Hs. specialize (Hm s (HP s Hs)). destruct (m s) as [[a|e] s']; auto. Qed.

Lemma hoare_if {A : Type} (b : bool) P (m1 m2 : PyM S A) R X :
  (b = true → hoare P m1 R X) → (b = false → hoare P m2 R X) → hoare P (if b then m1 else m2) R X.
Proof. destruct b; auto. Qed.

Lemma hoare_pre {A : Type} (φ : Prop) P (m : PyM S A) R X :
  (φ → hoare P m R X) → hoare (λ s, φ ∧ P s) m R X.
Proof. intros Hm s [Hφ HP]. by apply Hm. Qed.

(** *** Invariants *)

Definition stable {A : Type} (I : S → Prop) (X : exn → S → Prop) (m : PyM S A) : Prop := hoare I m (λ _, I) X.

Context (I : S → Prop) (X : exn → S → Prop).

Lemma stable_bind {A B : Type} (m : PyM S A) (f : A → PyM S B) :
  stable I X m → (∀ a, stable I X (f a)) → stable I X (m ≫= f).
Proof. apply hoare_bind. Qed.

Lemma stable_ret {A : Type} (a : A) : stable I X (mret a).
Proof. apply (hoare_ret a (λ _, I)). Qed.

Lemma stable_get {A : Type} (f : S → PyM S A) : (∀ s, I s → stable I X (f s)) → stable I X (s ← get; f s).
Proof. intros Hf s HI. by apply (Hf s HI). Qed.

Lemma stable_modify (f : S → S) : (∀ s, I s → I (f s)) → stable I X (modify f).
Proof. intros Hf s HI. by apply Hf. Qed.

Lemma stable_if {A : Type} (b : bool) (m1 m2 : PyM S A) : stable I X m1 → stable I X m2 → stable I X (if b then m1 else m2).
Proof. by destruct b. Qed.

Lemma stable_decide {A : Type} (P : Prop) `{Decision P} (m1 m2 : PyM S A) :
  stable I X m1 → stable I X m2 → stable I X (if decide P then m1 else m2).
Proof. by case_decide. Qed.
End hoare.
