(* ===== verification/Connections.v ===== *)
(** * Opening a link: confd-sync-py/app/netconf_console.py, lines 221 to 425

    [create_connection] and the [connect] and [listen] methods of [NetconfSSH] and
    [NetconfTCP], as sequences of calls to the socket module and to paramiko, each
    answered by an environment.  A call that the program expects to raise
    [socket.error] answers with the error's text. *)

From Stdlib Require Import Ascii String.
From S2P Require Import Prelude PyStr Json Xml Trace.

(** ** Calls *)

(** What [getaddrinfo] lists: family, type, protocol, canonical name and address. *)
Record addrinfo := AddrInfo { af : Z; socktype : Z; sock_proto : Z; canonname : pystr; sa : pystr }.

#[export] Instance addrinfo_eq_dec : EqDecision addrinfo.
Proof. solve_decision. Defined.

Definition AF_UNSPEC : Z := 0.
Definition AF_INET : Z := 2.
Definition SOCK_STREAM : Z := 1.

(** The key types that paramiko is asked for. *)
Inductive key_class := RSAKey | DSSKey.

(** How a user authenticates. *)
Inductive credential := Pkey (key : nat) | Password (password : pystr).

(** Sockets, transports, keys and channels are numbers. *)
Inductive effect : Set → Type :=
  | EGetAddrInfo (host : pystr) (port family ty : Z) : effect (list addrinfo)
  | ESocket (family ty proto : Z) : effect (pystr + nat)
  | EConnect (s : nat) (sa : pystr) : effect (pystr + unit)
  | ECloseSocket (s : nat) : effect unit
  | EReuseAddr (s : nat) : effect unit
  | EBind (s : nat) (host : pystr) (port : Z) : effect unit
  | EListen (s : nat) (backlog : Z) : effect unit
  | EAccept (s : nat) : effect (nat * pystr)
  | EPrint (t : pystr) : effect unit
  | ETransport (s : nat) : effect nat
  | EPrivateKey (k : key_class) (file : pystr) : effect nat
  | EAuthenticate (t : nat) (username : pystr) (c : credential) : effect unit
  | EOpenSession (t : nat) : effect nat
  | EInvokeSubsystem (chan : nat) (name : pystr) : effect unit
  | EGetSockName (s : nat) : effect pystr
  | EGetUid : effect Z
  | EGetGid : effect Z
  | EGetEnv (name default : pystr) : effect pystr
  | ESend (s : nat) (bytes : pystr) : effect (pystr + Z).

Abbreviation M := (PyM (list (item effect))).

(** A link that is up: the channel of an SSH session, or a socket. *)
Inductive link := Channel (chan : nat) | Socket (s : nat).

#[export] Instance link_eq_dec : EqDecision link.
Proof. solve_decision. Defined.

(** ** The objects *)

(** The attributes of [NetconfSSH] and [NetconfTCP] that are used to connect. *)
Record ssh_client := SshClient {
  hostname : pystr; ssh_port : Z; username : pystr; password : pystr;
  publicKeyType : pystr; privateKeyFile : pystr; privateKeyType : pystr }.
Record tcp_client := TcpClient {
  tcp_hostname : pystr; tcp_port : Z; tcp_username : pystr; groups : pystr; suplgids : pystr }.

Section connections.
Context (env : environment effect).
Definition call {A : Set} (e : effect A) : M A := act env e.

(** ** Sockets *)

(** The loop over the addresses; the variable [sock] is unbound, [None] or a socket. *)
Fixpoint try_addresses (sock : option (option nat)) (lasterr : pystr) (l : list addrinfo)
    : M (option (option nat) * pystr) :=
  match l with
  | [] => mret (sock, lasterr)
  | AddrInfo af ty proto _ sa :: l' =>
      r ← call (ESocket af ty proto);
      match r with
      | inl x => try_addresses (Some None) x l'
      | inr s =>
          c ← call (EConnect s sa);
          match c with
          | inl x => _ ← call (ECloseSocket s); try_addresses (Some None) x l'
          | inr tt => mret (Some (Some s), lasterr)
          end
      end
  end.

Definition create_connection (host : pystr) (port : Z) : M nat :=
  l ← call (EGetAddrInfo host port AF_UNSPEC SOCK_STREAM);
  '(sock, lasterr) ← try_addresses None [] l;
  match sock with
  | None => raise UnboundLocalError
  | Some None => raise (StdoutError (fmt (py"Failed to connect to {0}:{1} {2}") [host; str_Z port; lasterr]))
  | Some (Some s) => mret s
  end.

(** ** SSH *)

(** [base64.decodestring] is not in the current standard library. *)
Definition agent_public_key (publicKeyType : pystr) : res unit :=
  if decide (publicKeyType ∈ [py"rsa"; py"dss"]) then Raise AttributeError else Ok tt.

Definition authenticate (c : ssh_client) (t : nat) (cr : credential) : M unit :=
  try_except (call (EAuthenticate t (username c) cr))
    (λ e, match e with AuthenticationException => Some (raise (StdoutError (py"Authentication failed."))) | _ => None end).

Definition _start_ssh (c : ssh_client) (sock : nat) : M link :=
  t ← call (ETransport sock);
  _ ← lift (agent_public_key (publicKeyType c));
  _ ← (if decide (privateKeyFile c ≠ []) then
         k ← call (EPrivateKey (if decide (privateKeyType c = py"rsa") then RSAKey else DSSKey) (privateKeyFile c));
         authenticate c t (Pkey k)
       else authenticate c t (Password (password c)));
  chan ← call (EOpenSession t);
  _ ← call (EInvokeSubsystem chan (py"netconf"));
  mret (Channel chan).

Definition ssh_connect (c : ssh_client) : M link :=
  sock ← create_connection (hostname c) (ssh_port c);
  _start_ssh c sock.

Definition ssh_listen (c : ssh_client) (host : pystr) (port : Z) : M link :=
  r ← call (ESocket AF_INET SOCK_STREAM 0);
  match r with
  | inl _ => raise SocketError
  | inr sock =>
      _ ← call (EReuseAddr sock);
      _ ← call (EBind sock host port);
      _ ← call (EPrint (py"** listening on  " ++ host ++ py" " ++ str_Z port));
      _ ← call (EListen sock 1);
      '(conn, addr) ← call (EAccept sock);
      _ ← call (ECloseSocket sock);
      _ ← call (EPrint (py"** call home from " ++ addr));
      _start_ssh c conn
  end.

(** ** TCP *)

Definition tcp_header (c : tcp_client) (addr : pystr) (uid gid : Z) (home : pystr) : pystr :=
  fmt (py"[{0};{1};tcp;{2};{3};{4};{5};{6};]") [tcp_username c; addr; str_Z uid; str_Z gid; suplgids c; home; groups c] ++ nl.

(** [NetconfTCP._send]: an error is printed. *)
Definition tcp_send (sock : nat) (bytes : pystr) : M unit :=
  r ← call (ESend sock bytes);
  match r with
  | inl x => call (EPrint (py"socket error: " ++ x))
  | inr _ => mret tt
  end.

Definition tcp_connect (c : tcp_client) : M link :=
  sock ← create_connection (tcp_hostname c) (tcp_port c);
  addr ← call (EGetSockName sock);
  uid ← call EGetUid;
  gid ← call EGetGid;
  home ← call (EGetEnv (py"HOME") (py"/tmp"));
  _ ← tcp_send sock (tcp_header c addr uid gid home);
  mret (Socket sock).

(** ** The calls of a link that is opened *)

(** Trying the addresses that are left, with a new socket, with one that could not
    connect; listening; with one connected socket, the only open one; with an SSH
    transport on it, authenticated, with a channel; with a link; after a call that
    raised. *)
Inductive phase :=
  | Start
  | Trying (l : list addrinfo)
  | New (s : nat) (sa : pystr) (l : list addrinfo)
  | Refused (s : nat) (l : list addrinfo)
  | Listener (s : nat) (k : nat)
  | Accepted (s conn : nat)
  | Connected (s : nat)
  | Transport (t : nat)
  | Authenticated (t : nat)
  | Opened (chan : nat)
  | Ready (l : link)
  | Broken.

#[export] Instance phase_eq_dec : EqDecision phase.
Proof. solve_decision. Defined.

(** The next phase, unless the call raised. *)
Definition unless_raised {A : Type} (f : A → phase) (r : res A) : option phase :=
  Some (match r with Ok a => f a | Raise _ => Broken end).

Definition dialogue (q : phase) (i : item effect) : option phase :=
  match i with Item e r =>
    match e in effect A return res A → option phase with
    | EGetAddrInfo _ _ f t => if decide (q = Start ∧ f = AF_UNSPEC ∧ t = SOCK_STREAM) then unless_raised Trying else λ _, None
    | ESocket f t p => match q with
        | Trying (a :: l) => if decide ((f, t, p) = (af a, socktype a, sock_proto a))
            then unless_raised (λ r, match r with inl _ => Trying l | inr s => New s (sa a) l end) else λ _, None
        | Start => if decide ((f, t, p) = (AF_INET, SOCK_STREAM, 0%Z))
            then unless_raised (λ r, match r with inl _ => Broken | inr s => Listener s 0 end) else λ _, None
        | _ => λ _, None end
    | EConnect s a => match q with
        | New s' a' l => if decide (s = s' ∧ a = a')
            then unless_raised (λ r, match r with inl _ => Refused s l | inr _ => Connected s end) else λ _, None
        | _ => λ _, None end
    | ECloseSocket s => match q with
        | Refused s' l => if decide (s = s') then unless_raised (λ _, Trying l) else λ _, None
        | Accepted s' conn => if decide (s = s') then unless_raised (λ _, Connected conn) else λ _, None
        | _ => λ _, None end
    | EReuseAddr s => if decide (q = Listener s 0) then unless_raised (λ _, Listener s 1) else λ _, None
    | EBind s _ _ => if decide (q = Listener s 1) then unless_raised (λ _, Listener s 2) else λ _, None
    | EListen s _ => if decide (q = Listener s 2) then unless_raised (λ _, Listener s 3) else λ _, None
    | EAccept s => if decide (q = Listener s 3) then unless_raised (λ r, Accepted s r.1) else λ _, None
    | EPrint _ => unless_raised (λ _, q)
    | ETransport s => if decide (q = Connected s) then unless_raised Transport else λ _, None
    | EPrivateKey _ _ => match q with Transport _ => unless_raised (λ _, q) | _ => λ _, None end
    | EAuthenticate t _ _ => if decide (q = Transport t) then unless_raised (λ _, Authenticated t) else λ _, None
    | EOpenSession t => if decide (q = Authenticated t) then unless_raised Opened else λ _, None
    | EInvokeSubsystem c n => if decide (q = Opened c ∧ n = py"netconf") then unless_raised (λ _, Ready (Channel c)) else λ _, None
    | EGetSockName s => if decide (q = Connected s) then unless_raised (λ _, q) else λ _, None
    | EGetUid | EGetGid | EGetEnv _ _ => match q with Connected _ => unless_raised (λ _, q) | _ => λ _, None end
    | ESend s _ => if decide (q = Connected s) then unless_raised (λ _, Ready (Socket s)) else λ _, None
    end r
  end.

Local Abbreviation triple := (triple dialogue).

(** How opening a link can fail: no address is left and every socket is closed, a call
    raised, or, for a transport, its key type is refused. *)
Definition failed (q : phase) : Prop := q = Trying [] ∨ q = Broken ∨ ∃ t, q = Transport t.

Lemma call_triple {A : Set} (e : effect A) (q0 : phase) (f : A → phase) (X : phase → Prop) :
  (∀ r, dialogue q0 (Item e r) = unless_raised f r) → X Broken →
  triple (λ q, q = q0) (call e) (λ a q, q = f a) X.
Proof.
  intros He HX. apply triple_act. intros q r ->. exists (match r with Ok a => f a | Raise _ => Broken end).
  split; [by rewrite He|]. by destruct r.
Qed.

(** Step over a call whose answer leads to [f] in the dialogue. *)
Ltac step_call f :=
  eapply triple_bind;
  [apply (call_triple _ _ f); [intros ?; cbn; rewrite ?decide_True by done; reflexivity|unfold failed; auto]|intros ?].

Lemma broken_failed : failed Broken.
Proof. right. by left. Qed.

Lemma try_addresses_dialogue sock lasterr l :
  triple (λ q, q = Trying l) (try_addresses sock lasterr l)
    (λ r q, match r.1 with Some (Some s) => q = Connected s ∨ sock = Some (Some s) | _ => q = Trying [] end) failed.
Proof.
  revert sock lasterr. induction l as [|[f t p cn a] l IH]; intros sock lasterr; cbn [try_addresses].
  - intros q h ->. exists [], (Trying []). rewrite app_nil_r. split_and!; [done..|]. cbn. destruct sock as [[]|]; auto.
  - assert (∀ x, triple (λ q, q = Trying l) (try_addresses (Some None) x l)
      (λ r q, match r.1 with Some (Some s) => q = Connected s ∨ sock = Some (Some s) | _ => q = Trying [] end) failed) as Hnext.
    { intros x. eapply triple_conseq; [apply IH|done| |done]. intros [[[]|] ?] q; cbn; naive_solver. }
    step_call (λ r : pystr + nat, match r with inl _ => Trying l | inr s => New s a l end).
    destruct a0 as [x|s]; [apply Hnext|].
    step_call (λ r : pystr + unit, match r with inl _ => Refused s l | inr _ => Connected s end).
    destruct a0 as [x|[]].
    + step_call (λ _ : unit, Trying l). apply Hnext.
    + intros q h ->. exists [], (Connected s). rewrite app_nil_r. split_and!; [done..|]. by left.
Qed.

Lemma create_connection_dialogue host port :
  triple (λ q, q = Start) (create_connection host port) (λ s q, q = Connected s) failed.
Proof.
  unfold create_connection. step_call Trying. eapply triple_bind; [apply try_addresses_dialogue|].
  intros [[[s|]|] e]; cbn [fst].
  - intros q h [->|?]; [|done]. exists [], (Connected s). by rewrite app_nil_r.
  - eapply triple_conseq; [apply (triple_raise dialogue _ (λ _ _, False) failed)|intros q ->; by left|done|done].
  - eapply triple_conseq; [apply (triple_raise dialogue _ (λ _ _, False) failed)|intros q ->; by left|done|done].
Qed.

Lemma authenticate_dialogue c t cr :
  triple (λ q, q = Transport t) (authenticate c t cr) (λ _ q, q = Authenticated t) failed.
Proof.
  unfold authenticate. apply (triple_except dialogue _ _ _ _ failed); [| |done].
  - apply call_triple; [|apply broken_failed]. intros r. cbn. by rewrite decide_True.
  - intros e k He. destruct e; try discriminate. injection He as <-. apply (triple_raise dialogue _ (λ _ q, q = Authenticated t) failed).
Qed.

Lemma start_ssh_dialogue c s :
  triple (λ q, q = Connected s) (_start_ssh c s) (λ l q, q = Ready l) failed.
Proof.
  unfold _start_ssh. step_call Transport. rename a into t. eapply triple_bind.
  { apply (triple_lift dialogue _ _ (λ _ q, q = Transport t)). intros q ->. unfold agent_public_key.
    case_decide; [right; right; by exists t|done]. }
  intros []. apply (triple_bind dialogue _ _ (λ _ q, q = Authenticated t)).
  - case_decide; [|apply authenticate_dialogue]. step_call (λ _ : nat, Transport t). apply authenticate_dialogue.
  - intros []. step_call Opened. rename a into chan. step_call (λ _ : unit, Ready (Channel chan)).
    apply (triple_ret dialogue (Channel chan) (λ l q, q = Ready l)).
Qed.

Lemma ssh_listen_dialogue c host port :
  triple (λ q, q = Start) (ssh_listen c host port) (λ l q, q = Ready l) failed.
Proof.
  unfold ssh_listen. step_call (λ r : pystr + nat, match r with inl _ => Broken | inr s => Listener s 0 end).
  destruct a as [x|s].
  { eapply triple_conseq; [apply (triple_raise dialogue _ (λ _ _, False) failed)| |done|done]. intros q ->. apply broken_failed. }
  step_call (λ _ : unit, Listener s 1). do 2 step_call (λ _ : unit, Listener s 2). step_call (λ _ : unit, Listener s 3).
  eapply triple_bind.
  { apply (call_triple _ _ (λ r, Accepted s r.1)); [intros r; cbn; by rewrite decide_True|apply broken_failed]. }
  intros [conn addr]. cbn [fst]. do 2 step_call (λ _ : unit, Connected conn). apply start_ssh_dialogue.
Qed.

Lemma tcp_connect_dialogue c : triple (λ q, q = Start) (tcp_connect c) (λ l q, q = Ready l) failed.
Proof.
  unfold tcp_connect. eapply triple_bind; [apply create_connection_dialogue|]. intros s.
  step_call (λ _ : pystr, Connected s). do 2 step_call (λ _ : Z, Connected s). step_call (λ _ : pystr, Connected s).
  apply (triple_bind dialogue _ _ (λ _ q, q = Ready (Socket s))).
  - unfold tcp_send. step_call (λ _ : pystr + Z, Ready (Socket s)). destruct a3 as [x|z].
    + apply (call_triple _ _ (λ _, Ready (Socket s))); [done|apply broken_failed].
    + apply (triple_ret dialogue tt (λ _ q, q = Ready (Socket s))).
  - intros []. apply (triple_ret dialogue (Socket s) (λ l q, q = Ready l)).
Qed.

(** ** Properties *)

(** The link of the console, from its options. *)
Definition open_link (ssh : bool) (listen : option (pystr * Z)) (c : ssh_client) (t : tcp_client) : M link :=
  if ssh then match listen with Some (host, port) => ssh_listen c host port | None => ssh_connect c end
  else tcp_connect t.

(** C13: However the resolver, the sockets and paramiko answer: the addresses are tried in
    the resolver's order, each with a socket of its own that is closed before the
    next one, and none after one has connected; a listening socket is closed once a
    server has called; an SSH session is opened on the connected socket only after
    authentication, and its channel is for the netconf subsystem.  The program goes on
    exactly when the link is ready; it fails with all sockets closed, or after a call
    raised. *)
Theorem open_link_dialogue ssh listen c t :
  triple (λ q, q = Start) (open_link ssh listen c t) (λ l q, q = Ready l) failed.
Proof.
  unfold open_link. destruct ssh; [destruct listen as [[host port]|]|].
  - apply ssh_listen_dialogue.
  - eapply triple_bind; [apply create_connection_dialogue|]. intros s. apply start_ssh_dialogue.
  - apply tcp_connect_dialogue.
Qed.
End connections.

(** A resolver that answers with no address makes the program read a variable that
    it has not set. *)
Lemma no_addresses (env : environment effect) host port :
  env _ [] (EGetAddrInfo host port AF_UNSPEC SOCK_STREAM) = Ok [] →
  (create_connection env host port []).1 = Raise UnboundLocalError.
Proof. intros Hr. unfold create_connection, call, act, mbind, PyM_bind. by rewrite Hr. Qed.
