(* ===== verification/Links.v ===== *)
(** * The sending side of a link: confd-sync-py/app/netconf_console.py, lines 62 to 116 and 303 to 385

    What [NetconfSSH] and [NetconfTCP] promise to the code above them, as a class of
    operations with a class of laws, and both implementations. *)

From Stdlib Require Import Ascii String.
From S2P Require Import Prelude PyStr NetconfFraming.

(** ** The interface *)

(** The methods of a transport that send: [_send], [_send_eom] and [_flush], its
    [framing] attribute, and the bytes that the server has been sent. *)
Class Link (C : Type) := {
  l_send : pybuf → C → res unit * C;
  l_send_eom : C → res unit * C;
  l_flush : C → res unit * C;
  l_framing : C → Z;
  l_set_framing : Z → C → C;
  wire : C → pystr }.

Section link.
Context {C : Type} `{Link C}.

(** [NetconfSSHLikeTransport.send] *)
Definition link_send (request : pybuf) (c : C) : res unit * C :=
  if decide (l_framing c = FRAMING_1_1) then
    match str_data request with
    | Raise e => (Raise e, c)
    | Ok text => l_send (BStr (chunk (buf_len request) text)) c
    end
  else l_send request c.

(** [send_msg] *)
Definition link_send_msg (request : pybuf) (c : C) : res unit * C :=
  match link_send request c with
  | (Raise e, c') => (Raise e, c')
  | (Ok _, c') => l_send_eom c'
  end.

(** What a message is on the wire. *)
Definition on_wire (fr : Z) (text : pystr) : pystr := framed fr text ++ _get_eom fr.
End link.

(** The laws: on a link that is ready, a text message arrives as a whole, framed, and
    the link is ready again; the framing is an attribute of its own. *)
Class LinkLaws (C : Type) `{Link C} := {
  ready : C → Prop;
  ready_set_framing fr c : ready c → ready (l_set_framing fr c);
  framing_set fr c : l_framing (l_set_framing fr c) = fr;
  wire_set fr c : wire (l_set_framing fr c) = wire c;
  l_send_ends b c : (l_send b c).1 ≠ Raise OutOfFuel;
  l_send_eom_ends c : (l_send_eom c).1 ≠ Raise OutOfFuel;
  l_flush_ends c : (l_flush c).1 ≠ Raise OutOfFuel;
  send_msg_law m c : ready c →
    ∃ c', link_send_msg (BStr m) c = (Ok tt, c') ∧ ready c' ∧ l_framing c' = l_framing c ∧
      wire c' = wire c ++ on_wire (l_framing c) m }.

(** ** SSH: text is saved until a block is full or the message ends *)

#[export] Instance ssh_link : Link sender := {|
  l_send := _send;
  l_send_eom := _send_eom;
  l_flush := _flush;
  l_framing := s_framing;
  l_set_framing fr s := {| saved := saved s; s_framing := fr; chan_up := chan_up s; sent := sent s |};
  wire s := concat (raw <$> sent s) |}.

(** The base class's methods on this transport are those of NetconfFraming. *)
Lemma ssh_send request (s : sender) : link_send request s = send request s.
Proof. reflexivity. Qed.
Lemma ssh_send_msg request (s : sender) : link_send_msg request s = send_msg request s.
Proof. reflexivity. Qed.

#[export] Program Instance ssh_link_laws : LinkLaws sender := {|
  ready s := sender_ok s ∧ saved s = BStr [] |}.
Next Obligation. by intros fr s [[? ?] ?]. Qed.
Next Obligation. done. Qed.
Next Obligation. done. Qed.
Next Obligation.
  intros b s. cbn [l_send ssh_link]. unfold _send.
  assert (∀ r : res pybuf, r ≠ Raise OutOfFuel → (match r with
    | Ok buf => if buf_len buf <? BUFSIZ then (Ok tt, set_saved buf s)
                else let '(block, rest) := buf_split_at BUFSIZ buf in (Ok tt, sendall block rest (saved s) s)
    | Raise e => (Raise e, s) end).1 ≠ Raise OutOfFuel) as Hr.
  { intros [buf|e] He; [|cbn; congruence]. destruct (buf_len buf <? BUFSIZ); [done|]. by destruct (buf_split_at BUFSIZ buf). }
  apply Hr. case_decide; [done|]. by destruct (saved s), b.
Qed.
Next Obligation. intros s. cbn. unfold _send_eom. by destruct (saved s). Qed.
Next Obligation. done. Qed.
Next Obligation.
  intros m s [Hok Hsaved]. destruct (send_all_str [m] s Hok) as (s1 & Hs1 & Hok1 & Hf1 & Ha1).
  cbn [send_all] in Hs1. destruct (send (BStr m) s) as [[[]|] s1'] eqn:Hs; [|discriminate]. injection Hs1 as ->.
  destruct (_send_eom_str s1 Hok1) as (s2 & Hs2 & Hok2 & Hf2 & Hsv2 & Hw). exists s2. split_and!; [|done|done| |].
  - unfold link_send_msg. rewrite ssh_send, Hs. exact Hs2.
  - cbn. congruence.
  - cbn [wire ssh_link]. rewrite Hw, Ha1, Hf1. unfold accepted, on_wire. rewrite Hsaved. cbn.
    by rewrite !app_nil_r, app_assoc.
Qed.

Lemma link_send_ends {C : Type} `{LinkLaws C} b (c : C) : (link_send b c).1 ≠ Raise OutOfFuel.
Proof.
  unfold link_send. case_decide; [|apply l_send_ends]. destruct (str_data b) as [t|e] eqn:Ht; [apply l_send_ends|].
  destruct b; cbn in Ht; [done|]. destruct (utf8_valid s); [done|]. by injection Ht as <-.
Qed.

Lemma link_send_msg_ends {C : Type} `{LinkLaws C} b (c : C) : (link_send_msg b c).1 ≠ Raise OutOfFuel.
Proof.
  unfold link_send_msg. pose proof (link_send_ends b c). destruct (link_send b c) as [[[]|e] c']; [apply l_send_eom_ends|done].
Qed.

(** ** TCP: every call goes to the socket *)

(** [NetconfTCP]: the framing, how the next calls of [sock.send] behave (take some of
    the bytes, or raise [socket.error]; past the list they take everything) and the
    bytes taken so far.  The number of bytes taken is not looked at. *)
Record tcp := Tcp { tcp_framing : Z; accepts : list (option nat); tcp_sent : pystr }.

Definition tcp_send (buf : pybuf) (c : tcp) : res unit * tcp :=
  (Ok tt, match accepts c with
          | [] => Tcp (tcp_framing c) [] (tcp_sent c ++ raw (bin_data buf))
          | Some k :: l => Tcp (tcp_framing c) l (tcp_sent c ++ take k (raw (bin_data buf)))
          | None :: l => Tcp (tcp_framing c) l (tcp_sent c)
          end).

Definition tcp_send_eom (c : tcp) : res unit * tcp := tcp_send (BStr (_get_eom (tcp_framing c))) c.

#[export] Instance tcp_link : Link tcp := {|
  l_send := tcp_send;
  l_send_eom := tcp_send_eom;
  l_flush c := (Ok tt, c);
  l_framing := tcp_framing;
  l_set_framing fr c := Tcp fr (accepts c) (tcp_sent c);
  wire := tcp_sent |}.

#[export] Program Instance tcp_link_laws : LinkLaws tcp := {| ready c := accepts c = [] |}.
Next Obligation. done. Qed.
Next Obligation. done. Qed.
Next Obligation. done. Qed.
Next Obligation. done. Qed.
Next Obligation. done. Qed.
Next Obligation. done. Qed.
Next Obligation.
  intros m [fr acc s] Ha. cbn in Ha. subst acc. exists (Tcp fr [] ((s ++ framed fr m) ++ _get_eom fr)). split_and!; try done.
  - unfold link_send_msg, link_send, framed. cbn -[decide FRAMING_1_1]. by case_decide.
  - cbn. unfold on_wire. by rewrite app_assoc.
Qed.

(** When the socket takes a part of the bytes, the rest of them is lost. *)
Lemma tcp_partial_send :
  wire (tcp_send (BStr (py"<rpc/>")) (Tcp FRAMING_1_0 [Some 3] [])).2 = py"<rp".
Proof. reflexivity. Qed.
