(* ===== verification/Console.v ===== *)
(** * The console: confd-sync-py/app/netconf_console.py, [main] and its helpers

    The session that [main] holds over a link: the exchange of hellos, the request,
    the loop that prints replies as they arrive, through xmllint or as they are, and
    the end of the session.  What the program cannot control is an argument: the
    clock, the signals, the xmllint processes, the files, and the XML parser; the
    server is the list of events of the transport. *)

From Stdlib Require Import Ascii String.
From S2P Require Import Prelude PyStr Json Xml NetconfFraming NetconfMsgs Links.
From S2P Require Trace Connections.

(** ** Times *)

Module Calendar.
Open Scope Z_scope.

Definition is_leap (y : Z) : bool :=
  (y mod 4 =? 0) && (negb (y mod 100 =? 0) || (y mod 400 =? 0)).

Definition month_days (y m : Z) : Z :=
  if decide (m = 2) then (if is_leap y then 29 else 28)
  else if decide (m ∈ [4; 6; 9; 11]) then 30 else 31.

(** [datetime.date(y, m, d)], which fails for a day that does not exist. *)
Definition date_ok (y m d : Z) : bool :=
  (1 <=? y) && (1 <=? m) && (m <=? 12) && (1 <=? d) && (d <=? month_days y m).

Definition days_before_year (y : Z) : Z := (y - 1) * 365 + (y - 1) / 4 - (y - 1) / 100 + (y - 1) / 400.
Definition days_before_month (y m : Z) : Z :=
  foldr Z.add 0 (month_days y <$> (Z.of_nat <$> seq 1 (Z.to_nat (m - 1)))).
Definition toordinal (y m d : Z) : Z := days_before_year y + days_before_month y m + d.
Definition EPOCH : Z := 719163.

(** [calendar.timegm] *)
Definition timegm (y m d h mi s : Z) : Z :=
  let days := toordinal y m 1 - EPOCH + d - 1 in
  ((days * 24 + h) * 60 + mi) * 60 + s.

(** A field of one or two digits in a range. *)
Definition field (lo hi : Z) (s : pystr) : option Z :=
  if decide (Forall is_digit s ∧ (length s = 1 ∨ length s = 2)%nat) then
    z ← py_int s; if (lo <=? z) && (z <=? hi) then Some z else None
  else None.

Definition day_field (s : pystr) : option Z :=
  match s with " "%char :: c :: [] => field 1 9 [c] | _ => field 1 31 s end.

(** [time.strptime(s, '%Y-%m-%dT%H:%M:%S')], then [calendar.timegm]; letters match in
    either case. *)
Definition parse_time (s : pystr) : res Z :=
  let t := (λ c, if decide (c = "t"%char) then "T"%char else c) <$> s in
  match split1 "-" t with
  | [y; t] =>
      match split1 "-" t with
      | [m; t] =>
          match split1 "T" t with
          | [d; t] =>
              match split1 ":" t with
              | [h; t] =>
                  match split1 ":" t with
                  | [mi; sec] =>
                      match (if decide (Forall is_digit y ∧ length y = 4%nat) then py_int y else None),
                            field 1 12 m, day_field d, field 0 23 h, field 0 59 mi, field 0 61 sec with
                      | Some y, Some m, Some d, Some h, Some mi, Some sec =>
                          if date_ok y m d then Ok (timegm y m d h mi sec) else Raise ValueError
                      | _, _, _, _, _, _ => Raise ValueError
                      end
                  | _ => Raise ValueError
                  end
              | _ => Raise ValueError
              end
          | _ => Raise ValueError
          end
      | _ => Raise ValueError
      end
  | _ => Raise ValueError
  end.

Lemma parse_time_examples :
  parse_time (py"1970-01-01T00:00:00") = Ok 0 ∧
  parse_time (py"2017-01-10T12:05:21") = Ok 1484049921 ∧
  parse_time (py"2024-02-29t00:00:61") = Ok 1709164861 ∧
  parse_time (py"2023-02-29T00:00:00") = Raise ValueError ∧
  parse_time (py"2017-01-10T12:05") = Raise ValueError.
Proof. vm_compute. done. Qed.
End Calendar.

(** ** The search for the end of a replay *)

(** The texts after a match of [<(.*:)?name] in a line. *)
Fixpoint after_tag_go (seen : pystr) (name line : pystr) : list pystr :=
  (if startswith line name && match seen with
      | "<"%char :: _ => true
      | ":"%char :: before => bool_decide ("<"%char ∈ before)
      | _ => false
      end
   then [drop (length name) line] else []) ++
  match line with [] => [] | c :: line' => after_tag_go (c :: seen) name line' end.
Definition after_tag (name line : pystr) : list pystr := after_tag_go [] name line.

(** [re.search('<(.*:)?notification.*<(.*:)?replayComplete', text)] *)
Definition replay_completed (text : pystr) : bool :=
  existsb (λ line, existsb (λ rest, negb (bool_decide (after_tag (py"replayComplete") rest = [])))
    (after_tag (py"notification") line)) (split "010" text).

(** ** The world of a session *)

(** What the program does, in order: text on its two output streams, xmllint
    processes, the text fed to them, and the ends of streams and of the link. *)
Inductive event :=
  | Out (s : pystr)
  | Err (s : pystr)
  | CloseOut
  | CloseErr
  | Spawn (cmd : pystr)
  | Feed (s : pystr)
  | EndFeed
  | Wait (returncode : Z)
  | CloseLink.

#[export] Instance event_eq_dec : EqDecision event.
Proof. solve_decision. Defined.

(** A process: after how many writes and closes its pipe is broken, and how it ends. *)
Record proc := Proc { breaks : option nat; returncode : Z }.

(** The link in both directions, the lines of the standard input ([None] when it has
    been closed), whether the standard output is open, how often the clock was read,
    a chunk was waited for and a process was made, the uses of the pipe of the last
    process, and what was done. *)
Record world (C : Type) := World {
  rx : transport; tx : C; trace : bool; stdin : option (list pystr); out_open : bool;
  clock_reads : nat; recvs : nat; procs : nat; pipe_uses : nat; log : list event }.
Arguments World {C} _ _ _ _ _ _ _ _ _ _.
Arguments rx {C}. Arguments tx {C}. Arguments trace {C}. Arguments stdin {C}. Arguments out_open {C}.
Arguments clock_reads {C}. Arguments recvs {C}. Arguments procs {C}. Arguments pipe_uses {C}. Arguments log {C}.

(** What the surroundings do. *)
Record surroundings := Surroundings {
  now : nat → Z; interrupted : nat → bool; xmllint_proc : nat → proc;
  parseString : pystr → res (option dom); files : pystr → res pystr; have_paramiko : bool; pid : Z }.

(** Where replies are printed. *)
Inductive fd := Stdout | Pipe.

#[export] Instance fd_eq_dec : EqDecision fd.
Proof. solve_decision. Defined.

Section console.
Context {C : Type} `{Link C} (env : surroundings).

Abbreviation M := (PyM (world C)).

Definition set_rx (t : transport) (w : world C) : world C :=
  World t (tx w) (trace w) (stdin w) (out_open w) (clock_reads w) (recvs w) (procs w) (pipe_uses w) (log w).
Definition set_tx (c : C) (w : world C) : world C :=
  World (rx w) c (trace w) (stdin w) (out_open w) (clock_reads w) (recvs w) (procs w) (pipe_uses w) (log w).
Definition set_trace (b : bool) (w : world C) : world C :=
  World (rx w) (tx w) b (stdin w) (out_open w) (clock_reads w) (recvs w) (procs w) (pipe_uses w) (log w).
Definition set_stdin (l : option (list pystr)) (w : world C) : world C :=
  World (rx w) (tx w) (trace w) l (out_open w) (clock_reads w) (recvs w) (procs w) (pipe_uses w) (log w).
Definition close_out (w : world C) : world C :=
  World (rx w) (tx w) (trace w) (stdin w) false (clock_reads w) (recvs w) (procs w) (pipe_uses w) (log w ++ [CloseOut]).
Definition count_clock (w : world C) : world C :=
  World (rx w) (tx w) (trace w) (stdin w) (out_open w) (S (clock_reads w)) (recvs w) (procs w) (pipe_uses w) (log w).
Definition count_recv (w : world C) : world C :=
  World (rx w) (tx w) (trace w) (stdin w) (out_open w) (clock_reads w) (S (recvs w)) (procs w) (pipe_uses w) (log w).
Definition new_proc (cmd : pystr) (w : world C) : world C :=
  World (rx w) (tx w) (trace w) (stdin w) (out_open w) (clock_reads w) (recvs w) (S (procs w)) 0 (log w ++ [Spawn cmd]).
Definition count_use (w : world C) : world C :=
  World (rx w) (tx w) (trace w) (stdin w) (out_open w) (clock_reads w) (recvs w) (procs w) (S (pipe_uses w)) (log w).
Definition add_log (e : event) (w : world C) : world C :=
  World (rx w) (tx w) (trace w) (stdin w) (out_open w) (clock_reads w) (recvs w) (procs w) (pipe_uses w) (log w ++ [e]).

(** *** Output *)

Definition emit (e : event) : M unit := modify (add_log e).

(** [sys.stdout.write] *)
Definition write_out (s : pystr) : M unit :=
  w ← get; if out_open w then emit (Out s) else raise ValueError.

Definition print (s : pystr) : M unit := write_out (s ++ nl).

(** The process that was made last. *)
Definition the_proc (w : world C) : proc := xmllint_proc env (procs w - 1).

Definition use_pipe : M unit :=
  w ← get;
  match breaks (the_proc w) with
  | Some k => if k <=? pipe_uses w then raise BrokenPipeError else put (count_use w)
  | None => put (count_use w)
  end.

Definition xmllint_missing : pystr := py"Problem with xmllint executable. Is it in PATH?".

(** The writing of [write_fd], and its except clause for every exception. *)
Definition write_to (f : fd) (data : pystr) : M unit :=
  match f with
  | Stdout => write_out data
  | Pipe => _ ← use_pipe; emit (Feed data)
  end.

Definition write_fd (f : fd) (data : pystr) : M unit := λ w,
  match write_to f data w with
  | (Raise _, w') => (Raise (StderrError xmllint_missing), w')
  | r => r
  end.

Definition close_fd (f : fd) : M unit :=
  match f with
  | Stdout => modify close_out
  | Pipe => _ ← use_pipe; emit EndFeed
  end.

(** *** The link *)

Definition on_tx (f : C → res unit * C) : M unit := λ w, let '(r, c) := f (tx w) in (r, set_tx c w).

(** [c.send_msg]; the message may be [None], which has no length. *)
Definition send_msg (m : option pystr) : M unit :=
  match m with
  | Some m => on_tx (link_send_msg (BStr m))
  | None => raise TypeError
  end.

(** [c.framing = FRAMING_1_1] *)
Definition set_framing (fr : Z) : M unit :=
  modify (λ w, set_tx (l_set_framing fr (tx w))
    (set_rx {| buf_bytes := buf_bytes (rx w); framing := fr; eom_found := eom_found (rx w);
               timeout := timeout (rx w); incoming := incoming (rx w) |} w)).

(** [_recv] writes every segment that it reads, decoded on its own, when the trace is on.
    No one handles the exception of a segment that is not text. *)
Fixpoint write_segments (l : list recv_event) : M unit :=
  match l with
  | [] => mret tt
  | Quiet :: l' => write_segments l'
  | Data s :: l' => t ← lift (str_data (BBytes s)); _ ← write_out t; write_segments l'
  end.

Definition receive {A} (f : transport → res A * transport) : M A := λ w,
  let '(r, t) := f (rx w) in
  let segments := take (length (incoming (rx w)) - length (incoming t)) (incoming (rx w)) in
  (_ ← (if trace w then write_segments segments else mret tt); lift r) (set_rx t w).

Definition close_link : M unit := emit CloseLink.

(** [c.recv_chunk(1)] in its try block: [None] after a timeout; Ctrl-C ends the program. *)
Definition next_chunk : M (option (Z * pystr)) := λ w,
  let w' := count_recv w in
  if interrupted env (recvs w) then (_ ← close_link; raise (SystemExit 0)) w'
  else match receive (recv_chunk (Some 1%Z)) w' with
       | (Ok c, w'') => (Ok (Some c), w'')
       | (Raise SocketTimeout, w'') => (Ok None, w'')
       | (Raise e, w'') => (Raise e, w'')
       end.

(** *** The standard input and files *)

Definition readline : M pystr :=
  w ← get;
  match stdin w with
  | None => raise ValueError
  | Some [] => mret []
  | Some (l :: ls) => _ ← put (set_stdin (Some ls) w); mret l
  end.

Fixpoint read_lines (fuel : nat) (msg : pystr) : M pystr :=
  match fuel with
  | 0 => raise OutOfFuel
  | S k => ln ← readline; if decide (ln = nl) then mret msg else read_lines k (msg ++ ln)
  end.

Definition read_msg (fuel : nat) : M pystr :=
  _ ← print (nl ++ py"* Enter a NETCONF operation, end with an empty line");
  msg ← read_lines fuel (fmt (xq"<?xml version=`1.0` encoding=`UTF-8`?>
    <rpc xmlns=`{0}` message-id=`2`>
    ") [NC_NS]);
  mret (msg ++ py"</rpc>" ++ nl).

(** [get_file(name).read()]: text from the standard input, bytes from a file. *)
Definition get_file (w : world C) (name : pystr) : res pybuf :=
  if decide (name = py"-") then
    match stdin w with Some ls => Ok (BStr (concat ls)) | None => Raise ValueError end
  else BBytes <$> files env name.

(** What [f.read(BUFSIZ)] returns until the end of a file; [n] bounds the number of blocks. *)
Fixpoint blocks (n : nat) (contents : pybuf) : list pybuf :=
  match n with
  | 0 => []
  | S k => if decide (raw contents = []) then []
           else let '(b, rest) := buf_split_at BUFSIZ contents in b :: blocks k rest
  end.

(** ** The session *)

(** What was asked for: what [select_request] chose, with the contents of a file. *)
Inductive task :=
  | Commands (contents : pybuf)
  | Payload (contents : pybuf)
  | Request (m : option pystr).

Section session.
Context (o : opts) (fuel : nat).

(** *** Hellos *)

(** The versions that are advertised. *)
Definition advertised (t : task) : list pystr :=
  versions (match t with Commands _ => true | _ => false end) (version o).

(** The exchange of hellos; it returns the text of the server's. *)
Definition hello_exchange (t : task) : M pystr :=
  let vs := advertised t in
  _ ← (match t with Commands _ => mret tt | _ => send_msg (Some (hello_msg vs)) end);
  hello_reply ← receive (recv_msg None);
  d ← lift (parseString env hello_reply);
  fr ← lift (negotiate vs d);
  _ ← (if decide (fr = FRAMING_1_1) then set_framing fr else mret tt);
  mret hello_reply.

(** *** The request from a file *)

Fixpoint send_each (raw_send : bool) (l : list pybuf) : M unit :=
  match l with
  | [] => mret tt
  | b :: l' => _ ← on_tx (if raw_send then l_send b else link_send b); send_each raw_send l'
  end.

Definition task_parts (t : task) : list pybuf :=
  match t with
  | Commands c => (BStr <$> rpc_head o) ++ blocks (length (raw c)) c ++ (BStr <$> rpc_tail o)
  | Payload c => BStr rpc_open :: (BStr <$> rpc_head o) ++ blocks (length (raw c)) c ++ (BStr <$> rpc_tail o) ++ [BStr (py"</rpc>")]
  | Request _ => []
  end.

(** Sends what comes from a file; the number of replies to wait for, [-1] for all. *)
Definition send_task (t : task) : M Z :=
  match t with
  | Commands _ => _ ← send_each true (task_parts t); _ ← on_tx l_flush; mret (-1)%Z
  | Payload _ => _ ← send_each false (task_parts t); _ ← on_tx l_send_eom; mret 1%Z
  | Request _ => mret (iter o)
  end.

Definition subscribes : bool :=
  bool_decide (create_subscription o ≠ None ∨ establish_subscription o ≠ None).

Definition is_request (t : task) : bool := match t with Request _ => true | _ => false end.

(** [--get-schema] in its default style has a session of its own. *)
Definition do_get_schema (style : pystr) : bool := bool_decide (get_schema o ≠ None ∧ style = py"default").

(** The style after the request was sent, before the default is pretty. *)
Definition style_sent (t : task) : pystr :=
  if decide (is_request t = true ∧ (subscribes || interactive o = true) ∧ style o = py"default") then py"all" else style o.
Definition final_style (s : pystr) : pystr := if decide (s = py"default") then py"pretty" else s.

Definition noaaa : pystr :=
  py"|awk ' BEGIN { del=0} /<(aaa|nacm)/ {del=1} /<\/(aaa|nacm)>/ {del=0;next} del == 1 {next} {print}'".
Definition xmllint (style : pystr) : pystr :=
  py"xmllint --format - " ++ (if decide (style = py"noaaa") then noaaa else []).

(** When a subscription ends; zero for never. *)
Definition stop_at : res Z :=
  if decide (subscribes = true ∧ stop_time o ≠ []) then Calendar.parse_time (stop_time o) else Ok 0%Z.

(** *** The loop that prints replies *)

(** The variables of the loop. *)
Record loop := Loop {
  n : Z; do_print : bool; is_closed : bool; chunk_text : pystr; msg : option pystr;
  replay_complete : bool; latest_msg : pystr; has_received_data : bool }.

Definition set_chunk (n' : Z) (c : pystr) (s : loop) : loop :=
  Loop n' (do_print s) (is_closed s) c (msg s) (replay_complete s) (latest_msg s) (has_received_data s).
Definition add_latest (s : loop) : loop :=
  Loop (n s) (do_print s) (is_closed s) (chunk_text s) (msg s) (replay_complete s) (latest_msg s ++ chunk_text s) (has_received_data s).
Definition set_closed (s : loop) : loop :=
  Loop (n s) (do_print s) true (chunk_text s) (msg s) (replay_complete s) (latest_msg s) (has_received_data s).
Definition set_msg (m : option pystr) (s : loop) : loop :=
  Loop (n s) (do_print s) (is_closed s) (chunk_text s) m (replay_complete s) (latest_msg s) (has_received_data s).
Definition set_do_print (b : bool) (s : loop) : loop :=
  Loop (n s) b (is_closed s) (chunk_text s) (msg s) (replay_complete s) (latest_msg s) (has_received_data s).

Section replies.
Context (t : task) (hello_reply : pystr) (style : pystr) (stop : Z).

(** The end of a message. *)
Definition full_message (s : loop) : loop :=
  Loop (n s) (do_print s) (is_closed s) (chunk_text s) (msg s)
    (replay_complete s || (negb (stop =? 0)%Z && replay_completed (latest_msg s))) [] (has_received_data s).

Definition print_chunk (f : fd) (s : loop) : M unit :=
  if do_print s then write_fd f (chunk_text s) else mret tt.

(** The inner loop: the chunks of one message, or the hello; it returns how many there
    were. *)
Fixpoint receive_reply (fuel : nat) (f : fd) (nchunks : nat) (s : loop) : M (nat * loop) :=
  match fuel with
  | 0 => raise OutOfFuel
  | S k =>
      if hello o then
        let s := if decide (hello_reply = []) then s else set_chunk 1 hello_reply s in
        _ ← print_chunk f s; mret (S nchunks, full_message s)
      else
        r ← next_chunk;
        match r with
        | None => receive_reply k f nchunks (add_latest s)
        | Some (code, c) =>
            let s := add_latest (set_chunk (n s) c s) in
            if (code <? 0)%Z then
              _ ← print_chunk f s;
              if decide (nchunks = 0) then mret (0, set_closed s)
              else raise (StderrError (if decide (code = (-1)%Z) then py"unexpected EOF in NETCONF transport"
                                       else py"NETCONF transport framing error"))
            else
              _ ← print_chunk f s;
              if decide (code = 0%Z) then mret (S nchunks, full_message s) else receive_reply k f (S nchunks) s
        end
  end.

Definition pretty (s : loop) : bool := do_print s && bool_decide (style ∈ [py"pretty"; py"all"; py"noaaa"]).

(** After [p.wait()]: how xmllint ended. *)
Definition check_xmllint (nchunks : nat) (s : loop) (rc : Z) : M unit :=
  if 0 <? nchunks then
    if decide (rc = 127%Z) then raise (StderrError xmllint_missing)
    else if decide (rc ≠ 0%Z) then raise (StderrError (py"xmllint failed. Is the returned XML ok?"))
    else mret tt
  else if has_received_data s then mret tt
  else raise (StderrError (py"No data received in the reply.")).

(** One round of the outer loop. *)
Definition one_reply (s : loop) : M loop :=
  let piped := pretty s in
  let f := if piped then Pipe else Stdout in
  _ ← (if piped then modify (new_proc (xmllint style)) else mret tt);
  s ← (if interactive o then m ← read_msg fuel; mret (set_msg (Some m) s) else mret s);
  _ ← match msg s with Some m => send_msg (Some m) | None => mret tt end;
  '(nchunks, s) ← receive_reply fuel f 0 s;
  _ ← (if decide (style ≠ py"raw") then close_fd f else mret tt);
  s ← (if piped then
         w ← get;
         let rc := returncode (the_proc w) in
         _ ← emit (Wait rc);
         _ ← check_xmllint nchunks s rc;
         mret (if decide (style ∈ [py"all"; py"raw"; py"plain"]) then s else set_do_print false s)
       else mret s);
  mret (Loop (n s - 1) (do_print s) (is_closed s) (chunk_text s) (if subscribes then None else msg s)
          (replay_complete s) (latest_msg s) true).

(** The condition of the outer loop; the clock is only read when it matters. *)
Definition goes_on (schema : bool) (s : loop) : M bool :=
  if is_closed s || (bool_decide (n s = 0%Z) && negb (interactive o)) || schema then mret false
  else if (stop =? 0)%Z || negb (replay_complete s) then mret true
  else w ← get; _ ← put (count_clock w); mret (now env (clock_reads w) <? stop)%Z.

Fixpoint replies (k : nat) (schema : bool) (s : loop) : M loop :=
  match k with
  | 0 => raise OutOfFuel
  | S k' =>
      b ← goes_on schema s;
      if (b : bool) then s' ← one_reply s; replies k' schema s' else mret s
  end.
End replies.

(** *** The end of the session *)

Definition get_schema_reply (m : option pystr) : M unit :=
  _ ← send_msg m;
  schema_reply ← receive (recv_msg None);
  d ← lift (parseString env schema_reply);
  match d with
  | None => emit (Err (py"Couldn't parse the RPC reply"))
  | Some d =>
      let d := strip d in
      match (if is_elem NC_NS (py"rpc-reply") d then firstChild d else None) with
      | None => emit (Err (py"Didn't get rpc-reply"))
      | Some (DomElem _ name (c :: _)) =>
          if decide (name = py"data") then
            match c with
            | DomText v | DomOther v => write_fd Stdout v
            | DomElem _ _ _ => raise (StderrError xmllint_missing)
            end
          else emit (Err (py"Didn't get data in the reply"))
      | Some _ => emit (Err (py"Didn't get data in the reply"))
      end
  end.

Definition close_session (closed : bool) : M unit :=
  _ ← (if closed then mret tt
       else _ ← send_msg (Some close_msg); _ ← receive (recv_msg None); mret tt);
  _ ← close_link;
  _ ← modify close_out;
  emit CloseErr.

Definition first_message (t : task) : option pystr := match t with Request m => m | _ => None end.

(** What [main] does on a link that is up. *)
Definition session (t : task) : M unit :=
  hello_reply ← hello_exchange t;
  n ← send_task t;
  let n := if is_request t && (subscribes || interactive o) then (-1)%Z else n in
  let style := final_style (style_sent t) in
  let schema := do_get_schema (style_sent t) in
  let n := if hello o && bool_decide (style = py"raw") then 0%Z else n in
  stop ← lift stop_at;
  s ← replies hello_reply style stop fuel schema
        (Loop n (negb (bool_decide (style = py"raw"))) false [] (first_message t) false [] false);
  _ ← (if schema then get_schema_reply (msg s) else mret tt);
  close_session (is_closed s).

(** *** [main] *)

(** From the options to what is to be done; files are opened before the link is. *)
Definition prepare (w : world C) (filename : option pystr) : res task :=
  r ← select_request (get_file w) filename o;
  match r with
  | CommandFile name => Commands <$> get_file w name
  | PayloadFile name => Payload <$> get_file w name
  | Message m => Ok (Request (Some m))
  | HelloOnly | Interactive => Ok (Request None)
  | NoCommand => Raise (SystemExit 2)
  end.

(** Reading the subtree filter from the standard input closes it. *)
Definition closes_stdin (filename : option pystr) : bool :=
  bool_decide ((filename = None ∨ filename = Some []) ∧ get_ o = false ∧ getConfig o = None ∧
    getData o ≠ None ∧ subtree_filter o = py"-").
Definition uses_stdin (filename : option pystr) (w : world C) : option (list pystr) :=
  if closes_stdin filename then None
  else match select_request (get_file w) filename o with
       | Ok (CommandFile name) | Ok (PayloadFile name) => if decide (name = py"-") then Some [] else stdin w
       | _ => stdin w
       end.

(** [connect]: opening the link prints lines and may fail. *)
Fixpoint print_lines (l : list pystr) : M unit :=
  match l with [] => mret tt | s :: l' => _ ← print s; print_lines l' end.

Definition main (args : list pystr) (connect : list pystr * res unit) : M unit :=
  _ ← (if debug o then print (fmt (py"DEBUG: pid: {0}") [str_Z (pid env)]) else mret tt);
  let filename := match args with [f] => Some f | _ => None end in
  w ← get;
  t ← lift (prepare w filename);
  _ ← modify (set_stdin (uses_stdin filename w));
  _ ← lift (if listen o && bool_decide (proto o ≠ py"ssh") then Raise (SystemExit 2) else Ok tt);
  _ ← lift (validate_options (have_paramiko env) o);
  _ ← modify (set_trace (bool_decide (style o = py"raw")));
  _ ← print_lines connect.1;
  _ ← lift connect.2;
  session t.

(** The program: the exceptions of its own are printed, and its exit code. *)
Definition run (args : list pystr) (connect : list pystr * res unit) : M Z := λ w,
  match main args connect w with
  | (Ok _, w') => (Ok 0%Z, w')
  | (Raise (StdoutError m), w') => (_ ← print m; mret 1%Z) w'
  | (Raise (StderrError m), w') => (_ ← emit (Err (m ++ nl)); mret 1%Z) w'
  | (Raise (SystemExit c), w') => (Ok c, w')
  | (Raise e, w') => (Raise e, w')
  end.
End session.
End console.

(** ** The program with its link *)

(** The lines that were printed while the link was opened. *)
Definition printed_lines (h : list (Trace.item Connections.effect)) : list pystr :=
  omap (λ i : Trace.item Connections.effect,
    match i with Trace.Item e _ => match e with Connections.EPrint t => Some t | _ => None end end) h.

(** The transport object of the options, and its [connect] or [listen]. *)
Definition connect (conn_env : Trace.environment Connections.effect) (o : opts) : list pystr * res unit :=
  let '(r, h) := Connections.open_link conn_env (bool_decide (proto o = py"ssh"))
    (if listen o then Some (listen_address o, listen_port o) else None)
    (Connections.SshClient (host o) (port o) (username o) (password o) [] (privKeyFile o) (privKeyType o))
    (Connections.TcpClient (host o) (port o) (username o) (groups o) (supgroups o)) [] in
  (printed_lines h, match r with Ok _ => Ok tt | Raise e => Raise e end).

(** The program: a new transport and the two output streams. *)
Definition start {C} (inc : list recv_event) (tx : C) (lines : list pystr) : world C :=
  World (__init__ inc) tx false (Some lines) true 0 0 0 0 [].

Definition program {C} `{Link C} (conn_env : Trace.environment Connections.effect) (env : surroundings)
    (o : opts) (fuel : nat) (args : list pystr) : PyM (world C) Z :=
  run env o fuel args (connect conn_env o).
