(* ===== verification/ConsoleEnds.v ===== *)
(** * The console ends

    What a receive call takes from the socket, the measure that bounds the loops of
    Console's session, and the theorem that the program ends. *)

From Stdlib Require Import Ascii String.
From S2P Require Import Prelude PyStr Json Xml Hoare NetconfFraming NetconfMsgs Links Console.

(** ** What a receive call takes from the socket *)

(** Every call that goes on makes this smaller. *)
Definition measure (t : transport) : nat :=
  2 * length (stream t) + length (incoming t) + (if eom_found t then 1 else 0).

Definition events_left (inc' inc : list recv_event) : Prop := ∃ pre, inc = pre ++ inc'.

Lemma events_left_refl inc : events_left inc inc.
Proof. by exists []. Qed.

Lemma events_left_trans a b c : events_left a b → events_left b c → events_left a c.
Proof. intros [p ->] [q ->]. exists (q ++ p). by rewrite app_assoc. Qed.

Lemma events_left_cons ev a b : events_left a b → events_left a (ev :: b).
Proof. intros [p ->]. by exists (ev :: p). Qed.

Lemma inc_data_app a b : inc_data (a ++ b) = inc_data a ++ inc_data b.
Proof. unfold inc_data. by rewrite fmap_app, concat_app. Qed.

Lemma events_left_length a b :
  events_left a b → length a ≤ length b ∧ length (inc_data a) ≤ length (inc_data b).
Proof. intros [p ->]. rewrite inc_data_app, !length_app. lia. Qed.

#[local] Hint Resolve events_left_refl events_left_cons : core.

Lemma fill_left tmo n bytes inc r inc' :
  fill tmo n bytes inc = (r, inc') → events_left inc' inc ∧ (is_ok r = false → length inc' < length inc).
Proof.
  revert bytes; induction inc as [|[x|] inc IH]; intros bytes; rewrite fill_eq;
    destruct (n <=? Z.of_nat (length bytes))%Z; try (intros [= <- <-]; by split).
  - case_decide; [intros [= <- <-]; by split; auto|]. intros [Hl Hr]%IH. split; [by auto|]. cbn [length]. intros ?%Hr. lia.
  - destruct tmo; [intros [= <- <-]; split; [by auto|cbn; lia]|]. intros [Hl Hr]%IH. split; [by auto|]. cbn [length]. intros ?%Hr. lia.
Qed.

Lemma scan_size_end bytes i rest :
  scan_size bytes i = EndOfMessage rest → length rest < length bytes ∨ bytes = [].
Proof.
  unfold scan_size. destruct (12 <? i); [done|]. destruct (py_int _) as [z|]; [by destruct (_ || _)|].
  case_decide as Hf; [|done]. intros [= <-]. rewrite length_drop.
  destruct bytes as [|c [|c2 bytes]]; cbn [length] in *; [by right|left; lia..].
Qed.

Lemma read_size_left tmo bytes inc r inc' :
  read_size tmo bytes inc = (r, inc') →
  events_left inc' inc ∧
  match r with
  | Ok (EndOfMessage rest) => bytes ≠ [] → length (rest ++ inc_data inc') < length (bytes ++ inc_data inc)
  | Raise _ => length inc' < length inc
  | _ => True
  end.
Proof.
  revert bytes; induction inc as [|ev inc IH]; intros bytes; rewrite read_size_eq.
  1,2: destruct (find (drop 2 bytes) nl) as [i|];
    [intros [= <- <-]; split; [done|]; destruct (scan_size _ _) as [| rest | |] eqn:Hs; try done;
     intros Hb; apply scan_size_end in Hs as [?|?]; [rewrite !length_app; lia|done]|].
  - intros [= <- <-]. by split.
  - destruct ev as [x|].
    + case_decide as Hx; [intros [= <- <-]; by split; auto|]. intros [Hl Hr]%IH. split; [by auto|].
      destruct r as [[| | |]|]; try done; [|cbn [length]; lia].
      intros Hb. rewrite inc_data_cons, app_assoc. apply Hr. by destruct bytes.
    + destruct tmo; [intros [= <- <-]; split; [by auto|cbn; lia]|]. intros [Hl Hr]%IH. split; [by auto|].
      destruct r as [[| | |]|]; try done. cbn [length]. lia.
Qed.

(** What a call leaves: the events that follow, and a smaller measure. *)
Definition eats (t : transport) (r : res (Z * pystr)) (t' : transport) : Prop :=
  events_left (incoming t') (incoming t) ∧ framing t' = framing t ∧ measure t' ≤ measure t ∧
  match r with
  | Ok (code, _) => (0 ≤ code)%Z → measure t' < measure t
  | Raise SocketTimeout => measure t' < measure t
  | _ => True
  end.

Ltac eats_done :=
  intros [= <- <-]; cbn [leave buf_bytes incoming eom_found framing]; rewrite ?length_app, ?length_drop; cbn [length];
  split_and!; [done|done|lia|try done; try (intros; lia); case_match; try done; lia].

Lemma eats_1_0 t r t' : recv_chunk_bytes_framing_1_0 t = (r, t') → eats t r t'.
Proof.
  unfold recv_chunk_bytes_framing_1_0, eats, measure, stream. destruct (eom_found t) eqn:He.
  { eats_done. }
  pose proof (fill_data (timeout t) 6 (buf_bytes t) (incoming t)) as Hd.
  destruct (fill _ _ _ _) as [[[[] b]|e] inc] eqn:Hf; pose proof (fill_left _ _ _ _ _ _ Hf) as [Hl Hr].
  - apply fill_true_len in Hf. apply events_left_length in Hl as Hlen. apply (f_equal length) in Hd. rewrite !length_app in Hd.
    destruct (find b EOM_1_0); eats_done.
  - apply events_left_length in Hl as Hlen. eats_done.
  - apply events_left_length in Hl as Hlen. specialize (Hr eq_refl). eats_done.
Qed.

Lemma eats_1_1 t r t' : recv_chunk_bytes_framing_1_1 t = (r, t') → eats t r t'.
Proof.
  unfold recv_chunk_bytes_framing_1_1, eats, measure, stream.
  pose proof (fill_data (timeout t) 4 (buf_bytes t) (incoming t)) as Hd.
  destruct (fill _ _ _ _) as [[[[] b]|e] inc] eqn:Hf; pose proof (fill_left _ _ _ _ _ _ Hf) as [Hl Hr];
    apply events_left_length in Hl as Hlen.
  - apply fill_true_len in Hf. apply (f_equal length) in Hd. rewrite !length_app in Hd.
    case_decide; [|eats_done].
    pose proof (read_size_data (timeout t) b inc) as Hz.
    destruct (read_size _ _ _) as [[[sz b2|rest|b2|b2]|e] inc2] eqn:Hrs;
      pose proof (read_size_left _ _ _ _ _ Hrs) as [Hl2 Hr2];
      pose proof (events_left_trans _ _ _ Hl2 Hl) as Hl3; apply events_left_length in Hl2 as Hlen2.
    + destruct Hz as [Hsz Hz]. rewrite !length_app in Hz. pose proof (fill_data (timeout t) sz b2 inc2) as Hd2.
      destruct (fill _ sz _ _) as [[[[] b3]|e] inc3] eqn:Hf2; pose proof (fill_left _ _ _ _ _ _ Hf2) as [Hl4 Hr4];
        pose proof (events_left_trans _ _ _ Hl4 Hl3) as Hl5; apply events_left_length in Hl4 as Hlen4.
      * apply fill_true_len in Hf2. apply (f_equal length) in Hd2. rewrite !length_app in Hd2.
        eats_done.
      * eats_done.
      * specialize (Hr4 eq_refl). eats_done.
    + assert (b ≠ []) as Hb by (destruct b; [cbn in Hf; lia|done]). specialize (Hr2 Hb). rewrite !length_app in Hr2.
      eats_done.
    + eats_done.
    + eats_done.
    + eats_done.
  - eats_done.
  - specialize (Hr eq_refl). eats_done.
Qed.

Lemma recv_chunk_eats tmo t r t' : recv_chunk tmo t = (r, t') → eats t r t'.
Proof.
  unfold recv_chunk. destruct (recv_chunk_bytes tmo t) as [r1 t1] eqn:Hr. assert (eats t r1 t1) as He.
  { unfold recv_chunk_bytes in Hr. case_decide; [by apply (eats_1_0 (set_timeout tmo t))|].
    case_decide; [by apply (eats_1_1 (set_timeout tmo t))|]. injection Hr as <- <-.
    unfold eats, measure, stream. cbn [set_timeout buf_bytes incoming eom_found framing]. split_and!; [done|done|lia|done]. }
  destruct r1 as [[code b]|e]; [|by intros [= <- <-]]. destruct (str_data (BBytes b)) as [s|e] eqn:Hs; intros [= <- <-].
  - exact He.
  - destruct He as (? & ? & ? & _). split_and!; try done. cbn in Hs. destruct (utf8_valid b); [done|]. by injection Hs as <-.
Qed.

Lemma recv_msg_go_left fuel tmo acc t r t' :
  recv_msg_go fuel tmo acc t = (r, t') →
  events_left (incoming t') (incoming t) ∧ framing t' = framing t ∧ measure t' ≤ measure t.
Proof.
  revert acc t. induction fuel as [|k IH]; intros acc t; cbn [recv_msg_go]; [intros [= <- <-]; by split_and!|].
  destruct (recv_chunk tmo t) as [r1 t1] eqn:Hr. apply recv_chunk_eats in Hr as (Hl & Hf & Hm & _).
  destruct r1 as [[code b]|e]; [|intros [= <- <-]; done].
  case_decide; [|case_decide; intros [= <- <-]; done].
  intros (Hl2 & Hf2 & Hm2)%IH. split_and!; [by eapply events_left_trans|congruence|lia].
Qed.

Lemma recv_msg_left tmo t r t' :
  recv_msg tmo t = (r, t') →
  events_left (incoming t') (incoming t) ∧ framing t' = framing t ∧ measure t' ≤ measure t ∧ r ≠ Raise OutOfFuel.
Proof.
  intros Hr. pose proof (recv_msg_go_fuel (2 + length (buf_bytes t) + length (inc_data (incoming t))) tmo [] t) as Hf.
  unfold recv_msg in Hr. rewrite Hr in Hf. apply recv_msg_go_left in Hr as (? & ? & ?). split_and!; [done..|].
  apply Hf. unfold stream. rewrite length_app. lia.
Qed.

(** ** Sessions end *)

(** Surroundings whose own calls return. *)
Record env_ends (env : surroundings) : Prop := {
  parse_ends : ∀ s, parseString env s ≠ Raise OutOfFuel;
  parse_empty : is_ok (parseString env []) = false;
  files_end : ∀ s, files env s ≠ Raise OutOfFuel }.

Section ends.
Context {C : Type} `{LinkLaws C} (env : surroundings) (Henv : env_ends env).

Abbreviation M := (PyM (world C)).

Definition no_fuel (e : exn) (w : world C) : Prop := e ≠ OutOfFuel.
Definition at_most (k : nat) (w : world C) : Prop := measure (rx w) ≤ k.
Definition tame {A : Type} (m : M A) : Prop := ∀ k, stable (at_most k) no_fuel m.

Lemma tame_bind {A B : Type} (m : M A) (f : A → M B) : tame m → (∀ a, tame (f a)) → tame (m ≫= f).
Proof. intros Hm Hf k. apply stable_bind; [apply Hm|intros a; apply Hf]. Qed.
Lemma tame_ret {A : Type} (a : A) : tame (mret a).
Proof. intros k. apply stable_ret. Qed.
Lemma tame_raise {A : Type} e : e ≠ OutOfFuel → tame (A := A) (raise e).
Proof. intros He k w _. exact He. Qed.
Lemma tame_lift {A : Type} (r : res A) : r ≠ Raise OutOfFuel → tame (lift r).
Proof. intros Hr k w Hw. unfold lift. destruct r; [done|]. unfold no_fuel. congruence. Qed.
Lemma tame_get {A : Type} (f : world C → M A) : (∀ w, tame (f w)) → tame (w ← get; f w).
Proof. intros Hf k. apply stable_get. intros w _. apply Hf. Qed.
Lemma tame_modify f : (∀ w, measure (rx (f w)) ≤ measure (rx w)) → tame (modify f).
Proof. intros Hf k. apply stable_modify. unfold at_most. intros w Hw. specialize (Hf w). lia. Qed.
Lemma tame_if {A : Type} (b : bool) (m1 m2 : M A) : tame m1 → tame m2 → tame (if b then m1 else m2).
Proof. by destruct b. Qed.
Lemma tame_decide {A : Type} (P : Prop) `{Decision P} (m1 m2 : M A) : tame m1 → tame m2 → tame (if decide P then m1 else m2).
Proof. by case_decide. Qed.

Lemma tame_emit e : tame (emit e).
Proof. apply tame_modify. intros w. reflexivity. Qed.

(** A program that leaves the receiver as it is. *)
Lemma tame_rx {A : Type} (m : M A) : (∀ w, (m w).1 ≠ Raise OutOfFuel ∧ rx (m w).2 = rx w) → tame m.
Proof.
  intros Hm k w Hw. destruct (Hm w) as [Hr Hx]. unfold at_most, no_fuel. destruct (m w) as [[a|e] w']; cbn in *; [by rewrite Hx|congruence].
Qed.

Lemma tame_write_out s : tame (write_out s).
Proof. apply tame_rx. intros w. unfold write_out, mbind, PyM_bind, get. by destruct (out_open w). Qed.

Lemma tame_use_pipe : tame (use_pipe env).
Proof. apply tame_rx. intros w. unfold use_pipe, mbind, PyM_bind, get. destruct (breaks _) as [j|]; [|done]. by destruct (j <=? _). Qed.

Lemma tame_write_fd f s : tame (write_fd env f s).
Proof.
  intros k w Hw. unfold write_fd. assert (tame (write_to env f s)) as Ht.
  { destruct f; [apply tame_write_out|]. apply tame_bind; [apply tame_use_pipe|]. intros _. apply tame_emit. }
  specialize (Ht k w Hw). by destruct (write_to env f s w) as [[a|e] w'].
Qed.

Lemma tame_close_fd f : tame (close_fd env f).
Proof. destruct f; [by apply tame_modify|]. apply tame_bind; [apply tame_use_pipe|]. intros _. apply tame_emit. Qed.

Lemma tame_on_tx f : (∀ c, (f c).1 ≠ Raise OutOfFuel) → tame (on_tx f).
Proof. intros Hf. apply tame_rx. intros w. unfold on_tx. specialize (Hf (tx w)). by destruct (f (tx w)). Qed.

Lemma tame_send_msg m : tame (send_msg m).
Proof. destruct m; [|by apply tame_raise]. apply tame_on_tx, link_send_msg_ends. Qed.

Lemma tame_set_framing fr : tame (set_framing fr).
Proof. apply tame_modify. intros w. reflexivity. Qed.

Lemma tame_write_segments l : tame (write_segments l).
Proof.
  induction l as [|[s|] l IH]; cbn [write_segments]; [apply tame_ret| |done].
  apply tame_bind; [apply tame_lift; cbn; by destruct (utf8_valid s)|]. intros t. apply tame_bind; [apply tame_write_out|done].
Qed.

(** A receive call: what the transport does, after the trace. *)
Lemma receive_hoare {A : Type} (f : transport → res A * transport) (P : world C → Prop) R X :
  (∀ w, P w → match f (rx w) with (r, t) => ∀ w', (trace w = false → w' = set_rx t w) → rx w' = t →
     match r with Ok a => R a w' | Raise e => X e w' end end) →
  (∀ w e w', P w → rx w' = (f (rx w)).2 → e ≠ OutOfFuel → e ≠ SocketTimeout → X e w') →
  hoare P (receive f) R X.
Proof.
  intros Hf HX w HP. unfold receive. specialize (Hf w HP). pose proof (λ e w', HX w e w' HP) as HX'.
  destruct (f (rx w)) as [r t]. cbn [snd] in HX'. destruct (trace w) eqn:Htr.
  - assert (∀ l (w1 : world C), rx w1 = t → match write_segments l w1 with
      | (Ok _, w') => rx w' = t | (Raise e, w') => rx w' = t ∧ e ≠ OutOfFuel ∧ e ≠ SocketTimeout end) as Hseg.
    { induction l as [|[s|] l IH]; intros w1 Hw1; cbn [write_segments]; [done| |by apply IH].
      unfold mbind, PyM_bind, lift. cbn [str_data]. destruct (utf8_valid s); [|done]. unfold write_out, mbind, PyM_bind, get.
      destruct (out_open w1); cbn; [by apply IH|done]. }
    unfold mbind, PyM_bind, lift. set (l := take _ _). specialize (Hseg l (set_rx t w) eq_refl).
    destruct (write_segments l (set_rx t w)) as [[[]|e] w'].
    + specialize (Hf w' ltac:(done) Hseg). by destruct r.
    + destruct Hseg as (? & ? & ?). by apply HX'.
  - specialize (Hf (set_rx t w) ltac:(done) eq_refl). cbn. by destruct r.
Qed.

Lemma tame_recv_msg tmo : tame (receive (recv_msg tmo)).
Proof.
  intros k. apply receive_hoare; [|done]. intros w Hw. destruct (recv_msg tmo (rx w)) as [r t] eqn:Hr.
  apply recv_msg_left in Hr as (_ & _ & Hm & Hf). intros w' _ Hrx. unfold at_most, no_fuel in *.
  destruct r; [rewrite Hrx; lia|congruence].
Qed.

(** What a chunk costs. *)
Lemma next_chunk_hoare k :
  hoare (at_most k) (next_chunk env)
    (λ r w, match r with Some (code, _) => if (code <? 0)%Z then at_most k w else S (measure (rx w)) ≤ k
            | None => S (measure (rx w)) ≤ k end) no_fuel.
Proof.
  intros w Hw. unfold next_chunk. destruct (interrupted env (recvs w)); [done|].
  pose proof (receive_hoare (recv_chunk (Some 1%Z)) (at_most k)
    (λ r w, if (r.1 <? 0)%Z then at_most k w else S (measure (rx w)) ≤ k)
    (λ e w, e ≠ OutOfFuel ∧ (e = SocketTimeout → S (measure (rx w)) ≤ k))) as Hh.
  assert (hoare (at_most k) (receive (recv_chunk (Some 1%Z)))
    (λ r w, if (r.1 <? 0)%Z then at_most k w else S (measure (rx w)) ≤ k)
    (λ e w, e ≠ OutOfFuel ∧ (e = SocketTimeout → S (measure (rx w)) ≤ k))) as Hr.
  { apply Hh; clear Hh; [|by intros w1 e w' _ _ ? ?]. intros w1 Hw1.
    pose proof (recv_chunk_progress (Some 1%Z) (rx w1)) as Hp.
    destruct (recv_chunk (Some 1%Z) (rx w1)) as [r t] eqn:Hr. apply recv_chunk_eats in Hr as (_ & _ & Hm & Hs).
    intros w' _ Hrx. unfold at_most in *. destruct r as [[code c]|e]; cbn [fst].
    - rewrite Hrx. destruct (Z.ltb_spec code 0); lia.
    - split; [done|]. intros ->. rewrite Hrx. lia. }
  specialize (Hr (count_recv w) Hw). destruct (receive _ (count_recv w)) as [[[code c]|e] w']; [done|].
  destruct Hr as [He Ht]. destruct e; try done. by apply Ht.
Qed.

Section loops.
Context (o : opts) (fuel : nat) (hello_reply style : pystr) (stop : Z).
Hypothesis Hint : interactive o = false.
Hypothesis Hhello : hello o = true → hello_reply ≠ [].

(** After a reply: the hello is printed once, a chunk was received, or the link is closed. *)
Definition replied (k : nat) (r : nat * loop) (w : world C) : Prop :=
  at_most k w ∧ (if hello o then n r.2 = 1%Z else is_closed r.2 = true ∨ S (measure (rx w)) ≤ k).

Lemma tame_print_chunk f s : tame (print_chunk env f s).
Proof. apply tame_if; [apply tame_write_fd|apply tame_ret]. Qed.

Lemma receive_reply_ends f nchunks s fl k :
  k < fl → hoare (at_most k) (receive_reply env o hello_reply stop fl f nchunks s) (replied k) no_fuel.
Proof.
  revert nchunks s k. induction fl as [|fl IH]; intros nchunks s k Hfl; [lia|]. cbn [receive_reply]. destruct (hello o) eqn:Hh.
  { rewrite decide_False by auto. eapply hoare_bind; [apply (tame_print_chunk _ _ k)|]. intros [] w Hw.
    cbn. split; [done|]. by rewrite Hh. }
  eapply hoare_bind; [apply next_chunk_hoare|]. intros [[code c]|].
  - cbn zeta. destruct (code <? 0)%Z.
    + eapply hoare_bind; [apply (tame_print_chunk _ _ k)|]. intros []. case_decide; [|by apply hoare_weaken with (1 := hoare_raise _ (replied k) no_fuel)].
      intros w Hw. split; [done|]. rewrite Hh. by left.
    + assert (∀ j m, (∀ w : world C, measure (rx w) ≤ j → hoare (λ w, measure (rx w) ≤ j) m (replied k) no_fuel) →
        hoare (λ w, S (measure (rx w)) ≤ S j) (_ ← print_chunk env f (add_latest (set_chunk (n s) c s)); m) (replied k) no_fuel) as Hstep.
      { intros j m Hm. eapply hoare_bind.
        - eapply hoare_weaken; [apply (tame_print_chunk f _ j)| |done|done]. unfold at_most. lia.
        - intros [] w Hw. by apply (Hm w). }
      destruct k as [|k]; [intros w Hw; lia|]. apply Hstep. intros w0 _. case_decide.
      * intros w Hw. cbn. split; [unfold at_most; lia|]. rewrite Hh. right. lia.
      * eapply hoare_weaken; [apply (IH _ _ k); lia|done| |done]. intros r w [Hw Hr]. rewrite Hh in Hr. unfold at_most in *.
        split; [unfold at_most; lia|]. rewrite Hh. destruct Hr; [by left|right; lia].
  - destruct k as [|k]; [intros w Hw; lia|].
    eapply hoare_weaken; [apply (IH nchunks (add_latest s) k); lia| | |done].
    + unfold at_most. lia.
    + intros r w [Hw Hr]. rewrite Hh in Hr. unfold at_most in *.
      split; [unfold at_most; lia|]. rewrite Hh. destruct Hr; [by left|right; lia].
Qed.

Definition replied_loop (k : nat) (s : loop) (w : world C) : Prop :=
  at_most k w ∧ (if hello o then n s = 0%Z else is_closed s = true ∨ S (measure (rx w)) ≤ k).

Lemma tame_check_xmllint nchunks s rc : tame (check_xmllint nchunks s rc).
Proof.
  unfold check_xmllint. repeat first [apply tame_ret | by apply tame_raise | apply tame_if | apply tame_decide].
Qed.

(** A tame program after which something that does not depend on its run holds. *)
Lemma tame_then {A B : Type} (m : M A) (f : A → M B) k R :
  tame m → (∀ a, hoare (at_most k) (f a) R no_fuel) → hoare (at_most k) (m ≫= f) R no_fuel.
Proof. intros Hm Hf. eapply hoare_bind; [apply Hm|exact Hf]. Qed.

(** The same when the measure or the loop's end is known. *)
Lemma tame_keeps {A : Type} (m : M A) k (φ : Prop) :
  tame m → hoare (λ w, at_most k w ∧ (φ ∨ S (measure (rx w)) ≤ k)) m (λ _ w, at_most k w ∧ (φ ∨ S (measure (rx w)) ≤ k)) no_fuel.
Proof.
  intros Hm w [Hw Hor]. pose proof (Hm (measure (rx w)) w (le_n _)) as Hk. unfold at_most in *.
  destruct (m w) as [[a|e] w']; [|done]. split; [lia|]. destruct Hor; [by left|right; lia].
Qed.

Lemma tame_replied {A B : Type} (m : M A) (f : A → M B) k r R :
  tame m → (∀ a, hoare (replied k r) (f a) R no_fuel) → hoare (replied k r) (m ≫= f) R no_fuel.
Proof.
  intros Hm Hf. eapply hoare_bind; [|exact Hf]. unfold replied. destruct (hello o).
  - intros w [Hw Hn]. specialize (Hm k w Hw). by destruct (m w) as [[a|e] w'].
  - by apply tame_keeps.
Qed.

Lemma one_reply_ends s k :
  k < fuel → hoare (at_most k) (one_reply env o fuel hello_reply style stop s) (replied_loop k) no_fuel.
Proof.
  intros Hk. unfold one_reply. apply tame_then; [apply tame_if; [by apply tame_modify|apply tame_ret]|]. intros [].
  rewrite Hint. apply tame_then; [apply tame_ret|]. intros s1. apply tame_then.
  { destruct (msg s1); [apply tame_send_msg|apply tame_ret]. }
  intros []. eapply hoare_bind; [by apply receive_reply_ends|]. intros [nchunks s2].
  apply tame_replied; [apply tame_decide; [apply tame_close_fd|apply tame_ret]|]. intros [].
  assert (∀ s3 s4 nc, n s4 = n s3 → is_closed s4 = is_closed s3 → hoare (replied k (nc, s3)) (mret (Loop (n s4 - 1) (do_print s4) (is_closed s4) (chunk_text s4)
    (if subscribes o then None else msg s4) (replay_complete s4) (latest_msg s4) true)) (replied_loop k) no_fuel) as Hend.
  { intros s3 s4 nc Hn Hc w [Hw Hr]. split; [done|]. cbn [n is_closed snd] in *. destruct (hello o); [lia|]. by rewrite Hc. }
  destruct (pretty style s).
  - eapply hoare_bind with (Q := λ s4 w, n s4 = n s2 ∧ is_closed s4 = is_closed s2 ∧ replied k (nchunks, s2) w).
    + apply tame_replied; [by apply tame_rx|]. intros w1. apply tame_replied; [apply tame_emit|]. intros [].
      apply tame_replied; [apply tame_check_xmllint|]. intros [] w2 Hw2. cbn. by case_decide.
    + intros s4. apply hoare_pre. intros Hn. apply hoare_pre. intros Hc. by apply Hend.
  - eapply hoare_bind with (Q := λ s4 w, s4 = s2 ∧ replied k (nchunks, s2) w); [by intros w Hw|].
    intros s4. apply hoare_pre. intros ->. by apply Hend.
Qed.

Lemma goes_on_spec schema s k :
  hoare (at_most k) (goes_on env o stop schema s)
    (λ b w, at_most k w ∧ (b = true → is_closed s = false ∧ n s ≠ 0%Z)) no_fuel.
Proof.
  intros w Hw. unfold goes_on. rewrite Hint. cbn [negb]. rewrite andb_true_r.
  destruct (is_closed s); [by split|]. case_bool_decide; [by split|]. destruct schema; [by split|]. cbn [orb].
  by destruct (_ || _); split.
Qed.

(** Enough rounds for what is left to receive. *)
Definition enough (m : nat) (s : loop) (k : nat) : Prop :=
  1 ≤ m ∧ (is_closed s = false → n s ≠ 0%Z → if hello o then 2 ≤ m else k + 2 ≤ m).

Lemma replies_end m schema s k :
  k < fuel → enough m s k →
  hoare (at_most k) (replies env o fuel hello_reply style stop m schema s) (λ _, at_most k) no_fuel.
Proof.
  revert s k. induction m as [|m IH]; intros s k Hk [Hm Hen]; [lia|]. cbn [replies].
  eapply hoare_bind; [apply goes_on_spec|]. intros [].
  - intros w [Hw Hc]. destruct (Hc eq_refl) as [Hcl Hn]. revert w Hw.
    change (hoare (at_most k) (s' ← one_reply env o fuel hello_reply style stop s; replies env o fuel hello_reply style stop m schema s') (λ _, at_most k) no_fuel).
    eapply hoare_bind; [by apply one_reply_ends|]. intros s' w [Hw Hr]. specialize (Hen Hcl Hn).
    assert (∀ j, measure (rx w) ≤ j → j ≤ k → enough m s' j →
      match replies env o fuel hello_reply style stop m schema s' w with (Ok _, w') => at_most k w' | (Raise e, w') => no_fuel e w' end) as Hgo.
    { intros j Hj Hjk He. specialize (IH s' j ltac:(lia) He w Hj). destruct (replies _ _ _ _ _ _ _ _ _ w) as [[a|e] w']; [|done].
      unfold at_most in *. lia. }
    destruct (hello o) eqn:Hh.
    + apply (Hgo k); [done|done|]. split; [lia|]. rewrite Hr. done.
    + destruct Hr as [Hcl'|Hlt].
      * apply (Hgo k); [done|done|]. split; [lia|]. by rewrite Hcl'.
      * apply (Hgo (measure (rx w))); [done|lia|]. split; [lia|]. rewrite Hh. lia.
  - intros w [Hw _]. exact Hw.
Qed.
End loops.

(** *** The whole program *)

Lemma scan_capabilities_ends vs caps fr : scan_capabilities vs caps fr ≠ Raise OutOfFuel.
Proof.
  revert fr. induction caps as [|d caps IH]; intros fr; [done|]. cbn [scan_capabilities].
  destruct (_ && _); [|apply IH]. unfold offers_1_1. destruct (firstChild d) as [[]|]; try done; apply IH.
Qed.

Lemma negotiate_ends vs d : negotiate vs d ≠ Raise OutOfFuel.
Proof.
  unfold negotiate. destruct d as [d|]; [|done]. destruct (if is_elem _ _ _ then _ else _) as [d'|]; [|done]. cbv zeta.
  destruct (is_elem _ _ _); [|done]. destruct (strip d') as [? ? [|c l]| |]; try done. apply scan_capabilities_ends.
Qed.

Lemma get_msg_ends read cmd db o : (∀ f, read f ≠ Raise OutOfFuel) → get_msg read cmd db o ≠ Raise OutOfFuel.
Proof.
  intros Hr. unfold get_msg. assert (∀ r : res pystr, r ≠ Raise OutOfFuel → ∀ f : pystr → pystr, (op ← r; Ok (f op)) ≠ Raise OutOfFuel) as Hb.
  { intros [x|e] He f; cbn; congruence. }
  apply (Hb _). case_decide; [done|]. case_decide; [|done]. unfold get_data_op.
  set (sub := if decide (subtree_filter o = []) then _ else _). assert (sub ≠ Raise OutOfFuel) as Hs.
  { unfold sub. case_decide; [done|]. specialize (Hr (subtree_filter o)). destruct (read _); cbn; congruence. }
  destruct sub; cbn; congruence.
Qed.

Lemma select_request_ends read f o : (∀ f, read f ≠ Raise OutOfFuel) → select_request read f o ≠ Raise OutOfFuel.
Proof.
  intros Hr. assert (∀ cmd db, Message <$> get_msg read cmd db o ≠ Raise OutOfFuel) as Hm.
  { intros cmd db. pose proof (get_msg_ends read cmd db o Hr). destruct (get_msg _ _ _ _); cbn; congruence. }
  unfold select_request. destruct f as [[|c f]|]; [|done|]; repeat first [apply Hm | case_match; try done].
Qed.

Lemma get_file_ends (w : world C) f : get_file env w f ≠ Raise OutOfFuel.
Proof.
  unfold get_file. case_decide; [by destruct (stdin w)|]. pose proof (files_end env Henv f). destruct (files env f); cbn; congruence.
Qed.

Lemma prepare_ends o (w : world C) f : prepare env o w f ≠ Raise OutOfFuel.
Proof.
  unfold prepare. pose proof (select_request_ends (get_file env w) f o (get_file_ends w)) as Hs.
  destruct (select_request _ _ _) as [r|e]; cbn; [|congruence].
  assert (∀ (g : pybuf → task) name, g <$> get_file env w name ≠ Raise OutOfFuel) as Hg.
  { intros g name. pose proof (get_file_ends w name). destruct (get_file _ _ _); cbn; congruence. }
  destruct r; try done; apply Hg.
Qed.

Lemma parse_time_ends s : Calendar.parse_time s ≠ Raise OutOfFuel.
Proof. unfold Calendar.parse_time. repeat case_match; done. Qed.

Lemma tame_print s : tame (print s).
Proof. apply tame_write_out. Qed.

Lemma tame_print_lines l : tame (print_lines l).
Proof.
  induction l as [|s l IH]; cbn [print_lines]; [apply tame_ret|]. apply tame_bind; [apply tame_print|done].
Qed.

Lemma tame_send_each raw_send l : tame (send_each raw_send l).
Proof.
  induction l as [|b l IH]; cbn [send_each]; [apply tame_ret|]. apply tame_bind; [|done].
  apply tame_on_tx. intros c. destruct raw_send; [apply l_send_ends|apply link_send_ends].
Qed.

Lemma tame_send_task o t : tame (send_task o t).
Proof.
  destruct t; cbn [send_task]; [| |apply tame_ret];
    (apply tame_bind; [apply tame_send_each|intros []]; apply tame_bind; [|intros []; apply tame_ret]);
    apply tame_on_tx; [apply l_flush_ends|apply l_send_eom_ends].
Qed.

Lemma tame_get_schema_reply m : tame (get_schema_reply env m).
Proof.
  unfold get_schema_reply. apply tame_bind; [apply tame_send_msg|]. intros []. apply tame_bind; [apply tame_recv_msg|]. intros reply.
  apply tame_bind; [apply tame_lift, (parse_ends env Henv)|]. intros [d|]; [|apply tame_emit].
  repeat case_match; first [apply tame_emit | apply tame_write_fd | by apply tame_raise].
Qed.

Lemma tame_close_session b : tame (close_session b).
Proof.
  unfold close_session. apply tame_bind.
  - apply tame_if; [apply tame_ret|]. apply tame_bind; [apply tame_send_msg|]. intros []. apply tame_bind; [apply tame_recv_msg|].
    intros _. apply tame_ret.
  - intros []. apply tame_bind; [apply tame_emit|]. intros []. apply tame_bind; [by apply tame_modify|]. intros []. apply tame_emit.
Qed.

Lemma hello_exchange_ends o t k :
  hoare (at_most k) (hello_exchange env o t) (λ reply w, reply ≠ [] ∧ at_most k w) no_fuel.
Proof.
  unfold hello_exchange. apply tame_then; [destruct t; [apply tame_ret|apply tame_send_msg..]|]. intros [].
  apply tame_then; [apply tame_recv_msg|]. intros reply. destruct (parseString env reply) as [d|e] eqn:Hp.
  - apply tame_then; [by apply tame_lift|]. intros d'. apply tame_then; [apply tame_lift, negotiate_ends|]. intros fr.
    apply tame_then; [apply tame_decide; [apply tame_set_framing|apply tame_ret]|]. intros [] w Hw. split; [|done].
    intros ->. pose proof (parse_empty env Henv) as He. by rewrite Hp in He.
  - intros w Hw. cbn. intros ->. by apply (parse_ends env Henv reply).
Qed.

Lemma session_end o fuel t k :
  interactive o = false → k + 2 ≤ fuel → hoare (at_most k) (session env o fuel t) (λ _, at_most k) no_fuel.
Proof.
  intros Hint Hk. unfold session. eapply hoare_bind; [apply hello_exchange_ends|]. intros reply. apply hoare_pre. intros Hne.
  apply tame_then; [apply tame_send_task|]. intros m. cbn zeta. apply tame_then.
  { apply tame_lift. unfold stop_at. case_decide; [apply parse_time_ends|done]. }
  intros stop. eapply hoare_bind.
  - apply replies_end; [done|done|lia|]. split; [lia|]. intros _ _. destruct (hello o); lia.
  - intros s. apply tame_then; [apply tame_if; [apply tame_get_schema_reply|apply tame_ret]|]. intros []. apply tame_close_session.
Qed.

Lemma main_ends o fuel args connect k :
  interactive o = false → k + 2 ≤ fuel → connect.2 ≠ Raise OutOfFuel →
  hoare (at_most k) (main env o fuel args connect) (λ _, at_most k) no_fuel.
Proof.
  intros Hint Hk Hc. unfold main. apply tame_then; [apply tame_if; [apply tame_print|apply tame_ret]|]. intros [].
  apply tame_then; [by apply tame_rx|]. intros w. apply tame_then; [apply tame_lift, prepare_ends|]. intros t.
  apply tame_then; [by apply tame_modify|]. intros []. apply tame_then; [apply tame_lift; by destruct (_ && _)|]. intros [].
  apply tame_then; [apply tame_lift; unfold validate_options; repeat case_match; done|]. intros [].
  apply tame_then; [by apply tame_modify|]. intros []. apply tame_then; [apply tame_print_lines|]. intros [].
  apply tame_then; [by apply tame_lift|]. intros []. by apply session_end.
Qed.
End ends.

(** C10: The program ends, whatever the server sends and in whichever pieces, pauses
    included, and whatever its surroundings do: for every request but an interactive
    session, every link, and every number of iterations, negative ones too, the loops
    over replies and over chunks are left after as many rounds as there are bytes and
    events to come, so that the program always leaves with an exit code or an exception. *)
Theorem console_ends {C : Type} `{LinkLaws C} conn_env (env : surroundings) (o : opts) (fuel : nat) (args : list pystr)
    (inc : list recv_event) (tx : C) (lines : list pystr) :
  env_ends env → interactive o = false → (connect conn_env o).2 ≠ Raise OutOfFuel →
  2 * length (inc_data inc) + length inc + 2 ≤ fuel →
  (program conn_env env o fuel args (start inc tx lines)).1 ≠ Raise OutOfFuel.
Proof.
  intros Henv Hint Hc Hf. set (w := start inc tx lines). unfold program, run.
  assert (measure (rx w) + 2 ≤ fuel) as Hfuel by (unfold measure, w, stream; cbn -[inc_data Nat.mul]; lia).
  pose proof (main_ends env Henv o fuel args _ _ Hint Hfuel Hc w (le_n _)) as Hm.
  destruct (main env o fuel args (connect conn_env o) w) as [[[]|e] w']; [done|]. unfold no_fuel in Hm.
  destruct e; first [cbn; congruence | unfold print, write_out, emit, mbind, PyM_bind, get, modify; by destruct (out_open w')].
Qed.
