(* ===== verification/ConsoleOutput.v ===== *)
(** * What the console does with its output

    The output streams and the xmllint processes in every run of Console's program,
    and the raw style, which prints what is on the wire. *)

From Stdlib Require Import Ascii String.
From S2P Require Import Prelude PyStr Json Xml Hoare NetconfFraming NetconfMsgs Links Console ConsoleEnds.

(** ** The discipline *)

(** No process; a process that is fed; one whose input is closed; the link closed;
    the end. *)
Inductive phase := Idle | Running | Drained | LinkClosed | Finished.

#[export] Instance phase_eq_dec : EqDecision phase.
Proof. solve_decision. Defined.

(** Whether the standard output is open, and the phase. *)
Definition status : Type := bool * phase.

(** Nothing is printed on a closed stream; a process is made when the last one has
    been waited for, and fed only until its input is closed; the link is closed once,
    at the end, or by an interrupt. *)
Definition after_event (q : status) (e : event) : option status :=
  match e, q with
  | Out _, (true, (Idle | Running)) => Some q
  | Err _, (_, p) => if decide (p = Finished) then None else Some q
  | CloseOut, (_, p) => if decide (p = Finished) then None else Some (false, p)
  | CloseErr, (false, LinkClosed) => Some (false, Finished)
  | Spawn _, (b, Idle) => Some (b, Running)
  | Feed _, (_, Running) => Some q
  | EndFeed, (b, Running) => Some (b, Drained)
  | Wait _, (b, Drained) => Some (b, Idle)
  | CloseLink, (b, (Idle | Running)) => Some (b, LinkClosed)
  | _, _ => None
  end.

Fixpoint after_events (q : status) (l : list event) : option status :=
  match l with [] => Some q | e :: l' => q' ← after_event q e; after_events q' l' end.

Lemma after_events_snoc q l e : after_events q (l ++ [e]) = (q' ← after_events q l; after_event q' e).
Proof.
  revert q. induction l as [|x l IH]; intros q; cbn; [by destruct (after_event q e)|].
  destruct (after_event q x); cbn; [apply IH|done].
Qed.

Section discipline.
Context {C : Type} `{Link C} (env : surroundings).

Abbreviation M := (PyM (world C)).

Definition orderly (w : world C) : Prop := is_Some (after_events (true, Idle) (log w)).
Definition at_status (q : status) (w : world C) : Prop :=
  after_events (true, Idle) (log w) = Some q ∧ out_open w = q.1.
Definition raised (e : exn) (w : world C) : Prop := orderly w.
Definition step {A : Type} (q : status) (m : M A) (q' : status) : Prop :=
  hoare (at_status q) m (λ _, at_status q') raised.

Lemma at_orderly q w : at_status q w → orderly w.
Proof. intros [Hw _]. by exists q. Qed.

Lemma step_bind {A B : Type} q q1 q2 (m : M A) (f : A → M B) :
  step q m q1 → (∀ a, step q1 (f a) q2) → step q (m ≫= f) q2.
Proof. apply hoare_bind. Qed.
Lemma step_ret {A : Type} q (a : A) : step q (mret a) q.
Proof. apply (hoare_ret a (λ _, at_status q)). Qed.
Lemma step_raise {A : Type} q q' e : step q (raise (A := A) e) q'.
Proof. intros w Hw. by apply (at_orderly q). Qed.
Lemma step_lift {A : Type} q (r : res A) : step q (lift r) q.
Proof. intros w Hw. destruct r; [done|]. by apply (at_orderly q). Qed.
Lemma step_get {A : Type} q q' (f : world C → M A) : (∀ w, step q (f w) q') → step q (w ← get; f w) q'.
Proof. intros Hf. apply hoare_get. intros w Hw w' ->. by apply (Hf w). Qed.
Lemma step_if {A : Type} q q' (b : bool) (m1 m2 : M A) : step q m1 q' → step q m2 q' → step q (if b then m1 else m2) q'.
Proof. by destruct b. Qed.
Lemma step_decide {A : Type} q q' (P : Prop) `{Decision P} (m1 m2 : M A) :
  step q m1 q' → step q m2 q' → step q (if decide P then m1 else m2) q'.
Proof. by case_decide. Qed.

(** Changes that leave the output alone. *)
Lemma step_same {A : Type} q (m : M A) :
  (∀ w, log (m w).2 = log w ∧ out_open (m w).2 = out_open w) → step q m q.
Proof.
  intros Hm w [Hl Ho]. destruct (Hm w) as [Hl' Ho']. destruct (m w) as [[a|e] w']; cbn in *.
  - split; congruence.
  - exists q. congruence.
Qed.

Lemma step_emit q e q' : after_event q e = Some q' → q'.1 = q.1 → step q (emit e) q'.
Proof. intros He Hq w [Hl Ho]. split; cbn; [by rewrite after_events_snoc, Hl|congruence]. Qed.

Definition live_phase (p : phase) : Prop := p = Idle ∨ p = Running.

Lemma step_write_out b p s : live_phase p → step (b, p) (write_out s) (b, p).
Proof.
  intros Hp w Hw. pose proof Hw as [Hl Ho]. unfold write_out, mbind, PyM_bind, get. cbn in Ho. rewrite Ho. destruct b.
  - apply (step_emit (true, p) (Out s) (true, p)); [by destruct Hp; subst|done|done].
  - by apply (at_orderly (false, p)).
Qed.

Lemma write_segments_status b p l : live_phase p →
  hoare (at_status (b, p)) (write_segments l) (λ _, at_status (b, p)) (λ e w, orderly w ∧ e ≠ SocketTimeout).
Proof.
  intros Hp. induction l as [|[s|] l IH]; cbn [write_segments]; [apply (hoare_ret tt (λ _, at_status (b, p)))| |done].
  eapply hoare_bind.
  - apply (hoare_lift _ _ (λ _, at_status (b, p))). intros w Hw. cbn. destruct (utf8_valid s); [done|]. split; [by eapply at_orderly|done].
  - intros t. eapply hoare_bind with (Q := λ _, at_status (b, p)); [|intros []; exact IH].
    intros w Hw. pose proof (step_write_out b p t Hp w Hw) as Ht. unfold write_out, mbind, PyM_bind, get in *.
    destruct (out_open w); cbn in *; [exact Ht|]. split; [exact Ht|done].
Qed.

(** A timeout leaves the status as it is. *)
Lemma receive_status {A : Type} b p (f : transport → res A * transport) : live_phase p →
  hoare (at_status (b, p)) (receive f) (λ _, at_status (b, p)) (λ e w, orderly w ∧ (e = SocketTimeout → at_status (b, p) w)).
Proof.
  intros Hp w Hw. unfold receive. destruct (f (rx w)) as [r t]. unfold mbind, PyM_bind, lift. set (l := take _ _).
  assert (match (if trace w then write_segments l else mret tt) (set_rx t w) with
    | (Ok _, w') => at_status (b, p) w' | (Raise e, w') => orderly w' ∧ e ≠ SocketTimeout end) as Hs.
  { destruct (trace w); [by apply (write_segments_status b p l Hp (set_rx t w))|exact Hw]. }
  destruct ((if trace w then write_segments l else mret tt) (set_rx t w)) as [[[]|e] w']; [|naive_solver].
  destruct r; [done|]. split; [by eapply at_orderly|done].
Qed.

Lemma step_receive {A : Type} b p (f : transport → res A * transport) : live_phase p → step (b, p) (receive f) (b, p).
Proof. intros Hp. eapply hoare_weaken; [by apply receive_status|done|done|]. by intros e w [? _]. Qed.

Lemma step_on_tx q f : step q (on_tx f) q.
Proof. apply step_same. intros w. unfold on_tx. by destruct (f (tx w)). Qed.

Lemma step_send_msg q m : step q (send_msg m) q.
Proof. destruct m; [apply step_on_tx|apply step_raise]. Qed.

Lemma step_close_link b p : live_phase p → step (b, p) close_link (b, LinkClosed).
Proof. intros Hp. apply step_emit; [by destruct Hp; subst|done]. Qed.

Lemma step_next_chunk b p : live_phase p → step (b, p) (next_chunk env) (b, p).
Proof.
  intros Hp w Hw. unfold next_chunk. destruct (interrupted env (recvs w)).
  - by apply (step_bind _ (b, LinkClosed) (b, p) _ _ (step_close_link b p Hp) (λ _, step_raise _ _ _) (count_recv w)).
  - pose proof (receive_status b p (recv_chunk (Some 1%Z)) Hp (count_recv w) Hw) as Hr.
    destruct (receive _ (count_recv w)) as [[c|e] w'] eqn:He; [done|]. destruct Hr as [Ho Ht]. destruct e; try exact Ho. by apply Ht.
Qed.

Lemma step_readline q : step q readline q.
Proof. apply step_same. intros w. unfold readline, mbind, PyM_bind, get. by destruct (stdin w) as [[|]|]. Qed.

Lemma step_read_lines q fuel t : step q (read_lines fuel t) q.
Proof.
  revert t. induction fuel as [|k IH]; intros t; cbn [read_lines]; [apply step_raise|].
  eapply step_bind; [apply step_readline|]. intros ln. apply step_decide; [apply step_ret|apply IH].
Qed.

Lemma step_read_msg b p fuel : live_phase p → step (b, p) (read_msg fuel) (b, p).
Proof.
  intros Hp. eapply step_bind; [by apply step_write_out|]. intros []. eapply step_bind; [apply step_read_lines|]. intros t. apply step_ret.
Qed.

Lemma step_use_pipe q : step q (use_pipe env) q.
Proof. apply step_same. intros w. unfold use_pipe, mbind, PyM_bind, get. by destruct (breaks _) as [k|]; [destruct (k <=? _)|]. Qed.

(** Where a round prints. *)
Definition round_phase (f : fd) : phase := match f with Pipe => Running | Stdout => Idle end.

Lemma round_live f : live_phase (round_phase f).
Proof. destruct f; [by left|by right]. Qed.

Lemma step_write_fd b f s : step (b, round_phase f) (write_fd env f s) (b, round_phase f).
Proof.
  assert (step (b, round_phase f) (write_to env f s) (b, round_phase f)) as Ht.
  { destruct f; [apply step_write_out; by left|]. eapply step_bind; [apply step_use_pipe|]. intros []. by apply step_emit. }
  intros w Hw. specialize (Ht w Hw). unfold write_fd. by destruct (write_to env f s w) as [[[]|e] w'].
Qed.

Section loops.
Context (o : opts) (fuel : nat) (hello_reply style : pystr) (stop : Z).

Lemma step_print_chunk b f s : step (b, round_phase f) (print_chunk env f s) (b, round_phase f).
Proof. apply step_if; [apply step_write_fd|apply step_ret]. Qed.

Lemma step_receive_reply b f fl nchunks s :
  step (b, round_phase f) (receive_reply env o hello_reply stop fl f nchunks s) (b, round_phase f).
Proof.
  revert nchunks s. induction fl as [|fl IH]; intros nchunks s; cbn [receive_reply]; [apply step_raise|].
  destruct (hello o); [eapply step_bind; [apply step_print_chunk|intros []; apply step_ret]|].
  eapply step_bind; [apply step_next_chunk, round_live|]. intros [[code c]|]; [|apply IH]. cbn zeta. apply step_if.
  - eapply step_bind; [apply step_print_chunk|]. intros []. apply step_decide; [apply step_ret|apply step_raise].
  - eapply step_bind; [apply step_print_chunk|]. intros []. apply step_decide; [apply step_ret|apply IH].
Qed.

(** Between rounds no process is left. *)
Definition between (w : world C) : Prop := ∃ b, at_status (b, Idle) w.

Lemma step_check nchunks s rc q : step q (check_xmllint (C := C) nchunks s rc) q.
Proof. unfold check_xmllint. repeat first [apply step_if | apply step_decide | apply step_ret | apply step_raise]. Qed.

Lemma one_reply_between s : hoare between (one_reply env o fuel hello_reply style stop s) (λ _, between) raised.
Proof.
  intros w0 [b Hw0]. revert w0 Hw0. unfold one_reply. set (f := if pretty style s then Pipe else Stdout).
  eapply hoare_bind with (Q := λ _, at_status (b, round_phase f)).
  { unfold f. destruct (pretty style s); [|apply step_ret]. intros w [Hl Ho]. split; [|done]. cbn. by rewrite after_events_snoc, Hl. }
  intros []. eapply hoare_bind with (Q := λ _, at_status (b, round_phase f)).
  { apply step_if; [|apply step_ret]. eapply step_bind; [apply step_read_msg, round_live|]. intros m. apply step_ret. }
  intros s1. eapply hoare_bind with (Q := λ _, at_status (b, round_phase f)).
  { destruct (msg s1); [apply step_send_msg|apply step_ret]. }
  intros []. eapply hoare_bind; [apply step_receive_reply|]. intros [nchunks s2].
  assert (∀ b' s3, hoare (at_status (b', Idle)) (mret (Loop (n s3 - 1) (do_print s3) (is_closed s3) (chunk_text s3)
    (if subscribes o then None else msg s3) (replay_complete s3) (latest_msg s3) true)) (λ _, between) raised) as Hend.
  { intros b' s3 w Hw. by exists b'. }
  assert (∀ s : loop, pretty style s = true → style ≠ py"raw") as Hraw.
  { intros s' Hp ->. unfold pretty in Hp. apply andb_true_iff in Hp as [_ Hp]. vm_compute in Hp. discriminate. }
  subst f. destruct (pretty style s) eqn:Hp; cbn [round_phase].
  - rewrite (decide_True (P := style ≠ py"raw")) by (by eapply Hraw). eapply hoare_bind with (Q := λ _, at_status (b, Drained)).
    { eapply step_bind; [apply step_use_pipe|]. intros []. by apply step_emit. }
    intros []. eapply hoare_bind; [|intros s3; apply (Hend b)]. apply step_get. intros w.
    eapply step_bind; [apply (step_emit _ (Wait _) (b, Idle)); done|]. intros []. eapply step_bind; [apply step_check|].
    intros []. apply step_ret.
  - case_decide.
    + eapply hoare_bind with (Q := λ _, at_status (false, Idle)).
      { intros w [Hl Ho]. split; [|done]. cbn. by rewrite after_events_snoc, Hl. }
      intros []. eapply hoare_bind; [apply step_ret|]. intros s3. apply Hend.
    + eapply hoare_bind; [apply step_ret|]. intros []. eapply hoare_bind; [apply step_ret|]. intros s3. apply Hend.
Qed.

Lemma step_goes_on b schema s :
  hoare (at_status (b, Idle)) (goes_on env o stop schema s) (λ _, between) raised.
Proof.
  eapply hoare_weaken with (R := λ _, at_status (b, Idle)); [|done| |done].
  - unfold goes_on. apply step_if; [apply step_ret|]. apply step_if; [apply step_ret|].
    by apply step_same.
  - intros _ w Hw. by exists b.
Qed.

Lemma replies_between m schema s : hoare between (replies env o fuel hello_reply style stop m schema s) (λ _, between) raised.
Proof.
  revert s. induction m as [|m IH]; intros s; cbn [replies].
  - intros w [b Hw]. by apply (at_orderly (b, Idle)).
  - eapply hoare_bind with (Q := λ _, between).
    + intros w [b Hw]. exact (step_goes_on b schema s w Hw).
    + intros []; [|by intros w Hw]. eapply hoare_bind; [apply one_reply_between|]. intros s'. apply IH.
Qed.
End loops.

(** *** The whole program *)

Section program.
Context (o : opts) (fuel : nat).
Local Abbreviation q0 := (true, Idle).

Lemma step_hello_exchange t : step q0 (hello_exchange env o t) q0.
Proof.
  unfold hello_exchange. eapply step_bind; [destruct t; [apply step_ret|apply step_send_msg..]|]. intros [].
  eapply step_bind; [apply step_receive; by left|]. intros reply. eapply step_bind; [apply step_lift|]. intros d.
  eapply step_bind; [apply step_lift|]. intros fr. eapply step_bind; [|intros []; apply step_ret].
  apply step_decide; [by apply step_same|apply step_ret].
Qed.

Lemma step_send_each raw_send l : step q0 (send_each raw_send l) q0.
Proof. induction l as [|b l IH]; cbn [send_each]; [apply step_ret|]. eapply step_bind; [apply step_on_tx|]. by intros []. Qed.

Lemma step_send_task t : step q0 (send_task o t) q0.
Proof.
  destruct t; cbn [send_task]; [| |apply step_ret];
    (eapply step_bind; [apply step_send_each|intros []]; eapply step_bind; [apply step_on_tx|intros []; apply step_ret]).
Qed.

Lemma step_get_schema_reply b m : step (b, Idle) (get_schema_reply env m) (b, Idle).
Proof.
  unfold get_schema_reply. eapply step_bind; [apply step_send_msg|]. intros []. eapply step_bind; [apply step_receive; by left|].
  intros reply. eapply step_bind; [apply step_lift|]. intros [d|]; [|by apply step_emit].
  repeat case_match; first [by apply step_emit | apply (step_write_fd b Stdout) | apply step_raise].
Qed.

Lemma step_close_session b closed : step (b, Idle) (close_session closed) (false, Finished).
Proof.
  unfold close_session. eapply step_bind with (q1 := (b, Idle)).
  { apply step_if; [apply step_ret|]. eapply step_bind; [apply step_send_msg|]. intros []. eapply step_bind; [apply step_receive; by left|].
    intros _. apply step_ret. }
  intros []. eapply step_bind; [apply step_close_link; by left|]. intros []. eapply step_bind with (q1 := (false, LinkClosed)).
  { intros w [Hl Ho]. split; [|done]. cbn. by rewrite after_events_snoc, Hl. }
  intros []. by apply step_emit.
Qed.

Lemma step_session t : step q0 (session env o fuel t) (false, Finished).
Proof.
  unfold session. eapply step_bind; [apply step_hello_exchange|]. intros reply. eapply step_bind; [apply step_send_task|]. intros m.
  cbn zeta. eapply step_bind; [apply step_lift|]. intros stop. eapply hoare_bind with (Q := λ _, between).
  - intros w Hw. apply replies_between. by exists true.
  - intros s w [b Hw]. revert w Hw. change (step (b, Idle) (_ ← (if do_get_schema o (style_sent o t) then get_schema_reply env (msg s) else mret tt);
      close_session (is_closed s)) (false, Finished)).
    eapply step_bind; [apply step_if; [apply step_get_schema_reply|apply step_ret]|]. intros []. apply step_close_session.
Qed.

Lemma step_print_lines l : step q0 (print_lines l) q0.
Proof. induction l as [|s l IH]; cbn [print_lines]; [apply step_ret|]. eapply step_bind; [apply step_write_out; by left|]. by intros []. Qed.

Lemma step_main args connect : step q0 (main env o fuel args connect) (false, Finished).
Proof.
  unfold main. eapply step_bind; [apply step_if; [apply step_write_out; by left|apply step_ret]|]. intros [].
  apply step_get. intros w. eapply step_bind; [apply step_lift|]. intros t. eapply step_bind; [by apply step_same|]. intros [].
  do 2 (eapply step_bind; [apply step_lift|]; intros []). eapply step_bind; [by apply step_same|]. intros [].
  eapply step_bind; [apply step_print_lines|]. intros []. eapply step_bind; [apply step_lift|]. intros []. apply step_session.
Qed.
End program.
End discipline.

(** C11: Every run, over any link and however the surroundings and the server behave, keeps
    the discipline of the output, also when it ends with an exception or Ctrl-C: nothing
    is written to a stream that was closed; an xmllint process is started only when
    there is no other, is fed only while its input is open, and is waited for after its
    input was closed.  A run that ends normally has closed the link and both streams and
    has left no process. *)
Theorem console_output {C : Type} `{Link C} conn_env (env : surroundings) (o : opts) (fuel : nat) (args : list pystr)
    (inc : list recv_event) (tx : C) (lines : list pystr) (r : res unit) (w : world C) :
  main env o fuel args (connect conn_env o) (start inc tx lines) = (r, w) →
  ∃ q, after_events (true, Idle) (log w) = Some q ∧ (r = Ok tt → q = (false, Finished)).
Proof.
  intros Hm. pose proof (step_main env o fuel args (connect conn_env o) (start inc tx lines) (conj eq_refl eq_refl)) as Hs.
  rewrite Hm in Hs. destruct r as [[]|e]; [exists (false, Finished); split; [apply Hs|done]|].
  destruct Hs as [q Hq]. by exists q.
Qed.

(** ** The raw style *)

Definition text_out (e : event) : pystr := match e with Out s => s | _ => [] end.
Definition printed (l : list event) : pystr := concat (text_out <$> l).

Lemma printed_snoc l e : printed (l ++ [e]) = printed l ++ text_out e.
Proof. unfold printed. rewrite fmap_app, concat_app. cbn. by rewrite app_nil_r. Qed.

Section raw.
Context {C : Type} `{Link C} (env : surroundings) (d : pystr).

Abbreviation M := (PyM (world C)).

(** What is printed and what is to come are the data of the server. *)
Definition prints_wire (w : world C) : Prop := trace w = true ∧ printed (log w) ++ inc_data (incoming (rx w)) = d.
Definition any (e : exn) (w : world C) : Prop := True.
Definition wired {A : Type} (m : M A) : Prop := stable prints_wire any m.

Lemma wired_bind {A B : Type} (m : M A) (f : A → M B) : wired m → (∀ a, wired (f a)) → wired (m ≫= f).
Proof. apply stable_bind. Qed.
Lemma wired_ret {A : Type} (a : A) : wired (mret a).
Proof. apply stable_ret. Qed.
Lemma wired_any {A : Type} (r : res A) : wired (lift r).
Proof. intros w Hw. by destruct r. Qed.
Lemma wired_raise {A : Type} e : wired (A := A) (raise e).
Proof. done. Qed.
Lemma wired_if {A : Type} (b : bool) (m1 m2 : M A) : wired m1 → wired m2 → wired (if b then m1 else m2).
Proof. by destruct b. Qed.
Lemma wired_decide {A : Type} (P : Prop) `{Decision P} (m1 m2 : M A) : wired m1 → wired m2 → wired (if decide P then m1 else m2).
Proof. by case_decide. Qed.

(** What leaves the link, the trace and the text on the standard output alone. *)
Lemma wired_same {A : Type} (m : M A) :
  (∀ w, trace (m w).2 = trace w ∧ printed (log (m w).2) = printed (log w) ∧ incoming (rx (m w).2) = incoming (rx w)) → wired m.
Proof.
  intros Hm w [Ht Hd]. destruct (Hm w) as (Ht' & Hp & Hi). destruct (m w) as [[a|e] w']; [|done]. cbn in *.
  split; [congruence|by rewrite Hp, Hi].
Qed.

Lemma wired_emit e : text_out e = [] → wired (emit e).
Proof. intros He. apply wired_same. intros w. split_and!; [done| |done]. change (printed (log w ++ [e]) = printed (log w)). by rewrite printed_snoc, He, app_nil_r. Qed.

Lemma wired_on_tx f : wired (on_tx f).
Proof. apply wired_same. intros w. unfold on_tx. by destruct (f (tx w)). Qed.

Lemma wired_send_msg m : wired (send_msg m).
Proof. destruct m; [apply wired_on_tx|done]. Qed.

Lemma write_segments_prints l (w : world C) :
  match write_segments l w with
  | (Ok _, w') => printed (log w') = printed (log w) ++ inc_data l ∧ trace w' = trace w ∧ rx w' = rx w
  | (Raise e, _) => e ≠ SocketTimeout
  end.
Proof.
  revert w. induction l as [|[s|] l IH]; intros w; cbn [write_segments].
  - cbn. by rewrite app_nil_r.
  - unfold mbind, PyM_bind, lift. cbn [str_data]. destruct (utf8_valid s); [|done]. unfold write_out, mbind, PyM_bind, get.
    destruct (out_open w); [|done]. cbn [emit modify]. specialize (IH (add_log (Out s) w)).
    unfold emit, modify. destruct (write_segments l _) as [[[]|e] w']; [|done]. destruct IH as (Hp & Ht & Hx).
    split_and!; [|done|done]. rewrite Hp. cbn [add_log log]. rewrite printed_snoc, inc_data_cons. cbn [ev_data text_out]. by rewrite app_assoc.
  - apply IH.
Qed.

(** The receive calls of the program take events from the front. *)
Lemma receive_prints {A : Type} (f : transport → res A * transport) :
  (∀ t, events_left (incoming (f t).2) (incoming t)) →
  hoare prints_wire (receive f) (λ _, prints_wire) (λ e w, e = SocketTimeout → prints_wire w).
Proof.
  intros Hf w [Ht Hd]. unfold receive. specialize (Hf (rx w)). destruct (f (rx w)) as [r t]. cbn [snd] in Hf.
  destruct Hf as [pre Hpre]. rewrite Ht. unfold mbind, PyM_bind, lift.
  rewrite Hpre, length_app, Nat.add_sub, take_app_exact.
  pose proof (write_segments_prints pre (set_rx t w)) as Hs. destruct (write_segments pre (set_rx t w)) as [[[]|e] w']; [|done].
  destruct Hs as (Hp & Htr & Hx). assert (prints_wire w') as Hw'.
  { split; [by rewrite Htr|]. rewrite Hp, Hx. cbn [set_rx log rx]. rewrite Hpre, inc_data_app in Hd. by rewrite <-app_assoc. }
  by destruct r.
Qed.

Lemma recv_chunk_front tmo t : events_left (incoming (recv_chunk tmo t).2) (incoming t).
Proof. destruct (recv_chunk tmo t) as [r t'] eqn:Hr. by apply recv_chunk_eats in Hr as (? & _). Qed.

Lemma wired_recv_msg tmo : wired (receive (recv_msg tmo)).
Proof.
  eapply hoare_weaken; [apply receive_prints|done|done|done].
  intros t. destruct (recv_msg tmo t) as [r t'] eqn:Hr. by apply recv_msg_left in Hr as (? & _).
Qed.

Lemma wired_next_chunk : wired (next_chunk env).
Proof.
  intros w Hw. unfold next_chunk. destruct (interrupted env (recvs w)); [done|].
  pose proof (receive_prints (recv_chunk (Some 1%Z)) (recv_chunk_front _) (count_recv w) Hw) as Hr.
  destruct (receive _ (count_recv w)) as [[c|e] w']; [done|]. destruct e; try done. by apply Hr.
Qed.

Section loops.
Context (o : opts) (fuel : nat) (hello_reply : pystr) (stop : Z).
Hypothesis Hint : interactive o = false.

Lemma wired_receive_reply f fl nchunks s :
  do_print s = false →
  hoare prints_wire (receive_reply env o hello_reply stop fl f nchunks s) (λ r w, prints_wire w ∧ do_print r.2 = false) any.
Proof.
  revert nchunks s. induction fl as [|fl IH]; intros nchunks s Hp; cbn [receive_reply]; [done|].
  assert (∀ s, do_print s = false → print_chunk (C := C) env f s = mret tt) as Hpc by (intros s' Hs'; unfold print_chunk; by rewrite Hs').
  destruct (hello o).
  { rewrite Hpc by (by case_decide). intros w Hw. cbn. split; [done|]. by case_decide. }
  eapply hoare_bind; [apply wired_next_chunk|]. intros [[code c]|]; [|by apply IH]. cbn zeta. rewrite Hpc by done.
  destruct (code <? 0)%Z.
  - intros w Hw. cbn. by case_decide.
  - eapply hoare_bind; [apply wired_ret|]. intros []. case_decide; [by intros w Hw|by apply IH].
Qed.

Lemma wired_one_reply s :
  do_print s = false →
  hoare prints_wire (one_reply env o fuel hello_reply (py"raw") stop s) (λ s' w, prints_wire w ∧ do_print s' = false) any.
Proof.
  intros Hp. unfold one_reply, pretty. rewrite Hp, Hint. cbn [andb]. eapply hoare_bind; [apply wired_ret|]. intros [].
  eapply hoare_bind with (Q := λ s1 w, s1 = s ∧ prints_wire w); [by intros w Hw|]. intros s1. apply hoare_pre. intros ->.
  eapply hoare_bind; [destruct (msg s); [apply wired_send_msg|apply wired_ret]|]. intros [].
  eapply hoare_bind; [by apply wired_receive_reply|]. intros [nchunks s2]. rewrite decide_False by (intros Hn; by apply Hn).
  by intros w [Hw Hs].
Qed.

Lemma wired_replies m schema s :
  do_print s = false → wired (replies env o fuel hello_reply (py"raw") stop m schema s).
Proof.
  revert s. induction m as [|m IH]; intros s Hp; cbn [replies]; [done|]. apply wired_bind.
  - unfold goes_on. apply wired_if; [apply wired_ret|]. apply wired_if; [apply wired_ret|]. by apply wired_same.
  - intros []; [|apply wired_ret]. eapply hoare_bind; [by apply wired_one_reply|]. intros s' w [Hw Hs]. by apply IH.
Qed.
End loops.

Lemma wired_close_session b : wired (close_session b).
Proof.
  unfold close_session. apply wired_bind.
  - apply wired_if; [apply wired_ret|]. apply wired_bind; [apply wired_send_msg|]. intros []. apply wired_bind; [apply wired_recv_msg|].
    intros _. apply wired_ret.
  - intros []. apply wired_bind; [by apply wired_emit|]. intros []. apply wired_bind; [|intros []; by apply wired_emit].
    apply wired_same. intros w. split_and!; [done| |done]. change (printed (log w ++ [CloseOut]) = printed (log w)). by rewrite printed_snoc, app_nil_r.
Qed.

Lemma wired_send_each raw_send l : wired (send_each raw_send l).
Proof. induction l as [|b l IH]; cbn [send_each]; [apply wired_ret|]. apply wired_bind; [apply wired_on_tx|]. by intros []. Qed.

Lemma wired_send_task o t : wired (send_task o t).
Proof.
  destruct t; cbn [send_task]; [| |apply wired_ret];
    (apply wired_bind; [apply wired_send_each|intros []]; apply wired_bind; [apply wired_on_tx|intros []; apply wired_ret]).
Qed.

Lemma wired_session o fuel t : interactive o = false → style o = py"raw" → wired (session env o fuel t).
Proof.
  intros Hint Hst. unfold session. assert (style_sent o t = py"raw") as Hss.
  { unfold style_sent. rewrite Hst. case_decide as Hd; [|done]. destruct Hd as (_ & _ & Hd). by vm_compute in Hd. }
  rewrite Hss. change (final_style (py"raw")) with (py"raw"). unfold do_get_schema.
  rewrite (bool_decide_eq_false_2 (_ ∧ py"raw" = py"default")) by (intros [_ Hd]; by vm_compute in Hd).
  apply wired_bind.
  - unfold hello_exchange. apply wired_bind; [destruct t; [apply wired_ret|apply wired_send_msg..]|]. intros [].
    apply wired_bind; [apply wired_recv_msg|]. intros reply. apply wired_bind; [apply wired_any|]. intros dd.
    apply wired_bind; [apply wired_any|]. intros fr. apply wired_bind; [|intros []; apply wired_ret].
    apply wired_decide; [by apply wired_same|apply wired_ret].
  - intros reply. apply wired_bind; [apply wired_send_task|]. intros m. cbn zeta. apply wired_bind; [apply wired_any|]. intros stop.
    apply wired_bind; [by apply wired_replies|]. intros s. apply wired_bind; [apply wired_ret|]. intros []. apply wired_close_session.
Qed.
End raw.

(** C12: In the raw style the program prints exactly the bytes that it reads from the link, from the
    server's hello to the reply to its close request, in their order, framing included,
    and nothing else; for every server, link and request that is not interactive.  The
    help of [-s raw] and the comment before [_recv] (netconf_console.py, lines 767 and
    1111) say that the framing is removed; it is not, the trace prints what was
    received. *)
Theorem raw_prints_wire {C : Type} `{Link C} conn_env (env : surroundings) (o : opts) (fuel : nat) (args : list pystr)
    (inc : list recv_event) (tx : C) (lines : list pystr) (w : world C) :
  style o = py"raw" → interactive o = false → debug o = false →
  (connect conn_env o).1 = [] → main env o fuel args (connect conn_env o) (start inc tx lines) = (Ok tt, w) →
  printed (log w) ++ inc_data (incoming (rx w)) = inc_data inc.
Proof.
  intros Hst Hint Hdb Hcon Hm. unfold main in Hm. rewrite Hdb, Hcon in Hm.
  set (w0 := start inc tx lines) in *.
  assert (∀ w1, rx w1 = __init__ inc ∧ log w1 = [] ∧ trace w1 = true → ∀ t w2, session env o fuel t w1 = (Ok tt, w2) →
    printed (log w2) ++ inc_data (incoming (rx w2)) = inc_data inc) as Hs.
  { intros w1 (Hr & Hl & Ht) t w2 Hw2. pose proof (wired_session env (inc_data inc) o fuel t Hint Hst w1) as Hw.
    rewrite Hw2 in Hw. apply Hw. split; [done|]. by rewrite Hl, Hr. }
  unfold mbind, PyM_bind, mret, PyM_ret, get, lift, modify in Hm. cbn [fst snd print_lines] in Hm.
  destruct (prepare _ _ _ _) as [t|e]; [|done]. destruct (if listen o && _ then _ else _) as [[]|e]; [|done].
  destruct (validate_options _ _) as [[]|e]; [|done]. destruct (connect conn_env o).2 as [[]|e]; [|done]. cbn in Hm. eapply (Hs _); [|exact Hm].
  rewrite Hst. cbn. by rewrite bool_decide_eq_true_2.
Qed.
