(* ===== verification/ConsoleProps.v ===== *)
(** * What the console prints

    The end-to-end theorem on Console: a request and its reply, over any link that
    keeps its laws, under both framings and for every cutting of the stream; witnesses
    for the theorems on the console, and its limits. *)

From Stdlib Require Import Ascii String.
From S2P Require Import Prelude PyStr Json Xml Hoare NetconfFraming NetconfMsgs Links Console ConsoleEnds ConsoleOutput.
From S2P Require Trace Connections.

(** ** Messages on the wire *)

(** The bytes that carry a message under a framing. *)
Inductive message (fr : Z) : pystr → pystr → Prop :=
  | marked text : fr = FRAMING_1_0 → no_eom text → Forall is_ascii7 text → message fr text (text ++ EOM_1_0)
  | chunked cs : fr = FRAMING_1_1 → Forall chunk_ok cs → message fr (concat cs) (chunks_1_1 cs ++ EOM_1_1).

(** A receiver between two messages. *)
Definition at_rest (fr : Z) (bytes : pystr) (t : transport) : Prop :=
  framing t = fr ∧ eom_found t = false ∧ live (Some 1%Z) (incoming t) ∧ stream t = bytes.

Lemma live_any tmo inc : live (Some 1%Z) inc → live tmo inc.
Proof. intros Hl. eapply Forall_impl; [exact Hl|]. by intros []. Qed.

Lemma live_left a b : events_left a b → live (Some 1%Z) b → live (Some 1%Z) a.
Proof. intros [p ->] Hl. by apply Forall_app in Hl as [_ ?]. Qed.

Lemma receives_left tmo t cs t' : receives tmo t cs t' → events_left (incoming t') (incoming t).
Proof.
  induction 1 as [t t' Hc|t c t1 cs t' Hc _ IH]; apply recv_chunk_eats in Hc as (Hl & _); [done|].
  by eapply events_left_trans.
Qed.

Lemma receives_message tmo fr text bytes rest t :
  message fr text bytes → at_rest fr (bytes ++ rest) t →
  ∃ cs t', receives tmo t cs t' ∧ concat cs = text ∧ length cs ≤ 1 + length bytes ∧ at_rest fr rest t'.
Proof.
  intros Hm (Hf & He & Hl & Hs). destruct Hm as [text -> Hno Ha|cs -> Hok]; rewrite <-app_assoc in Hs.
  - destruct (receives_1_0 tmo t text rest) as (cs & t' & Hr & Hcc & Hlen & Hf' & He' & _ & Hs'); try done; [by apply live_any|].
    exists cs, t'. split_and!; [done|done|rewrite length_app; lia|]. split_and!; [done|done| |done].
    eapply live_left; [by eapply receives_left|done].
  - destruct (receives_1_1 cs tmo t rest) as (t' & Hr & Hf' & He' & _ & Hs'); try done; [by apply live_any|].
    exists cs, t'. split_and!; [done|done| |].
    + rewrite length_app. pose proof (length_chunks_1_1 cs). lia.
    + split_and!; [done|congruence| |done]. eapply live_left; [by eapply receives_left|done].
Qed.

Lemma recv_msg_message tmo fr text bytes rest t :
  message fr text bytes → at_rest fr (bytes ++ rest) t →
  ∃ t', recv_msg tmo t = (Ok text, t') ∧ at_rest fr rest t'.
Proof.
  intros Hm Ht. destruct (receives_message tmo fr text bytes rest t Hm Ht) as (cs & t' & Hr & Hcc & Hlen & Ht').
  exists t'. split; [|done]. unfold recv_msg. erewrite recv_msg_go_receives; [by rewrite Hcc|done|].
  destruct Ht as (_ & _ & _ & Hs). apply (f_equal length) in Hs. unfold stream in Hs. rewrite !length_app in Hs. lia.
Qed.

Section reply.
Context {C : Type} `{LinkLaws C} (env : surroundings).
Hypothesis Hint : ∀ k, interrupted env k = false.
Hypothesis Hproc : ∀ k, xmllint_proc env k = Proc None 0.

(** What a printed chunk shows. *)
Definition out_event (f : fd) (c : pystr) : event := match f with Pipe => Feed c | Stdout => Out c end.

(** The parts of the world that receiving a reply leaves alone. *)
Definition frame (w w' : world C) : Prop :=
  tx w' = tx w ∧ trace w' = trace w ∧ out_open w' = out_open w ∧ stdin w' = stdin w.

Lemma frame_refl w : frame w w.
Proof. by split_and!. Qed.
Lemma frame_trans w1 w2 w3 : frame w1 w2 → frame w2 w3 → frame w1 w3.
Proof. unfold frame. naive_solver congruence. Qed.

(** A step that only adds to the log. *)
Definition logs (m : PyM (world C) unit) (w : world C) (es : list event) : Prop :=
  ∃ w', m w = (Ok tt, w') ∧ frame w w' ∧ rx w' = rx w ∧ log w' = log w ++ es.

Lemma use_pipe_logs w : logs (use_pipe env) w [].
Proof.
  unfold logs, use_pipe, mbind, PyM_bind, get, the_proc. rewrite Hproc. cbn. eexists. split; [done|]. split; [by split_and!|].
  by rewrite app_nil_r.
Qed.

Lemma write_fd_logs f c w : out_open w = true → logs (write_fd env f c) w [out_event f c].
Proof.
  intros Ho. unfold logs, write_fd, write_to. destruct f.
  - unfold write_out, mbind, PyM_bind, get. rewrite Ho. eexists. split; [done|]. by split_and!.
  - destruct (use_pipe_logs w) as (w' & Hw & Hf & Hr & Hl). unfold mbind, PyM_bind. rewrite Hw. cbn.
    eexists. split; [done|]. cbn. rewrite Hl, app_nil_r. by split_and!.
Qed.

Lemma receive_quiet {A : Type} (f : transport → res A * transport) (w : world C) :
  trace w = false → receive f w = ((f (rx w)).1, set_rx (f (rx w)).2 w).
Proof. intros Ht. unfold receive. rewrite Ht. by destruct (f (rx w)). Qed.

Lemma receive_reply_receives o hr t cs t' (w : world C) f nch s fl :
  receives (Some 1%Z) t cs t' → rx w = t → length cs < fl → hello o = false → trace w = false → out_open w = true →
  do_print s = true →
  ∃ w' s', receive_reply env o hr 0 fl f nch s w = (Ok (S (nch + length cs), s'), w') ∧ frame w w' ∧ rx w' = t' ∧
    log w' = log w ++ (out_event f <$> cs ++ [[]]) ∧
    n s' = n s ∧ do_print s' = true ∧ is_closed s' = is_closed s ∧ msg s' = msg s ∧ replay_complete s' = replay_complete s.
Proof.
  intros Hr. revert w nch s fl. induction Hr as [t t' Hc|t c t1 cs t' Hc _ IH]; intros w nch s [|fl] Hrx Hfl Hh Ht Ho Hp; try (cbn in Hfl; lia);
    cbn [receive_reply]; rewrite Hh; unfold mbind at 1, PyM_bind at 1; unfold next_chunk; rewrite Hint, receive_quiet by done;
    cbn [count_recv rx]; rewrite Hrx, Hc; cbn [fst snd]; change (_ <? 0)%Z with false; cbv iota zeta;
    unfold mbind at 1, PyM_bind at 1, print_chunk; cbn [add_latest set_chunk do_print chunk_text]; rewrite Hp.
  - destruct (write_fd_logs f [] (set_rx t' (count_recv w))) as (w' & -> & Hf & Hx & Hl); [done|]. rewrite decide_True by done.
    eexists w', _. split; [cbn; rewrite Nat.add_0_r; reflexivity|]. cbn [full_message n do_print is_closed msg replay_complete add_latest set_chunk].
    split_and!; try done. by rewrite orb_false_r.
  - destruct (write_fd_logs f c (set_rx t1 (count_recv w))) as (w1 & -> & Hf & Hx & Hl); [done|]. rewrite decide_False by done.
    pose proof Hf as (Hf1 & Hf2 & Hf3 & Hf4).
    destruct (IH w1 (S nch) (add_latest (set_chunk (n s) c s)) fl) as (w' & s' & -> & Hf' & Hx' & Hl' & Hs); try done;
      [cbn in Hfl; lia|by rewrite Hf2|by rewrite Hf3|].
    exists w', s'. cbn [length]. rewrite Nat.add_succ_r. split; [done|]. split_and!; try apply Hs; try done.
    + eapply frame_trans; [|exact Hf']. by split_and!.
    + rewrite Hl', Hl. cbn. by rewrite <-app_assoc.
Qed.

Definition piped (style : pystr) : bool := bool_decide (style ∈ [py"pretty"; py"all"; py"noaaa"]).

(** What one reply, in these chunks, shows in a style. *)
Definition reply_log (style : pystr) (cs : list pystr) : list event :=
  if piped style then Spawn (xmllint style) :: (Feed <$> cs ++ [[]]) ++ [EndFeed; Wait 0]
  else (Out <$> cs ++ [[]]) ++ [CloseOut].

(** Sending a message over the link. *)
Definition sends (m : pystr) (c c' : C) : Prop :=
  ready c' ∧ l_framing c' = l_framing c ∧ wire c' = wire c ++ on_wire (l_framing c) m.

Lemma send_msg_sends m w : ready (tx w) → ∃ c', send_msg (Some m) w = (Ok tt, set_tx c' w) ∧ sends m (tx w) c'.
Proof.
  intros Hr. destruct (send_msg_law m (tx w) Hr) as (c' & Hs & Hr' & Hf & Hw). exists c'. split; [|by split_and!].
  unfold send_msg, on_tx. by rewrite Hs.
Qed.

Lemma close_pipe_logs w : logs (close_fd env Pipe) w [EndFeed].
Proof.
  destruct (use_pipe_logs w) as (w' & Hw & Hf & Hr & Hl). unfold logs, close_fd, mbind, PyM_bind. rewrite Hw. cbn.
  eexists. split; [done|]. cbn. rewrite Hl, app_nil_r. by split_and!.
Qed.

(** The loop's variables before the reply to a message. *)
Definition asking (m : pystr) (k : Z) (s : loop) : Prop :=
  n s = k ∧ do_print s = true ∧ is_closed s = false ∧ msg s = Some m ∧ replay_complete s = false.

Context (o : opts).
Hypothesis Hhello : hello o = false.
Hypothesis Hinter : interactive o = false.
Hypothesis Hsub : subscribes o = false.

Lemma one_reply_shows fuel hr style m s fr text bytes rest (w : world C) :
  asking m 1 s → style ≠ py"raw" → message fr text bytes → at_rest fr (bytes ++ rest) (rx w) → 2 + length bytes ≤ fuel →
  trace w = false → out_open w = true → ready (tx w) →
  ∃ w' s' cs, one_reply env o fuel hr style 0 s w = (Ok s', w') ∧ concat cs = text ∧
    n s' = 0%Z ∧ is_closed s' = false ∧ msg s' = Some m ∧ log w' = log w ++ reply_log style cs ∧
    trace w' = false ∧ at_rest fr rest (rx w') ∧ sends m (tx w) (tx w').
Proof.
  intros (Hn & Hp & Hcl & Hmsg & Hrc) Hraw Hm Ht Hfuel Htr Ho Hready.
  destruct (receives_message (Some 1%Z) fr text bytes rest _ Hm Ht) as (cs & t' & Hr & Hcc & Hlen & Ht').
  unfold one_reply, pretty. rewrite Hp, Hinter, Hsub. cbn [andb]. fold (piped style).
  set (f := if piped style then Pipe else Stdout).
  set (w1 := if piped style then new_proc (xmllint style) w else w).
  assert ((if piped style then modify (new_proc (xmllint style)) else mret tt) w = (Ok tt, w1)) as Hstart.
  { unfold w1. by destruct (piped style). }
  unfold mbind at 1, PyM_bind at 1. rewrite Hstart. unfold mbind at 1, PyM_bind at 1. cbn [mret PyM_ret]. rewrite Hmsg.
  assert (rx w1 = rx w ∧ tx w1 = tx w ∧ trace w1 = false ∧ out_open w1 = true ∧
    log w1 = log w ++ (if piped style then [Spawn (xmllint style)] else [])) as (Hrx & Htx & Htr1 & Ho1 & Hl1).
  { unfold w1. destruct (piped style); cbn; split_and!; try done. by rewrite app_nil_r. }
  destruct (send_msg_sends m w1) as (c' & Hsend & Hc'); [by rewrite Htx|]. rewrite Htx in Hc'.
  unfold mbind at 1, PyM_bind at 1. rewrite Hsend. cbv beta iota.
  destruct (receive_reply_receives o hr _ cs t' (set_tx c' w1) f 0 s fuel Hr) as (w2 & s2 & Hrr & (Hf1 & Hf2 & Hf3 & _) & Hx & Hl & Hs2); try done; [lia|].
  destruct Hs2 as (Hn2 & Hp2 & Hcl2 & Hm2 & Hrc2). unfold mbind at 1, PyM_bind at 1. rewrite Hrr. cbv beta iota.
  rewrite (decide_True (P := style ≠ py"raw")) by done. subst f w1.
  destruct (piped style) eqn:Hpi; unfold reply_log; rewrite Hpi.
  - destruct (close_pipe_logs w2) as (w3 & Hu & (Hu1 & Hu2 & Hu3 & _) & Hux & Hul). unfold mbind at 1, PyM_bind at 1. rewrite Hu. cbv beta iota.
    unfold mbind, PyM_bind, get, the_proc, emit, modify. rewrite Hproc. cbn [returncode check_xmllint Nat.ltb Nat.leb]. cbn -[add_log].
    eexists _, _, cs. split; [reflexivity|]. case_decide; cbn [n do_print is_closed msg set_do_print]; (split_and!;
      [done|by rewrite Hn2, Hn|by rewrite Hcl2|by rewrite Hm2| |cbn; by rewrite Hu2, Hf2|cbn; by rewrite Hux, Hx|cbn; by rewrite Hu1, Hf1];
      cbn [add_log log]; rewrite Hul, Hl; cbn [set_tx log]; rewrite Hl1, <-!app_assoc; done).
  - unfold close_fd, mbind, PyM_bind, modify, mret, PyM_ret. cbv beta iota. eexists _, _, cs. split; [reflexivity|]. cbn [n do_print is_closed msg].
    split_and!; [done|by rewrite Hn2, Hn|by rewrite Hcl2|by rewrite Hm2| |cbn; by rewrite Hf2|cbn; by rewrite Hx|cbn; by rewrite Hf1].
    cbn [close_out log]. rewrite Hl. cbn [set_tx log]. rewrite Hl1, app_nil_r, <-!app_assoc. done.
Qed.

Lemma replies_one fuel hr style m s fr text bytes rest (w : world C) :
  asking m 1 s → style ≠ py"raw" → message fr text bytes → at_rest fr (bytes ++ rest) (rx w) → 2 + length bytes ≤ fuel →
  trace w = false → out_open w = true → ready (tx w) →
  ∃ w' s' cs, replies env o fuel hr style 0 fuel false s w = (Ok s', w') ∧ concat cs = text ∧
    is_closed s' = false ∧ log w' = log w ++ reply_log style cs ∧
    trace w' = false ∧ at_rest fr rest (rx w') ∧ sends m (tx w) (tx w').
Proof.
  intros Ha Hraw Hm Ht Hfuel Htr Ho Hready.
  destruct (one_reply_shows fuel hr style m s fr text bytes rest w) as (w' & s' & cs & Hone & Hcc & Hn & Hcl & _ & Hl & Htr' & Ht' & Hs); [done..|].
  exists w', s', cs. split; [|done]. destruct Ha as (Hn0 & _ & Hcl0 & _).
  assert (∀ (k : world C) s, goes_on env o 0 false s k = (Ok (negb (is_closed s || bool_decide (n s = 0%Z))), k)) as Hgo.
  { intros k s1. unfold goes_on. rewrite Hinter. cbn [negb]. rewrite andb_true_r, orb_false_r. by destruct (_ || _). }
  destruct fuel as [|[|fuel]]; [lia|lia|]. cbn [replies]. unfold mbind at 1, PyM_bind at 1. rewrite Hgo, Hcl0, Hn0. cbn [orb negb].
  unfold mbind at 1, PyM_bind at 1. rewrite (bool_decide_eq_false_2 (1%Z = 0%Z)) by done. cbn [negb]. rewrite Hone. cbv beta iota.
  unfold mbind at 1, PyM_bind at 1. rewrite Hgo, Hcl, Hn. by rewrite bool_decide_eq_true_2.
Qed.

(** *** The session *)

(** [close_session] on a link whose server answers. *)
Lemma close_session_log fr text bytes rest w :
  message fr text bytes → at_rest fr (bytes ++ rest) (rx w) → trace w = false → ready (tx w) →
  ∃ w', close_session false w = (Ok tt, w') ∧ log w' = log w ++ [CloseLink; CloseOut; CloseErr] ∧
    at_rest fr rest (rx w') ∧ sends close_msg (tx w) (tx w').
Proof.
  intros Hm Ht Htr Hready. destruct (send_msg_sends close_msg w Hready) as (c' & Hsend & Hc').
  destruct (recv_msg_message None fr text bytes rest (rx w) Hm Ht) as (t' & Hr & Ht').
  assert ((_ ← send_msg (Some close_msg); _ ← receive (recv_msg None); mret tt) w = (Ok tt, set_rx t' (set_tx c' w))) as Hex.
  { unfold mbind, PyM_bind. rewrite Hsend. rewrite receive_quiet by done. cbn [set_tx rx]. by rewrite Hr. }
  unfold close_session. cbv iota. unfold mbind at 1, PyM_bind at 1. rewrite Hex. cbv beta iota.
  eexists. split; [reflexivity|]. cbn. split_and!; [by rewrite <-!app_assoc|done|done].
Qed.

(** The hellos: both sides are at rest in the framing that was agreed on. *)
Lemma hello_exchange_agrees m hello_text hb rest d fr w :
  message FRAMING_1_0 hello_text hb → at_rest FRAMING_1_0 (hb ++ rest) (rx w) →
  parseString env hello_text = Ok d → negotiate (advertised o (Request m)) d = Ok fr → (fr = FRAMING_1_0 ∨ fr = FRAMING_1_1) →
  trace w = false → ready (tx w) → l_framing (tx w) = FRAMING_1_0 →
  ∃ w', hello_exchange env o (Request m) w = (Ok hello_text, w') ∧ log w' = log w ∧ trace w' = false ∧ out_open w' = out_open w ∧
    at_rest fr rest (rx w') ∧ ready (tx w') ∧ l_framing (tx w') = fr ∧
    wire (tx w') = wire (tx w) ++ on_wire FRAMING_1_0 (hello_msg (advertised o (Request m))).
Proof.
  intros Hm Ht Hd Hn Hfr Htr Hready Hf0.
  destruct (send_msg_sends (hello_msg (advertised o (Request m))) w Hready) as (c' & Hsend & Hr' & Hf' & Hw').
  destruct (recv_msg_message None FRAMING_1_0 hello_text hb rest (rx w) Hm Ht) as (t' & Hr & Ht').
  rewrite Hf0 in Hf', Hw'.
  unfold hello_exchange. unfold mbind at 1, PyM_bind at 1. rewrite Hsend. cbv beta iota.
  unfold mbind at 1, PyM_bind at 1. rewrite receive_quiet by done. cbn [set_tx rx]. rewrite Hr. cbn [fst snd].
  unfold mbind at 1, PyM_bind at 1, lift at 1. rewrite Hd. unfold mbind at 1, PyM_bind at 1, lift at 1. rewrite Hn.
  unfold mbind, PyM_bind, mret, PyM_ret. destruct Ht' as (Ht1 & Ht2 & Ht3 & Ht4). case_decide as Hc; [subst fr|destruct Hfr as [->|]; [|done]].
  - eexists. split; [reflexivity|]. cbn -[l_set_framing FRAMING_1_1]. split_and!; try done; [by apply ready_set_framing|by apply framing_set|by rewrite wire_set].
  - eexists. split; [reflexivity|]. cbn. by split_and!.
Qed.

Lemma session_shows fuel m w hello_text hb d fr reply rb closing cb rest :
  let style := final_style (style o) in
  message FRAMING_1_0 hello_text hb → message fr reply rb → message fr closing cb →
  at_rest FRAMING_1_0 (hb ++ rb ++ cb ++ rest) (rx w) →
  parseString env hello_text = Ok d → negotiate (advertised o (Request (Some m))) d = Ok fr → (fr = FRAMING_1_0 ∨ fr = FRAMING_1_1) →
  iter o = 1%Z → style ≠ py"raw" → do_get_schema o (Console.style_sent o (Request (Some m))) = false →
  2 + length rb ≤ fuel → trace w = false → out_open w = true → ready (tx w) → l_framing (tx w) = FRAMING_1_0 →
  ∃ w' cs, session env o fuel (Request (Some m)) w = (Ok tt, w') ∧ concat cs = reply ∧
    log w' = log w ++ reply_log style cs ++ [CloseLink; CloseOut; CloseErr] ∧
    wire (tx w') = wire (tx w) ++ on_wire FRAMING_1_0 (hello_msg (advertised o (Request (Some m)))) ++ on_wire fr m ++ on_wire fr close_msg ∧
    stream (rx w') = rest.
Proof.
  intros style Hhm Hrm Hcm Ht Hd Hn Hfr Hiter Hraw Hgs Hfuel Htr Ho Hready Hf0.
  destruct (hello_exchange_agrees (Some m) hello_text hb (rb ++ cb ++ rest) d fr w) as (w1 & Hh & Hl1 & Htr1 & Ho1 & Ht1 & Hr1 & Hf1 & Hw1); try done.
  unfold session. unfold mbind at 1, PyM_bind at 1. rewrite Hh. cbv beta iota.
  unfold mbind at 1, PyM_bind at 1. cbn [send_task mret PyM_ret]. rewrite Hgs, Hhello, Hsub, Hinter, Hiter. cbn [is_request andb orb].
  assert (style_sent o (Request (Some m)) = NetconfMsgs.style o) as Hss.
  { unfold style_sent. rewrite Hsub, Hinter. by rewrite decide_False by naive_solver. }
  rewrite Hss. fold style. unfold mbind at 1, PyM_bind at 1, lift, stop_at. rewrite Hsub, decide_False by naive_solver. cbv beta iota.
  destruct (replies_one fuel hello_text style m
    (Loop 1 (negb (bool_decide (style = py"raw"))) false [] (Some m) false [] false) fr reply rb (cb ++ rest) w1) as
    (w2 & s2 & cs & Hrep & Hcc & Hcl & Hl2 & Htr2 & Ht2 & Hr2 & Hf2 & Hw2); try done; [|by rewrite Ho1|].
  { split_and!; try done. cbn. by rewrite bool_decide_eq_false_2. }
  unfold mbind at 1, PyM_bind at 1. cbn [first_message]. rewrite Hrep. cbv beta iota. unfold mbind at 1, PyM_bind at 1. cbn [mret PyM_ret].
  rewrite Hcl. destruct (close_session_log fr closing cb rest w2) as (w3 & Hcs & Hl3 & Ht3 & _ & _ & Hw3); try done.
  exists w3, cs. split_and!; [done|done| | |apply Ht3].
  - by rewrite Hl3, Hl2, Hl1, <-app_assoc.
  - by rewrite Hw3, Hf2, Hw2, Hf1, Hw1, <-!app_assoc.
Qed.
End reply.

(** ** Properties *)

(** A command line that asks for one reply, printed in a style other than raw: a message
    from the options, valid options, no session of its own kind. *)
Record plain_request (env : surroundings) (o : opts) (m : pystr) : Prop := {
  pr_message : ∀ C (inc : list recv_event) (tx : C) lines, prepare env o (start inc tx lines) None = Ok (Request (Some m));
  pr_valid : validate_options (have_paramiko env) o = Ok tt;
  pr_listen : listen o = true → proto o = py"ssh";
  pr_debug : debug o = false;
  pr_hello : hello o = false;
  pr_interactive : interactive o = false;
  pr_subscribes : subscribes o = false;
  pr_iter : iter o = 1%Z;
  pr_style : final_style (style o) ≠ py"raw";
  pr_schema : do_get_schema o (style o) = false }.

(** A server: its hello, which makes both sides agree on a framing, its reply to the
    request and to the close request, each carried as a message, in any pieces. *)
Record serves (env : surroundings) (o : opts) (fr : Z) (reply : pystr) (size : nat) (inc : list recv_event) (rest : pystr) : Prop := {
  sv_live : live (Some 1%Z) inc;
  sv_fr : fr = FRAMING_1_0 ∨ fr = FRAMING_1_1;
  sv_stream : ∃ hello hb d rb closing cb, inc_data inc = hb ++ rb ++ cb ++ rest ∧
    message FRAMING_1_0 hello hb ∧ message fr reply rb ∧ message fr closing cb ∧ length rb = size ∧
    parseString env hello = Ok d ∧ negotiate (versions false (version o)) d = Ok fr }.


(** ** Witnesses *)

(** A resolver, sockets and paramiko that let everything through. *)
Definition ex_conn : Trace.environment Connections.effect := λ A _ e,
  match e in Connections.effect A return res A with
  | Connections.EGetAddrInfo _ _ _ _ => Ok [Connections.AddrInfo 10 1 6 [] (py"::1"); Connections.AddrInfo 2 1 6 [] (py"127.0.0.1")]
  | Connections.ESocket f _ _ => Ok (if decide (f = 2%Z) then inr 3 else inl (py"no IPv6"))
  | Connections.EConnect _ _ => Ok (inr tt)
  | Connections.EAccept _ => Ok (4, py"('127.0.0.1', 830)")
  | Connections.ETransport _ => Ok 5
  | Connections.EPrivateKey _ _ => Ok 6
  | Connections.EOpenSession _ => Ok 7
  | Connections.EGetSockName _ => Ok (py"127.0.0.1")
  | Connections.EGetUid | Connections.EGetGid => Ok 1000%Z
  | Connections.EGetEnv _ d => Ok d
  | Connections.ESend _ b => Ok (inr (Z.of_nat (length b)))
  | Connections.ECloseSocket _ | Connections.EReuseAddr _ | Connections.EBind _ _ _ | Connections.EListen _ _ | Connections.EPrint _ | Connections.EAuthenticate _ _ _ | Connections.EInvokeSubsystem _ _ => Ok tt
  end.

Lemma ex_conn_connects : connect ex_conn default_opts = ([], Ok tt).
Proof. vm_compute. reflexivity. Qed.

(** A parser that sees a hello with the chunked framing in every text. *)
Definition ex_hello_dom : dom :=
  DomElem NC_NS (py"hello") [DomElem NC_NS (py"capabilities") [DomElem NC_NS (py"capability") [DomText BASE_1_1]]].
Definition ex_env : surroundings :=
  Surroundings (λ _, 0%Z) (λ _, false) (λ _, Proc None 0)
    (λ s, if decide (s = []) then Raise PyException else Ok (Some ex_hello_dom)) (λ _, Raise PyException) true 1.

(** --get, with a style and a number of iterations. *)
Definition get_opts (st : pystr) (it : Z) : opts :=
  {| version := None; debug := false; username := py"admin"; password := py"admin"; proto := py"ssh";
     host := py"localhost"; port := 2022; listen := false; listen_address := py"0.0.0.0";
     listen_port := 4334; iter := it; interactive := false; style := st; privKeyType := []; privKeyFile := [];
     groups := []; supgroups := []; hello := false; get_ := true; getConfig := None; getData := None; max_depth := [];
     config_filter := None; subtree_filter := []; db := py"running"; wdefaults := []; winactive := false; xpath := [];
     kill_session := []; discard_changes := false; commit := false; validate := false; copy_running_to_startup := false;
     copy := []; edit := []; edit_data := []; get_schema := None; create_subscription := None;
     establish_subscription := None; rpc := []; start_time := []; stop_time := []; rpc_attribute := [] |}.

Definition get_request (o : opts) : pystr := match get_msg no_file (py"get") [] o with Ok m => m | Raise _ => [] end.

(** The server's hello, two replies and the reply to the close request, cut anywhere. *)
Definition ex_server : list recv_event :=
  [Data (py"<hello/>]]>"); Data (py"]]>" ++ nl ++ py"#5" ++ nl ++ py"<a"); Data (py"/>" ++ py"." ++ EOM_1_1);
   Data (chunks_1_1 [py"<ok/>"] ++ EOM_1_1)].
Definition ex_server_2 : list recv_event :=
  [Data (py"<hello/>" ++ EOM_1_0); Data (chunks_1_1 [py"<a/>"] ++ EOM_1_1); Data (chunks_1_1 [py"<b/>"] ++ EOM_1_1);
   Data (chunks_1_1 [py"<ok/>"] ++ EOM_1_1)].

Lemma ex_plain_request : plain_request ex_env (get_opts (py"default") 1) (get_request (get_opts (py"default") 1)).
Proof. constructor; [intros; by vm_compute|by vm_compute..|vm_compute; discriminate|by vm_compute]. Qed.

Lemma ex_serves : serves ex_env (get_opts (py"default") 1) FRAMING_1_1 (py"<a/>.") 13 ex_server [].
Proof.
  constructor; [repeat constructor; vm_decide|by right|].
  exists (py"<hello/>"), (py"<hello/>" ++ EOM_1_0), (Some ex_hello_dom), (chunks_1_1 [py"<a/>."] ++ EOM_1_1), (py"<ok/>"), (chunks_1_1 [py"<ok/>"] ++ EOM_1_1).
  split_and!; [reflexivity| | | |reflexivity|reflexivity|reflexivity].
  - apply marked; [done|reflexivity|vm_decide].
  - apply (chunked FRAMING_1_1 [py"<a/>."]); [done|]. apply Forall_singleton. split_and!; [done|vm_compute; congruence|vm_decide].
  - apply (chunked FRAMING_1_1 [py"<ok/>"]); [done|]. apply Forall_singleton. split_and!; [done|vm_compute; congruence|vm_decide].
Qed.


Lemma ex_env_ends : env_ends ex_env.
Proof. constructor; [intros s; cbn; by case_decide|done|done]. Qed.

Lemma console_ends_witness :
  (program ex_conn ex_env (get_opts (py"all") (-1)) 200 [] (start [Quiet; Data (py"<hello/>]]>]]>"); Quiet; Data (py"junk")] (Tcp FRAMING_1_0 [] []) [])).1
    ≠ Raise OutOfFuel.
Proof.
  apply (console_ends ex_conn ex_env (get_opts (py"all") (-1)) 200 [] [Quiet; Data (py"<hello/>]]>]]>"); Quiet; Data (py"junk")] (Tcp FRAMING_1_0 [] []) []);
    [apply ex_env_ends|reflexivity|vm_compute; discriminate|vm_compute; lia].
Defined.

Definition ex_raw_run := main ex_env (get_opts (py"raw") 1) 20 [] (connect ex_conn (get_opts (py"raw") 1)) (start ex_server (new_sender FRAMING_1_0) []).

Lemma raw_prints_wire_witness : printed (log ex_raw_run.2) ++ inc_data (incoming (rx ex_raw_run.2)) = inc_data ex_server.
Proof.
  apply (raw_prints_wire ex_conn ex_env (get_opts (py"raw") 1) 20 [] ex_server (new_sender FRAMING_1_0) [] ex_raw_run.2);
    [reflexivity|reflexivity|reflexivity|vm_compute; reflexivity|vm_compute; reflexivity].
Defined.

Lemma console_output_witness :
  ∃ q, after_events (true, Idle) (log ex_raw_run.2) = Some q ∧ (Ok tt = Ok tt → q = (false, Finished)).
Proof.
  apply (console_output ex_conn ex_env (get_opts (py"raw") 1) 20 [] ex_server (new_sender FRAMING_1_0) [] (Ok tt) ex_raw_run.2).
  vm_compute. reflexivity.
Defined.

(** ** Limits *)

(** The standard output is closed after the first reply: a second one in the plain
    style ends the program with a message on xmllint. *)
Lemma plain_second_reply :
  let '(r, w) := program ex_conn ex_env (get_opts (py"plain") 2) 20 [] (start ex_server_2 (new_sender FRAMING_1_0) []) in
  r = Ok 1%Z ∧ log w = [Out (py"<a/>"); Out []; CloseOut; Err (xmllint_missing ++ nl)].
Proof. vm_compute. done. Qed.

(** In the pretty style only the first of the replies is printed. *)
Lemma pretty_second_reply :
  let '(r, w) := program ex_conn ex_env (get_opts (py"pretty") 2) 20 [] (start ex_server_2 (new_sender FRAMING_1_0) []) in
  r = Ok 0%Z ∧ log w = reply_log (py"pretty") [py"<a/>"] ++ [CloseOut; CloseLink; CloseOut; CloseErr].
Proof. vm_compute. done. Qed.

(** At the end of the standard input an interactive session reads empty lines for ever. *)
Lemma read_msg_eof {C : Type} (w : world C) fuel t : stdin w = Some [] → (read_lines fuel t w).1 = Raise OutOfFuel.
Proof.
  intros Hw. revert t. induction fuel as [|k IH]; intros t; [done|]. cbn [read_lines].
  assert (readline w = (Ok [], w)) as Hr by (unfold readline, mbind, PyM_bind, get; by rewrite Hw).
  unfold mbind at 1, PyM_bind at 1. rewrite Hr. rewrite decide_False by done. apply IH.
Qed.

(** --get-schema with a file of commands has no message to send. *)
Lemma get_schema_without_message {C : Type} `{Link C} (env : surroundings) (w : world C) :
  (get_schema_reply env None w).1 = Raise TypeError.
Proof. reflexivity. Qed.

(** A pause adds the last chunk once more to the text that is searched for the end of a
    replay, which can then be found where it is not. *)
Lemma pause_completes_replay :
  let c := py"<replayComplete/><notification/>" in replay_completed c = false ∧ replay_completed (c ++ c) = true.
Proof. vm_compute. done. Qed.
