(* ===== verification/OptParse.v ===== *)
(** * optparse

    What netconf_console.py uses of Python's optparse module: options that store a text
    or an integer, flags, callbacks that read further arguments, help, abbreviations of
    long options, joined short options, [=], [--], and arguments between options.  The
    steps are those of the module's [parse_args].  No counterpart under src/. *)

From Stdlib Require Import Ascii String.
From S2P Require Import Prelude PyStr PyDict.
From S2P Require ArgParse.

(** ** Parsers *)

Inductive value :=
  | VNone
  | VStr (s : pystr)
  | VInt (z : Z)
  | VTrue.

#[export] Instance value_eq_dec : EqDecision value.
Proof. solve_decision. Defined.

(** [optparse.Values]: the attributes that there are. *)
Definition values : Type := list (pystr * value).

Inductive conv := CStr | CInt.

(** A callback reads and writes the values and the arguments that are left. *)
Inductive action :=
  | Store (c : conv)
  | StoreTrue
  | Callback (f : values → list pystr → values * list pystr)
  | Help.

(** An option; [dest] is the attribute with its default, if it has one. *)
Record opt := Opt { strings : list pystr; act : action; dest : option (pystr * value) }.

Definition help_option : opt := Opt [py"-h"; py"--help"] Help None.

Definition exit_2 {A} : res A := Raise (SystemExit 2).
Definition exit_0 {A} : res A := Raise (SystemExit 0).

Section parser.
(** The options, in the order in which they were added. *)
Variable options : list opt.

Definition table : list (pystr * opt) := concat ((λ o, (λ s, (s, o)) <$> strings o) <$> options).

(** [get_default_values] *)
Definition defaults : values := omap dest options.

(** ** Conversions *)

Definition hex_val (c : ascii) : option Z :=
  let n := nat_of_ascii c in
  if (48 <=? n)%nat && (n <=? 57)%nat then Some (Z.of_nat (n - 48))
  else if (97 <=? n)%nat && (n <=? 102)%nat then Some (Z.of_nat (n - 87))
  else if (65 <=? n)%nat && (n <=? 70)%nat then Some (Z.of_nat (n - 55))
  else None.

Definition digit_in (base : Z) (c : ascii) : option Z := z ← hex_val c; if (z <? base)%Z then Some z else None.

(** Digits with single underscores between them. *)
Fixpoint digits_in (base : Z) (s : pystr) (acc : Z) : option Z :=
  match s with
  | [] => Some acc
  | c :: s' =>
      match digit_in base c with
      | Some d => digits_in base s' (acc * base + d)%Z
      | None => if decide (c = "_"%char) then
                  match s' with
                  | d :: _ => if digit_in base d is Some _ then digits_in base s' acc else None
                  | [] => None
                  end
                else None
      end
  end.

(** [int(s, base)]: the prefix of the base may be there, with an underscore after it. *)
Definition prefix_letter (base : Z) : pystr :=
  if decide (base = 16%Z) then py"xX" else if decide (base = 8%Z) then py"oO" else if decide (base = 2%Z) then py"bB" else [].

Definition unsigned_in (base : Z) (s : pystr) : option Z :=
  let s := match s with
           | z :: x :: s' =>
               if decide (z = "0"%char ∧ x ∈ prefix_letter base)
               then match s' with "_"%char :: s'' => s'' | _ => s' end else s
           | _ => s
           end in
  match s with
  | c :: _ => if digit_in base c is Some _ then digits_in base s 0 else None
  | [] => None
  end.

Definition int_in (base : Z) (s : pystr) : option Z :=
  match strip s with
  | c :: s' =>
      if decide (c = "-"%char) then Z.opp <$> unsigned_in base s'
      else if decide (c = "+"%char) then unsigned_in base s'
      else unsigned_in base (c :: s')
  | [] => None
  end.

(** [_parse_int]: hexadecimal, binary or octal after a prefix, decimal otherwise. *)
Definition parse_int (s : pystr) : option Z :=
  if decide (take 2 s ∈ [py"0x"; py"0X"]) then int_in 16 s
  else if decide (take 2 s ∈ [py"0b"; py"0B"]) then
    int_in 2 (match drop 2 s with [] => py"0" | t => t end)
  else if decide (take 1 s = py"0") then int_in 8 s
  else int_in 10 s.

Definition convert (c : conv) (s : pystr) : res value :=
  match c with
  | CStr => Ok (VStr s)
  | CInt => match parse_int s with Some z => Ok (VInt z) | None => exit_2 end
  end.

(** ** Actions *)

Definition takes_value (o : opt) : bool := match act o with Store _ => true | _ => false end.

Definition setattr (o : opt) (v : value) (ns : values) : values :=
  match dest o with Some (d, _) => dict_set d v ns | None => ns end.

(** [Option.process] with the argument, if the option takes one. *)
Definition process_opt (o : opt) (arg : pystr) (ns : values) (rargs : list pystr) : res (values * list pystr) :=
  match act o with
  | Store c => v ← convert c arg; Ok (setattr o v ns, rargs)
  | StoreTrue => Ok (setattr o VTrue ns, rargs)
  | Callback f => Ok (f ns rargs)
  | Help => exit_0
  end.

(** ** Arguments *)

Definition is_long (s : pystr) : bool := startswith s (py"--").

(** [_match_long_opt]: an option string, or the only one that it abbreviates. *)
Definition match_long_opt (s : pystr) : res opt :=
  match dict_get s (List.filter (λ e : pystr * opt, is_long e.1) table) with
  | Some o => Ok o
  | None =>
      match List.filter (λ e : pystr * opt, is_long e.1 && startswith e.1 s) table with
      | [(_, o)] => Ok o
      | _ => exit_2
      end
  end.

Definition process_long_opt (arg : pystr) (ns : values) (rargs : list pystr) : res (values * list pystr) :=
  let '(s, explicit) := match split1 "=" arg with [a; b] => (a, Some b) | _ => (arg, None) end in
  o ← match_long_opt s;
  if takes_value o then
    match explicit, rargs with
    | Some b, _ => process_opt o b ns rargs
    | None, v :: rargs' => process_opt o v ns rargs'
    | None, [] => exit_2
    end
  else match explicit with Some _ => exit_2 | None => process_opt o [] ns rargs end.

Fixpoint process_short_opts (letters : pystr) (ns : values) (rargs : list pystr) : res (values * list pystr) :=
  match letters with
  | [] => Ok (ns, rargs)
  | ch :: letters' =>
      match dict_get ["-"%char; ch] table with
      | None => exit_2
      | Some o =>
          if takes_value o then
            match letters', rargs with
            | _ :: _, _ => process_opt o letters' ns rargs
            | [], v :: rargs' => process_opt o v ns rargs'
            | [], [] => exit_2
            end
          else r ← process_opt o [] ns rargs; process_short_opts letters' r.1 r.2
      end
  end.

(** [_process_args]; every round takes an argument. *)
Fixpoint process_args (fuel : nat) (largs rargs : list pystr) (ns : values) : res (values * list pystr) :=
  match fuel with
  | 0 => Raise OutOfFuel
  | S k =>
      match rargs with
      | [] => Ok (ns, largs)
      | arg :: rargs' =>
          if decide (arg = py"--") then Ok (ns, largs ++ rargs')
          else if is_long arg then
            r ← process_long_opt arg ns rargs'; process_args k largs r.2 r.1
          else if startswith arg (py"-") && (1 <? length arg) then
            r ← process_short_opts (drop 1 arg) ns rargs'; process_args k largs r.2 r.1
          else process_args k (largs ++ [arg]) rargs' ns
      end
  end.

Definition parse_args (args : list pystr) : res (values * list pystr) :=
  process_args (S (length args)) [] args defaults.
End parser.

(** ** What a parser returns *)

Abbreviation good := ArgParse.good.

(** Every option keeps an invariant of the values, and callbacks only take arguments
    away: then a parser returns values with the invariant, or leaves the program. *)
Section invariant.
Context (options : list opt) (I : values → Prop).

Definition kept (o : opt) : Prop := ∀ arg ns rargs, I ns →
  good (λ r, I r.1 ∧ length r.2 ≤ length rargs) (process_opt o arg ns rargs).

Context (Hkept : ∀ o, o ∈ options → kept o).

Lemma table_option s o : (s, o) ∈ table options → o ∈ options.
Proof.
  unfold table. intros (l & Hl%list_elem_of_In & Hs%list_elem_of_In)%list_elem_of_In%in_concat.
  apply list_elem_of_fmap in Hl as (o' & -> & Ho'). by apply list_elem_of_fmap in Hs as (s' & [= -> ->] & _).
Qed.

Lemma filter_table f s o : (s, o) ∈ List.filter f (table options) → o ∈ options.
Proof. intros Hin%list_elem_of_In%List.filter_In. eapply table_option, list_elem_of_In, Hin. Qed.

Lemma match_long_good s : good (λ o, o ∈ options) (match_long_opt options s).
Proof.
  unfold match_long_opt. destruct (dict_get s _) as [o|] eqn:Ho; [by eapply filter_table, dict_get_elem|].
  destruct (List.filter (λ e : pystr * opt, is_long e.1 && startswith e.1 s) (table options)) as [|[s' o] [|]] eqn:Hf; [apply ArgParse.good_2| |apply ArgParse.good_2].
  eapply (filter_table _ s'). rewrite Hf. left.
Qed.

Lemma process_long_good arg ns rargs : I ns →
  good (λ r, I r.1 ∧ length r.2 ≤ length rargs) (process_long_opt options arg ns rargs).
Proof.
  intros Hns. unfold process_long_opt. set (p := match split1 "=" arg with [a; b] => (a, Some b) | _ => (arg, None) end).
  destruct p as [s e]. eapply ArgParse.good_bind; [apply match_long_good|]. intros o Ho. destruct (takes_value o).
  - destruct e as [b|]; [by apply Hkept|]. destruct rargs as [|v r]; [apply ArgParse.good_2|].
    eapply ArgParse.good_weaken; [by apply Hkept|]. intros x [? ?]. cbn [length]. split; [done|lia].
  - destruct e; [apply ArgParse.good_2|by apply Hkept].
Qed.

Lemma process_short_good letters ns rargs : I ns →
  good (λ r, I r.1 ∧ length r.2 ≤ length rargs) (process_short_opts options letters ns rargs).
Proof.
  revert ns rargs. induction letters as [|ch letters IH]; intros ns rargs Hns; cbn [process_short_opts]; [done|].
  destruct (dict_get _ _) as [o|] eqn:Ho; [|apply ArgParse.good_2]. apply dict_get_elem, table_option in Ho.
  destruct (takes_value o).
  - destruct letters as [|l ls]; [|by apply Hkept]. destruct rargs as [|v r]; [apply ArgParse.good_2|].
    eapply ArgParse.good_weaken; [by apply Hkept|]. intros x [? ?]. cbn [length]. split; [done|lia].
  - eapply ArgParse.good_bind; [by apply Hkept|]. intros r [Hr Hlen].
    eapply ArgParse.good_weaken; [by apply IH|]. intros x [? ?]. split; [done|lia].
Qed.

Lemma process_args_good fuel largs rargs ns : length rargs < fuel → I ns →
  good (λ r, I r.1) (process_args options fuel largs rargs ns).
Proof.
  revert largs rargs ns. induction fuel as [|k IH]; intros largs rargs ns Hf Hns; [lia|]. cbn [process_args].
  destruct rargs as [|arg rargs]; [done|]. cbn [length] in Hf. case_decide; [done|]. destruct (is_long arg).
  { eapply ArgParse.good_bind; [by apply process_long_good|]. intros r [? ?]. apply IH; [lia|done]. }
  destruct (_ && _); [|apply IH; [lia|done]].
  eapply ArgParse.good_bind; [by apply process_short_good|]. intros r [? ?]. apply IH; [lia|done].
Qed.

Lemma parse_args_good args : I (defaults options) → good (λ r, I r.1) (parse_args options args).
Proof. intros Hd. apply process_args_good; [lia|done]. Qed.
End invariant.

(** ** Command lines that are built from settings *)

(** An option by one of its strings, with its argument. *)
Record setting := Setting { set_opt : opt; set_string : pystr; set_arg : pystr }.

Definition render (x : setting) : list pystr :=
  if takes_value (set_opt x) then [set_string x; set_arg x] else [set_string x].

(** The string names the option exactly: long, or a dash and a letter. *)
Definition names (options : list opt) (x : setting) : Prop :=
  (is_long (set_string x) = true ∧ set_string x ≠ py"--" ∧ ("="%char ∉ set_string x) ∧
     dict_get (set_string x) (List.filter (λ e : pystr * opt, is_long e.1) (table options)) = Some (set_opt x)) ∨
  (∃ c, c ≠ "-"%char ∧ set_string x = ["-"%char; c] ∧ dict_get (set_string x) (table options) = Some (set_opt x)).

Definition no_callback (x : setting) : Prop := match act (set_opt x) with Callback _ | Help => False | _ => True end.

(** The values that a setting makes. *)
Definition apply_setting (ns : values) (x : setting) : res values :=
  match act (set_opt x) with
  | Store c => v ← convert c (set_arg x); Ok (setattr (set_opt x) v ns)
  | StoreTrue => Ok (setattr (set_opt x) VTrue ns)
  | _ => Ok ns
  end.

Section settings.
Context (options : list opt).

Lemma process_setting x ns rargs :
  no_callback x → process_opt (set_opt x) (set_arg x) ns rargs = (ns' ← apply_setting ns x; Ok (ns', rargs)).
Proof.
  intros Hn. unfold process_opt, apply_setting, no_callback in *. destruct (act (set_opt x)) as [c| | |]; try done.
  by destruct (convert c _).
Qed.

Lemma process_flag x ns rargs arg :
  no_callback x → takes_value (set_opt x) = false → process_opt (set_opt x) arg ns rargs = (ns' ← apply_setting ns x; Ok (ns', rargs)).
Proof.
  intros Hn Ht. unfold process_opt, apply_setting, no_callback, takes_value in *. by destruct (act (set_opt x)).
Qed.

(** The arguments of one setting are consumed together. *)
Lemma process_render x k largs rest ns :
  names options x → no_callback x →
  process_args options (S k) largs (render x ++ rest) ns = (ns' ← apply_setting ns x; process_args options k largs rest ns').
Proof.
  intros Hx Hn. assert (∀ r : res (values * list pystr), r = (ns' ← apply_setting ns x; Ok (ns', rest)) →
    (r ≫= λ r, process_args options k largs r.2 r.1) = (ns' ← apply_setting ns x; process_args options k largs rest ns')) as Hr.
  { intros r ->. by destruct (apply_setting ns x). }
  assert (∀ args, process_args options (S k) largs (set_string x :: args) ns =
    (r ← (if is_long (set_string x) then process_long_opt options (set_string x) ns args
          else process_short_opts options (drop 1 (set_string x)) ns args); process_args options k largs r.2 r.1)) as Hgo.
  { intros args. cbn [process_args]. destruct Hx as [(Hl & Hne & _)|(c & Hc & -> & _)].
    - by rewrite decide_False, Hl.
    - rewrite decide_False by (intros Heq; injection Heq; congruence).
      assert (is_long ["-"%char; c] = false) as -> by (apply startswith_false; intros [t Ht]; injection Ht; congruence). done. }
  unfold render. pose proof (process_flag x ns rest [] Hn) as Hpf.
  destruct Hx as [(Hl & Hne & Heq & Ho)|(c & Hc & Hs & Ho)].
  - assert (∀ args, process_long_opt options (set_string x) ns args =
      if takes_value (set_opt x) then match args with v :: args' => process_opt (set_opt x) v ns args' | [] => exit_2 end
      else process_opt (set_opt x) [] ns args) as Hlong.
    { intros args. unfold process_long_opt. rewrite split1_not_elem by done. unfold match_long_opt. by rewrite Ho. }
    destruct (takes_value (set_opt x)) eqn:Ht; cbn [app]; rewrite Hgo, Hl, Hlong; apply Hr; [by apply process_setting|by apply Hpf].
  - assert (∀ args, process_short_opts options (drop 1 (set_string x)) ns args =
      if takes_value (set_opt x) then match args with v :: args' => process_opt (set_opt x) v ns args' | [] => exit_2 end
      else r ← process_opt (set_opt x) [] ns args; Ok (r.1, r.2)) as Hshort.
    { intros args. rewrite Hs in Ho |- *. cbn [drop process_short_opts]. rewrite Ho. by destruct (takes_value _), args. }
    assert (is_long (set_string x) = false) as Hl.
    { rewrite Hs. apply startswith_false. intros [t Ht]. injection Ht. congruence. }
    destruct (takes_value (set_opt x)) eqn:Ht; cbn [app]; rewrite Hgo, Hl, Hshort; apply Hr; [by apply process_setting|].
    rewrite Hpf by done. by destruct (apply_setting ns x).
Qed.

(** Every command line that is built from settings is read back: the settings are made from
    left to right, and what follows [--] are the arguments. *)
Lemma process_settings l ns k rest largs :
  Forall (names options) l → Forall no_callback l → length l < k →
  process_args options k largs (concat (render <$> l) ++ py"--" :: rest) ns =
    (ns' ← res_fold apply_setting ns l; Ok (ns', largs ++ rest)).
Proof.
  intros Hl. revert ns k. induction Hl as [|x l Hx Hl IH]; intros ns k Hn Hk; (destruct k as [|k]; [cbn in Hk; lia|]); cbn [res_fold fmap list_fmap concat].
  - cbn [app process_args]. by rewrite decide_True.
  - apply Forall_cons in Hn as [Hnx Hn]. rewrite <-app_assoc, process_render by done. cbn [length] in Hk.
    destruct (apply_setting ns x) as [ns'|e]; [|done]. cbn [mbind res_bind]. apply IH; [done|lia].
Qed.

Lemma length_render l : length l ≤ length (concat (render <$> l)).
Proof.
  induction l as [|x l IH]; [done|]. cbn [fmap list_fmap concat length]. rewrite length_app. unfold render at 1.
  destruct (takes_value _); cbn [length]; lia.
Qed.

Lemma parse_settings l rest :
  Forall (names options) l → Forall no_callback l →
  parse_args options (concat (render <$> l) ++ py"--" :: rest) =
    (ns ← res_fold apply_setting (defaults options) l; Ok (ns, rest)).
Proof.
  intros Hl Hn. unfold parse_args. apply process_settings; [done..|]. rewrite length_app. pose proof (length_render l). lia.
Qed.
End settings.
