(* ===== verification/ConsoleOpts.v ===== *)
(** * The command line of the console: confd-sync-py/app/netconf_console.py, lines 533 to 900

    The option parser of the program with its three callbacks, the options record of
    NetconfMsgs that its values make, and the whole program from its arguments. *)

From Stdlib Require Import Ascii String.
From S2P Require Import Prelude PyStr PyDict NetconfFraming NetconfMsgs Links Console OptParse.
From S2P Require Trace Connections ArgParse.

(** ** Callbacks *)

(** [parser.values.ensure_value] *)
Definition ensure_value (k v : pystr) (ns : values) : values :=
  match dict_get k ns with
  | None | Some VNone => dict_set k (VStr v) ns
  | _ => ns
  end.

(** The next argument when it is not an option, else the default. *)
Definition optional_argument (k : pystr) (ns : values) (rargs : list pystr) : values * list pystr :=
  match rargs with
  | [] => (ensure_value k (py"default") ns, [])
  | arg :: rargs' =>
      if startswith arg (py"-") then (ensure_value k (py"default") ns, rargs)
      else (ensure_value k arg ns, rargs')
  end.

Definition get_config_opt : values → list pystr → values * list pystr := optional_argument (py"getConfig").
Definition get_data_opt : values → list pystr → values * list pystr := optional_argument (py"getData").

(** An argument that looks like an option. *)
Definition option_like (arg : pystr) : bool :=
  match arg with
  | "-"%char :: "-"%char :: rest => negb (bool_decide (rest = []))
  | "-"%char :: _ :: _ => true
  | _ => false
  end.

(** The arguments up to the next option, each after a space. *)
Fixpoint xpath_words (value : pystr) (rargs : list pystr) : pystr * list pystr :=
  match rargs with
  | [] => (value, [])
  | arg :: rargs' => if option_like arg then (value, rargs) else xpath_words (value ++ py" " ++ arg) rargs'
  end.

Definition opt_xpath (dest : pystr) (ns : values) (rargs : list pystr) : values * list pystr :=
  let '(v, rargs') := xpath_words [] rargs in (dict_set dest (VStr v) ns, rargs').

(** ** The parser *)

Definition text (ss : list pystr) (d v : pystr) : opt := Opt ss (Store CStr) (Some (d, VStr v)).
Definition integer (ss : list pystr) (d : pystr) (z : Z) : opt := Opt ss (Store CInt) (Some (d, VInt z)).
Definition flag (ss : list pystr) (d : pystr) : opt := Opt ss StoreTrue (Some (d, VNone)).

Definition build_options_parser : list opt :=
  [help_option;
   Opt [py"-v"; py"--version"] (Store CStr) (Some (py"version", VNone));
   flag [py"-d"; py"--debug"] (py"debug");
   text [py"-u"; py"--user"] (py"username") (py"admin");
   text [py"-p"; py"--password"] (py"password") (py"admin");
   text [py"--proto"] (py"proto") (py"ssh");
   text [py"--host"] (py"host") (py"localhost");
   integer [py"--port"] (py"port") 2022;
   flag [py"--listen"] (py"listen");
   text [py"--listen-address"] (py"listen_address") (py"0.0.0.0");
   integer [py"--listen-port"] (py"listen_port") 4334;
   integer [py"--iter"] (py"iter") 1;
   flag [py"-i"; py"--interactive"] (py"interactive");
   text [py"-s"; py"--outputStyle"] (py"style") (py"default");
   text [py"--privKeyType"] (py"privKeyType") [];
   text [py"--privKeyFile"] (py"privKeyFile") [];
   text [py"-g"; py"--groups"] (py"groups") [];
   text [py"-G"; py"--sup-groups"] (py"supgroups") [];
   flag [py"--hello"] (py"hello");
   flag [py"--get"] (py"get");
   Opt [py"--get-config"] (Callback get_config_opt) None;
   Opt [py"--get-data"] (Callback get_data_opt) None;
   text [py"--max-depth"] (py"max_depth") [];
   Opt [py"--config-filter"] (Store CStr) (Some (py"config_filter", VNone));
   text [py"--subtree-filter"] (py"subtree_filter") [];
   text [py"--db"] (py"db") (py"running");
   text [py"--with-defaults"] (py"wdefaults") [];
   flag [py"--with-inactive"] (py"winactive");
   Opt [py"-x"; py"--xpath"] (Callback (opt_xpath (py"xpath"))) (Some (py"xpath", VStr []));
   text [py"--kill-session"] (py"kill_session") [];
   flag [py"--discard-changes"] (py"discard_changes");
   flag [py"--commit"] (py"commit");
   flag [py"--validate"] (py"validate");
   flag [py"--copy-running-to-startup"] (py"copy_running_to_startup");
   text [py"--copy-config"] (py"copy") [];
   text [py"--edit-config"] (py"edit") [];
   text [py"--edit-data"] (py"edit_data") [];
   Opt [py"--get-schema"] (Store CStr) (Some (py"get_schema", VNone));
   Opt [py"--create-subscription"] (Store CStr) (Some (py"create_subscription", VNone));
   Opt [py"--establish-subscription"] (Store CStr) (Some (py"establish_subscription", VNone));
   text [py"--rpc"] (py"rpc") [];
   text [py"--start-time"] (py"start_time") [];
   text [py"--stop-time"] (py"stop_time") [];
   text [py"--rpc-attribute"] (py"rpc_attribute") []].

(** ** The options *)

(** Attributes that are texts, integers, flags, texts or [None], or only there when given. *)
Definition text_of (k : pystr) (ns : values) : res pystr :=
  match dict_get k ns with Some (VStr s) => Ok s | Some _ => Raise TypeError | None => Raise AttributeError end.
Definition int_of (k : pystr) (ns : values) : res Z :=
  match dict_get k ns with Some (VInt z) => Ok z | Some _ => Raise TypeError | None => Raise AttributeError end.
Definition is_set (k : pystr) (ns : values) : res bool :=
  match dict_get k ns with Some VTrue => Ok true | Some VNone => Ok false | Some _ => Raise TypeError | None => Raise AttributeError end.
Definition maybe (k : pystr) (ns : values) : res (option pystr) :=
  match dict_get k ns with
  | Some (VStr s) => Ok (Some s) | Some VNone => Ok None | Some _ => Raise TypeError | None => Raise AttributeError end.
Definition given (k : pystr) (ns : values) : res (option pystr) :=
  match dict_get k ns with Some (VStr s) => Ok (Some s) | None => Ok None | Some _ => Raise TypeError end.

Definition opts_of (ns : values) : res opts :=
  version0 ← maybe (py"version") ns; debug0 ← is_set (py"debug") ns;
  username0 ← text_of (py"username") ns; password0 ← text_of (py"password") ns;
  proto0 ← text_of (py"proto") ns; host0 ← text_of (py"host") ns;
  port0 ← int_of (py"port") ns; listen0 ← is_set (py"listen") ns;
  listen_address0 ← text_of (py"listen_address") ns; listen_port0 ← int_of (py"listen_port") ns;
  iter0 ← int_of (py"iter") ns; interactive0 ← is_set (py"interactive") ns;
  style0 ← text_of (py"style") ns; privKeyType0 ← text_of (py"privKeyType") ns;
  privKeyFile0 ← text_of (py"privKeyFile") ns; groups0 ← text_of (py"groups") ns;
  supgroups0 ← text_of (py"supgroups") ns; hello0 ← is_set (py"hello") ns;
  get_0 ← is_set (py"get") ns; getConfig0 ← given (py"getConfig") ns;
  getData0 ← given (py"getData") ns; max_depth0 ← text_of (py"max_depth") ns;
  config_filter0 ← maybe (py"config_filter") ns; subtree_filter0 ← text_of (py"subtree_filter") ns;
  db0 ← text_of (py"db") ns; wdefaults0 ← text_of (py"wdefaults") ns;
  winactive0 ← is_set (py"winactive") ns; xpath0 ← text_of (py"xpath") ns;
  kill_session0 ← text_of (py"kill_session") ns; discard_changes0 ← is_set (py"discard_changes") ns;
  commit0 ← is_set (py"commit") ns; validate0 ← is_set (py"validate") ns;
  copy_running_to_startup0 ← is_set (py"copy_running_to_startup") ns; copy0 ← text_of (py"copy") ns;
  edit0 ← text_of (py"edit") ns; edit_data0 ← text_of (py"edit_data") ns;
  get_schema0 ← maybe (py"get_schema") ns; create_subscription0 ← maybe (py"create_subscription") ns;
  establish_subscription0 ← maybe (py"establish_subscription") ns; rpc0 ← text_of (py"rpc") ns;
  start_time0 ← text_of (py"start_time") ns; stop_time0 ← text_of (py"stop_time") ns;
  rpc_attribute0 ← text_of (py"rpc_attribute") ns;
  Ok {| version := version0; debug := debug0; username := username0; password := password0; proto := proto0;
        host := host0; port := port0; listen := listen0; listen_address := listen_address0; listen_port :=
        listen_port0; iter := iter0; interactive := interactive0; style := style0; privKeyType := privKeyType0;
        privKeyFile := privKeyFile0; groups := groups0; supgroups := supgroups0; hello := hello0; get_ := get_0;
        getConfig := getConfig0; getData := getData0; max_depth := max_depth0; config_filter := config_filter0;
        subtree_filter := subtree_filter0; db := db0; wdefaults := wdefaults0; winactive := winactive0; xpath :=
        xpath0; kill_session := kill_session0; discard_changes := discard_changes0; commit := commit0; validate
        := validate0; copy_running_to_startup := copy_running_to_startup0; copy := copy0; edit := edit0;
        edit_data := edit_data0; get_schema := get_schema0; create_subscription := create_subscription0;
        establish_subscription := establish_subscription0; rpc := rpc0; start_time := start_time0; stop_time :=
        stop_time0; rpc_attribute := rpc_attribute0 |}.

Definition parse_console (args : list pystr) : res (opts * list pystr) :=
  r ← parse_args build_options_parser args; o ← opts_of r.1; Ok (o, r.2).

(** The program from its arguments; usage errors leave it with code 2, help with 0. *)
Definition console {C} `{Link C} (conn_env : Trace.environment Connections.effect) (env : surroundings)
    (fuel : nat) (argv : list pystr) : PyM (world C) Z := λ w,
  match parse_console argv with
  | Ok (o, args) => program conn_env env o fuel args w
  | Raise (SystemExit c) => (Ok c, w)
  | Raise e => (Raise e, w)
  end.

(** ** Lemmas *)

Inductive kind := KText | KInt | KFlag | KMaybe | KGiven.

#[export] Instance kind_eq_dec : EqDecision kind.
Proof. solve_decision. Defined.

Definition fields : list (pystr * kind) :=
  [(py"version", KMaybe); (py"debug", KFlag); (py"username", KText); (py"password", KText);
   (py"proto", KText); (py"host", KText); (py"port", KInt); (py"listen", KFlag);
   (py"listen_address", KText); (py"listen_port", KInt); (py"iter", KInt); (py"interactive", KFlag);
   (py"style", KText); (py"privKeyType", KText); (py"privKeyFile", KText); (py"groups", KText);
   (py"supgroups", KText); (py"hello", KFlag); (py"get", KFlag); (py"getConfig", KGiven);
   (py"getData", KGiven); (py"max_depth", KText); (py"config_filter", KMaybe); (py"subtree_filter", KText);
   (py"db", KText); (py"wdefaults", KText); (py"winactive", KFlag); (py"xpath", KText);
   (py"kill_session", KText); (py"discard_changes", KFlag); (py"commit", KFlag); (py"validate", KFlag);
   (py"copy_running_to_startup", KFlag); (py"copy", KText); (py"edit", KText); (py"edit_data", KText);
   (py"get_schema", KMaybe); (py"create_subscription", KMaybe); (py"establish_subscription", KMaybe); (py"rpc", KText);
   (py"start_time", KText); (py"stop_time", KText); (py"rpc_attribute", KText)].

(** The values of a kind; [KGiven] may be missing. *)
Definition of_kind (k : kind) (v : option value) : bool :=
  match k, v with
  | KText, Some (VStr _) | KInt, Some (VInt _) | KFlag, Some (VTrue | VNone) | KMaybe, Some (VStr _ | VNone)
  | KGiven, (None | Some (VStr _)) => true
  | _, _ => false
  end.

Definition well_kinded (ns : values) : Prop := Forall (λ f : pystr * kind, of_kind f.2 (dict_get f.1 ns) = true) fields.

Lemma well_kinded_set k v ns :
  well_kinded ns → (∀ kd, (k, kd) ∈ fields → of_kind kd (Some v) = true) → well_kinded (dict_set k v ns).
Proof.
  intros Hns Hk. apply Forall_forall. intros [k' kd] Hin. cbn [fst snd]. rewrite dict_get_set.
  case_decide as Heq; [subst k'; by apply Hk|]. by apply (proj1 (Forall_forall _ _) Hns (k', kd)).
Qed.

(** The kind of an option's values is that of its attribute. *)
Definition sets_kind (o : opt) : bool :=
  match dest o with
  | None => true
  | Some (d, _) =>
      forallb (λ f : pystr * kind, negb (bool_decide (f.1 = d)) ||
        match act o with
        | Store CStr => of_kind f.2 (Some (VStr []))
        | Store CInt => of_kind f.2 (Some (VInt 0))
        | StoreTrue => of_kind f.2 (Some VTrue)
        | _ => true
        end) fields
  end.

Lemma well_kinded_setattr o v ns :
  well_kinded ns → sets_kind o = true →
  match act o, v with Store CStr, VStr _ | Store CInt, VInt _ | StoreTrue, VTrue => True | _, _ => False end →
  well_kinded (setattr o v ns).
Proof.
  intros Hns Ho Hv. unfold setattr, sets_kind in *. destruct (dest o) as [[d v0]|]; [|done]. apply well_kinded_set; [done|].
  intros kd Hin. rewrite forallb_forall in Ho. specialize (Ho (d, kd)). cbn [fst snd] in Ho.
  rewrite bool_decide_eq_true_2 in Ho by done. specialize (Ho ltac:(by apply list_elem_of_In)). cbn [negb orb] in Ho.
  destruct (act o) as [[]| | |]; try done; destruct v; try done; by destruct kd.
Qed.

(** An attribute that may be a text. *)
Definition text_attribute (k : pystr) : bool :=
  forallb (λ f : pystr * kind, negb (bool_decide (f.1 = k)) || of_kind f.2 (Some (VStr []))) fields.

Lemma well_kinded_text k v ns : well_kinded ns → text_attribute k = true → well_kinded (dict_set k (VStr v) ns).
Proof.
  intros Hns Hk. apply well_kinded_set; [done|]. intros kd Hin. unfold text_attribute in Hk. rewrite forallb_forall in Hk.
  specialize (Hk (k, kd) ltac:(by apply list_elem_of_In)). cbn [fst snd] in Hk.
  rewrite bool_decide_eq_true_2 in Hk by done. by destruct kd.
Qed.

Lemma ensure_kinded k v ns : well_kinded ns → text_attribute k = true → well_kinded (ensure_value k v ns).
Proof.
  intros Hns Hk. pose proof (well_kinded_text k v ns Hns Hk). unfold ensure_value. by destruct (dict_get k ns) as [[]|].
Qed.

Lemma optional_argument_kept k ns rargs :
  well_kinded ns → text_attribute k = true →
  well_kinded (optional_argument k ns rargs).1 ∧ length (optional_argument k ns rargs).2 ≤ length rargs.
Proof.
  intros Hns Hk. destruct rargs as [|a r]; cbn [optional_argument]; [split; [by apply ensure_kinded|done]|].
  destruct (startswith a _); (split; [by apply ensure_kinded|cbn [length]; cbn; lia]).
Qed.

Lemma xpath_words_length v rargs : length (xpath_words v rargs).2 ≤ length rargs.
Proof.
  revert v. induction rargs as [|a r IH]; intros v; cbn [xpath_words]; [done|]. destruct (option_like a); [done|].
  cbn [length]. specialize (IH (v ++ py" " ++ a)). lia.
Qed.

(** An option without a callback, of the right kind, keeps the kinds. *)
Lemma plain_option_kept o :
  sets_kind o = true → match act o with Callback _ => False | _ => True end → kept well_kinded o.
Proof.
  intros Ho Ha arg ns rargs Hns. unfold process_opt. destruct (act o) as [c| | |] eqn:Hact; [|by split; [apply well_kinded_setattr; [done|done|by rewrite Hact]|]|done|by left].
  destruct c; cbn [convert].
  - split; [|done]. apply well_kinded_setattr; [done|done|by rewrite Hact].
  - destruct (parse_int arg); [|by right]. split; [|done]. apply well_kinded_setattr; [done|done|by rewrite Hact].
Qed.

Lemma console_option_kept o : o ∈ build_options_parser → kept well_kinded o.
Proof.
  assert (Forall (kept well_kinded) build_options_parser) as Hall; [|by apply Forall_forall].
  unfold build_options_parser. repeat first [apply Forall_nil_2 | apply Forall_cons_2];
    first [apply plain_option_kept; [vm_compute; reflexivity|exact I] | idtac]; intros arg ns rargs Hns.
  - by apply optional_argument_kept; [|vm_compute].
  - by apply optional_argument_kept; [|vm_compute].
  - unfold process_opt. cbn [act]. unfold opt_xpath. pose proof (xpath_words_length [] rargs) as Hl.
    destruct (xpath_words [] rargs) as [v r]. split; [|done]. by apply well_kinded_text; [|vm_compute].
Qed.

Lemma console_defaults : well_kinded (defaults build_options_parser).
Proof. unfold well_kinded, fields. repeat first [apply Forall_nil_2 | apply Forall_cons_2]; vm_compute; reflexivity. Qed.

Lemma kinded_lookup ns k kd : well_kinded ns → (k, kd) ∈ fields → of_kind kd (dict_get k ns) = true.
Proof. intros Hns Hin. by apply (proj1 (Forall_forall _ _) Hns (k, kd)). Qed.

Lemma text_of_kinded ns k : well_kinded ns → (k, KText) ∈ fields → ∃ v, text_of k ns = Ok v.
Proof. intros Hns Hk%(kinded_lookup ns); [|done]. unfold text_of. destruct (dict_get k ns) as [[]|]; try done. eauto. Qed.
Lemma int_of_kinded ns k : well_kinded ns → (k, KInt) ∈ fields → ∃ v, int_of k ns = Ok v.
Proof. intros Hns Hk%(kinded_lookup ns); [|done]. unfold int_of. destruct (dict_get k ns) as [[]|]; try done. eauto. Qed.
Lemma is_set_kinded ns k : well_kinded ns → (k, KFlag) ∈ fields → ∃ v, is_set k ns = Ok v.
Proof. intros Hns Hk%(kinded_lookup ns); [|done]. unfold is_set. destruct (dict_get k ns) as [[]|]; try done; eauto. Qed.
Lemma maybe_kinded ns k : well_kinded ns → (k, KMaybe) ∈ fields → ∃ v, maybe k ns = Ok v.
Proof. intros Hns Hk%(kinded_lookup ns); [|done]. unfold maybe. destruct (dict_get k ns) as [[]|]; try done; eauto. Qed.
Lemma given_kinded ns k : well_kinded ns → (k, KGiven) ∈ fields → ∃ v, given k ns = Ok v.
Proof. intros Hns Hk%(kinded_lookup ns); [|done]. unfold given. destruct (dict_get k ns) as [[]|]; try done; eauto. Qed.

Ltac read_field lem k ns Hns :=
  let Hv := fresh in destruct (lem ns k Hns ltac:(vm_decide)) as [? Hv]; rewrite Hv; clear Hv; cbn [mbind res_bind].

Lemma opts_of_kinded ns : well_kinded ns → ∃ o, opts_of ns = Ok o.
Proof.
  intros Hns. unfold opts_of. repeat match goal with
  | |- context [text_of ?k ns] => read_field text_of_kinded k ns Hns
  | |- context [int_of ?k ns] => read_field int_of_kinded k ns Hns
  | |- context [is_set ?k ns] => read_field is_set_kinded k ns Hns
  | |- context [maybe ?k ns] => read_field maybe_kinded k ns Hns
  | |- context [given ?k ns] => read_field given_kinded k ns Hns
  end. eauto.
Qed.

(** ** Properties *)

(** Every command line is understood or refused: the parser returns a complete options
    record, whatever the arguments are, or it leaves the program with code 2, or with 0
    after help; no argument makes it fail otherwise or go on for ever. *)
Lemma parse_console_good argv : good (λ _, True) (parse_console argv).
Proof.
  unfold parse_console. eapply ArgParse.good_bind.
  - apply (parse_args_good build_options_parser well_kinded); [apply console_option_kept|apply console_defaults].
  - intros [ns rest] Hns. destruct (opts_of_kinded ns Hns) as [o Ho]. cbn [fst snd]. by rewrite Ho.
Qed.

(** An empty command line has the default options. *)
Lemma parse_console_empty : parse_console [] = Ok (default_opts, []).
Proof. vm_compute. reflexivity. Qed.

(** The words of an XPath are joined with a space before each of them. *)
Lemma xpath_starts_with_space :
  (λ r, xpath r.1) <$> parse_console [py"--get"; py"-x"; py"/a"; py"|"; py"/b"; py"--db"; py"candidate"] = Ok (py" /a | /b").
Proof. vm_compute. reflexivity. Qed.
