(* ===== verification/Symlinks.v ===== *)
(** * Symbolic links in YANG modules: symlink/origin/symlinks.py

    The pyang plugin that replaces tailf:symlink statements: by a copy of the target
    with links, by a copy with a callpoint, or by the use of a grouping that the target
    is moved into.  Statements and their lists of substatements are objects of a heap,
    because the plugin changes lists while it iterates over them.  What pyang provides
    is an argument of the definitions. *)

From Stdlib Require Import Ascii String.
From S2P Require Import Prelude PyStr PyDict.

(** ** Statements *)

Abbreviation ref := nat.

(** A keyword of YANG, or one of a module with a prefix or a name. *)
Inductive keyword := Kw (s : pystr) | Ext (m s : pystr).

#[export] Instance keyword_eq_dec : EqDecision keyword.
Proof. solve_decision. Defined.

Definition tailf : pystr := py"tailf-common".

(** A statement; [substmts] is a list object. *)
Record stmt := Stmt { kw : keyword; arg : pystr; top : ref; parent : option ref; substmts : nat }.

(** The statements, the list objects, and the groupings of the [SymlinkFixer]. *)
Record heap := Heap { stmts : list stmt; lists : list (list ref); groupings : list (ref * pystr) }.

Abbreviation M := (PyM heap).

(** The attributes of an object; [None] has none. *)
Definition stmt_of (r : ref) : M stmt := λ h,
  match stmts h !! r with Some s => (Ok s, h) | None => (Raise AttributeError, h) end.
Definition opt_ref (r : option ref) : M ref := match r with Some r => mret r | None => raise AttributeError end.

Definition list_of (l : nat) : M (list ref) := λ h, (Ok (default [] (lists h !! l)), h).

Definition set_stmt (r : ref) (s : stmt) : M unit :=
  modify (λ h, Heap (<[r := s]> (stmts h)) (lists h) (groupings h)).
Definition set_list (l : nat) (rs : list ref) : M unit :=
  modify (λ h, Heap (stmts h) (<[l := rs]> (lists h)) (groupings h)).
Definition set_grouping (r : ref) (name : pystr) : M unit :=
  modify (λ h, Heap (stmts h) (lists h) (dict_set r name (groupings h))).

Definition new_list (rs : list ref) : M nat := λ h,
  (Ok (length (lists h)), Heap (stmts h) (lists h ++ [rs]) (groupings h)).

(** [Statement(top, parent, pos, keyword, arg)], also of its subclasses: a new statement
    without substatements. *)
Definition Statement (top : ref) (parent : option ref) (k : keyword) (a : pystr) : M ref :=
  l ← new_list [];
  h ← get;
  _ ← put (Heap (stmts h ++ [Stmt k a top parent l]) (lists h) (groupings h));
  mret (length (stmts h)).

Definition set_arg (r : ref) (a : pystr) : M unit :=
  s ← stmt_of r; set_stmt r (Stmt (kw s) a (top s) (parent s) (substmts s)).
Definition set_top (r t : ref) : M unit :=
  s ← stmt_of r; set_stmt r (Stmt (kw s) (arg s) t (parent s) (substmts s)).

(** [r.substmts = rs], a new list object. *)
Definition set_substmts (r : ref) (rs : list ref) : M unit :=
  l ← new_list rs; s ← stmt_of r; set_stmt r (Stmt (kw s) (arg s) (top s) (parent s) l).

(** [l.append(x)] and [l.insert(0, x)] *)
Definition append (l : nat) (x : ref) : M unit := rs ← list_of l; set_list l (rs ++ [x]).
Definition insert_first (l : nat) (x : ref) : M unit := rs ← list_of l; set_list l (x :: rs).

(** [l.index(x)] *)
Fixpoint index_of (x : ref) (rs : list ref) : res nat :=
  match rs with
  | [] => Raise ValueError
  | y :: rs' => if decide (y = x) then Ok 0 else S <$> index_of x rs'
  end.

(** Iteration over a list object, which may change meanwhile, collecting the results. *)
Fixpoint iterate {A} (fuel : nat) (l : nat) (i : nat) (f : ref → M A) : M (list A) :=
  match fuel with
  | 0 => raise OutOfFuel
  | S k =>
      rs ← list_of l;
      match rs !! i with
      | None => mret []
      | Some x => y ← f x; ys ← iterate k l (S i) f; mret (y :: ys)
      end
  end.

Section plugin.
(** pyang: [Statement.search_one(keyword, arg)], [statements.find_target_node],
    [Statement.copy] with its callback, [statements.data_definition_keywords] and
    [xpath_lexer.scan], whose tokens have a type and a value. *)
Context (search_one : heap → ref → keyword → option pystr → option ref).
Context (find_target_node : heap → ref → option ref).
Context (copy : ref → option ref → (ref → ref → M unit) → M ref).
Context (data_definition_keywords : list keyword).
Context (scan : pystr → res (list (pystr * pystr))).

Definition search (r : ref) (k : keyword) (a : option pystr) : M (option ref) := λ h, (Ok (search_one h r k a), h).

(** ** Functions *)

(** [all(can_use_link(subnode) for subnode in node.substmts if ...)], which stops at the
    first that cannot. *)
Fixpoint all_linkable (f : ref → M bool) (rs : list ref) : M bool :=
  match rs with
  | [] => mret true
  | r :: rs' =>
      s ← stmt_of r;
      if decide (kw s ∈ data_definition_keywords) then
        b ← f r; if (b : bool) then all_linkable f rs' else mret false
      else all_linkable f rs'
  end.

Fixpoint can_use_link (fuel : nat) (node : ref) : M bool :=
  match fuel with
  | 0 => raise OutOfFuel
  | S k =>
      s ← stmt_of node;
      if decide (kw s ∈ [Kw (py"list"); Kw (py"choice"); Kw (py"uses")]) then mret false
      else
        p ← (if decide (kw s = Kw (py"container")) then search node (Kw (py"presence")) None else mret None);
        match p with
        | Some _ => mret false
        | None => rs ← list_of (substmts s); all_linkable (can_use_link k) rs
        end
  end.

Definition module_prefix (module : ref) (import_name : pystr) : M pystr :=
  m ← stmt_of module;
  impmod ← (if decide (arg m = import_name) then mret (Some module)
            else search module (Kw (py"import")) (Some import_name));
  impmod ← opt_ref impmod;
  p ← search impmod (Kw (py"prefix")) None;
  p ← opt_ref p;
  s ← stmt_of p;
  mret (arg s).

Definition add_transform_callpoint (node : ref) : M ref :=
  s ← stmt_of node;
  tf_prefix ← module_prefix (top s) tailf;
  cp ← Statement (top s) (Some node) (Ext tf_prefix (py"callpoint")) (py"symlink-transform");
  transform ← Statement (top s) (Some cp) (Ext tf_prefix (py"transform")) (py"true");
  _ ← insert_first (substmts s) cp;
  _ ← set_substmts cp [transform];
  mret cp.

(** ** SymlinkFixer *)

Definition fix_token (prefix : pystr) (t : pystr * pystr) : pystr :=
  if negb (bool_decide (t.1 = py"name")) || contains t.2 (py":") then t.2 else prefix ++ py":" ++ t.2.

(** A statement whose argument is an XPath expression. *)
Definition has_xpath (new : ref) : M bool :=
  n ← stmt_of new;
  b ← (if decide (kw n = Kw (py"path")) then
         p ← opt_ref (parent n); ps ← stmt_of p; mret (bool_decide (kw ps = Kw (py"type")))
       else mret false);
  mret ((b : bool) || bool_decide (kw n ∈ [Kw (py"must"); Kw (py"when")])).

Definition fix_xpaths (old new : ref) : M unit :=
  b ← has_xpath new;
  if (b : bool) then
    o ← stmt_of old;
    p ← search (top o) (Kw (py"prefix")) None;
    p ← opt_ref p;
    ps ← stmt_of p;
    n ← stmt_of new;
    tokens ← lift (scan (arg n));
    set_arg new (concat (fix_token (arg ps) <$> tokens))
  else mret tt.

Fixpoint add_links (fuel : nat) (path : pystr) (node : ref) (prefix : pystr) : M unit :=
  match fuel with
  | 0 => raise OutOfFuel
  | S k =>
      s ← stmt_of node;
      if decide (kw s ∈ [Kw (py"leaf"); Kw (py"leaf-list")]) then
        tf_prefix ← module_prefix (top s) tailf;
        link ← Statement (top s) (Some node) (Ext tf_prefix (py"link")) path;
        append (substmts s) link
      else
        _ ← iterate fuel (substmts s) 0 (λ subnode,
          sub ← stmt_of subnode;
          if decide (kw sub ∈ data_definition_keywords)
          then add_links k (path ++ py"/" ++ prefix ++ py":" ++ arg sub) subnode prefix
          else mret tt);
        mret tt
  end.

Definition group_name (a : pystr) : pystr := a ++ py"-symlink-group".

Definition introduce_grouping (node : ref) : M pystr :=
  h ← get;
  match dict_get node (groupings h) with
  | Some name => mret name
  | None =>
      s ← stmt_of node;
      let grouping_name := group_name (arg s) in
      _ ← set_grouping node grouping_name;
      uses ← Statement (top s) (parent s) (Kw (py"uses")) grouping_name;
      p ← opt_ref (parent s);
      ps ← stmt_of p;
      rs ← list_of (substmts ps);
      ix ← lift (index_of node rs);
      _ ← set_list (substmts ps) (<[ix := uses]> rs);
      grouping ← Statement (top s) (Some (top s)) (Kw (py"grouping")) grouping_name;
      contents ← copy node (Some grouping) fix_xpaths;
      _ ← set_substmts grouping [contents];
      m ← stmt_of (top s);
      _ ← append (substmts m) grouping;
      mret grouping_name
  end.

(** [symlinks_no_groups] is an option of the plugin. *)
Context (no_groups : bool).

Definition do_replace_symlink (fuel : nat) (symlink_node : ref) : M ref :=
  sym ← stmt_of symlink_node;
  let copyf old new := _ ← set_top new (top sym); fix_xpaths old new in
  path ← search symlink_node (Ext tailf (py"path")) None;
  path ← match path with Some p => mret p | None => raise AssertionError end;
  h ← get;
  target ← opt_ref (find_target_node h path);
  t ← stmt_of target;
  tt_ ← stmt_of (top t);
  target_prefix ← module_prefix (top sym) (arg tt_);
  b ← can_use_link fuel target;
  if (b : bool) then
    new ← copy target (parent sym) copyf;
    _ ← set_arg new (arg sym);
    p ← stmt_of path;
    _ ← add_links fuel (arg p) new target_prefix;
    mret new
  else if no_groups then
    new ← copy target (parent sym) copyf;
    _ ← set_arg new (arg sym);
    _ ← add_transform_callpoint new;
    mret new
  else
    name ← introduce_grouping target;
    uses ← Statement (top sym) (parent sym) (Kw (py"uses")) (target_prefix ++ py":" ++ name);
    t ← stmt_of target;
    refine ← Statement (top sym) (Some uses) (Kw (py"refine")) (arg t);
    _ ← add_transform_callpoint refine;
    _ ← set_substmts uses [refine];
    mret uses.

Fixpoint replace_symlinks (fuel : nat) (node : ref) : M ref :=
  match fuel with
  | 0 => raise OutOfFuel
  | S k =>
      s ← stmt_of node;
      if decide (kw s = Ext tailf (py"symlink")) then do_replace_symlink fuel node
      else
        rs ← iterate fuel (substmts s) 0 (replace_symlinks k);
        _ ← set_substmts node rs;
        mret node
  end.

(** [replace]: the modules in their order, then the files. *)
Context (symlinks_replace : bool) (destdir : pystr) (path_join : pystr → pystr → pystr) (emit_yang : heap → ref → pystr).

Definition emitted (m : ref) : M (pystr * pystr) :=
  s ← stmt_of m; h ← get; mret (path_join destdir (arg s ++ py".yang"), emit_yang h m).

Definition replace (fuel : nat) (modules : list ref) : M (list (pystr * pystr)) :=
  if symlinks_replace then
    _ ← M_map (replace_symlinks fuel) modules;
    M_map emitted modules
  else mret [].

(** [post_validate_ctx] makes a new [SymlinkFixer]. *)
Definition post_validate_ctx (fuel : nat) (modules : list ref) : M (list (pystr * pystr)) :=
  _ ← modify (λ h, Heap (stmts h) (lists h) []); replace fuel modules.
End plugin.

(** [pre_load_modules]: the destination has to be a directory. *)
Definition pre_load_modules (isdir : pystr → bool) (destination : option pystr) : PyM (list pystr) unit :=
  if match destination with Some d => isdir d | None => false end then mret tt
  else _ ← print (py"Destination directory for translated modules (--symlinks-destination) is required." ++ nl ++ py"Aborting.");
       raise (SystemExit 1).

(** ** Trees in the heap *)

(** A statement with its substatements. *)
Inductive tree := T (r : ref) (s : stmt) (ch : list tree).

Definition root (t : tree) : ref := match t with T r _ _ => r end.
Definition node (t : tree) : stmt := match t with T _ s _ => s end.
Definition children (t : tree) : list tree := match t with T _ _ ch => ch end.

Lemma tree_ind' (P : tree → Prop) : (∀ r s ch, Forall P ch → P (T r s ch)) → ∀ t, P t.
Proof.
  intros H. fix IH 1. intros [r s ch]. apply H. induction ch as [|c ch IHc]; constructor; [apply IH|exact IHc].
Qed.

Fixpoint size (t : tree) : nat := match t with T _ _ ch => S (foldr Nat.add 0 (size <$> ch)) end.

(** The list objects of a tree. *)
Fixpoint list_refs (t : tree) : list nat := match t with T _ s ch => substmts s :: concat (list_refs <$> ch) end.

(** The tree is in the heap. *)
Fixpoint shape (h : heap) (t : tree) : Prop :=
  match t with
  | T r s ch => stmts h !! r = Some s ∧ lists h !! substmts s = Some (root <$> ch) ∧ foldr (λ c P, shape h c ∧ P) True ch
  end.

Lemma shape_children h ch : foldr (λ c P, shape h c ∧ P) True ch ↔ Forall (shape h) ch.
Proof. induction ch as [|c ch IH]; [by split|]. rewrite Forall_cons. cbn. by rewrite IH. Qed.

Lemma size_child c ch : c ∈ ch → size c ≤ foldr Nat.add 0 (size <$> ch).
Proof. induction 1 as [c ch|c d ch _ IH]; cbn; lia. Qed.

Lemma size_length ch : length ch ≤ foldr Nat.add 0 (size <$> ch).
Proof. induction ch as [|[r s l] ch IH]; cbn in *; lia. Qed.

(** A heap that has grown: its statements are the same, new ones may follow, and of the
    old lists only some have changed. *)
Definition grown (L : list nat) (h h' : heap) : Prop :=
  stmts h `prefix_of` stmts h' ∧ ∀ l rs, l ∉ L → lists h !! l = Some rs → lists h' !! l = Some rs.

Lemma grown_refl L h : grown L h h.
Proof. by split. Qed.

Lemma grown_trans L h1 h2 h3 : grown L h1 h2 → grown L h2 h3 → grown L h1 h3.
Proof. intros [Hp Hl] [Hp' Hl']. split; [by etrans|]. intros l rs Hn Hr. by apply Hl', Hl. Qed.

Lemma grown_weaken L L' h h' : L ⊆ L' → grown L h h' → grown L' h h'.
Proof. intros Hs [Hp Hl]. split; [done|]. intros l rs Hn. apply Hl. set_solver. Qed.

Lemma grown_app_l L L' h h' : grown L h h' → grown (L ++ L') h h'.
Proof. apply grown_weaken. intros x Hx. apply elem_of_app. by left. Qed.
Lemma grown_app_r L L' h h' : grown L' h h' → grown (L ++ L') h h'.
Proof. apply grown_weaken. intros x Hx. apply elem_of_app. by right. Qed.

Lemma elem_of_lists l c ch : l ∈ list_refs c → c ∈ ch → l ∈ concat (list_refs <$> ch).
Proof.
  intros Hl Hc. apply list_elem_of_In, in_concat. exists (list_refs c). split; [|by apply list_elem_of_In].
  apply list_elem_of_In, list_elem_of_fmap. by exists c.
Qed.

Lemma shape_grown L h h' t : shape h t → grown L h h' → (∀ l, l ∈ list_refs t → l ∉ L) → shape h' t.
Proof.
  intros Hs [Hp Hg]. revert Hs. induction t as [r s ch IH] using tree_ind'. cbn [shape list_refs]. intros (Hr & Hl & Hch) Hd.
  split_and!; [by eapply prefix_lookup_Some|apply Hg; [apply Hd; left|done]|].
  rewrite shape_children in Hch |- *. rewrite Forall_forall in Hch, IH |- *. intros c Hc. apply IH; [done|by apply Hch|].
  intros l Hin. apply Hd. right. by apply (elem_of_lists _ c).
Qed.

Section theorems.
Context (search_one : heap → ref → keyword → option pystr → option ref).
Context (data_definition_keywords : list keyword).

(** ** Which targets can be links *)

(** The data nodes of a tree. *)
Definition is_data (t : tree) : bool := bool_decide (kw (node t) ∈ data_definition_keywords).

Fixpoint data_nodes (t : tree) : list tree :=
  match t with T r s ch => t :: concat ((λ c, if is_data c then data_nodes c else []) <$> ch) end.

(** A node that the copy of a target cannot have. *)
Definition obstacle (h : heap) (t : tree) : bool :=
  bool_decide (kw (node t) ∈ [Kw (py"list"); Kw (py"choice"); Kw (py"uses")]) ||
  (bool_decide (kw (node t) = Kw (py"container")) && bool_decide (is_Some (search_one h (root t) (Kw (py"presence")) None))).

Definition linkable (h : heap) (t : tree) : bool := negb (existsb (obstacle h) (data_nodes t)).

Lemma linkable_unfold h r s ch :
  linkable h (T r s ch) = negb (obstacle h (T r s ch)) && forallb (λ c, negb (is_data c) || linkable h c) ch.
Proof.
  unfold linkable. cbn [data_nodes existsb]. rewrite negb_orb. f_equal.
  induction ch as [|c ch IH]; [done|]. cbn [fmap list_fmap concat forallb]. rewrite existsb_app, negb_orb, IH. f_equal.
  by destruct (is_data c).
Qed.

Lemma all_linkable_spec h f ch :
  Forall (shape h) ch → Forall (λ c, f (root c) h = (Ok (linkable h c), h)) ch →
  all_linkable data_definition_keywords f (root <$> ch) h = (Ok (forallb (λ c, negb (is_data c) || linkable h c) ch), h).
Proof.
  induction 1 as [|[r s l] ch Hc _ IH]; [done|]. intros [Hf Hfs]%Forall_cons. specialize (IH Hfs).
  destruct Hc as (Hr & _). cbn [fmap list_fmap all_linkable root forallb]. unfold is_data at 1. cbn [node].
  unfold mbind at 1, PyM_bind at 1, stmt_of. rewrite Hr. cbn [root] in Hf. case_decide as Hd.
  - rewrite bool_decide_eq_true_2 by done. cbn [negb orb]. unfold mbind, PyM_bind. rewrite Hf.
    destruct (linkable h (T r s l)); [exact IH|done].
  - rewrite bool_decide_eq_false_2 by done. exact IH.
Qed.

(** C28: [can_use_link] decides whether a target can be replaced by links: there is no list,
    choice, uses or presence container among the target and the data nodes below it, at
    any depth; for every tree in the heap, and without changing it.  The README of the
    tool allows only containers without presence, leaves and leaf-lists: the code accepts
    anyxml and anydata too ([anyxml_accepted]), which then get no link. *)
Theorem can_use_link_spec (h : heap) (t : tree) (fuel : nat) :
  shape h t → size t ≤ fuel →
  can_use_link search_one data_definition_keywords fuel (root t) h = (Ok (linkable h t), h).
Proof.
  revert fuel. induction t as [r s ch IH] using tree_ind'. intros [|fuel] Hs Hf; [cbn in Hf; lia|].
  destruct Hs as (Hr & Hl & Hch). rewrite shape_children in Hch. cbn [root can_use_link size] in *.
  rewrite linkable_unfold. unfold obstacle. cbn [node root].
  unfold mbind at 1, PyM_bind at 1, stmt_of. rewrite Hr. case_decide as Hk.
  { by rewrite bool_decide_eq_true_2. }
  rewrite (bool_decide_eq_false_2 (kw s ∈ _)) by done. cbn [orb].
  assert ((rs ← list_of (substmts s); all_linkable data_definition_keywords (can_use_link search_one data_definition_keywords fuel) rs) h
    = (Ok (forallb (λ c, negb (is_data c) || linkable h c) ch), h)) as Hrec.
  { unfold mbind, PyM_bind, list_of. rewrite Hl. cbn [default]. apply all_linkable_spec; [done|].
    rewrite Forall_forall in IH, Hch |- *. intros c Hc. apply IH; [done|by apply Hch|]. pose proof (size_child c ch Hc). lia. }
  unfold mbind at 1, PyM_bind at 1. case_decide as Hc.
  - unfold search. rewrite (bool_decide_eq_true_2 (kw s = _)) by done. cbn [andb].
    destruct (search_one h r _ None) as [p|]; [by rewrite bool_decide_eq_true_2|].
    rewrite bool_decide_eq_false_2 by (by intros [? ?]). exact Hrec.
  - rewrite (bool_decide_eq_false_2 (kw s = _)) by done. exact Hrec.
Qed.

(** ** The links of a copy *)

Context (prefix tf : pystr).

(** The leaves of a tree that data definitions lead to, each with its path. *)
Definition is_leaf (s : stmt) : bool := bool_decide (kw s ∈ [Kw (py"leaf"); Kw (py"leaf-list")]).

Fixpoint leaf_links (path : pystr) (t : tree) : list (ref * pystr) :=
  match t with
  | T r s ch =>
      if is_leaf s then [(r, path)]
      else concat ((λ c, if is_data c then leaf_links (path ++ py"/" ++ prefix ++ py":" ++ arg (node c)) c else []) <$> ch)
  end.

(** A link statement at the end of a leaf. *)
Definition with_link (h : heap) (x : ref * pystr) : heap :=
  match stmts h !! x.1 with
  | Some s =>
      Heap (stmts h ++ [Stmt (Ext tf (py"link")) x.2 (top s) (Some x.1) (length (lists h))])
        (<[substmts s := default [] (lists h !! substmts s) ++ [length (stmts h)]]> (lists h ++ [[]])) (groupings h)
  | None => h
  end.

Definition prefix_known (L : list nat) (h : heap) (t : tree) : Prop :=
  ∀ h', grown L h h' → Forall (λ d, module_prefix search_one (top (node d)) tailf h' = (Ok tf, h')) (data_nodes t).

Lemma with_link_grown h r s p : stmts h !! r = Some s → is_Some (lists h !! substmts s) → grown [substmts s] h (with_link h (r, p)).
Proof.
  intros Hr Hl. unfold with_link. cbn [fst]. rewrite Hr. split; cbn [stmts lists]; [by eexists|].
  intros l rs Hn Hrs. rewrite list_lookup_insert_ne by set_solver. rewrite lookup_app_l; [done|]. by eapply lookup_lt_Some.
Qed.

Lemma add_link_step h r s p :
  stmts h !! r = Some s → is_Some (lists h !! substmts s) → module_prefix search_one (top s) tailf h = (Ok tf, h) →
  (tf_prefix ← module_prefix search_one (top s) tailf;
   link ← Statement (top s) (Some r) (Ext tf_prefix (py"link")) p;
   append (substmts s) link) h = (Ok tt, with_link h (r, p)).
Proof.
  intros Hr Hl Hp. unfold with_link. cbn [fst snd]. rewrite Hr. unfold mbind, PyM_bind. rewrite Hp.
  unfold Statement, new_list, append, list_of, set_list, modify, mbind, PyM_bind, get, put, mret, PyM_ret. cbn [stmts lists groupings].
  destruct Hl as [rs Hl]. rewrite lookup_app_l by (by eapply lookup_lt_Some). by rewrite Hl.
Qed.

(** The loop over the substatements, when the calls change other lists only. *)
Lemma iterate_children (f : ref → M unit) (g : tree → list (ref * pystr)) l ch pre fuel h :
  lists h !! l = Some (root <$> pre ++ ch) → length ch < fuel → NoDup (concat (list_refs <$> ch)) → l ∉ concat (list_refs <$> ch) →
  Forall (shape h) ch →
  Forall (λ c, ∀ h', grown (concat (list_refs <$> ch)) h h' → shape h' c →
    f (root c) h' = (Ok tt, foldl with_link h' (g c)) ∧ grown (list_refs c) h' (foldl with_link h' (g c))) ch →
  ∃ us, iterate fuel l (length pre) f h = (Ok us, foldl with_link h (concat (g <$> ch))) ∧
    grown (concat (list_refs <$> ch)) h (foldl with_link h (concat (g <$> ch))).
Proof.
  revert pre fuel h. induction ch as [|c ch IH]; intros pre [|fuel] h Hl Hfuel Hnd Hnl Hsh Hf; try (cbn in Hfuel; lia);
    cbn [iterate]; unfold mbind at 1, PyM_bind at 1, list_of; rewrite Hl; unfold default, id.
  - rewrite app_nil_r, lookup_ge_None_2 by (by rewrite length_fmap). exists []. split; [done|apply grown_refl].
  - assert ((root <$> pre ++ c :: ch) !! length pre = Some (root c)) as ->.
    { rewrite fmap_app, lookup_app_r by (by rewrite length_fmap). by rewrite length_fmap, Nat.sub_diag. }
    cbn [fmap list_fmap concat] in Hnd, Hnl, Hf |- *. apply NoDup_app in Hnd as (Hnd1 & Hdis & Hnd2).
    apply Forall_cons in Hsh as [Hc Hsh]. apply Forall_cons in Hf as [Hfc Hf].
    destruct (Hfc h (grown_refl _ h) Hc) as [Hrun Hg]. unfold mbind at 1, PyM_bind at 1. rewrite Hrun.
    set (h1 := foldl with_link h (g c)) in *.
    destruct (IH (pre ++ [c]) fuel h1) as (us & Hus & Hg').
    + rewrite <-app_assoc. apply (proj2 Hg); [|done]. intros Hin. apply Hnl, elem_of_app. by left.
    + cbn in Hfuel. lia.
    + done.
    + intros Hin. apply Hnl, elem_of_app. by right.
    + rewrite Forall_forall in Hsh |- *. intros d Hd. eapply shape_grown; [by apply Hsh|exact Hg|]. intros x Hx Hxc.
      apply (Hdis x Hxc). by apply (elem_of_lists _ d).
    + rewrite Forall_forall in Hf |- *. intros d Hd h' Hgr Hs'. apply Hf; [done| |done].
      eapply grown_trans; [apply grown_app_l; exact Hg|apply grown_app_r; exact Hgr].
    + rewrite length_app, Nat.add_1_r in Hus. unfold mbind, PyM_bind. rewrite Hus. exists (tt :: us). rewrite foldl_app. fold h1.
      split; [done|]. eapply grown_trans; [apply grown_app_l; exact Hg|apply grown_app_r; exact Hg'].
Qed.

(** C27: [add_links] gives every leaf that is reached from the copy through data definitions, and
    nothing else, one link, after its other substatements; the link's argument is the path of
    the target extended by the names on the way, with the target's prefix; for every tree
    in the heap whose lists are objects of their own. *)
Theorem add_links_spec (h : heap) (t : tree) (fuel : nat) (path : pystr) :
  shape h t → NoDup (list_refs t) → prefix_known (list_refs t) h t → size t ≤ fuel →
  add_links search_one data_definition_keywords fuel path (root t) prefix h = (Ok tt, foldl with_link h (leaf_links path t)).
Proof.
  intros Hs Hnd Hp Hf. enough (add_links search_one data_definition_keywords fuel path (root t) prefix h = (Ok tt, foldl with_link h (leaf_links path t)) ∧
    grown (list_refs t) h (foldl with_link h (leaf_links path t))) by tauto.
  revert h fuel path Hs Hnd Hp Hf. induction t as [r s ch IH] using tree_ind'.
  intros h [|fuel] path (Hr & Hl & Hch) Hnd Hp Hf; [cbn in Hf; lia|]. rewrite shape_children in Hch.
  cbn [root add_links leaf_links size list_refs] in *. unfold mbind at 1, PyM_bind at 1, stmt_of at 1. rewrite Hr. unfold is_leaf. case_decide as Hk.
  - rewrite bool_decide_eq_true_2 by done. cbn [foldl]. split.
    + apply add_link_step; [done|by eexists|]. specialize (Hp h (grown_refl _ h)). cbn [data_nodes] in Hp. by apply Forall_cons in Hp as [Hp _].
    + apply (grown_app_l [substmts s]), with_link_grown; [done|by eexists].
  - rewrite bool_decide_eq_false_2 by done. apply NoDup_cons in Hnd as [Hnl Hnd].
    destruct (iterate_children (λ subnode, sub ← stmt_of subnode;
        if decide (kw sub ∈ data_definition_keywords)
        then add_links search_one data_definition_keywords fuel (path ++ py"/" ++ prefix ++ py":" ++ arg sub) subnode prefix else mret tt)
      (λ c, if is_data c then leaf_links (path ++ py"/" ++ prefix ++ py":" ++ arg (node c)) c else [])
      (substmts s) ch [] (S fuel) h) as (us & Hus & Hg); try done.
    + pose proof (size_length ch). lia.
    + rewrite Forall_forall in IH |- *. intros c Hc h' Hgr Hsh. pose proof Hsh as Hsh'. destruct c as [rc sc cc]. destruct Hsh' as (Hrc & _).
      cbn [root node] in *. unfold mbind, PyM_bind, stmt_of. rewrite Hrc. unfold is_data. cbn [node]. case_decide as Hd.
      * rewrite bool_decide_eq_true_2 by done. apply (IH _ Hc h'); [done| | |].
        -- assert (list_refs (T rc sc cc) `sublist_of` concat (list_refs <$> ch)) as Hsub; [|by eapply sublist_NoDup].
           apply list_elem_of_split in Hc as (a & b & ->). rewrite fmap_app, concat_app. cbn [fmap list_fmap concat].
           apply sublist_inserts_l, sublist_inserts_r. done.
        -- intros h2 Hg2. specialize (Hp h2). assert (grown (substmts s :: concat (list_refs <$> ch)) h h2) as Hgg.
           { apply (grown_app_r [substmts s]). eapply grown_trans; [exact Hgr|]. eapply grown_weaken; [|exact Hg2].
             intros x Hx. by apply (elem_of_lists _ (T rc sc cc)). }
           specialize (Hp Hgg). cbn [data_nodes] in Hp. apply Forall_cons in Hp as [_ Hp]. rewrite Forall_forall in Hp |- *.
           intros d Hdin. apply Hp. apply list_elem_of_In, in_concat. exists (data_nodes (T rc sc cc)). split; [|by apply list_elem_of_In].
           apply list_elem_of_In, list_elem_of_fmap. exists (T rc sc cc). unfold is_data. cbn [node]. by rewrite bool_decide_eq_true_2.
        -- pose proof (size_child _ ch Hc). lia.
      * rewrite bool_decide_eq_false_2 by done. cbn [foldl]. split; [done|apply grown_refl].
    + split.
      * unfold mbind at 1, PyM_bind at 1. cbn [length] in Hus. rewrite Hus. done.
      * by apply (grown_app_r [substmts s]).
Qed.
End theorems.

(** ** Groupings *)

Section grouping.
Context (search_one : heap → ref → keyword → option pystr → option ref).
Context (copy : ref → option ref → (ref → ref → M unit) → M ref).
Context (scan : pystr → res (list (pystr * pystr))).

(** Programs that leave the table of groupings as it is. *)
Definition keeps_groupings {A} (m : M A) : Prop := ∀ h, groupings (m h).2 = groupings h.

(** [copy] makes new statements and calls its callback. *)
Context (copy_keeps : ∀ r p f, (∀ old new, keeps_groupings (f old new)) → keeps_groupings (copy r p f)).

Lemma grp_bind {A B} (m : M A) (f : A → M B) :
  keeps_groupings m → (∀ a, keeps_groupings (f a)) → keeps_groupings (m ≫= f).
Proof.
  intros Hm Hf h. unfold mbind, PyM_bind. specialize (Hm h). destruct (m h) as [[a|e] h']; cbn in *; [|done].
  by rewrite Hf.
Qed.

Lemma keeps_stmt_of r : keeps_groupings (stmt_of r).
Proof. intros h. unfold stmt_of. by destruct (stmts h !! r). Qed.
Lemma keeps_opt_ref r : keeps_groupings (opt_ref r).
Proof. intros h. by destruct r. Qed.
Lemma keeps_search r k a : keeps_groupings (search search_one r k a).
Proof. done. Qed.
Lemma keeps_set_list l rs : keeps_groupings (set_list l rs).
Proof. done. Qed.
Lemma grp_lift {A} (r : res A) : keeps_groupings (lift r).
Proof. done. Qed.
Lemma keeps_Statement t p k a : keeps_groupings (Statement t p k a).
Proof. done. Qed.
Lemma keeps_set_substmts r rs : keeps_groupings (set_substmts r rs).
Proof. apply grp_bind; [done|]. intros l. apply grp_bind; [apply keeps_stmt_of|]. by intros s h. Qed.
Lemma keeps_set_arg r a : keeps_groupings (set_arg r a).
Proof. apply grp_bind; [apply keeps_stmt_of|]. by intros s h. Qed.
Lemma keeps_append l x : keeps_groupings (append l x).
Proof. done. Qed.

Lemma keeps_fix_xpaths old new : keeps_groupings (fix_xpaths search_one scan old new).
Proof.
  unfold fix_xpaths, has_xpath. apply grp_bind.
  - apply grp_bind; [apply keeps_stmt_of|]. intros n. apply grp_bind; [|by intros b h]. case_decide; [|done].
    apply grp_bind; [apply keeps_opt_ref|]. intros p. apply grp_bind; [apply keeps_stmt_of|]. by intros ps h.
  - intros []; [|done]. do 5 (apply grp_bind; [first [apply keeps_stmt_of | apply keeps_search | apply keeps_opt_ref]|]; intros ?).
    apply grp_bind; [apply grp_lift|]. intros ts. apply keeps_set_arg.
Qed.

Lemma introduce_grouping_new (node : ref) (h h' : heap) (name : pystr) :
  dict_get node (groupings h) = None → introduce_grouping search_one copy scan node h = (Ok name, h') →
  groupings h' = dict_set node name (groupings h) ∧ ∃ s, stmts h !! node = Some s ∧ name = group_name (arg s).
Proof.
  intros Hn Hi. unfold introduce_grouping in Hi. unfold mbind at 1, PyM_bind at 1, get in Hi. rewrite Hn in Hi.
  unfold mbind at 1, PyM_bind at 1, stmt_of at 1 in Hi. destruct (stmts h !! node) as [s|]; [|done].
  unfold mbind at 1, PyM_bind at 1, set_grouping at 1, modify in Hi.
  match type of Hi with (?m ?h1) = _ => assert (keeps_groupings m) as Hk; [|specialize (Hk h1); set (h0 := h1) in *] end.
  { do 7 (apply grp_bind; [first [apply keeps_Statement | apply keeps_opt_ref | apply keeps_stmt_of | apply grp_lift | apply keeps_set_list | done]|]; intros ?).
    apply grp_bind; [apply copy_keeps, keeps_fix_xpaths|]. intros c.
    apply grp_bind; [apply keeps_set_substmts|]. intros ?. apply grp_bind; [apply keeps_stmt_of|]. intros m.
    apply grp_bind; [apply keeps_append|]. by intros ? ?. }
  rewrite Hi in Hk. cbn [snd] in Hk. assert (name = group_name (arg s)) as ->.
  { clear Hk. unfold mbind, PyM_bind, mret, PyM_ret in Hi. repeat case_match; by simplify_eq. }
  rewrite Hk. split; [done|]. by exists s.
Qed.

(** A target gets one grouping, however many links lead to it: the first time it is named after
    the target and remembered; from then on the same name is answered and nothing changes. *)
Theorem grouping_once (node : ref) (h h' : heap) (name : pystr) :
  introduce_grouping search_one copy scan node h = (Ok name, h') →
  dict_get node (groupings h') = Some name ∧
  introduce_grouping search_one copy scan node h' = (Ok name, h') ∧
  (dict_get node (groupings h) = None → ∃ s, stmts h !! node = Some s ∧ name = group_name (arg s)) ∧
  (∀ other, other ≠ node → dict_get other (groupings h') = dict_get other (groupings h)).
Proof.
  intros Hi. assert (dict_get node (groupings h') = Some name ∧ (∀ other, other ≠ node → dict_get other (groupings h') = dict_get other (groupings h)) ∧
    (dict_get node (groupings h) = None → ∃ s, stmts h !! node = Some s ∧ name = group_name (arg s))) as (Hg & Ho & Hs).
  { destruct (dict_get node (groupings h)) as [n|] eqn:Hn.
    - unfold introduce_grouping, mbind, PyM_bind, get in Hi. rewrite Hn in Hi. injection Hi as <- <-. by split_and!.
    - pose proof (introduce_grouping_new _ _ _ _ Hn Hi) as (-> & Hs). split_and!; [apply dict_get_set_eq| |done].
      intros other Hne. by apply dict_get_set_ne. }
  split_and!; [done| |done|done]. unfold introduce_grouping, mbind, PyM_bind, get. by rewrite Hg.
Qed.
End grouping.

(** ** An example *)

Module Example.
(** The first substatement with a keyword and an argument. *)
Definition find_one (h : heap) (r : ref) (k : keyword) (a : option pystr) : option ref :=
  s ← stmts h !! r;
  rs ← lists h !! substmts s;
  List.find (λ c, match stmts h !! c with
    | Some sc => bool_decide (kw sc = k) && match a with Some a => bool_decide (arg sc = a) | None => true end
    | None => false end) rs.

(** A copy of everything below a statement, the callback after the substatements. *)
Fixpoint deep_copy (fuel : nat) (r : ref) (p : option ref) (f : ref → ref → M unit) : M ref :=
  match fuel with
  | 0 => raise OutOfFuel
  | S k =>
      s ← stmt_of r;
      new ← Statement (top s) p (kw s) (arg s);
      rs ← list_of (substmts s);
      cs ← M_map (λ c, deep_copy k c (Some new) f) rs;
      _ ← set_substmts new cs;
      _ ← f r new;
      mret new
  end.

Definition data_keywords : list keyword :=
  Kw <$> [py"container"; py"leaf"; py"leaf-list"; py"list"; py"choice"; py"uses"].

(** An expression of one name. *)
Definition scan_name (s : pystr) : res (list (pystr * pystr)) := Ok [(py"name", s)].

(** What a statement looks like: keywords and arguments, to a depth. *)
Definition show_kw (k : keyword) : pystr := match k with Kw s => s | Ext m s => m ++ py":" ++ s end.
Fixpoint show (depth : nat) (h : heap) (r : ref) : pystr :=
  match depth, stmts h !! r with
  | S d, Some s => show_kw (kw s) ++ py" " ++ arg s ++
      match default [] (lists h !! substmts s) with
      | [] => py";"
      | rs => py"{" ++ concat (show d h <$> rs) ++ py"}"
      end
  | _, _ => []
  end.

(** A module with the list [l], which the symbolic link [s] in a container leads to; the
    list comes first or last. *)
Definition module (list_first : bool) : heap :=
  let data := if list_first then [3; 5]%nat else [5; 3]%nat in
  Heap [Stmt (Kw (py"module")) (py"m") 0 None 0;
        Stmt (Kw (py"prefix")) (py"m") 0 (Some 0) 1;
        Stmt (Kw (py"import")) tailf 0 (Some 0) 2;
        Stmt (Kw (py"list")) (py"l") 0 (Some 0) 3;
        Stmt (Kw (py"leaf")) (py"k") 0 (Some 3) 4;
        Stmt (Kw (py"container")) (py"c") 0 (Some 0) 5;
        Stmt (Ext tailf (py"symlink")) (py"s") 0 (Some 5) 6;
        Stmt (Ext tailf (py"path")) (py"/l") 0 (Some 6) 7;
        Stmt (Kw (py"prefix")) (py"tailf") 0 (Some 2) 8]
       [[1; 2] ++ data; []; [8]; [4]; []; [6]; [7]; []; []] [].

Definition replaced (no_groups list_first : bool) : pystr :=
  let '(r, h) := replace_symlinks find_one (λ _ _, Some 3) (deep_copy 20) data_keywords scan_name no_groups 20 0 (module list_first) in
  if r is Ok m then show 20 h m else [].

(** With the link first, the list moves into a grouping, and both places use it. *)
Lemma link_first :
  replaced false false =
    py"module m{prefix m;import tailf-common{prefix tailf;}" ++
    py"container c{uses m:l-symlink-group{refine l{tailf:callpoint symlink-transform{tailf:transform true;}}}}" ++
    py"uses l-symlink-group;grouping l-symlink-group{list l{leaf k;}}}".
Proof. vm_compute. reflexivity. Qed.

(** With the list first it stays where it is, beside the grouping: the module's new list
    was made of the statements as they had been visited. *)
Lemma list_first_stays :
  replaced false true =
    py"module m{prefix m;import tailf-common{prefix tailf;}list l{leaf k;}" ++
    py"container c{uses m:l-symlink-group{refine l{tailf:callpoint symlink-transform{tailf:transform true;}}}}" ++
    py"grouping l-symlink-group{list l{leaf k;}}}".
Proof. vm_compute. reflexivity. Qed.

(** Only the copy has the name of the link; with a grouping the name is lost. *)
Lemma name_lost :
  contains (replaced true false) (py"container c{list s{") = true ∧ contains (replaced false false) (py"list s") = false.
Proof. vm_compute. done. Qed.

(** Names in expressions get the prefix of the target's module for itself, also where the
    copy's module has imported it with another prefix. *)
Definition imported : heap :=
  Heap [Stmt (Kw (py"module")) (py"a") 0 None 0;
        Stmt (Kw (py"import")) (py"b") 0 (Some 0) 1;
        Stmt (Kw (py"prefix")) (py"x") 0 (Some 1) 2;
        Stmt (Kw (py"module")) (py"b") 3 None 3;
        Stmt (Kw (py"prefix")) (py"b") 3 (Some 3) 4;
        Stmt (Kw (py"must")) (py"k") 3 (Some 3) 5;
        Stmt (Kw (py"must")) (py"k") 0 (Some 0) 6]
       [[1; 6]; [2]; []; [4; 5]; []; []; []] [].

Lemma wrong_prefix :
  (module_prefix find_one 0 (py"b") imported).1 = Ok (py"x") ∧
  (arg <$> stmts (fix_xpaths find_one scan_name 5 6 imported).2 !! 6) = Some (py"b:k").
Proof. vm_compute. done. Qed.

(** *** Witnesses *)

Definition k_leaf (r l : nat) (a : pystr) : tree := T r (Stmt (Kw (py"leaf")) a 0 (Some 1) l) [].
Definition box : stmt := Stmt (Kw (py"container")) (py"c") 0 (Some 0) 1.
Definition box_tree : tree := T 1 box [k_leaf 2 2 (py"a"); k_leaf 3 3 (py"b")].
Definition box_heap : heap :=
  Heap [Stmt (Kw (py"module")) tailf 0 None 0; box; node (k_leaf 2 2 (py"a")); node (k_leaf 3 3 (py"b"));
        Stmt (Kw (py"prefix")) (py"tf") 0 (Some 0) 4] [[4; 1]; [2; 3]; []; []; []] [].

(** A search that always finds the prefix. *)
Definition find_prefix (h : heap) (r : ref) (k : keyword) (a : option pystr) : option ref :=
  if decide (k = Kw (py"prefix")) then Some 4 else None.

Lemma can_use_link_spec_witness :
  can_use_link find_one data_keywords 3 1 box_heap = (Ok true, box_heap).
Proof.
  change (can_use_link find_one data_keywords 3 (root box_tree) box_heap = (Ok (linkable find_one data_keywords box_heap box_tree), box_heap)).
  apply (can_use_link_spec find_one data_keywords box_heap box_tree 3); [by repeat split|cbn; lia].
Defined.

(** A container with an anyxml, which the README excludes, is accepted, and the anyxml
    gets no link. *)
Definition any_heap : heap :=
  Heap [Stmt (Kw (py"module")) tailf 0 None 0; Stmt (Kw (py"container")) (py"c") 0 (Some 0) 1;
        Stmt (Kw (py"anyxml")) (py"a") 0 (Some 1) 2] [[1]; [2]; []] [].
Lemma anyxml_accepted :
  can_use_link find_one data_keywords 3 1 any_heap = (Ok true, any_heap) ∧
  add_links find_one data_keywords 3 (py"/t") 1 (py"p") any_heap = (Ok tt, any_heap).
Proof. by vm_compute. Qed.

Lemma add_links_spec_witness :
  add_links find_prefix data_keywords 3 (py"/t") 1 (py"p") box_heap =
    (Ok tt, foldl (with_link (py"tf")) box_heap [(2, py"/t/p:a"); (3, py"/t/p:b")]).
Proof.
  change (add_links find_prefix data_keywords 3 (py"/t") (root box_tree) (py"p") box_heap =
    (Ok tt, foldl (with_link (py"tf")) box_heap (leaf_links data_keywords (py"p") (py"/t") box_tree))).
  apply (add_links_spec find_prefix data_keywords (py"p") (py"tf") box_heap box_tree 3 (py"/t")).
  - by repeat split.
  - vm_decide.
  - intros h' [[t Ht] _]. cbn [stmts box_heap] in Ht.
    assert (module_prefix find_prefix 0 tailf h' = (Ok (py"tf"), h')) as Hp.
    { unfold module_prefix, mbind, PyM_bind, stmt_of. rewrite Ht. cbn [app lookup list_lookup arg node box k_leaf].
      rewrite decide_True by done. cbn. assert (find_prefix h' 0 (Kw (py"prefix")) None = Some 4) as -> by done.
      cbn. by rewrite Ht. }
    repeat (apply Forall_cons; split; [exact Hp|]). by apply Forall_nil.
  - cbn. lia.
Defined.

Lemma deep_copy_keeps fuel r p f : (∀ old new, keeps_groupings (f old new)) → keeps_groupings (deep_copy fuel r p f).
Proof.
  intros Hf. revert r p. induction fuel as [|k IH]; intros r p; [done|]. cbn [deep_copy].
  apply grp_bind; [apply keeps_stmt_of|]. intros s. apply grp_bind; [apply keeps_Statement|]. intros new.
  apply grp_bind; [done|]. intros rs. apply grp_bind.
  { induction rs as [|c rs IHrs]; cbn [M_map]; [done|]. apply grp_bind; [apply IH|]. intros y. apply grp_bind; [done|]. by intros ys h. }
  intros cs. apply grp_bind; [apply keeps_set_substmts|]. intros []. apply grp_bind; [apply Hf|]. by intros [] h.
Qed.

Definition grouped := introduce_grouping find_one (deep_copy 20) scan_name 3 (module false).

Lemma grouping_once_witness :
  introduce_grouping find_one (deep_copy 20) scan_name 3 grouped.2 = (Ok (py"l-symlink-group"), grouped.2).
Proof.
  apply (grouping_once find_one (deep_copy 20) scan_name (deep_copy_keeps 20) 3 (module false) grouped.2 (py"l-symlink-group")).
  vm_compute. reflexivity.
Defined.
End Example.
