(* ===== verification/SyncDaemon.v ===== *)
(** * The synchroniser's dialogue with ConfD: confd-sync-py/app/cdbl-sync-nc.py

    SyncNc models what the handlers of the synchroniser compute.  Here are the calls
    around them: the sockets and sessions of [handle_netconf_server_list] and of the
    action sync-to, and the main loop of [run] with its finally block, each call
    answered by an environment.  Sockets are named after the place that makes them. *)

From Stdlib Require Import Ascii String.
From S2P Require Import Prelude PyStr PyDict Json Xml Trace SyncNc.

(** The sockets of the n-th call of [handle_netconf_server_list], of an action, and of
    the start of the program. *)
Inductive sock := Crs (n : nat) | Cds (n : nat) | Css (n : nat) | Action_cds | Ms.

#[export] Instance sock_eq_dec : EqDecision sock.
Proof. solve_decision. Defined.

Inductive socket_kind := DATA_SOCKET | SUBSCRIPTION_SOCKET.
Inductive database := RUNNING | OPERATIONAL.

#[export] Instance socket_kind_eq_dec : EqDecision socket_kind.
Proof. solve_decision. Defined.

(** The handlers of notifications are those of SyncNc; each ends with an answer to ConfD,
    which acknowledges the notification or aborts the transaction. *)
Inductive effect : Set → Type :=
  | ESocket (s : sock) : effect unit
  | EMaapiConnect (s : sock) (addr : pystr) : effect unit
  | ELoadSchemas (s : sock) : effect unit
  | ECdbConnect (s : sock) (k : socket_kind) (addr : pystr) : effect unit
  | EStartSession2 (s : sock) (db : database) (lock : Z) : effect unit
  | EStartSession (s : sock) (db : database) : effect unit
  | EEndSession (s : sock) : effect unit
  | ENumInstances (s : sock) (path : pystr) : effect Z
  | EGet (s : sock) (path : pystr) : effect pystr
  | ESetElem (s : sock) (v path : pystr) : effect unit
  | ESubscribe2 (s : sock) (prio : Z) (path : pystr) : effect Z
  | ESubscribe (s : sock) (prio : Z) (path : pystr) : effect Z
  | ESubscribeDone (s : sock) : effect unit
  | ETrigger (s : sock) (points : list Z) : effect unit
  | EReadSubscription (s : sock) : effect (sub_type * Z * list Z)
  | EHandle (ty : sub_type) (s : sock) (sids : list Z) (flags : Z) : effect unit
  | ESync (s : sock) : effect unit
  | EClose (s : sock) : effect unit
  | EStartDaemon : effect unit
  | EFinishDaemon : effect unit
  | EPrint (t : pystr) : effect unit.

Abbreviation M := (PyM (list (item effect))).

Definition CONFD_ADDR : pystr := py"127.0.0.1".

(** The locks are flags of the ConfD library. *)
Section calls.
Context (LOCK_SESSION LOCK_WAIT : Z) (env : environment effect).
Definition call {A : Set} (e : effect A) : M A := act env e.

(** [int(text)]. *)
Definition int (t : pystr) : res Z := match py_int t with Some z => Ok z | None => Raise ValueError end.

(** When the program is loaded; [ms.close] without parentheses calls nothing. *)
Definition load_schemas : M unit :=
  _ ← call (ESocket Ms);
  _ ← call (EMaapiConnect Ms CONFD_ADDR);
  call (ELoadSchemas Ms).

Definition server_leaf (i : nat) (leaf : pystr) : pystr := fmt (py"{0}[{1}]/{2}") [SERVER_PATH; str_nat i; leaf].

(** [for i in range(num)], from [i] on. *)
Fixpoint for_range (k i : nat) (f : nat → M unit) : M unit :=
  match k with 0 => mret tt | S k' => _ ← f i; for_range k' (S i) f end.

Definition subscribe_server (n i : nat) : M unit :=
  sub_path ← call (EGet (Crs n) (server_leaf i (py"subscription-path")));
  p ← call (EGet (Crs n) (server_leaf i (py"subscription-priority")));
  sub_prio ← lift (int p);
  sid ← call (ESubscribe2 (Css n) sub_prio sub_path);
  call (ESetElem (Cds n) (str_Z sid) (server_leaf i (py"subscription-id"))).

Definition handle_netconf_server_list (n : nat) (lock : Z) : M (sock * Z) :=
  _ ← call (ESocket (Crs n));
  _ ← call (ECdbConnect (Crs n) DATA_SOCKET CONFD_ADDR);
  _ ← call (ESocket (Cds n));
  _ ← call (ECdbConnect (Cds n) DATA_SOCKET CONFD_ADDR);
  _ ← call (ESocket (Css n));
  _ ← call (ECdbConnect (Css n) SUBSCRIPTION_SOCKET CONFD_ADDR);
  _ ← call (EStartSession2 (Crs n) RUNNING lock);
  _ ← call (EStartSession (Cds n) OPERATIONAL);
  num ← call (ENumInstances (Crs n) SERVER_PATH);
  _ ← for_range (Z.to_nat num) 0 (subscribe_server n);
  _ ← call (EClose (Cds n));
  p ← call (EGet (Crs n) (CLIENT_PATH ++ py"/server-priority"));
  server_prio ← lift (int p);
  server_sid ← call (ESubscribe (Css n) server_prio SERVER_PATH);
  _ ← call (EClose (Crs n));
  _ ← call (ESubscribeDone (Css n));
  mret (Css n, server_sid).

(** *** The action *)

(** Reading identifiers from one path after the other. *)
Fixpoint sub_points (paths : list pystr) : M (list Z) :=
  match paths with
  | [] => mret []
  | p :: ps => t ← call (EGet Action_cds p); z ← lift (int t); zs ← sub_points ps; mret (z :: zs)
  end.

Definition named_leaf (name : pystr) : pystr :=
  SERVER_PATH ++ py"{" ++ name ++ py"}/subscription-id".

Definition sync_to (all : bool) (servers : list pystr) : M pystr :=
  _ ← call (ESocket Action_cds);
  _ ← call (ECdbConnect Action_cds DATA_SOCKET CONFD_ADDR);
  _ ← call (EStartSession Action_cds OPERATIONAL);
  result ← (if all || bool_decide (servers = []) then
     num ← call (ENumInstances Action_cds SERVER_PATH);
     points ← sub_points ((λ i, server_leaf i (py"subscription-id")) <$> seq 0 (Z.to_nat num));
     _ ← call (EEndSession Action_cds);
     _ ← call (ETrigger Action_cds points);
     mret (py"Synchronized the configuration with all NETCONF servers")
   else
     points ← sub_points (named_leaf <$> servers);
     _ ← call (EEndSession Action_cds);
     _ ← call (ETrigger Action_cds points);
     mret (fmt (py"Synchronized the configuration with {0} NETCONF servers") [join (py", ") servers]));
  _ ← call (EClose Action_cds);
  mret result.

(** *** The main program *)

Definition handle_sync_to : M unit := call EStartDaemon.

(** The variables of the loop: the socket, the identifier for the list of servers, and
    the number of calls of [handle_netconf_server_list] so far. *)
Definition vars : Type := sock * Z * nat.

Definition run_round (v : vars) : M vars :=
  let '(css, server_sid, n) := v in
  '(ty, sub_flags, sids) ← call (EReadSubscription css);
  match ty with
  | SUB_COMMIT =>
      match sids with
      | [] => raise IndexError
      | sid :: _ =>
          if decide (sid = server_sid) then
            '(new_css, server_sid) ← handle_netconf_server_list n 0;
            _ ← call (ESync css);
            _ ← call (EClose css);
            mret (new_css, server_sid, S n)
          else _ ← call (EHandle ty css sids sub_flags); mret v
      end
  | _ => _ ← call (EHandle ty css sids sub_flags); mret v
  end.

(** The loop ends with an exception; the variables are those of the last round. *)
Fixpoint run_loop (fuel : nat) (v : vars) : M (sock * exn) :=
  match fuel with
  | 0 => mret (v.1.1, OutOfFuel)
  | S k => λ h, match run_round v h with
                | (Ok v', h') => run_loop k v' h'
                | (Raise e, h') => (Ok (v.1.1, e), h')
                end
  end.

Definition run (fuel : nat) : M unit :=
  '(css, server_sid) ← handle_netconf_server_list 0 (Z.lor LOCK_SESSION LOCK_WAIT);
  _ ← handle_sync_to;
  '(css, e) ← run_loop fuel (css, server_sid, 1);
  try_finally
    (match e with KeyboardInterrupt => call (EPrint (nl ++ py"Ctrl-C pressed")) | _ => raise e end)
    (_ ← call (EClose css); call EFinishDaemon).
End calls.

(** ** The discipline of the calls *)

Inductive status := Closed | New | Connected (k : socket_kind) | Session | Subscribing | Ready.

#[export] Instance status_eq_dec : EqDecision status.
Proof. solve_decision. Defined.

(** The sockets; whether a notification waits for its answer, and the socket it was read
    from; whether the daemon of the action runs; whether a call of the cleanup failed. *)
Record view := View {
  socks : sock → status; pending : bool; reading : option sock; daemon : bool; failed : bool }.

Definition start : view := View (λ _, Closed) false None false false.

Definition set_sock (s : sock) (x : status) (q : view) : view :=
  View (λ s', if decide (s' = s) then x else socks q s') (pending q) (reading q) (daemon q) (failed q).
Definition set_pending (b : bool) (s : sock) (q : view) : view := View (socks q) b (Some s) (daemon q) (failed q).
Definition set_daemon (b : bool) (q : view) : view := View (socks q) (pending q) (reading q) b (failed q).
Definition set_failed (q : view) : view := View (socks q) (pending q) (reading q) (daemon q) true.

(** A call that is allowed in a state, with the state after it when it returns and when
    it raises. *)
Definition allow {A} (b : bool) (r : res A) (q q' q'' : view) : option view :=
  if b then Some (if is_ok r then q' else q'') else None.

(** Is a notification from this socket to be answered? *)
Definition unanswered (q : view) (s : sock) : bool :=
  bool_decide (socks q s = Ready) && pending q && bool_decide (reading q = Some s).

Definition is_sub (x : status) : bool := bool_decide (x = Connected SUBSCRIPTION_SOCKET ∨ x = Subscribing).

Definition discipline (q : view) (i : item effect) : option view :=
  match i with Item e r =>
    match e in effect A return res A → option view with
    | ESocket s => λ r, allow (bool_decide (socks q s = Closed)) r q (set_sock s New q) q
    | ECdbConnect s k _ => λ r, allow (bool_decide (socks q s = New)) r q (set_sock s (Connected k) q) q
    | EMaapiConnect s _ | ELoadSchemas s => λ r, allow (bool_decide (socks q s = New)) r q q q
    | EStartSession2 s _ lock => λ r,
        allow (bool_decide (socks q s = Connected DATA_SOCKET) && (bool_decide (lock = 0%Z) || negb (pending q)))
          r q (set_sock s Session q) q
    | EStartSession s _ => λ r, allow (bool_decide (socks q s = Connected DATA_SOCKET)) r q (set_sock s Session q) q
    | EEndSession s => λ r, allow (bool_decide (socks q s = Session)) r q (set_sock s (Connected DATA_SOCKET) q) q
    | ENumInstances s _ => λ r, allow (bool_decide (socks q s = Session)) r q q q
    | EGet s _ => λ r, allow (bool_decide (socks q s = Session)) r q q q
    | ESetElem s _ _ => λ r, allow (bool_decide (socks q s = Session)) r q q q
    | ESubscribe2 s _ _ | ESubscribe s _ _ => λ r, allow (is_sub (socks q s)) r q (set_sock s Subscribing q) q
    | ESubscribeDone s => λ r, allow (bool_decide (socks q s = Subscribing)) r q (set_sock s Ready q) q
    | ETrigger s _ => λ r, allow (bool_decide (socks q s = Connected DATA_SOCKET)) r q q q
    | EReadSubscription s => λ r,
        allow (bool_decide (socks q s = Ready) && negb (pending q)) r q (set_pending true s q) q
    | EHandle _ s _ _ => λ r, allow (unanswered q s) r q (set_pending false s q) q
    | ESync s => λ r, allow (unanswered q s) r q (set_pending false s q) q
    | EClose s => λ r, allow (bool_decide (socks q s ≠ Closed)) r q (set_sock s Closed q) (set_failed q)
    | EStartDaemon => λ r, allow (negb (daemon q)) r q (set_daemon true q) q
    | EFinishDaemon => λ r, allow (daemon q) r q (set_daemon false q) (set_failed q)
    | EPrint _ => λ r, Some q
    end r
  end.

Local Abbreviation triple := (triple discipline).

(** *** A call of [handle_netconf_server_list] *)

Section server_list.
Context (LOCK_SESSION LOCK_WAIT : Z) (env : environment effect) (n : nat) (q0 : view).

(** The state with the sockets of the n-th call replaced. *)
Definition looks (a b c : status) (s : sock) : status :=
  match s with
  | Crs m => if decide (m = n) then a else socks q0 s
  | Cds m => if decide (m = n) then b else socks q0 s
  | Css m => if decide (m = n) then c else socks q0 s
  | _ => socks q0 s
  end.

Definition shape (a b c : status) (q : view) : Prop :=
  (∀ s, socks q s = looks a b c s) ∧ pending q = pending q0 ∧ reading q = reading q0 ∧ daemon q = daemon q0 ∧
  (failed q0 = true → failed q = true).

Definition some_shape (q : view) : Prop := ∃ a b c, shape a b c q.

Lemma shape_crs a b c x q : shape a b c q → shape x b c (set_sock (Crs n) x q).
Proof. intros (Hs & Hrest). split; [|exact Hrest]. intros s. cbn. rewrite Hs. destruct s; cbn; repeat case_decide; congruence. Qed.

Lemma shape_cds a b c x q : shape a b c q → shape a x c (set_sock (Cds n) x q).
Proof. intros (Hs & Hrest). split; [|exact Hrest]. intros s. cbn. rewrite Hs. destruct s; cbn; repeat case_decide; congruence. Qed.

Lemma shape_css a b c x q : shape a b c q → shape a b x (set_sock (Css n) x q).
Proof. intros (Hs & Hrest). split; [|exact Hrest]. intros s. cbn. rewrite Hs. destruct s; cbn; repeat case_decide; congruence. Qed.

Lemma shape_failed a b c q : shape a b c q → shape a b c (set_failed q).
Proof. intros (Hs & Hp & Hr & Hd & _). by split_and!. Qed.

(** A call that is allowed in a shape. *)
Lemma shape_call {A : Set} (e : effect A) a b c a' b' c' :
  (∀ q r, shape a b c q → ∃ q' q'', discipline q (Item e r) = Some (if is_ok r then q' else q'') ∧ shape a' b' c' q' ∧ shape a b c q'') →
  triple (shape a b c) (call env e) (λ _, shape a' b' c') some_shape.
Proof.
  intros He. apply triple_act. intros q r Hq. destruct (He q r Hq) as (q' & q'' & Hd & Hok & Hraise).
  eexists. split; [exact Hd|]. destruct r; cbn; [done|]. by exists a, b, c.
Qed.
End server_list.

Ltac shape_step :=
  let q := fresh "q" in let r := fresh "r" in let Hq := fresh "Hq" in let Hs := fresh "Hs" in
  intros q r Hq; pose proof (proj1 Hq) as Hs; cbn [discipline]; rewrite Hs; unfold looks, is_sub;
  rewrite ?decide_True, ?bool_decide_eq_true_2 by auto; eexists _, _; split; [reflexivity|]; split;
  [first [exact Hq | eapply shape_crs, Hq | eapply shape_cds, Hq | eapply shape_css, Hq]
  |first [exact Hq | by apply shape_failed]].

Section server_list_runs.
Context (LOCK_SESSION LOCK_WAIT : Z) (env : environment effect) (n : nat) (q0 : view).

Local Abbreviation shape := (shape n q0).
Local Abbreviation some_shape := (some_shape n q0).

Definition subscribing (q : view) : Prop := ∃ c, is_sub c = true ∧ shape Session Session c q.

Lemma subscribing_call {A : Set} (e : effect A) :
  (∀ c, is_sub c = true → triple (shape Session Session c) (call env e) (λ _, subscribing) some_shape) →
  triple subscribing (call env e) (λ _, subscribing) some_shape.
Proof. intros He q h (c & Hc & Hq). by apply (He c Hc q h). Qed.

Lemma subscribing_same {A : Set} (e : effect A) :
  (∀ c q r, is_sub c = true → shape Session Session c q →
     ∃ q' q'', discipline q (Item e r) = Some (if is_ok r then q' else q'') ∧ shape Session Session c q' ∧ shape Session Session c q'') →
  triple subscribing (call env e) (λ _, subscribing) some_shape.
Proof.
  intros He. apply subscribing_call. intros c Hc.
  eapply triple_conseq; [apply (shape_call env n q0 e Session Session c Session Session c)| | |]; try done.
  - intros q r Hq. by apply He.
  - intros a q Hq. by exists c.
Qed.

Lemma subscribe_server_shape i : triple subscribing (subscribe_server env n i) (λ _, subscribing) some_shape.
Proof.
  unfold subscribe_server.
  eapply triple_bind; [apply subscribing_same; intros c q r _; revert q r; shape_step|]. intros sub_path.
  eapply triple_bind; [apply subscribing_same; intros c q r _; revert q r; shape_step|]. intros p.
  eapply triple_bind; [apply (triple_lift discipline _ _ (λ _, subscribing)); intros q Hq; destruct (int p); [done|by destruct Hq as (c & _ & Hq); exists Session, Session, c]|].
  intros prio. eapply triple_bind.
  { apply subscribing_call. intros c Hc. eapply triple_conseq; [apply (shape_call env n q0 _ Session Session c Session Session Subscribing)| | |]; try done.
    - intros q r Hq. pose proof (proj1 Hq) as Hs. cbn [discipline]. rewrite Hs. unfold looks. rewrite decide_True, Hc by done.
      eexists _, _. split; [reflexivity|]. split; [|done]. eapply shape_css, Hq.
    - intros a q Hq. by exists Subscribing. }
  intros sid. apply subscribing_same. intros c q r _. revert q r. shape_step.
Qed.

Lemma for_range_shape k i : triple subscribing (for_range k i (subscribe_server env n)) (λ _, subscribing) some_shape.
Proof.
  revert i. induction k as [|k IH]; intros i; cbn [for_range]; [apply (triple_ret discipline tt (λ _, subscribing))|].
  eapply triple_bind; [apply subscribe_server_shape|]. intros []. apply IH.
Qed.

(** The next call is allowed, and leads to a shape. *)
Ltac shape_to a b c :=
  eapply triple_bind; [apply (shape_call env n q0 _ _ _ _ a b c); shape_step|].

(** A call of [handle_netconf_server_list] leaves one socket, on which all subscriptions
    have been made; a lock is only asked for when no notification waits. *)
Lemma server_list_shape lock :
  lock = 0%Z ∨ pending q0 = false →
  triple (shape Closed Closed Closed) (handle_netconf_server_list env n lock)
    (λ r q, r.1 = Css n ∧ shape Closed Closed Ready q) some_shape.
Proof.
  intros Hl. unfold handle_netconf_server_list.
  shape_to New Closed Closed. intros [].
  shape_to (Connected DATA_SOCKET) Closed Closed. intros [].
  shape_to (Connected DATA_SOCKET) New Closed. intros [].
  shape_to (Connected DATA_SOCKET) (Connected DATA_SOCKET) Closed. intros [].
  shape_to (Connected DATA_SOCKET) (Connected DATA_SOCKET) New. intros [].
  shape_to (Connected DATA_SOCKET) (Connected DATA_SOCKET) (Connected SUBSCRIPTION_SOCKET). intros [].
  eapply triple_bind.
  { apply (shape_call env n q0 _ _ _ _ Session (Connected DATA_SOCKET) (Connected SUBSCRIPTION_SOCKET)). intros q r Hq. pose proof Hq as (Hs & Hp & _).
    cbn [discipline]. rewrite Hs, Hp. unfold looks. rewrite decide_True, bool_decide_eq_true_2 by done.
    assert (bool_decide (lock = 0%Z) || negb (pending q0) = true) as ->.
    { destruct Hl as [->| ->]; [by rewrite bool_decide_eq_true_2|apply orb_true_r]. }
    eexists _, _. split; [reflexivity|]. split; [|done]. eapply shape_crs, Hq. }
  intros [].
  shape_to Session Session (Connected SUBSCRIPTION_SOCKET). intros [].
  shape_to Session Session (Connected SUBSCRIPTION_SOCKET). intros num.
  eapply triple_bind.
  { eapply triple_conseq; [apply for_range_shape| |done|done]. intros q Hq. by exists (Connected SUBSCRIPTION_SOCKET). }
  intros [] q h (c & Hc & Hq). revert q h Hq.
  change (triple (shape Session Session c) (_ ← call env (EClose (Cds n)); p ← call env (EGet (Crs n) (CLIENT_PATH ++ py"/server-priority"));
    server_prio ← lift (int p); server_sid ← call env (ESubscribe (Css n) server_prio SERVER_PATH);
    _ ← call env (EClose (Crs n)); _ ← call env (ESubscribeDone (Css n)); mret (Css n, server_sid))
    (λ r q, r.1 = Css n ∧ shape Closed Closed Ready q) some_shape).
  shape_to Session Closed c. intros [].
  shape_to Session Closed c. intros p.
  eapply triple_bind; [apply (triple_lift discipline _ _ (λ _, shape Session Closed c)); intros q Hq; destruct (int p); [done|by exists Session, Closed, c]|].
  intros prio. eapply triple_bind.
  { apply (shape_call env n q0 _ _ _ _ Session Closed Subscribing). intros q r Hq. pose proof (proj1 Hq) as Hs. cbn [discipline]. rewrite Hs. unfold looks.
    rewrite decide_True, Hc by done. eexists _, _. split; [reflexivity|]. split; [|done]. eapply shape_css, Hq. }
  intros sid. shape_to Closed Closed Subscribing. intros [].
  shape_to Closed Closed Ready. intros [].
  eapply triple_conseq; [apply (triple_ret discipline (Css n, sid) (λ r q, r.1 = Css n ∧ shape Closed Closed Ready q) some_shape)| | |]; done.
Qed.
End server_list_runs.

(** *** The main loop *)

Section loop.
Context (LOCK_SESSION LOCK_WAIT : Z) (env : environment effect).

(** Between two rounds only the socket of the loop is open, and nothing waits. *)
Definition between (v : vars) (q : view) : Prop :=
  let '(css, _, n) := v in
  socks q css = Ready ∧ (∀ s, s ≠ css → socks q s = Closed) ∧ (∃ m, css = Css m ∧ m < n) ∧
  pending q = false ∧ daemon q = true ∧ (∀ s, reading q = Some s → s = css ∨ socks q s = Closed).

(** When the loop has ended. *)
Definition ended (css : sock) (q : view) : Prop :=
  socks q css = Ready ∧ daemon q = true ∧ (∀ s, reading q = Some s → s = css ∨ socks q s = Closed).

(** After the read, with the notification to be answered. *)
Definition notified (v : vars) (q : view) : Prop :=
  let '(css, _, n) := v in
  socks q css = Ready ∧ (∀ s, s ≠ css → socks q s = Closed) ∧ (∃ m, css = Css m ∧ m < n) ∧
  pending q = true ∧ daemon q = true ∧ reading q = Some css.

Lemma between_ended v q : between v q → ended v.1.1 q.
Proof. destruct v as [[css sid] n]. by intros (? & _ & _ & _ & ? & ?). Qed.

Lemma notified_ended v q : notified v q → ended v.1.1 q.
Proof. destruct v as [[css sid] n]. intros (? & _ & _ & _ & ? & Hr). split_and!; [done..|]. intros s. rewrite Hr. naive_solver. Qed.

Lemma handle_round v ty sids flags :
  triple (notified v) (_ ← call env (EHandle ty v.1.1 sids flags); mret v) (λ v', between v') (ended v.1.1).
Proof.
  destruct v as [[css sid] n]. cbn [fst]. eapply (triple_bind discipline _ _ (λ _, between (css, sid, n))).
  2: { intros []. apply (triple_ret discipline (css, sid, n) (λ v', between v')). }
  apply triple_act. intros q r Hq. pose proof (notified_ended (css, sid, n) q Hq) as He. destruct Hq as (Hs & Ho & Hm & Hp & Hd & Hr).
  exists (if is_ok r then set_pending false css q else q). cbn [discipline]. unfold unanswered.
  rewrite Hp, !bool_decide_eq_true_2 by done. split; [done|]. destruct r; cbn; [|done]. split_and!; [done..|]. naive_solver.
Qed.

(** The sockets of the next call are still unused. *)
Lemma notified_shape v q : notified v q → shape v.2 q Closed Closed Closed q.
Proof.
  destruct v as [[css sid] n]. intros (Hs & Ho & (m & -> & Hm) & _). split_and!; try done.
  intros s. destruct s as [k|k|k| |]; cbn; [by case_decide; [apply Ho|]|by case_decide; [apply Ho|]| |done|done].
  case_decide as Hk; [|done]. apply Ho. cbn in Hk. intros [= ->]. lia.
Qed.

Lemma shape_ended v q0 a b c q : notified v q0 → shape v.2 q0 a b c q → ended v.1.1 q.
Proof.
  destruct v as [[css sid] n]. intros (Hs & _ & (m & -> & Hm) & _ & Hd & Hr) (Hq & _ & Hrq & Hdq & _). cbn [fst snd] in *.
  split_and!; [rewrite Hq; cbn; by rewrite decide_False by lia|congruence|]. intros s. rewrite Hrq, Hr. naive_solver.
Qed.

Lemma triple_at {A : Type} (P : view → Prop) (m : M A) R X : (∀ q, P q → triple (λ q', q' = q) m R X) → triple P m R X.
Proof. intros Hm q h Hq. by apply (Hm q Hq q h). Qed.

(** The list of servers has changed: the new socket replaces the old one, which is closed
    after the notification has been answered. *)
Lemma change_round v :
  triple (notified v)
    ('(new_css, server_sid) ← handle_netconf_server_list env v.2 0;
     _ ← call env (ESync v.1.1); _ ← call env (EClose v.1.1); mret (new_css, server_sid, S v.2))
    (λ v', between v') (ended v.1.1).
Proof.
  apply triple_at. intros q Hq. set (n := v.2).
  eapply (triple_bind discipline _ _ (λ r q', r.1 = Css n ∧ shape n q Closed Closed Ready q')).
  { eapply triple_conseq; [apply (server_list_shape env n q 0); by left| | |].
    - intros q' ->. by apply notified_shape.
    - done.
    - intros q' (a & b & c & Hs). eapply shape_ended; [exact Hq|exact Hs]. }
  intros [new_css server_sid]. cbn [fst].
  eapply (triple_bind discipline _ _ (λ _ q', new_css = Css n ∧ ∃ q1, shape n q Closed Closed Ready q1 ∧ q' = set_pending false v.1.1 q1)).
  { apply triple_act. intros q1 r (-> & Hs). pose proof (shape_ended _ _ _ _ _ _ Hq Hs) as He.
    exists (if is_ok r then set_pending false v.1.1 q1 else q1). cbn [discipline]. unfold unanswered. pose proof He as (Hc & _).
    destruct Hs as (Hs & Hp & Hr & Hd & Hf). destruct v as [[css sid'] n']. destruct Hq as (_ & _ & _ & Hpq & _ & Hrq). cbn [fst] in *.
    rewrite Hp, Hpq, Hr, Hrq, !bool_decide_eq_true_2 by done. split; [done|]. destruct r; cbn; [|done].
    split; [done|]. exists q1. split; [by split_and!|done]. }
  intros []. eapply (triple_bind discipline _ _ (λ _ q', new_css = Css n ∧ between (new_css, server_sid, S n) q')).
  2: { intros []. intros q' h (-> & Hb). by apply (triple_ret discipline (Css n, server_sid, S n) (λ v', between v')). }
  apply triple_act. intros q2 r (-> & q1 & Hs & ->). pose proof (shape_ended _ _ _ _ _ _ Hq Hs) as He.
  exists (if is_ok r then set_sock v.1.1 Closed (set_pending false v.1.1 q1) else set_failed (set_pending false v.1.1 q1)).
  destruct v as [[css sid'] n']. destruct Hq as (_ & Ho & (m & -> & Hm) & Hpq & Hdq & Hrq). destruct He as (Hc & Hde & Hre). cbn [fst snd] in *. subst n.
  destruct Hs as (Hs & Hp & Hr & Hd & Hf). cbn [discipline]. rewrite bool_decide_eq_true_2 by (cbn; by rewrite Hc). split; [done|].
  destruct r; cbn.
  - split; [done|]. assert (∀ s, s ≠ Css n' → (if decide (s = Css m) then Closed else socks q1 s) = Closed) as Hcl.
    { intros s Hs'. case_decide; [done|]. rewrite Hs. destruct s as [k|k|k| |]; cbn; try (case_decide; [done|]); try (apply Ho; congruence).
      case_decide; [congruence|]. apply Ho. congruence. }
    split_and!; try done.
    + rewrite decide_False by (intros [= ->]; lia). rewrite Hs. cbn. by rewrite decide_True.
    + exists n'. split; [done|lia].
    + intros s [= <-]. right. by rewrite decide_True.
  - split_and!; try done. intros s [= <-]. by left.
Qed.

Lemma round_between v : triple (between v) (run_round env v) (λ v', between v') (ended v.1.1).
Proof.
  destruct v as [[css sid] n]. unfold run_round.
  eapply (triple_bind discipline _ _ (λ _, notified (css, sid, n))).
  { apply triple_act. intros q r Hq. pose proof (between_ended _ _ Hq) as He. destruct Hq as (Hs & Ho & Hm & Hp & Hd & Hr).
    exists (if is_ok r then set_pending true css q else q). cbn [discipline]. rewrite Hp, bool_decide_eq_true_2 by done. split; [done|].
    destruct r; cbn; [|done]. by split_and!. }
  intros [[ty flags] sids]. destruct ty; [apply (handle_round (css, sid, n))..|].
  destruct sids as [|s sids]; [eapply triple_conseq; [apply (triple_raise discipline _ (λ v' : vars, between v') (ended css))|exact (notified_ended _)|done|done]|].
  case_decide; [apply (change_round (css, sid, n))|apply (handle_round (css, sid, n))].
Qed.

Lemma loop_ended fuel v : triple (between v) (run_loop env fuel v) (λ r, ended r.1) (λ _, False).
Proof.
  revert v. induction fuel as [|k IH]; intros v; cbn [run_loop].
  { eapply triple_conseq; [apply (triple_ret discipline (v.1.1, OutOfFuel) (λ r, ended r.1) (λ _, False))|exact (between_ended v)|done|done]. }
  intros q h Hq. destruct (round_between v q h Hq) as (t & q1 & Ht & Hr & Hm).
  destruct (run_round env v h) as [[v'|e] h1]; cbn in Ht, Hm; subst h1; [|by exists t, q1].
  destruct (IH v' q1 (h ++ t) Hm) as (t2 & q2 & Ht2 & Hr2 & Hm2). exists (t ++ t2), q2.
  rewrite Ht2, app_assoc. split_and!; [done|by rewrite runs_app, Hr|done].
Qed.

(** C33: however ConfD and the interrupts behave, every call of the synchroniser's main program is
    made in its place: notifications are read from the last socket whose subscriptions were
    completed, never while another one waits for its answer; each is answered at most once, on
    the socket it came from; a lock is never waited for while a notification waits; data is read
    and written in sessions only.  When the program returns, the daemon of the action has
    stopped and the socket that was read last is closed; when it raises, the daemon has
    stopped too, unless closing or stopping itself failed. *)
Theorem synchroniser_discipline (fuel : nat) :
  triple (λ q, q = start) (run LOCK_SESSION LOCK_WAIT env fuel)
    (λ _ q, daemon q = false ∧ ∀ s, reading q = Some s → socks q s = Closed)
    (λ q, daemon q = true → failed q = true).
Proof.
  unfold run. eapply (triple_bind discipline _ _ (λ r q, r.1 = Css 0 ∧ shape 0 start Closed Closed Ready q)).
  { eapply triple_conseq; [apply (server_list_shape env 0 start); by right| |done|].
    - intros q ->. split_and!; try done. intros s. destruct s as [k|k|k| |]; cbn; try case_decide; done.
    - intros q (a & b & c & _ & _ & _ & Hd & _). rewrite Hd. done. }
  intros [css sid]. cbn [fst]. eapply (triple_bind discipline _ _ (λ _ q, css = Css 0 ∧ between (css, sid, 1) q)).
  { apply triple_act. intros q r (-> & Hs & Hp & Hr & Hd & Hf). exists (if is_ok r then set_daemon true q else q).
    cbn [discipline]. rewrite Hd. split; [done|]. destruct r; cbn; [|by rewrite Hd]. split; [done|]. split_and!; try done.
    - intros s Hne. rewrite Hs. destruct s as [k|k|k| |]; cbn; repeat case_decide; congruence.
    - exists 0. split; [done|lia].
    - cbn. rewrite Hr. done. }
  intros []. eapply (triple_bind discipline _ _ (λ r, ended r.1)).
  { eapply triple_conseq; [apply (loop_ended fuel (css, sid, 1))|by intros q [_ ?]|done|done]. }
  intros [css' e]. cbn [fst].
  assert (triple (ended css') (_ ← call env (EClose css'); call env EFinishDaemon)
    (λ _ q, daemon q = false ∧ ∀ s, reading q = Some s → socks q s = Closed) (λ q, daemon q = true → failed q = true)) as Hfin.
  { eapply (triple_bind discipline _ _ (λ _ q, daemon q = true ∧ ∀ s, reading q = Some s → socks q s = Closed)).
    - apply triple_act. intros q r (Hs & Hd & Hr). exists (if is_ok r then set_sock css' Closed q else set_failed q).
      cbn [discipline]. rewrite bool_decide_eq_true_2 by (by rewrite Hs). split; [done|]. destruct r; cbn; [|done].
      split; [done|]. intros s Hrs. destruct (Hr s Hrs) as [->|Hc]; [by rewrite decide_True|]. by case_decide.
    - intros []. apply triple_act. intros q r (Hd & Hr). exists (if is_ok r then set_daemon false q else set_failed q).
      cbn [discipline]. rewrite Hd. split; [done|]. by destruct r. }
  apply (triple_finally discipline _ _ (λ _, ended css') (ended css')).
  - assert (∀ x, triple (ended css') (raise x : M unit) (λ _, ended css') (ended css')) as Hx.
    { intros x. apply (triple_raise discipline x (λ _, ended css')). }
    destruct e; try apply Hx. apply triple_act. intros q r Hq. exists q. split; [done|]. by destruct r.
  - intros []. exact Hfin.
  - eapply triple_conseq; [exact Hfin|done| |done]. intros _ q (Hd & _). by rewrite Hd.
Qed.
End loop.

(** ** The action and the start *)

Section action.
Context (env : environment effect).

Definition action_cds (x : status) (q : view) : Prop := socks q Action_cds = x.

Lemma action_call {A : Set} (e : effect A) x y :
  (∀ q r, action_cds x q → ∃ q' q'', discipline q (Item e r) = Some (if is_ok r then q' else q'') ∧ action_cds y q' ∧ action_cds x q'') →
  triple (action_cds x) (call env e) (λ _, action_cds y) (λ _, True).
Proof.
  intros He. apply triple_act. intros q r Hq. destruct (He q r Hq) as (q' & q'' & Hd & Hok & _). eexists. split; [exact Hd|]. by destruct r.
Qed.

Ltac action_step :=
  let q := fresh "q" in let r := fresh "r" in let Hq := fresh "Hq" in
  apply action_call; intros q r Hq; unfold action_cds in *; cbn [discipline]; rewrite Hq;
  rewrite bool_decide_eq_true_2 by done; eexists _, _; split; [reflexivity|]; split;
  [cbn; first [exact Hq | by rewrite decide_True]|exact Hq].

Lemma sub_points_session paths : triple (action_cds Session) (sub_points env paths) (λ _, action_cds Session) (λ _, True).
Proof.
  induction paths as [|p ps IH]; cbn [sub_points]; [apply (triple_ret discipline [] (λ _, action_cds Session))|].
  eapply (triple_bind discipline _ _ (λ _, action_cds Session)); [action_step|]. intros t.
  eapply (triple_bind discipline _ _ (λ _, action_cds Session)); [apply triple_lift; intros q Hq; by destruct (int t)|]. intros z.
  eapply triple_bind; [exact IH|]. intros zs. apply (triple_ret discipline (z :: zs) (λ _, action_cds Session)).
Qed.

(** The action reads the identifiers in one session, which has ended when it triggers
    the subscriptions, and returns with its socket closed. *)
Lemma sync_to_dialogue all servers :
  triple (action_cds Closed) (sync_to env all servers) (λ _, action_cds Closed) (λ _, True).
Proof.
  unfold sync_to. eapply (triple_bind discipline _ _ (λ _, action_cds New)); [action_step|]. intros [].
  eapply (triple_bind discipline _ _ (λ _, action_cds (Connected DATA_SOCKET))); [action_step|]. intros [].
  eapply (triple_bind discipline _ _ (λ _, action_cds Session)); [action_step|]. intros [].
  eapply (triple_bind discipline _ _ (λ _, action_cds (Connected DATA_SOCKET))).
  - assert (∀ points (result : pystr), triple (action_cds Session) (_ ← call env (EEndSession Action_cds);
      _ ← call env (ETrigger Action_cds points); mret result) (λ _, action_cds (Connected DATA_SOCKET)) (λ _, True)) as Hend.
    { intros points result. eapply (triple_bind discipline _ _ (λ _, action_cds (Connected DATA_SOCKET))); [action_step|]. intros [].
      eapply (triple_bind discipline _ _ (λ _, action_cds (Connected DATA_SOCKET))); [action_step|]. intros [].
      apply (triple_ret discipline result (λ _, action_cds (Connected DATA_SOCKET))). }
    apply triple_if; intros _.
    + eapply (triple_bind discipline _ _ (λ _, action_cds Session)); [action_step|]. intros num.
      eapply triple_bind; [apply sub_points_session|]. intros points. apply Hend.
    + eapply triple_bind; [apply sub_points_session|]. intros points. apply Hend.
  - intros result. eapply (triple_bind discipline _ _ (λ _, action_cds Closed)); [action_step|]. intros [].
    apply (triple_ret discipline result (λ _, action_cds Closed)).
Qed.

(** The socket that the schemas are loaded through is never closed. *)
Lemma schema_socket_stays_open q :
  socks q Ms = Closed → ∀ h r h', load_schemas env h = (Ok r, h') →
  ∃ t q', h' = h ++ t ∧ runs discipline q t = Some q' ∧ socks q' Ms ≠ Closed.
Proof.
  intros Hc h r h' Hl. assert (triple (λ q, socks q Ms = Closed) (load_schemas env) (λ _ q', socks q' Ms = New) (λ _, True)) as Ht.
  { unfold load_schemas. eapply (triple_bind discipline _ _ (λ _ q', socks q' Ms = New)).
    - apply triple_act. intros q1 r1 Hq. exists (if is_ok r1 then set_sock Ms New q1 else q1). cbn [discipline].
      rewrite Hq, bool_decide_eq_true_2 by done. split; [done|]. by destruct r1.
    - intros []. eapply (triple_bind discipline _ _ (λ _ q', socks q' Ms = New));
        [|intros []]; apply triple_act; intros q1 r1 Hq; exists q1; cbn [discipline];
        rewrite Hq, bool_decide_eq_true_2 by done; (split; [by destruct r1|by destruct r1]). }
  destruct (Ht q h Hc) as (t & q' & Hh & Hr & Hq). rewrite Hl in Hh, Hq. cbn in Hh, Hq. exists t, q'. split_and!; [done..|]. by rewrite Hq.
Qed.
End action.

(** ** The calls compute what SyncNc says

    An environment that answers from the data of CDB: the subscriptions that
    [handle_netconf_server_list] makes, the identifiers that it stores and its result are
    those of SyncNc. *)

Section refinement.
Context (env : environment effect) (db : cdb_data) (subscribe : nat → Z) (n : nat).

Definition made_item (i : item effect) : option subscription :=
  match i with Item e r =>
    match e in effect A return res A → option subscription with
    | ESubscribe2 _ prio path | ESubscribe _ prio path => λ r,
        match r with Ok sid => Some {| sub_sid := sid; sub_prio := prio; sub_path_of := path |} | Raise _ => None end
    | _ => λ _, None
    end r
  end.
Definition stored_item (i : item effect) : option (pystr * pystr) :=
  match i with Item e r =>
    match e in effect A return res A → option (pystr * pystr) with
    | ESetElem _ v path => λ _, Some (path, v)
    | _ => λ _, None
    end r
  end.

(** The subscriptions that have been made, and the values that have been stored. *)
Definition made (h : list (item effect)) : list subscription := omap made_item h.
Definition stored (h : list (item effect)) : list (pystr * pystr) := omap stored_item h.

(** The answers of CDB: the leaves of the servers, and identifiers in the order of the
    subscriptions; every other call returns. *)
Record serves_cdb : Prop := {
  sc_socket h s : env _ h (ESocket s) = Ok tt;
  sc_connect h s k a : env _ h (ECdbConnect s k a) = Ok tt;
  sc_session2 h s d l : env _ h (EStartSession2 s d l) = Ok tt;
  sc_session h s d : env _ h (EStartSession s d) = Ok tt;
  sc_close h s : env _ h (EClose s) = Ok tt;
  sc_done h s : env _ h (ESubscribeDone s) = Ok tt;
  sc_set h s v p : env _ h (ESetElem s v p) = Ok tt;
  sc_num h s : env _ h (ENumInstances s SERVER_PATH) = Ok (Z.of_nat (length (netconf_servers db)));
  sc_path h s i srv : netconf_servers db !! i = Some srv →
    env _ h (EGet s (server_leaf i (py"subscription-path"))) = Ok (subscription_path srv);
  sc_priority h s i srv : netconf_servers db !! i = Some srv →
    env _ h (EGet s (server_leaf i (py"subscription-priority"))) = Ok (str_Z (subscription_priority srv));
  sc_server_priority h s : env _ h (EGet s (CLIENT_PATH ++ py"/server-priority")) = Ok (str_Z (server_priority db));
  sc_subscribe2 h s prio p : env _ h (ESubscribe2 s prio p) = Ok (subscribe (length (made h)));
  sc_subscribe h s prio p : env _ h (ESubscribe s prio p) = Ok (subscribe (length (made h))) }.

(** The identifiers of servers, from the i-th on. *)
Fixpoint ids (i : nat) (l : list nc_server) : list (pystr * pystr) :=
  match l with
  | [] => []
  | s :: l' => (server_leaf i (py"subscription-id"), match subscription_id s with Some id => str_Z id | None => [] end) :: ids (S i) l'
  end.

Lemma made_app h1 h2 : made (h1 ++ h2) = made h1 ++ made h2.
Proof. apply omap_app. Qed.
Lemma stored_app h1 h2 : stored (h1 ++ h2) = stored h1 ++ stored h2.
Proof. apply omap_app. Qed.

Context (Hcdb : serves_cdb).

(** A call whose answer is known. *)
Lemma call_answer {A : Set} {B : Type} (e : effect A) (a : A) (k : A → M B) h :
  env _ h e = Ok a → (x ← call env e; k x) h = k a (h ++ [Item e (Ok a)]).
Proof. unfold call, act, mbind, PyM_bind. by intros ->. Qed.

Lemma lift_int {B : Type} z (k : Z → M B) h : (x ← lift (int (str_Z z)); k x) h = k z h.
Proof. unfold int. by rewrite py_int_str_Z. Qed.

(** One server. *)
Lemma subscribe_server_made i srv h :
  netconf_servers db !! i = Some srv → length (made h) = i →
  ∃ t, subscribe_server env n i h = (Ok tt, h ++ t) ∧
    made t = [{| sub_sid := subscribe i; sub_prio := subscription_priority srv; sub_path_of := subscription_path srv |}] ∧
    stored t = [(server_leaf i (py"subscription-id"), str_Z (subscribe i))].
Proof.
  intros Hs Hl. unfold subscribe_server.
  rewrite (call_answer _ (subscription_path srv)) by (by apply sc_path).
  rewrite (call_answer _ (str_Z (subscription_priority srv))) by (by apply sc_priority).
  rewrite lift_int, (call_answer _ (subscribe i)).
  2: { rewrite (sc_subscribe2 Hcdb), !made_app. cbn. by rewrite !app_nil_r, Hl. }
  unfold call, act. rewrite (sc_set Hcdb). eexists. rewrite <-!(assoc_L (++)). done.
Qed.

Lemma for_range_made l i h :
  (∀ j srv, l !! j = Some srv → netconf_servers db !! (i + j) = Some srv) → length (made h) = i →
  ∃ t, for_range (length l) i (subscribe_server env n) h = (Ok tt, h ++ t) ∧
    made t = (subscribe_servers subscribe l i).2 ∧ stored t = ids i (subscribe_servers subscribe l i).1 ∧
    length (made t) = length l.
Proof.
  revert i h. induction l as [|srv l IH]; intros i h Hl Hh; [by exists []; rewrite app_nil_r|].
  cbn [length for_range subscribe_servers]. pose proof (Hl 0 srv eq_refl) as Hs. rewrite Nat.add_0_r in Hs.
  destruct (subscribe_server_made i srv h Hs Hh) as (t1 & H1 & Hm1 & Hst1).
  destruct (IH (S i) (h ++ t1)) as (t2 & H2 & Hm2 & Hst2 & Hlen).
  { intros j s Hj. specialize (Hl (S j) s Hj). by rewrite Nat.add_succ_r in Hl. }
  { rewrite made_app, Hm1, length_app, Hh. cbn. lia. }
  destruct (subscribe_servers subscribe l (S i)) as [servers css] eqn:Heq. cbn [fst snd] in *.
  exists (t1 ++ t2). unfold mbind at 1, PyM_bind at 1. rewrite H1, H2, <-(assoc_L (++)), made_app, stored_app, Hm1, Hm2, Hst1, Hst2. cbn.
  split_and!; try done. by rewrite <-Hm2, Hlen.
Qed.

(** With CDB behind the calls, they make the subscriptions of SyncNc on the new socket,
    in its order, store its identifiers and return its identifier for the list of
    servers. *)
Theorem server_list_refines lock :
  let '(db', (subs, sid)) := SyncNc.handle_netconf_server_list subscribe db in
  ∃ h, handle_netconf_server_list env n lock [] = (Ok (Css n, sid), h) ∧
    made h = subs ∧ stored h = ids 0 (netconf_servers db').
Proof.
  unfold SyncNc.handle_netconf_server_list. destruct (subscribe_servers subscribe (netconf_servers db) 0) as [servers css] eqn:Heq.
  unfold handle_netconf_server_list.
  rewrite (call_answer _ tt) by (apply (sc_socket Hcdb)). rewrite (call_answer _ tt) by (apply (sc_connect Hcdb)).
  rewrite (call_answer _ tt) by (apply (sc_socket Hcdb)). rewrite (call_answer _ tt) by (apply (sc_connect Hcdb)).
  rewrite (call_answer _ tt) by (apply (sc_socket Hcdb)). rewrite (call_answer _ tt) by (apply (sc_connect Hcdb)).
  rewrite (call_answer _ tt) by (apply (sc_session2 Hcdb)). rewrite (call_answer _ tt) by (apply (sc_session Hcdb)).
  rewrite (call_answer _ (Z.of_nat (length (netconf_servers db)))) by (apply (sc_num Hcdb)). rewrite Nat2Z.id.
  match goal with |- ∃ h, (_ ← for_range _ _ _; _) ?h0 = _ ∧ _ =>
    destruct (for_range_made (netconf_servers db) 0 h0) as (t & Ht & Hm & Hst & Hlen); [done|done|];
    assert (made h0 = [] ∧ stored h0 = []) as [Hm0 Hst0] by done; set (hist := h0) in * end.
  rewrite Heq in Hm, Hst. cbn [fst snd] in Hm, Hst. unfold mbind at 1, PyM_bind at 1. rewrite Ht. cbv beta iota.
  rewrite (call_answer _ tt) by (apply (sc_close Hcdb)).
  rewrite (call_answer _ (str_Z (server_priority db))) by (apply (sc_server_priority Hcdb)). rewrite lift_int.
  rewrite (call_answer _ (subscribe (length (netconf_servers db)))).
  2: { rewrite (sc_subscribe Hcdb), !made_app, Hm0, Hm. cbn. rewrite !app_nil_r. by rewrite <-Hm, Hlen. }
  rewrite (call_answer _ tt) by (apply (sc_close Hcdb)). rewrite (call_answer _ tt) by (apply (sc_done Hcdb)).
  eexists. split; [reflexivity|]. rewrite !made_app, !stored_app, Hm0, Hst0, Hm, Hst. cbn. by rewrite !app_nil_r.
Qed.
End refinement.

(** *** Witness: two servers *)

Definition ex_server (name path : pystr) (prio : Z) : nc_server := {|
  s_name := name; remote_address := py"10.0.0.1"; remote_port := py"2022"; username := py"admin"; password := py"admin";
  subscription_path := path; subscription_priority := prio; subscription_id := None |}.
Definition ex_db : cdb_data :=
  {| netconf_servers := [ex_server (py"a") (py"/r:sys") 10; ex_server (py"b") (py"/r:sys/interfaces") 20]; server_priority := 5 |}.

Definition ex_leaves : list (pystr * pystr) :=
  [(server_leaf 0 (py"subscription-path"), py"/r:sys"); (server_leaf 0 (py"subscription-priority"), py"10");
   (server_leaf 1 (py"subscription-path"), py"/r:sys/interfaces"); (server_leaf 1 (py"subscription-priority"), py"20");
   (CLIENT_PATH ++ py"/server-priority", py"5")].

Definition ex_env : environment effect := λ A h e,
  match e in effect B return res B with
  | EGet _ p => match dict_get p ex_leaves with Some v => Ok v | None => Raise PyException end
  | ENumInstances _ _ => Ok 2%Z
  | ESubscribe2 _ _ _ | ESubscribe _ _ _ => Ok (100 + Z.of_nat (length (made h)))%Z
  | EReadSubscription _ => Raise KeyboardInterrupt
  | ESocket _ | EMaapiConnect _ _ | ELoadSchemas _ | ECdbConnect _ _ _ | EStartSession2 _ _ _ | EStartSession _ _
  | EEndSession _ | ESetElem _ _ _ | ESubscribeDone _ | ETrigger _ _ | EHandle _ _ _ _ | ESync _ | EClose _
  | EStartDaemon | EFinishDaemon | EPrint _ => Ok tt
  end.

Lemma cdb_serves : serves_cdb ex_env ex_db (λ k, 100 + Z.of_nat k)%Z.
Proof.
  split; try reflexivity; intros h s i srv; (destruct i as [|[|i]]; [| |intros H; by destruct i]);
    intros [= <-]; by vm_compute.
Qed.

Lemma server_list_refines_witness :
  ∃ h, handle_netconf_server_list ex_env 0 0 [] = (Ok (Css 0, 102%Z), h) ∧
    made h = [{| sub_sid := 100; sub_prio := 10; sub_path_of := py"/r:sys" |};
              {| sub_sid := 101; sub_prio := 20; sub_path_of := py"/r:sys/interfaces" |};
              {| sub_sid := 102; sub_prio := 5; sub_path_of := SERVER_PATH |}] ∧
    stored h = [(server_leaf 0 (py"subscription-id"), py"100"); (server_leaf 1 (py"subscription-id"), py"101")].
Proof. exact (server_list_refines ex_env ex_db (λ k, 100 + Z.of_nat k)%Z 0 cdb_serves 0). Defined.
