(* ===== verification/SyncRefine.v ===== *)
(** * The synchroniser's calls implement its state machine: confd-sync-py/app/cdbl-sync-nc.py

    SyncDaemon models the main program of the synchroniser as a sequence of calls,
    SyncNc as a state machine over the data of CDB.  Here CDB and the notifications are
    an environment: a state computed from the history of calls, which answers the next
    one.  Behind it the calls of the program do what the state machine says. *)

From Stdlib Require Import Ascii String.
From S2P Require Import Prelude PyStr Json Xml Trace SyncNc SyncDaemon.

(** What an outside observer sees of the program: runs of netconf-console, and
    notifications that are acknowledged. *)
Inductive deed := Called (c : SyncNc.call) | Acked.

(** The deeds of a handler. *)
Definition deeds {W} (o : outcome W) : list deed :=
  (Called <$> o_first o ++ o_second o) ++ (if o_synced o then [Acked] else []).

(** ** CDB behind the calls *)

(** The values of the leaves of the servers, from the i-th server on. *)
Fixpoint get_leaf (p : pystr) (i : nat) (l : list nc_server) : option pystr :=
  match l with
  | [] => None
  | s :: l' =>
      if decide (p = server_leaf i (py"subscription-path")) then Some (subscription_path s)
      else if decide (p = server_leaf i (py"subscription-priority")) then Some (str_Z (subscription_priority s))
      else if decide (p = server_leaf i (py"subscription-id")) then str_Z <$> subscription_id s
      else get_leaf p (S i) l'
  end.

Definition SERVER_PRIORITY : pystr := CLIENT_PATH ++ py"/server-priority".

Definition get_elem (d : cdb_data) (p : pystr) : option pystr :=
  if decide (p = SERVER_PRIORITY) then Some (str_Z (SyncNc.server_priority d)) else get_leaf p 0 (netconf_servers d).

Definition set_elem (d : cdb_data) (p v : pystr) : cdb_data :=
  match py_int v with
  | Some z =>
      {| netconf_servers :=
           imap (λ i s, if decide (p = server_leaf i (py"subscription-id")) then with_sid s z else s) (netconf_servers d);
         SyncNc.server_priority := SyncNc.server_priority d |}
  | None => d
  end.

Definition db_of (l : list nc_server) (prio : Z) : cdb_data :=
  {| netconf_servers := l; SyncNc.server_priority := prio |}.

Lemma server_leaf_eq i leaf : server_leaf i leaf = SERVER_PATH ++ "["%char :: str_nat i ++ "]"%char :: "/"%char :: leaf.
Proof. unfold server_leaf. fmt_norm. by rewrite app_nil_r. Qed.

Lemma server_leaf_inj i j leaf1 leaf2 :
  server_leaf i leaf1 = server_leaf j leaf2 → i = j ∧ leaf1 = leaf2.
Proof.
  rewrite !server_leaf_eq. intros H. apply app_inv_head in H. apply (f_equal tail) in H. cbn [tail] in H.
  apply app_sep_inj in H as [Hi H]; [|by apply str_nat_not_elem..].
  split; [by apply str_nat_inj|]. congruence.
Qed.

#[local] Opaque server_leaf.

Lemma server_leaf_priority i leaf : server_leaf i leaf ≠ SERVER_PRIORITY.
Proof.
  rewrite server_leaf_eq. unfold SERVER_PATH, SERVER_PRIORITY. rewrite <-(assoc_L (++)).
  intros H%app_inv_head%(f_equal (take 2)). discriminate H.
Qed.

(** Reading the leaves of a server. *)
Lemma get_leaf_server l i j s :
  l !! j = Some s →
  get_leaf (server_leaf (i + j) (py"subscription-path")) i l = Some (subscription_path s) ∧
  get_leaf (server_leaf (i + j) (py"subscription-priority")) i l = Some (str_Z (subscription_priority s)).
Proof.
  revert i j. induction l as [|s0 l IH]; intros i [|j] Hj; [done|done| |]; cbn [get_leaf].
  - injection Hj as ->. rewrite Nat.add_0_r. split; [by rewrite decide_True|].
    rewrite decide_False by (by intros [_ ?]%server_leaf_inj). by rewrite decide_True.
  - rewrite !decide_False by (intros [? _]%server_leaf_inj; lia). rewrite Nat.add_succ_r. by apply (IH (S i)).
Qed.

Lemma get_elem_path l prio j s :
  l !! j = Some s → get_elem (db_of l prio) (server_leaf j (py"subscription-path")) = Some (subscription_path s).
Proof.
  intros Hj. unfold get_elem. rewrite decide_False by apply server_leaf_priority.
  by apply (get_leaf_server l 0 j s).
Qed.

Lemma get_elem_priority l prio j s :
  l !! j = Some s →
  get_elem (db_of l prio) (server_leaf j (py"subscription-priority")) = Some (str_Z (subscription_priority s)).
Proof.
  intros Hj. unfold get_elem. rewrite decide_False by apply server_leaf_priority.
  by apply (get_leaf_server l 0 j s).
Qed.

Section cdb.
Context {W V : Type} `{ConfdLib V}.
Context (console : pystr → pystr → W → (pystr * pystr) * W) (subscribe : nat → Z).

Abbreviation event := (@sub_event V).

(** The data; the network; the notifications to come and the current one; the
    subscriptions of the newest subscription socket; the socket whose subscriptions were
    completed last; the deeds so far. *)
Record astate := State {
  a_db : cdb_data; a_world : W; a_events : list event; a_event : option event;
  a_subs : list subscription; a_ready : option sock; a_done : list deed }.

(** What the handler of a notification does, by SyncNc. *)
Definition handle (e : event) (ty : sub_type) (sids : list Z) (d : cdb_data) (w : W) : res unit * outcome W :=
  match ty with
  | SUB_PREPARE => handle_sub_prepare console unlimited (e_sched1 e) (e_sched2 e) d (e_mods e) sids w
  | SUB_ABORT => handle_sub_abort console unlimited (e_sched1 e) d sids w
  | SUB_COMMIT => handle_sub_commit console unlimited (e_sched1 e) d sids w
  end.

(** The answer to a call.  Notifications are read from the socket whose subscriptions were
    completed last; after the last one the user interrupts the program. *)
Definition answer (a : astate) {A : Set} (e : effect A) : res A :=
  match e in effect B return res B with
  | ENumInstances _ p =>
      if decide (p = SERVER_PATH) then Ok (Z.of_nat (length (netconf_servers (a_db a)))) else Raise PyException
  | EGet _ p => match get_elem (a_db a) p with Some v => Ok v | None => Raise PyException end
  | ESubscribe2 _ _ _ | ESubscribe _ _ _ => Ok (subscribe (length (a_subs a)))
  | EReadSubscription s =>
      if decide (a_ready a = Some s) then
        match a_events a with [] => Raise KeyboardInterrupt | e :: _ => Ok (e_type e, 0%Z, e_sids e) end
      else Raise PyException
  | EHandle ty _ sids _ =>
      match a_event a with Some e => (handle e ty sids (a_db a) (a_world a)).1 | None => Raise PyException end
  | ESocket _ | EMaapiConnect _ _ | ELoadSchemas _ | ECdbConnect _ _ _ | EStartSession2 _ _ _ | EStartSession _ _
  | EEndSession _ | ESetElem _ _ _ | ESubscribeDone _ | ETrigger _ _ | ESync _ | EClose _
  | EStartDaemon | EFinishDaemon | EPrint _ => Ok tt
  end.

(** The state after a call that was answered. *)
Definition track (a : astate) (i : item effect) : astate :=
  let 'State d w es cur subs ready done := a in
  match i with Item e _ =>
    match e with
    | ESocket (Css _) => State d w es cur [] ready done
    | ESubscribe2 _ prio p | ESubscribe _ prio p =>
        State d w es cur (subs ++ [{| sub_sid := subscribe (length subs); sub_prio := prio; sub_path_of := p |}]) ready done
    | ESetElem _ v p => State (set_elem d p v) w es cur subs ready done
    | ESubscribeDone s => State d w es cur subs (Some s) done
    | EReadSubscription _ =>
        match es with
        | [] => a
        | e :: es' => State (e_cdb e d) w es' (Some e) subs ready done
        end
    | EHandle ty _ sids _ =>
        match cur with
        | Some e => let o := (handle e ty sids d w).2 in State d (o_world o) es cur subs ready (done ++ deeds o)
        | None => a
        end
    | ESync _ => State d w es cur subs ready (done ++ [Acked])
    | _ => a
    end
  end.

Context (db0 : cdb_data) (w0 : W) (es0 : list event).

Definition initial : astate := State db0 w0 es0 None [] None [].
Definition abstract (h : list (item effect)) : astate := foldl track initial h.
Definition cdb_env : environment effect := λ A h e, answer (abstract h) e.

(** ** Simulation *)

(** From a history whose state is [a], the computation ends with [r] and the state [a']. *)
Definition sim {A : Type} (m : M A) (a : astate) (r : res A) (a' : astate) : Prop :=
  ∀ h, abstract h = a → ∃ h', m h = (r, h') ∧ abstract h' = a'.

Lemma sim_ret {A : Type} (x : A) a : sim (mret x) a (Ok x) a.
Proof. intros h Hh. by exists h. Qed.

Lemma sim_raise {A : Type} e a : sim (raise e : M A) a (Raise e) a.
Proof. intros h Hh. by exists h. Qed.

Lemma sim_lift {A : Type} (r : res A) a : sim (lift r) a r a.
Proof. intros h Hh. by exists h. Qed.

Lemma sim_bind {A B : Type} (m : M A) (k : A → M B) a x a1 r a2 :
  sim m a (Ok x) a1 → sim (k x) a1 r a2 → sim (m ≫= k) a r a2.
Proof.
  intros Hm Hk h Hh. destruct (Hm h Hh) as (h1 & H1 & Ha1). destruct (Hk h1 Ha1) as (h2 & H2 & Ha2).
  exists h2. split; [|done]. unfold mbind, PyM_bind. by rewrite H1.
Qed.

Lemma sim_bind_raise {A B : Type} (m : M A) (k : A → M B) a e a' : sim m a (Raise e) a' → sim (m ≫= k) a (Raise e) a'.
Proof. intros Hm h Hh. destruct (Hm h Hh) as (h1 & H1 & Ha1). exists h1. split; [|done]. unfold mbind, PyM_bind. by rewrite H1. Qed.

Lemma sim_call {A : Set} (e : effect A) a : sim (call cdb_env e) a (answer a e) (track a (Item e (answer a e))).
Proof.
  intros h Hh. eexists. split.
  - unfold call, act, cdb_env. by rewrite Hh.
  - unfold abstract. rewrite foldl_app. cbn [foldl]. change (foldl track initial h) with (abstract h). by rewrite Hh.
Qed.

(** A call whose answer and effect are known. *)
Lemma sim_call_eq {A : Set} (e : effect A) a r a' :
  answer a e = r → track a (Item e r) = a' → sim (call cdb_env e) a r a'.
Proof. intros <- <-. apply sim_call. Qed.

Lemma sim_finally {A : Type} (m : M A) (f : M unit) a r a1 a2 :
  sim m a r a1 → sim f a1 (Ok tt) a2 → sim (try_finally m f) a r a2.
Proof.
  intros Hm Hf h Hh. destruct (Hm h Hh) as (h1 & H1 & Ha1). destruct (Hf h1 Ha1) as (h2 & H2 & Ha2).
  exists h2. split; [|done]. unfold try_finally. by rewrite H1, H2.
Qed.

(** *** Servers *)

(** One call of the program, by its answer and its effect on the state. *)
Ltac step := eapply sim_bind; [apply sim_call_eq; [reflexivity|reflexivity]|].

Lemma set_leaf_app l1 s l2 z :
  imap (λ i s', if decide (server_leaf (length l1) (py"subscription-id") = server_leaf i (py"subscription-id"))
                then with_sid s' z else s') (l1 ++ s :: l2) = l1 ++ with_sid s z :: l2.
Proof.
  rewrite imap_app. cbn [imap]. rewrite Nat.add_0_r, decide_True by done. f_equal; [|f_equal].
  - apply list_eq. intros k. rewrite list_lookup_imap. destruct (l1 !! k) as [s1|] eqn:Hk; [|done]. cbn.
    apply lookup_lt_Some in Hk. rewrite decide_False; [done|]. intros [Heq _]%server_leaf_inj; [lia|done..].
  - apply list_eq. intros k. rewrite list_lookup_imap. destruct (l2 !! k) as [s2|]; [|done]. cbn.
    rewrite decide_False; [done|]. intros [Heq _]%server_leaf_inj; [lia|done..].
Qed.

(** One server: the subscription, and its identifier in CDB. *)
Lemma subscribe_server_sim n l1 s l2 prio w es cur subs ready done :
  length subs = length l1 →
  sim (subscribe_server cdb_env n (length l1)) (State (db_of (l1 ++ s :: l2) prio) w es cur subs ready done) (Ok tt)
    (State (db_of ((l1 ++ [with_sid s (subscribe (length l1))]) ++ l2) prio) w es cur
       (subs ++ [{| sub_sid := subscribe (length l1); sub_prio := subscription_priority s; sub_path_of := subscription_path s |}])
       ready done).
Proof.
  intros Hlen. unfold subscribe_server.
  eapply sim_bind; [apply sim_call_eq; [|reflexivity]|].
  { cbn. rewrite (get_elem_path _ _ _ s) by (by apply list_lookup_middle). reflexivity. }
  eapply sim_bind; [apply sim_call_eq; [|reflexivity]|].
  { cbn. rewrite (get_elem_priority _ _ _ s) by (by apply list_lookup_middle). reflexivity. }
  eapply sim_bind; [unfold int; rewrite py_int_str_Z; apply sim_lift|].
  step. apply sim_call_eq; [reflexivity|]. cbn. unfold set_elem. rewrite py_int_str_Z. cbn.
  by rewrite set_leaf_app, Hlen, <-(assoc_L (++)).
Qed.

Lemma for_range_sim n l1 l2 prio w es cur subs ready done :
  length subs = length l1 →
  let '(servers, new) := subscribe_servers subscribe l2 (length l1) in
  sim (for_range (length l2) (length l1) (subscribe_server cdb_env n))
    (State (db_of (l1 ++ l2) prio) w es cur subs ready done) (Ok tt)
    (State (db_of (l1 ++ servers) prio) w es cur (subs ++ new) ready done) ∧ length new = length l2.
Proof.
  revert l1 subs. induction l2 as [|s l2 IH]; intros l1 subs Hlen; cbn [subscribe_servers length for_range].
  { rewrite !app_nil_r. split; [apply sim_ret|done]. }
  specialize (IH (l1 ++ [with_sid s (subscribe (length l1))])
    (subs ++ [{| sub_sid := subscribe (length l1); sub_prio := subscription_priority s; sub_path_of := subscription_path s |}])).
  rewrite !length_app, Hlen in IH. cbn [length] in IH. rewrite Nat.add_1_r in IH. specialize (IH eq_refl).
  destruct (subscribe_servers subscribe l2 (S (length l1))) as [servers new]. destruct IH as [IH Hnew].
  split; [|cbn; by rewrite Hnew]. eapply sim_bind; [by apply subscribe_server_sim|].
  rewrite <-!(assoc_L (++)) in IH. rewrite <-(assoc_L (++)). exact IH.
Qed.

Lemma server_list_sim n lock a :
  let '(d', (subs, sid)) := SyncNc.handle_netconf_server_list subscribe (a_db a) in
  sim (handle_netconf_server_list cdb_env n lock) a (Ok (Css n, sid))
    (State d' (a_world a) (a_events a) (a_event a) subs (Some (Css n)) (a_done a)).
Proof.
  destruct a as [d w es cur subs ready done]. unfold SyncNc.handle_netconf_server_list. cbn [a_db a_world a_events a_event a_done].
  pose proof (for_range_sim n [] (netconf_servers d) (SyncNc.server_priority d) w es cur [] ready done eq_refl) as Hloop.
  cbn [length app] in Hloop. destruct (subscribe_servers subscribe (netconf_servers d) 0) as [servers new].
  destruct Hloop as [Hloop Hnew]. unfold handle_netconf_server_list. do 9 step.
  eapply sim_bind; [rewrite Nat2Z.id; destruct d; exact Hloop|].
  step. eapply sim_bind; [apply sim_call_eq; reflexivity|].
  eapply sim_bind; [unfold int; rewrite py_int_str_Z; apply sim_lift|].
  step. step. step. cbn. rewrite Hnew. apply sim_ret.
Qed.

(** *** Rounds and the loop *)

(** A state of the calls, between two notifications, and a state of the state machine. *)
Definition matches (d : SyncNc.daemon (W:=W)) (n : nat) (es : list event) (a : astate) : Prop :=
  a_db a = db d ∧ a_world a = d_world d ∧ a_events a = es ∧ a_subs a = css d ∧ a_ready a = Some (Css n).

(** What the handlers raise. *)
Lemma handle_raises e ty sids d w x : (handle e ty sids d w).1 = Raise x → x ≠ KeyboardInterrupt.
Proof.
  destruct ty; cbn [handle]; unfold handle_sub_prepare, handle_sub_abort, handle_sub_commit, one_phase; cbn zeta;
    repeat match goal with
    | |- context [match queue ?q with _ => _ end] => destruct (queue q)
    | |- context [joined ?q] => destruct (joined q)
    end; cbn; congruence.
Qed.

(** The computation ends as a step of the state machine does: with the deeds of the step
    added to [done], and in a state that matches or with the same exception. *)
Definition lands (m : M vars) (a : astate) (done : list deed) (es : list event) (x : res SyncNc.daemon * outcome W) : Prop :=
  ∃ a', a_done a' = done ++ deeds x.2 ∧
    match x.1 with
    | Ok d => ∃ n, sim m a (Ok (Css n, server_sid d, S n)) a' ∧ matches d n es a'
    | Raise y => sim m a (Raise y) a' ∧ y ≠ KeyboardInterrupt
    end.

Lemma lands_bind {A : Type} (m : M A) (k : A → M vars) a x a1 done es y :
  sim m a (Ok x) a1 → lands (k x) a1 done es y → lands (m ≫= k) a done es y.
Proof.
  intros Hm (a' & Hdone & Hk). exists a'. split; [done|]. destruct y.1 as [d|e].
  - destruct Hk as (n & Hk & Hd). exists n. split; [by eapply sim_bind|done].
  - destruct Hk as [Hk He]. split; [by eapply sim_bind|done].
Qed.

(** A notification that a handler answers. *)
Lemma handled d n e es a ty :
  a_event a = Some e → matches d n es a →
  let x := handle e ty (e_sids e) (db d) (d_world d) in
  lands (_ ← call cdb_env (EHandle ty (Css n) (e_sids e) 0); mret (Css n, server_sid d, S n)) a (a_done a) es
    (_ ← x.1; Ok {| css := css d; server_sid := server_sid d; db := db d; d_world := o_world x.2 |}, x.2).
Proof.
  destruct a as [d0 w es1 cur subs ready done]. intros Hcur (Hd & Hw & He & Hs & Hr). cbn in Hcur, Hd, Hw, He, Hs, Hr. subst. intros x.
  exists (State (db d) (o_world x.2) es (Some e) (css d) (Some (Css n)) (done ++ deeds x.2)). split; [done|]. cbn [fst].
  assert (sim (call cdb_env (EHandle ty (Css n) (e_sids e) 0))
    (State (db d) (d_world d) es (Some e) (css d) (Some (Css n)) done) x.1
    (State (db d) (o_world x.2) es (Some e) (css d) (Some (Css n)) (done ++ deeds x.2))) as Hcall
    by (by apply sim_call_eq).
  destruct x.1 as [[]|y] eqn:Hx; cbn [mbind res_bind].
  - exists n. split; [|done]. eapply sim_bind; [exact Hcall|apply sim_ret].
  - split; [by apply sim_bind_raise|]. by apply handle_raises in Hx.
Qed.

Lemma run_round_lands d n e es a :
  matches d n (e :: es) a →
  lands (run_round cdb_env (Css n, server_sid d, S n)) a (a_done a) es (run_step subscribe console unlimited d e).
Proof.
  destruct a as [d0 w es1 cur subs ready done]. intros (Hd & Hw & He & Hs & Hr). cbn in Hd, Hw, He, Hs, Hr. subst.
  unfold run_round. eapply lands_bind; [apply sim_call_eq; [cbn; by rewrite decide_True|reflexivity]|].
  cbn [track a_done]. set (a1 := State _ _ _ _ _ _ _).
  pose (d1 := {| css := css d; server_sid := server_sid d; db := e_cdb e (db d); d_world := d_world d |}).
  assert (matches d1 n es a1) as Hm by done.
  pose proof (λ ty, handled d1 n e es a1 ty eq_refl Hm) as Hh. unfold run_step.
  destruct (e_type e); [exact (Hh SUB_PREPARE)|exact (Hh SUB_ABORT)|].
  destruct (e_sids e) as [|sid sids] eqn:Hsids.
  { exists a1. split; [by cbn; rewrite app_nil_r|]. split; [apply sim_raise|done]. }
  case_decide; [|exact (Hh SUB_COMMIT)].
  pose proof (server_list_sim (S n) 0 a1) as Hlist. cbn [a_db a1] in Hlist.
  destruct (SyncNc.handle_netconf_server_list subscribe (e_cdb e (db d))) as [db' [subs sid']].
  eapply lands_bind; [exact Hlist|].
  eapply lands_bind; [apply sim_call_eq; reflexivity|]. eapply lands_bind; [apply sim_call_eq; reflexivity|].
  eexists. split; [|exists (S n); split; [apply sim_ret|done]]. done.
Qed.

(** After the last notification the user interrupts the loop. *)
Lemma run_round_interrupted d n a :
  matches d n [] a → sim (run_round cdb_env (Css n, server_sid d, S n)) a (Raise KeyboardInterrupt) a.
Proof.
  destruct a as [d0 w es1 cur subs ready done]. intros (Hd & Hw & He & Hs & Hr). cbn in Hd, Hw, He, Hs, Hr. subst.
  unfold run_round. apply sim_bind_raise. apply sim_call_eq; [|done]. cbn. by rewrite decide_True.
Qed.

Lemma run_loop_sim es extra d n a :
  matches d n es a →
  let '(r, os) := SyncNc.run_loop subscribe console unlimited d es in
  ∃ n' a', a_done a' = a_done a ++ concat (deeds <$> os) ∧
    sim (run_loop cdb_env (length es + S extra) (Css n, server_sid d, S n)) a
      (Ok (Css n', match r with Ok _ => KeyboardInterrupt | Raise x => x end)) a' ∧
    match r with Ok d' => matches d' n' [] a' | Raise x => x ≠ KeyboardInterrupt end.
Proof.
  revert d n a. induction es as [|e es IH]; intros d n a Hm; cbn [SyncNc.run_loop length Nat.add].
  - exists n, a. split_and!; [by rewrite app_nil_r| |done].
    intros h Hh. destruct (run_round_interrupted d n a Hm h Hh) as (h' & Hr & Ha). exists h'. split; [|done].
    cbn [run_loop]. by rewrite Hr.
  - destruct (run_round_lands d n e es a Hm) as (a1 & Hdone & Hround).
    destruct (run_step subscribe console unlimited d e) as [[d1|x] o]; cbn [fst snd] in *.
    + destruct Hround as (n1 & Hsim & Hm1). specialize (IH d1 n1 a1 Hm1).
      destruct (SyncNc.run_loop subscribe console unlimited d1 es) as [r os]. destruct IH as (n' & a' & Hd' & Hsim' & Hr).
      exists n', a'. split_and!; [by rewrite Hd', Hdone, fmap_cons, <-(assoc_L (++))| |done].
      intros h Hh. destruct (Hsim h Hh) as (h1 & H1 & Ha1). destruct (Hsim' h1 Ha1) as (h2 & H2 & Ha2).
      exists h2. split; [|done]. cbn [run_loop]. by rewrite H1.
    + destruct Hround as (Hsim & Hx). exists n, a1. split_and!; [by cbn; rewrite app_nil_r| |done].
      intros h Hh. destruct (Hsim h Hh) as (h1 & H1 & Ha1). exists h1. split; [|done]. cbn [run_loop]. by rewrite H1.
Qed.

(** What the program does when its loop has ended. *)
Lemma run_ends_sim css e a :
  sim (try_finally
         (match e with KeyboardInterrupt => call cdb_env (EPrint (nl ++ py"Ctrl-C pressed")) | _ => raise e end)
         (_ ← call cdb_env (EClose css); call cdb_env EFinishDaemon))
    a (if decide (e = KeyboardInterrupt) then Ok tt else Raise e) a.
Proof.
  apply (sim_finally _ _ _ _ a).
  - destruct a. destruct e; try apply sim_raise. by apply sim_call_eq.
  - destruct a. eapply sim_bind; by apply sim_call_eq.
Qed.

End cdb.

(** ** Property *)

(** C34: with CDB behind the calls, the whole main program does what the state machine
    says, for every sequence of notifications and every effect of them on the data: it
    runs the same netconf-console processes and acknowledges the same notifications in
    the same order, leaves the same data and subscriptions, and ends with the same
    exception, or normally when the user interrupts it after the last notification.
    The queues of the handlers have room for what the children report: with a full
    one the program does not end at all. *)
Theorem run_refines {W V : Type} `{ConfdLib V} (console : pystr → pystr → W → (pystr * pystr) * W)
    (subscribe : nat → Z) (db0 : cdb_data) (w0 : W) (es : list sub_event) (LOCK_SESSION LOCK_WAIT : Z) (extra : nat) :
  let env := cdb_env console subscribe db0 w0 es in
  let '(r, os) := SyncNc.run subscribe console unlimited db0 w0 es in
  ∃ h, run LOCK_SESSION LOCK_WAIT env (length es + S extra) [] =
         (match r with Ok _ => Ok tt | Raise x => Raise x end, h) ∧
    let a := abstract console subscribe db0 w0 es h in
    a_done a = concat (deeds <$> os) ∧
    ∀ d, r = Ok d → a_db a = db d ∧ a_world a = d_world d ∧ a_subs a = css d.
Proof.
  intros env. unfold SyncNc.run. set (a0 := initial db0 w0 es).
  pose proof (server_list_sim console subscribe db0 w0 es 0 (Z.lor LOCK_SESSION LOCK_WAIT) a0) as Hlist.
  cbn [a0 initial a_db] in Hlist. destruct (SyncNc.handle_netconf_server_list subscribe db0) as [db1 [css0 sid0]].
  set (d := {| css := css0; server_sid := sid0; db := db1; d_world := w0 |}).
  set (a1 := State _ _ _ _ _ _ _) in Hlist.
  pose proof (run_loop_sim console subscribe db0 w0 es es extra d 0 a1) as Hloop.
  destruct (SyncNc.run_loop subscribe console unlimited d es) as [r os].
  destruct Hloop as (n' & a' & Hdone & Hloop & Hr); [done|].
  assert (sim console subscribe db0 w0 es (run LOCK_SESSION LOCK_WAIT env (length es + S extra)) a0
    (match r with Ok _ => Ok tt | Raise x => Raise x end) a') as Hrun.
  { unfold run. eapply sim_bind; [exact Hlist|]. eapply sim_bind; [apply sim_call_eq; reflexivity|].
    eapply sim_bind; [exact Hloop|].
    pose proof (run_ends_sim console subscribe db0 w0 es (Css n') (match r with Ok _ => KeyboardInterrupt | Raise x => x end) a') as He.
    destruct r as [d'|x]; [exact He|]. rewrite decide_False in He by done. exact He. }
  destruct (Hrun [] eq_refl) as (h & Hh & Ha). exists h. split; [exact Hh|]. cbn zeta. rewrite Ha. split; [exact Hdone|].
  intros d' ->. destruct Hr as (? & ? & _ & ? & _). done.
Qed.
