(* ===== verification/Endpoints.v ===== *)
(** * Endpoints: setting up and closing connections

    [RouteDp]: the data provider of route_status.py (confdgnmi/src): [init_dp],
    [close_dp], the pipe and the transaction callbacks.  [Changes]: the socket of the
    ConfD adapter for external changes.  [Channel]: how the gNMI client opens its
    channel (confd_gnmi_client.py).  [Actions]: the main program of check-build.py.
    Each is a sequence of calls answered by an environment. *)

From Stdlib Require Import Ascii String.
From S2P Require Import Prelude PyStr Json Xml Trace.

(** ** The data provider *)

Module RouteDp.

(** The sockets of the provider, and the ends of its pipe. *)
Inductive fd := Maapi | Control | Worker | PipeRead | PipeWrite.
Inductive dp_socket := CONTROL_SOCKET | WORKER_SOCKET.

#[export] Instance fd_eq_dec : EqDecision fd.
Proof. solve_decision. Defined.

Inductive effect : Set → Type :=
  | ESetDebug (level : Z) : effect unit
  | EInitDaemon (name : pystr) : effect unit
  | ESocket (s : fd) : effect unit
  | EMaapiConnect (s : fd) (ip : pystr) (port : Z) : effect unit
  | EDpConnect (s : fd) (ty : dp_socket) (ip : pystr) (port : Z) : effect unit
  | ELoadSchemas (s : fd) : effect unit
  | ERegisterTransCb (worker : fd) : effect unit
  | ERegisterDataCb (callpoint : pystr) : effect unit
  | ERegisterDone : effect unit
  | ETransSetFd (worker : fd) : effect unit
  | EPipe : effect unit
  | EWrite (s : fd) (bytes : pystr) : effect unit
  | EClose (s : fd) : effect unit.

Abbreviation M := (PyM (list (item effect))).

Definition DEFAULT_CONFD_ADDR : pystr := py"127.0.0.1".
Definition CONFD_OK : Z := 0.

Section provider.
Context (env : environment effect).
Definition call {A : Set} (e : effect A) : M A := act env e.

Definition init_dp (confd_ip : option pystr) (confd_port confd_debug_level : Z) : M unit :=
  let ip := default DEFAULT_CONFD_ADDR confd_ip in
  _ ← call (ESetDebug confd_debug_level);
  _ ← call (EInitDaemon (py"route_dp_daemon"));
  _ ← call (ESocket Maapi);
  _ ← call (ESocket Control);
  _ ← call (ESocket Worker);
  _ ← call (EMaapiConnect Maapi ip confd_port);
  _ ← call (EDpConnect Control CONTROL_SOCKET ip confd_port);
  _ ← call (EDpConnect Worker WORKER_SOCKET ip confd_port);
  _ ← call (ELoadSchemas Maapi);
  _ ← call (ERegisterTransCb Worker);
  _ ← call (ERegisterDataCb (py"routestat"));
  call ERegisterDone.

(** The callbacks for transactions; [worker] is the socket they were made with. *)
Definition cb_init (worker : fd) : M Z := _ ← call (ETransSetFd worker); mret CONFD_OK.
Definition cb_finish : M Z := mret CONFD_OK.

(** The first call of [confd_loop]: the class attribute [stop_pipe] is [None] before. *)
Definition new_pipe : M unit := call EPipe.

Definition stop_confd_loop (stop_pipe : bool) : M unit :=
  if stop_pipe then call (EWrite PipeWrite (py"x")) else raise TypeError.

(** The pipe is subscripted after the sockets have been closed. *)
Definition close_dp (stop_pipe : bool) : M unit :=
  _ ← call (EClose Maapi);
  _ ← call (EClose Control);
  _ ← call (EClose Worker);
  if stop_pipe then _ ← call (EClose PipeRead); call (EClose PipeWrite) else raise TypeError.

(** *** The dialogue with ConfD *)

(** What has been done, in the order in which ConfD wants it: the daemon, the two
    connections of the provider, the callbacks. *)
Record view := View {
  opened : list fd; connected : list fd; initialised : bool; trans_cb : bool; data_cb : bool; registered : bool }.

Definition start : view := View [] [] false false false false.

Definition after {A} (b : bool) (r : res A) (q q' : view) : option view :=
  if b then Some (if is_ok r then q' else q) else None.

Definition has (s : fd) (l : list fd) : bool := bool_decide (s ∈ l).

Definition open_fd (s : fd) (q : view) : view :=
  View (s :: opened q) (connected q) (initialised q) (trans_cb q) (data_cb q) (registered q).
Definition connect_fd (s : fd) (q : view) : view :=
  View (opened q) (s :: connected q) (initialised q) (trans_cb q) (data_cb q) (registered q).
Definition close_fd (s : fd) (q : view) : view :=
  View (filter (.≠ s) (opened q)) (filter (.≠ s) (connected q)) (initialised q) (trans_cb q) (data_cb q) (registered q).

Definition protocol (q : view) (i : item effect) : option view :=
  match i with Item e r =>
    match e in effect A return res A → option view with
    | ESetDebug _ => λ r, Some q
    | EInitDaemon _ => λ r, after (negb (initialised q)) r q (View (opened q) (connected q) true (trans_cb q) (data_cb q) (registered q))
    | ESocket s => λ r, after (negb (has s (opened q))) r q (open_fd s q)
    | EMaapiConnect s _ _ => λ r, after (has s (opened q) && negb (has s (connected q))) r q (connect_fd s q)
    | EDpConnect s ty _ _ => λ r,
        after (initialised q && has s (opened q) && negb (has s (connected q)) &&
               match ty with CONTROL_SOCKET => true | WORKER_SOCKET => has Control (connected q) end) r q (connect_fd s q)
    | ELoadSchemas s => λ r, after (has s (connected q)) r q q
    | ERegisterTransCb w => λ r,
        after (has w (connected q) && has Control (connected q) && negb (registered q)) r q
          (View (opened q) (connected q) (initialised q) true (data_cb q) (registered q))
    | ERegisterDataCb _ => λ r,
        after (has Control (connected q) && negb (registered q)) r q
          (View (opened q) (connected q) (initialised q) (trans_cb q) true (registered q))
    | ERegisterDone => λ r,
        after (trans_cb q && data_cb q && negb (registered q)) r q
          (View (opened q) (connected q) (initialised q) (trans_cb q) (data_cb q) true)
    | ETransSetFd w => λ r, after (has w (connected q)) r q q
    | EPipe => λ r, after (negb (has PipeRead (opened q))) r q (open_fd PipeRead (open_fd PipeWrite q))
    | EWrite s _ => λ r, after (has s (opened q)) r q q
    | EClose s => λ r, after (has s (opened q)) r q (close_fd s q)
    end r
  end.

Local Abbreviation triple := (triple protocol).

(** A call from a known state. *)
Lemma from_state {A : Set} (e : effect A) q q' :
  (∀ r, protocol q (Item e r) = Some (if is_ok r then q' else q)) →
  triple (λ x, x = q) (call e) (λ _ x, x = q') (λ _, True).
Proof. intros He. apply triple_act. intros x r ->. exists (if is_ok r then q' else q). split; [apply He|]. by destruct r. Qed.

Lemma then_state {A : Set} {B : Type} (e : effect A) (k : A → M B) q q' R :
  (∀ r, protocol q (Item e r) = Some (if is_ok r then q' else q)) →
  (∀ a, triple (λ x, x = q') (k a) R (λ _, True)) →
  triple (λ x, x = q) (a ← call e; k a) R (λ _, True).
Proof. intros He Hk. eapply triple_bind; [by apply from_state|exact Hk]. Qed.

(** The state of a provider that serves ConfD. *)
Definition serving : view := View [Worker; Control; Maapi] [Worker; Control; Maapi] true true true true.

(** The daemon and the control socket come before the worker socket; the callbacks after
    both, and before the registration is closed. *)
Lemma init_dp_serves ip port level :
  triple (λ q, q = start) (init_dp ip port level) (λ _ q, q = serving) (λ _, True).
Proof.
  unfold init_dp. repeat (eapply then_state; [intros r; by destruct r|intros _]).
  eapply (from_state _ _ serving). intros r. by destruct r.
Qed.

(** With its pipe the provider can be stopped and closes everything it has opened. *)
Lemma provider_closes ip port level :
  triple (λ q, q = start)
    (_ ← init_dp ip port level; _ ← new_pipe; _ ← stop_confd_loop true; close_dp true)
    (λ _ q, opened q = [] ∧ connected q = []) (λ _, True).
Proof.
  eapply triple_bind; [apply init_dp_serves|]. intros []. unfold new_pipe, stop_confd_loop, close_dp.
  repeat (eapply then_state; [intros r; by destruct r|intros []]).
  eapply triple_conseq; [eapply from_state|intros q Hq; exact Hq| |done];
    [intros r; destruct r; reflexivity|by intros a q ->].
Qed.

(** Without a pipe the loop cannot be stopped, and [close_dp] fails after the sockets. *)
Lemma no_pipe_closes :
  triple (λ q, q = serving) (close_dp false) (λ _ _, False) (λ _, True).
Proof.
  unfold close_dp. repeat (eapply then_state; [intros r; by destruct r|intros []]).
  eapply triple_conseq; [apply (triple_raise protocol TypeError (λ _ _, False) (λ _, True))|done..].
Qed.
End provider.
End RouteDp.

(** ** The socket for external changes *)

Module Changes.
Inductive effect : Set → Type :=
  | ESocket : effect nat
  | EBind (s : nat) (host : pystr) (port : Z) : effect unit
  | EListen (s : nat) (backlog : Z) : effect unit.

Section changes.
Context (external_port : Z) (env : environment effect).
Definition call {A : Set} (e : effect A) : PyM (list (item effect)) A := act env e.

Definition start_external_change_server : PyM (list (item effect)) nat :=
  ext_server_sock ← call ESocket;
  _ ← call (EBind ext_server_sock (py"localhost") external_port);
  _ ← call (EListen ext_server_sock 5);
  mret ext_server_sock.

(** The socket that is returned listens on the port of the settings, for local
    clients only. *)
Lemma change_server_listens s h :
  start_external_change_server [] = (Ok s, h) →
  h = [Item ESocket (Ok s); Item (EBind s (py"localhost") external_port) (Ok tt); Item (EListen s 5) (Ok tt)].
Proof.
  unfold start_external_change_server, call, act, mbind, PyM_bind, mret, PyM_ret. intros H.
  repeat case_match; simplify_eq/=; repeat match goal with x : unit |- _ => destruct x end;
    repeat match goal with H : env _ _ _ = _ |- _ => rewrite H end; done.
Qed.
End changes.
End Changes.

(** ** The channel of the gNMI client *)

Module Channel.
Inductive effect : Set → Type :=
  | EInsecureChannel (target : pystr) : effect nat
  | EReadFile (name : pystr) : effect pystr
  | EGetServerCertificate (host : pystr) (port : Z) : effect pystr
  | ESecureChannel (target root_certificates : pystr) : effect nat
  | EReady (chan : nat) (timeout : Z) : effect unit
  | EStub (chan : nat) : effect nat
  | ECloseChannel (chan : nat) : effect unit.

Abbreviation M := (PyM (list (item effect))).

Record client := Client { channel : nat; metadata : list (pystr * pystr); stub : nat }.

Section channel.
Context (env : environment effect).
Definition call {A : Set} (e : effect A) : M A := act env e.

Definition open_channel (host : pystr) (port : Z) (insecure : bool) (server_crt_file : option pystr) : M nat :=
  let target := fmt (py"{0}:{1}") [host; str_Z port] in
  if insecure then call (EInsecureChannel target)
  else
    ssl_cert ← match server_crt_file with
               | Some (_ :: _ as f) => call (EReadFile f)
               | _ => call (EGetServerCertificate host port)
               end;
    call (ESecureChannel target ssl_cert).

Definition __init__ (host : pystr) (port : Z) (metadata : option (list (pystr * pystr))) (insecure : bool)
    (server_crt_file : option pystr) (username password : pystr) : M client :=
  let metadata := default [(py"username", username); (py"password", password)] metadata in
  chan ← open_channel host port insecure server_crt_file;
  _ ← call (EReady chan 5);
  s ← call (EStub chan);
  mret (Client chan metadata s).

Definition close (c : client) : M unit := call (ECloseChannel (channel c)).

(** Which certificate a secure channel trusts: the one in the file, or the one that the
    server itself shows when no file is given. *)
Definition trusted (host : pystr) (port : Z) (file : option pystr) (cert : pystr) (h : list (item effect)) : Prop :=
  match file with
  | Some (_ :: _ as f) => h !! 0 = Some (Item (EReadFile f) (Ok cert))
  | _ => h !! 0 = Some (Item (EGetServerCertificate host port) (Ok cert))
  end.

(** A client that was made has waited for its channel and carries its metadata; unless it
    is told otherwise its channel is secured by the trusted certificate. *)
Lemma new_client host port md insecure file user pass c h :
  __init__ host port md insecure file user pass [] = (Ok c, h) →
  metadata c = default [(py"username", user); (py"password", pass)] md ∧
  last h = Some (Item (EStub (channel c)) (Ok (stub c))) ∧ Item (EReady (channel c) 5) (Ok tt) ∈ h ∧
  if insecure then h !! 0 = Some (Item (EInsecureChannel (fmt (py"{0}:{1}") [host; str_Z port])) (Ok (channel c)))
  else ∃ cert, trusted host port file cert h ∧
         h !! 1 = Some (Item (ESecureChannel (fmt (py"{0}:{1}") [host; str_Z port]) cert) (Ok (channel c))).
Proof.
  unfold __init__, open_channel, call, act, mbind, PyM_bind, mret, PyM_ret. intros H.
  repeat case_match; simplify_eq/=; repeat match goal with x : unit |- _ => destruct x end;
    repeat match goal with H : env _ _ _ = _ |- _ => rewrite H end; (split_and!; [done|done|set_solver|]); eauto 8.
Qed.
End channel.
End Channel.

(** ** The daemon of an action *)

Module Actions.
Inductive effect : Set → Type :=
  | EMaapi : effect nat
  | EMaapiClose (m : nat) : effect unit
  | EInfo (text : pystr) : effect unit
  | EStart (daemon actionpoint : pystr) : effect unit
  | EPause : effect unit
  | EFinish (daemon : pystr) : effect unit.

Abbreviation M := (PyM (list (item effect))).

Section actions.
Context (env : environment effect).
Definition call {A : Set} (e : effect A) : M A := act env e.

(** [with Maapi(): pass]. *)
Definition load_schemas : M unit := m ← call EMaapi; call (EMaapiClose m).

(** The log prints; with its timestamp left out. *)
Definition info (arg : pystr) : M unit := call (EInfo (py"info: " ++ arg)).

Definition main : M unit :=
  _ ← load_schemas;
  _ ← info (py"--- Daemon myaction STARTED ---");
  _ ← call (EStart (py"myactiond") (py"wait-for-pending"));
  _ ← call EPause;
  _ ← call (EFinish (py"myactiond"));
  info (py"--- Daemon myaction FINISHED ---").

(** Does the daemon run after these calls? *)
Fixpoint runs (b : bool) (h : list (item effect)) : bool :=
  match h with
  | [] => b
  | Item e r :: h' =>
      runs (match e in effect A return res A → bool with
            | EStart _ _ => λ r, is_ok r || b
            | EFinish _ => λ r, negb (is_ok r) && b
            | _ => λ _, b
            end r) h'
  end.

Lemma main_finishes h : main [] = (Ok tt, h) → runs false h = false.
Proof.
  unfold main, load_schemas, info, call, act, mbind, PyM_bind. intros H. repeat case_match; simplify_eq/=.
  repeat match goal with H : env _ _ _ = _ |- _ => rewrite H end. done.
Qed.
End actions.

(** An interrupt ends the program from [signal.pause], and the daemon is not finished. *)
Definition interrupt : environment effect := λ A h e,
  match e in effect B return res B with
  | EMaapi => Ok 0
  | EPause => Raise KeyboardInterrupt
  | EMaapiClose _ | EInfo _ | EStart _ _ | EFinish _ => Ok tt
  end.

Lemma interrupted_daemon : ∃ h, main interrupt [] = (Raise KeyboardInterrupt, h) ∧ runs false h = true.
Proof. eexists. split; [reflexivity|]. by vm_compute. Qed.
End Actions.
