(* ===== verification/Adapters.v ===== *)
(** * The adapters as the server finds them

    [Settings]: the class attributes of the ConfD adapter (confd_gnmi_api_adapter.py),
    with their setters, which the server's main program calls.  [Demo]: the one
    instance of the demo adapter that all calls share (confd_gnmi_demo_adapter.py).
    [Netconf]: the stub confd_gnmi_netconf_adapter.py. *)

From Stdlib Require Import Ascii String.
From S2P Require Import Prelude PyStr PyDict GnmiMsg Adapter DemoAdapter Server ArgParse CommandLines.

(** ** The settings of the ConfD adapter *)

Module Settings.
Record settings := Build {
  confd_addr : value; confd_port : value; external_port : Z; monitor_external_changes : bool }.

(** The defaults of the class; ConfD's own port is only used when the default is 0. *)
Definition defaults (CONFD_ADDR : pystr) (CONFD_PORT EXTERNAL_PORT _CONFD_PORT : Z) : settings :=
  Build (VStr CONFD_ADDR) (VInt (if decide (CONFD_PORT = 0%Z) then _CONFD_PORT else CONFD_PORT)) EXTERNAL_PORT false.

Definition set_confd_addr (a : value) (s : settings) : settings :=
  Build a (confd_port s) (external_port s) (monitor_external_changes s).
Definition set_confd_port (p : value) (s : settings) : settings :=
  Build (confd_addr s) p (external_port s) (monitor_external_changes s).
Definition set_external_port (z : Z) (s : settings) : settings :=
  Build (confd_addr s) (confd_port s) z (monitor_external_changes s).
Definition set_monitor_external_changes (b : bool) (s : settings) : settings :=
  Build (confd_addr s) (confd_port s) (external_port s) b.

(** What the calls of the main program leave in the class. *)
Definition apply_call (s : settings) (c : server_call) : settings :=
  match c with
  | SetConfdAddr a => set_confd_addr a s
  | SetConfdPort p => set_confd_port p s
  | SetExternalPort z => set_external_port z s
  | SetMonitorExternalChanges b => set_monitor_external_changes b s
  | _ => s
  end.

Definition after_calls (s : settings) (l : list server_call) : settings := foldl apply_call s l.

(** Inversion of a computation that returned. *)
Lemma bind_inv {T A B} (m : PyM T A) (f : A → PyM T B) s b s' :
  (m ≫= f) s = (Ok b, s') → ∃ a s1, m s = (Ok a, s1) ∧ f a s1 = (Ok b, s').
Proof. unfold mbind, PyM_bind. destruct (m s) as [[a|e] s1]; [|done]. by exists a, s1. Qed.

Lemma lift_inv {T A} (r : res A) (s s' : T) a : lift r s = (Ok a, s') → r = Ok a ∧ s' = s.
Proof. unfold lift. by intros [= -> ->]. Qed.

Lemma do_inv c l l' u : do c l = (Ok u, l') → l' = l ++ [c].
Proof. unfold do, modify. by intros [= _ <-]. Qed.

Lemma attribute_inv k n v : attribute k n = Ok v → dict_get k n = Some v.
Proof. unfold attribute. by destruct (dict_get k n) as [w|]; [intros [= ->]|]. Qed.

Lemma flag_inv k n b : flag k n = Ok b → dict_get k n = Some (VBool b).
Proof. unfold flag, attribute. destruct (dict_get k n) as [[| | | | |]|]; cbn; try discriminate. by intros [= ->]. Qed.

(** With the type api every setting comes from the command line, whatever the class had
    before; a port that was not given is ConfD's. *)
Lemma configured_settings confd_port read_file opt l0 l s :
  configure confd_port read_file opt l0 = (Ok API, l) →
  ∃ addr port ext b, dict_get (py"confd_addr") opt = Some addr ∧ dict_get (py"confd_port") opt = Some port ∧
    dict_get (py"external_port") opt = Some (VInt ext) ∧ dict_get (py"monitor_external_changes") opt = Some (VBool b) ∧
    after_calls s l = Build addr (match port with VNone => VInt confd_port | _ => port end) ext b.
Proof.
  unfold configure. intros (ty & l1 & [_ ->]%lift_inv & H)%bind_inv. case_decide.
  - apply bind_inv in H as (level & l2 & [_ ->]%lift_inv & H). apply bind_inv in H as (u1 & l3 & ->%do_inv & H).
    apply bind_inv in H as (addr & l4 & [Ha%attribute_inv ->]%lift_inv & H). apply bind_inv in H as (u2 & l5 & ->%do_inv & H).
    apply bind_inv in H as (port & l6 & [Hp%attribute_inv ->]%lift_inv & H). apply bind_inv in H as (u3 & l7 & ->%do_inv & H).
    apply bind_inv in H as (ext & l8 & [He%attribute_inv ->]%lift_inv & H). destruct ext as [| | |z| |]; apply bind_inv in H as (u4 & l9 & Hx & H); try done.
    apply do_inv in Hx as ->. apply bind_inv in H as (b & l10 & [Hb%flag_inv ->]%lift_inv & H). apply bind_inv in H as (u5 & l11 & ->%do_inv & H).
    injection H as <-. exists addr, port, z, b. split_and!; [done..|]. unfold after_calls. by rewrite !foldl_app.
  - case_decide; [|done]. apply bind_inv in H as (cfg & l2 & _ & H). by apply bind_inv in H as (u & l3 & _ & H).
Qed.
End Settings.

(** ** One demo adapter for all calls *)

Module Demo.
(** Whether the instance has been made, and what the class and the instance hold. *)
Definition class : Type := bool * demo_world.

Definition get_adapter : PyM class demo_world := λ '(instance, w),
  let w := if instance then w else _fill_demo_db w in (Ok w, (true, w)).

(** A method of the adapter that a call has got. *)
Definition on_instance {A} (m : PyM demo_world A) : PyM class A := λ '(instance, w),
  let '(r, w') := m w in (r, (instance, w')).

(** The databases are filled once: a call finds what the calls before it have left. *)
Lemma get_adapter_shared {A} (m : PyM demo_world A) (c : class) :
  (_ ← get_adapter; _ ← on_instance m; get_adapter) c =
  (_ ← get_adapter; _ ← on_instance m; c ← get; mret c.2) c.
Proof.
  destruct c as [b w]. unfold mbind, PyM_bind, get_adapter, on_instance, get, mret, PyM_ret. cbn.
  by destruct (m _) as [[a|e] w'].
Qed.
End Demo.

(** ** The stub for NETCONF *)

Module Netconf.
(** The abstract methods of [GnmiServerAdapter]. *)
Inductive method := capabilities | encodings | get | set | delete | get_subscription_handler | get_adapter.

#[export] Instance method_eq_dec : EqDecision method.
Proof. solve_decision. Defined.

Definition abstract_methods : list method :=
  [capabilities; encodings; get; set; delete; get_subscription_handler; get_adapter].

(** What the methods of the stub return: [None] or an empty list. *)
Inductive answer := None_ | EmptyList.

Definition GnmiNetconfServerAdapter : list (method * answer) :=
  [(get_adapter, None_); (set, None_); (delete, None_); (get_subscription_handler, None_);
   (capabilities, EmptyList); (get, EmptyList)].

(** A class can be instantiated when it defines every abstract method. *)
Definition missing : list method := filter (λ m, dict_get m GnmiNetconfServerAdapter = None) abstract_methods.

(** The stub does not say which encodings it supports, so that it has no instances; what the
    server finds, also for this type, is no adapter, and every call is an AttributeError. *)
Lemma netconf_has_no_instances : missing = [encodings].
Proof. by vm_compute. Qed.

Lemma netconf_calls_fail {W} `{AdapterOps W} connect (request : GetRequest) (s : rpc W) :
  is_Some (credentials s) → (Get NETCONF connect request s).1 = Raise AttributeError.
Proof.
  intros [[u p] Hc]. unfold Get, get_connected_adapter, mbind, PyM_bind. rewrite extract_user_metadata_spec, Hc. reflexivity.
Qed.
End Netconf.
