(* ===== verification/GrpcTests.v ===== *)
(** * The repository's gNMI tests: confdgnmi/tests

    [Common]: the unit tests of test_common.py.  [Demo]: the tests of
    client_server_test_base.py as test_client_server_demo.py runs them: a client, the
    server and the shared demo adapter.  The tests are programs over the models of the
    other files; a test passes when it returns.  In a Subscribe call the thread that
    reads requests runs first, then the loop of responses, and with STREAM the change
    thread whenever that loop waits: one of the interleavings of Server.v. *)

From Stdlib Require Import Ascii String.
From S2P Require Import Prelude PyStr PyDict GnmiMsg GnmiPath Json Adapter DemoAdapter Server Client.
From S2P Require ArgParse CommandLines.

(** ** Equality *)

#[local] Instance PathElem_eq_dec : EqDecision PathElem.
Proof. solve_decision. Defined.
#[local] Instance StatusCode_eq_dec : EqDecision StatusCode.
Proof. solve_decision. Defined.
#[local] Instance Path_eq_dec : EqDecision Path.
Proof. solve_decision. Defined.

(** Equality of JSON values, dictionaries compared by their keys. *)
Fixpoint json_eqb (a b : json) : bool :=
  match a, b with
  | JNull, JNull => true
  | JBool x, JBool y => eqb x y
  | JInt x, JInt y => (x =? y)%Z
  | JStr x, JStr y => bool_decide (x = y)
  | JList l, JList m =>
      (fix go l m := match l, m with [], [] => true | x :: l', y :: m' => json_eqb x y && go l' m' | _, _ => false end) l m
  | JDict d, JDict e =>
      (length d =? length e) &&
      (fix go d := match d with [] => true | (k, x) :: d' => (match dict_get k e with Some y => json_eqb x y | None => false end) && go d' end) d
  | _, _ => false
  end.

(** ** Unit tests *)

Module Common.
Import ArgParse CommandLines.

(** Assertions about a computation that may raise. *)
Definition assert (b : bool) : res unit := py_assert b.

Definition test_make_name_keys (input : pystr) (output : pystr * list (pystr * pystr)) : res unit :=
  '(name, keys) ← make_name_keys input;
  _ ← assert (bool_decide (name = output.1));
  assert (bool_decide (length keys = length output.2) && forallb (λ kv, bool_decide (dict_get kv.1 keys = Some kv.2)) output.2).

Definition name_keys_cases : list (pystr * (pystr * list (pystr * pystr))) :=
  [(py"name[key1=val1]", (py"name", [(py"key1", py"val1")]));
   (py"name[key1=val1][key2=val2]", (py"name", [(py"key1", py"val1"); (py"key2", py"val2")]));
   (py"name[key1=val1][key2=val2][key3=val3]",
     (py"name", [(py"key1", py"val1"); (py"key2", py"val2"); (py"key3", py"val3")]))].

Fixpoint format_elems (elems : list pystr) : res pystr :=
  match elems with
  | [] => Ok []
  | e :: es =>
      s ← (if decide (e = []) then Ok []
           else if decide ("["%char ∈ e) then
             '(name, keys) ← make_name_keys e; Ok (name ++ concat ((λ kv, py"{" ++ kv.2 ++ py"}") <$> keys))
           else Ok e);
      rest ← format_elems es;
      Ok (py"/" ++ s ++ rest)
  end.

(** The argument is not used: the function reads the path of the test. *)
Definition xpath_to_formatted (path : pystr) : res pystr :=
  formatted ← format_elems (split "/" path); Ok (replace formatted (py"//") (py"/")).

Definition test_make_path `{ProtoMap} (path : pystr) : res unit :=
  gnmi_path ← make_gnmi_path path None None;
  let xpath_path := make_xpath_path (Some gnmi_path) None false in
  _ ← assert (bool_decide (path = xpath_path));
  let formatted_path := make_formatted_path gnmi_path None false in
  f ← xpath_to_formatted path;
  assert (bool_decide (f = formatted_path)).

Definition path_cases : list pystr := [py"/name1"; py"/"; py"/name1/name2"; py"/name1[key1=val1]"].

(** [str] of an attribute; texts of floats are kept as they are given. *)
Definition str_value (v : value) : pystr :=
  match v with
  | VNone => py"None"
  | VStr s => s
  | VBool true => py"True"
  | VBool false => py"False"
  | VInt z => str_Z z
  | VFloat s => s
  | VList [] => py"[]"
  | VList _ => py"[...]"
  end.

Definition check_in_args (args : namespace) (check_dict : list (pystr * value)) : res unit :=
  assert (forallb (λ kv, match dict_get kv.1 args with
    | Some v => bool_decide (str_value v = str_value kv.2) | None => false end) check_dict).

Record check := Check { c_dest : pystr; c_args : list pystr; c_vals : list pystr }.

Definition check_args (check_array : list check) (p : parser) : res unit :=
  _ ← res_map (λ c, res_map (λ a, res_map (λ v,
    args ← parse_args p [a; v]; check_in_args args [(c_dest c, VStr v)]) (c_vals c)) (c_args c)) check_array;
  Ok tt.

Definition log_levels : list pystr := [py"error"; py"warning"; py"info"; py"debug"].

Definition test_client_argparse : res unit :=
  args ← parse_args client_parser [];
  _ ← check_in_args args [(py"operation", VStr (py"capabilities")); (py"logging", VStr (py"warning"));
    (py"prefix", VStr []); (py"paths", VList []); (py"datatype", VStr (py"CONFIG")); (py"vals", VList []);
    (py"submode", VStr (py"ONCE")); (py"pollcount", VInt 5); (py"pollinterval", VFloat (py"0.5")); (py"readcount", VInt 4)];
  args ← parse_args client_parser [py"-t"; py"CONFIG"];
  _ ← check_in_args args [(py"datatype", VStr (py"CONFIG"))];
  check_args
    [Check (py"operation") [py"-o"; py"--oper"] [py"capabilities"; py"set"; py"get"; py"subscribe"];
     Check (py"prefix") [py"--prefix"] [[]; py"/interfaces"; py"/interfaces-state"];
     Check (py"datatype") [py"-t"; py"--data-type"] [py"ALL"; py"CONFIG"; py"STATE"; py"OPERATIONAL"];
     Check (py"submode") [py"-s"; py"--sub-mode"] [py"ONCE"; py"POLL"; py"STREAM"];
     Check (py"pollcount") [py"--poll-count"] [py"1"; py"10"; py"100"];
     Check (py"pollinterval") [py"--poll-interval"] [py"0.1"; py"0.5"; py"1.0"];
     Check (py"readcount") [py"--read-count"] [py"1"; py"10"; py"100"];
     Check (py"logging") [py"--logging"] log_levels] client_parser.

Definition test_server_argparse (CONFD_ADDR : pystr) (CONFD_PORT EXTERNAL_PORT : Z) : res unit :=
  let p := server_parser CONFD_ADDR CONFD_PORT EXTERNAL_PORT in
  args ← parse_args p [];
  _ ← check_in_args args [(py"type", VStr (py"demo")); (py"logging", VStr (py"warning")); (py"confd_debug", VStr (py"debug"));
    (py"confd_addr", VStr CONFD_ADDR); (py"confd_port", VInt CONFD_PORT);
    (py"monitor_external_changes", VBool false); (py"external_port", VInt EXTERNAL_PORT); (py"cfg", VNone)];
  check_args
    [Check (py"type") [py"-t"; py"--type"] [py"demo"; py"api"];
     Check (py"confd_debug") [py"-d"; py"--confd-debug"] [py"trace"; py"debug"; py"silent"; py"proto"];
     Check (py"confd_addr") [py"--confd-addr"] [CONFD_ADDR; py"10.0.0.1"];
     Check (py"confd_port") [py"--confd-port"] [str_Z CONFD_PORT; py"3210"];
     Check (py"monitor_external_changes") [py"--monitor-external-changes"] [];
     Check (py"external_port") [py"--external-port"] [str_Z EXTERNAL_PORT; py"1234"];
     Check (py"logging") [py"--logging"] log_levels] p.

Definition suite : res unit :=
  _ ← res_map (λ c, test_make_name_keys c.1 c.2) name_keys_cases;
  _ ← res_map test_make_path path_cases;
  _ ← test_client_argparse;
  test_server_argparse (py"127.0.0.1") 4565 5055.

Lemma unit_tests_pass : suite = Ok tt.
Proof. by vm_compute. Qed.
End Common.

(** ** Client, server and demo adapter *)

Module Demo.

(** The shared adapter and the code of the last error that a call has returned. *)
Record bench := Bench { world : demo_world; code : option StatusCode }.

Abbreviation T := (PyM bench).

Definition assert (b : bool) : T unit := lift (py_assert b).

Section bench.
Context `{ProtoMap} (format_val : TypedValue → pystr).
Context (rand_sample : nat → list pystr → nat → res (list pystr)) (randint : nat → Z → Z → Z).

Local Instance adapter_ops : AdapterOps demo_world := demo_adapter format_val.
Local Instance handler_ops : HandlerOps demo_world := demo_handler rand_sample randint.

Definition no_connect (u p : pystr) : PyM demo_world unit := mret tt.

(** A call through gRPC with the metadata of the client: a handler that raises is an
    [RpcError] (here a [PyException]) with the code that it has set. *)
Definition rpc_call {A} (m : PyM (rpc demo_world) A) : T A := λ b,
  let s := {| invocation_metadata := [(py"username", py"admin"); (py"password", py"admin")]; status := None; adapter := world b |} in
  match m s with
  | (Ok a, s') => (Ok a, Bench (Server.adapter s') (code b))
  | (Raise _, s') => (Raise PyException, Bench (Server.adapter s') (fst <$> status s'))
  end.

(** *** The stub *)

Definition get_capabilities : T CapabilityResponse := rpc_call (Capabilities DEMO no_connect).

Definition client_get (prefix : Path) (paths : list Path) (datatype encoding : Z) : T (list Notification) :=
  rpc_call (Get DEMO no_connect {| gr_prefix := prefix; gr_path := paths; gr_type := datatype; gr_encoding := encoding; gr_use_models := [] |}).

Definition client_set (prefix : Path) (path_vals : list (Path * TypedValue)) : T SetResponse :=
  rpc_call (Set_ DEMO no_connect {| sr_prefix := prefix; sr_delete := []; sr_replace := [];
    sr_update := (λ '(p, v), {| up_path := p; up_val := v |}) <$> path_vals |}).

(** The thread that reads requests, to its end. *)
Fixpoint run_requests (n : nat) (s : subscribe demo_world) : subscribe demo_world :=
  match n with
  | 0 => s
  | S n' => match _read_sub_request s with Some (_, s') => run_requests n' s' | None => s end
  end.

(** The events that the change thread has put on the queue reach it. *)
Definition deliver (h : handler demo_world) : handler demo_world :=
  foldl (λ h e, (put_event e h).2) (set_world (set_outbox [] (Adapter.world h)) h) (outbox (Adapter.world h)).

(** The loop of responses, until [want] updates have come (0: to the end); when it waits
    the change thread takes a step. *)
Fixpoint respond (fuel : nat) (h : handler demo_world) (got : list SubscribeResponse) (want : nat)
    : list SubscribeResponse * handler demo_world :=
  match fuel with
  | 0 => (got, h)
  | S f =>
      if (0 <? want) && (want <=? length (filter (λ r, is_update r) got)) then (got, h)
      else match read_step h with
           | Some (out, h') => respond f h' (got ++ out) want
           | None =>
               match thread_step rand_sample randint (Adapter.world h) with
               | Some w' => respond f (deliver (set_world w' h)) got want
               | None => (got, h)
               end
           end
  end.

(** The client cancels the call when it has read enough; the server stops the handler then. *)
Definition finish (h : handler demo_world) : handler demo_world :=
  (read 20 (stop h).2).2.

Definition client_subscribe (l : SubscriptionList) (poll_count read_count : nat) : T (list SubscribeResponse) := λ b,
  match generate_subscriptions l poll_count with
  | [] => (Raise IndexError, b)
  | request :: requests =>
      match rpc_call (subscribe_start DEMO no_connect request) b with
      | (Raise e, b') => (Raise e, b')
      | (Ok h, b') =>
          let s := run_requests (2 + length requests) (start_subscribe h requests) in
          let '(out, h') := respond 300 (sub_handler s) [] read_count in
          let h'' := if is_monitor_changes l then finish h' else h' in
          (Ok out, Bench (Adapter.world h'') (code b'))
      end
  end.

(** *** Assertions about updates *)

Definition same_update (u : Update) (pv : Path * json) : res bool :=
  match up_val u with
  | JsonIetfVal s => v ← loads s; Ok (bool_decide (up_path u = pv.1) && json_eqb v pv.2)
  | _ => Raise ValueError
  end.

Definition assert_update (u : Update) (pv : Path * json) : T unit :=
  b ← lift (same_update u pv); assert b.

Fixpoint assert_each (us : list Update) (pvs : list (Path * json)) : T unit :=
  match us, pvs with
  | u :: us', pv :: pvs' => _ ← assert_update u pv; assert_each us' pvs'
  | _, _ => mret tt
  end.

Definition assert_updates (us : list Update) (pvs : list (Path * json)) : T unit :=
  _ ← assert (length us =? length pvs); assert_each us pvs.

(** The first of the updates that matches ends the search. *)
Fixpoint any_update (us : list Update) (pv : Path * json) : res bool :=
  match us with
  | [] => Ok false
  | u :: us' => if decide (up_path u = pv.1) then b ← same_update u pv; if (b : bool) then Ok true else any_update us' pv
                else any_update us' pv
  end.

Definition assert_in_updates (us : list Update) (pvs : list (Path * json)) : T unit :=
  _ ← assert (length us =? length pvs);
  _ ← M_map (λ pv, b ← lift (any_update us pv); assert b) pvs;
  mret tt.

Abbreviation assertion := (list Update → list (Path * json) → T unit).

Definition verify_get_response_updates (datatype : Z) (prefix : option Path) (paths : list Path)
    (path_value : list (Path * json)) (encoding : Z) (assert_fun : assertion) : T unit :=
  notification ← client_get (default empty_path prefix) paths datatype encoding;
  _ ← M_map (λ n,
    _ ← match prefix with Some p => assert (bool_decide (GnmiMsg.prefix n = p)) | None => mret tt end;
    assert_fun (update n) path_value) notification;
  mret tt.

(** [read_subscribe_responses], for one list of values for every response or a list for
    each; the result is the number of updates. *)
Fixpoint check_responses (prefix : option Path) (each : bool) (path_value : list (list (Path * json)))
    (assert_fun : assertion) (responses : list SubscribeResponse) (response_count read_count : nat) : T nat :=
  match responses with
  | [] => _ ← assert (read_count =? 0); mret response_count
  | RespSync _ :: rest =>
      _ ← assert (response_count =? 1);
      check_responses prefix each path_value assert_fun rest response_count read_count
  | RespUpdate n :: rest =>
      _ ← match prefix with Some p => assert (bool_decide (GnmiMsg.prefix n = p)) | None => mret tt end;
      match path_value with
      | [] => raise AssertionError
      | pv :: pvs =>
          _ ← match pv with [] => mret tt | _ => assert_fun (update n) pv end;
          if (0 <? read_count) && (read_count =? 1) then mret (S response_count)
          else check_responses prefix each (if each then pvs else path_value) assert_fun rest (S response_count) (pred read_count)
      end
  end.

Definition verify_sub_sub_response_updates (mode : Z) (poll_count read_count : nat) (each : bool)
    (path_value : list (list (Path * json))) (prefix : option Path) (paths : list Path) (encoding : Z) (assert_fun : assertion) : T unit :=
  let subscription_list := make_subscription_list (default empty_path prefix) paths mode encoding in
  responses ← client_subscribe subscription_list poll_count read_count;
  response_count ← check_responses prefix each path_value assert_fun responses 0 read_count;
  if poll_count =? 0 then mret tt else assert (poll_count + 1 =? response_count).

(** *** The tests *)

Definition leaves : list pystr := [py"name"; py"type"].
Definition GIGABIT : pystr := py"iana-if-type:gigabitEthernet".
Definition FAST : pystr := py"iana-if-type:fastEther".

Definition leaf_path (leaf if_state_str : pystr) (if_id : nat) : res Path :=
  make_gnmi_path (py"interface[name=" ++ if_state_str ++ py"if_" ++ str_nat if_id ++ py"]/" ++ leaf) None None.
Definition list_path (if_state_str : pystr) (if_id : nat) : res Path :=
  make_gnmi_path (py"interface[name=" ++ if_state_str ++ py"if_" ++ str_nat if_id ++ py"]") None None.

Definition entry (name : pystr) : json := JDict [(py"name", JStr name); (py"type", JStr GIGABIT)].

(** A verification by Get or Subscribe: prefix, paths, values, encoding, assertion. *)
Abbreviation verification := (option Path → list Path → list (Path * json) → Z → assertion → T unit).

Definition _test_get_subscribe (verify : verification) (datatype encoding : Z) (if_id : nat) : T unit :=
  b ← get;
  let state := bool_decide (datatype = DT_STATE) in
  let prefix_state_str := if state then py"-state" else [] in
  let if_state_str := if state then py"state_" else [] in
  let map_db := _demo_db_to_key_elem_map (if state then demo_state_db (world b) else demo_db (world b)) in
  prefix ← lift (make_gnmi_path (py"/ietf-interfaces:interfaces" ++ prefix_state_str) None None);
  name_path ← lift (leaf_path (py"name") if_state_str if_id);
  type_path ← lift (leaf_path (py"type") if_state_str if_id);
  entry_path ← lift (list_path if_state_str if_id);
  all_path ← lift (make_gnmi_path (py"interface") None None);
  top_path ← lift (make_gnmi_path (py"ietf-interfaces:interfaces" ++ prefix_state_str) None None);
  let ifname := if_state_str ++ py"if_" ++ str_nat if_id in
  _ ← verify (Some prefix) [name_path] [(name_path, JStr ifname)] encoding assert_updates;
  _ ← verify (Some prefix) [type_path] [(type_path, JStr GIGABIT)] encoding assert_updates;
  _ ← verify (Some prefix) [name_path; type_path] [(name_path, JStr ifname); (type_path, JStr GIGABIT)] encoding assert_updates;
  _ ← verify (Some prefix) [entry_path] [(entry_path, entry ifname)] encoding assert_updates;
  pv ← lift (res_map (λ i, p ← list_path if_state_str i; Ok (p, entry (if_state_str ++ py"if_" ++ str_nat i))) (seq 1 num_of_ifs));
  _ ← verify (Some prefix) [all_path] pv encoding assert_in_updates;
  verify None [top_path] [(top_path, JDict [(py"interface", JList (json_elems <$> map_db.*2))])] encoding assert_updates.

Definition test_capabilities : T unit :=
  c ← get_capabilities;
  _ ← assert (forallb (λ cap, existsb (λ s, bool_decide (md_name s = cm_name cap) && bool_decide (md_organization s = cm_organization cap))
        (supported_models c)) capability_list);
  _ ← assert (bool_decide (JSON ∈ supported_encodings c));
  assert (bool_decide (JSON_IETF ∈ supported_encodings c)).

Definition test_get (datatype : Z) (if_id : nat) : T unit :=
  _test_get_subscribe (verify_get_response_updates datatype) datatype JSON_IETF if_id.

Definition test_encodings : list Z := [JSON; BYTES; PROTO; ASCII; JSON_IETF; JSON_IETF + 100]%Z.

Definition is_rpc_error (r : res unit) : bool := match r with Raise PyException => true | _ => false end.

(** An [RpcError] is raised again for a supported encoding, and has the code
    UNIMPLEMENTED for another. *)
Definition encoding_test_decorator (func : Z → T unit) : T unit :=
  capabilities ← get_capabilities;
  _ ← M_map (λ encoding b,
    let '(r, b') := func encoding b in
    if is_rpc_error r && negb (bool_decide (encoding ∈ supported_encodings capabilities))
    then assert (bool_decide (code b' = Some UNIMPLEMENTED)) b' else (r, b')) test_encodings;
  mret tt.

Definition test_get_encoding (datatype : Z) (if_id : nat) : T unit :=
  encoding_test_decorator (λ encoding, _test_get_subscribe (verify_get_response_updates datatype) datatype encoding if_id).

Definition verify_once (mode : Z) (poll_count : nat) : verification := λ prefix paths path_value,
  verify_sub_sub_response_updates mode poll_count 0 false [path_value] prefix paths.

Definition test_subscribe_once (datatype : Z) (if_id : nat) : T unit :=
  _test_get_subscribe (verify_once ONCE 0) datatype JSON_IETF if_id.

Definition test_subscribe_once_encoding (datatype : Z) (if_id : nat) : T unit :=
  encoding_test_decorator (λ encoding, _test_get_subscribe (verify_once ONCE 0) datatype encoding if_id).

Definition test_subscribe_poll (datatype : Z) (poll_count if_id : nat) : T unit :=
  _test_get_subscribe (verify_once POLL poll_count) datatype JSON_IETF if_id.

(** *** Changes *)

Inductive change := Set_value (path : pystr) (val : json) | Send.

Definition changes_list (if_state_str : pystr) : list change :=
  let p (i : pystr) := py"interface[name=" ++ if_state_str ++ i ++ py"]/type" in
  [Set_value (p (py"if_5")) (JStr FAST); Set_value (p (py"if_6")) (JStr FAST); Send;
   Set_value (p (py"if_5")) (JStr GIGABIT); Set_value (p (py"if_6")) (JStr GIGABIT); Send].

(** Values up to a [Send] belong to one response; an index without a list is an error. *)
Fixpoint changes_to_pv (l : list change) (path_value : list (list (Path * json))) (pv_idx : nat) : res (list (list (Path * json))) :=
  match l with
  | [] => Ok path_value
  | Send :: l' => changes_to_pv l' path_value (S pv_idx)
  | Set_value p v :: l' =>
      path ← make_gnmi_path p None None;
      let path_value := if length path_value <? pv_idx + 1 then path_value ++ [[]] else path_value in
      match path_value !! pv_idx with
      | Some pv => changes_to_pv l' (<[pv_idx := pv ++ [(path, v)]]> path_value) pv_idx
      | None => Raise IndexError
      end
  end.
Definition _changes_list_to_pv (l : list change) : res (list (list (Path * json))) := changes_to_pv l [] 0.

(** A number as the text of a tag is an error. *)
Definition xml_text (v : json) : res pystr := match v with JStr s => Ok s | _ => Raise TypeError end.

Definition _changes_list_to_xml (l : list change) (prefix_str : pystr) : res element :=
  let el c := match c with
    | Send => Ok (Element (py"element") (Some (py"send")) [])
    | Set_value p v =>
        t ← xml_text v;
        Ok (Element (py"element") None [Element (py"path") (Some (prefix_str ++ py"/" ++ p)) []; Element (py"val") (Some t) []])
    end in
  els ← res_map el l;
  Ok (Element (py"demo") None [Element (py"subscription") None [Element (py"STREAM") None [Element (py"changes") None els]]]).

Definition on_adapter {A} (m : PyM demo_world A) : T A := λ b,
  let '(r, w) := m (world b) in (r, Bench w (code b)).

Definition test_subscribe_stream (datatype : Z) : T unit :=
  let state := bool_decide (datatype = DT_STATE) in
  let prefix_str := py"interfaces" ++ (if state then py"-state" else []) in
  let changes := changes_list (if state then py"state_" else []) in
  pv ← lift (_changes_list_to_pv changes);
  let path_value := [] :: pv in
  prefix ← lift (make_gnmi_path (py"/" ++ NS_INTERFACES ++ prefix_str) None None);
  path ← lift (make_gnmi_path (py"interface") None None);
  xml ← lift (_changes_list_to_xml changes prefix_str);
  _ ← on_adapter (load_config_string xml);
  verify_sub_sub_response_updates STREAM 0 (length path_value) true path_value (Some prefix) [path] JSON_IETF assert_in_updates.

(** *** Set *)

Definition set_type (val : TypedValue) (path : Path) : T SetResponse :=
  prefix ← lift (make_gnmi_path (py"/ietf-interfaces:interfaces") None None);
  response ← client_set prefix [(path, val)];
  _ ← assert (bool_decide (sp_prefix response = prefix));
  mret response.

Definition assert_set_response (r : SetResponse) (path : Path) : T unit :=
  match sp_response r with
  | u :: _ => _ ← assert (bool_decide (ur_path u = path)); assert (bool_decide (ur_op u = OP_UPDATE))
  | [] => raise IndexError
  end.

Definition quoted (s : pystr) : TypedValue := JsonIetfVal (dumps_str s).

Definition test_set (if_id : nat) : T unit :=
  prefix ← lift (make_gnmi_path (py"/ietf-interfaces:interfaces") None None);
  path ← lift (leaf_path (py"type") [] if_id);
  response ← set_type (quoted FAST) path;
  _ ← assert_set_response response path;
  _ ← verify_get_response_updates DT_CONFIG (Some prefix) [path] [(path, JStr FAST)] JSON_IETF assert_updates;
  response ← client_set prefix [(path, quoted GIGABIT)];
  assert_set_response response path.

Definition encoded (encoding : Z) (s : pystr) : TypedValue :=
  if decide (encoding = JSON) then JsonVal (dumps_str s)
  else if decide (encoding = PROTO) then StringVal s
  else if decide (encoding = ASCII) then AsciiVal s
  else if decide (encoding = BYTES) then BytesVal s
  else JsonIetfVal (dumps_str s).

Definition test_set_encoding (if_id : nat) : T unit :=
  prefix ← lift (make_gnmi_path (py"/ietf-interfaces:interfaces") None None);
  path ← lift (leaf_path (py"type") [] if_id);
  _ ← encoding_test_decorator (λ encoding, _ ← client_set prefix [(path, encoded encoding FAST)]; mret tt);
  response ← client_set prefix [(path, quoted GIGABIT)];
  assert_set_response response path.

Definition data_types : list Z := [DT_CONFIG; DT_STATE].

(** The tests in the order of the file, for one interface.  The test of POLL is run once, with
    two requests; its variants differ in their pauses and in the number of requests. *)
Definition suite (if_id : nat) : list (T unit) :=
  [test_capabilities] ++
  ((λ d, test_get d if_id) <$> data_types) ++
  ((λ d, test_get_encoding d if_id) <$> data_types) ++
  ((λ d, test_subscribe_once d if_id) <$> data_types) ++
  ((λ d, test_subscribe_once_encoding d if_id) <$> data_types) ++
  concat ((λ n, (λ d, test_subscribe_poll d n if_id) <$> data_types) <$> [2]) ++
  (test_subscribe_stream <$> data_types) ++
  [test_set if_id; test_set_encoding if_id].

Fixpoint run_tests (l : list (T unit)) : T unit :=
  match l with [] => mret tt | t :: l' => _ ← t; run_tests l' end.

(** What can be read is what a new adapter has. *)
Definition restored (b : bench) : bool :=
  bool_decide (_demo_db_to_key_elem_map (demo_db (world b)) = _demo_db_to_key_elem_map (demo_db initial_world)) &&
  bool_decide (demo_state_db (world b) = demo_state_db initial_world).
End bench.

Definition bench0 : bench := Bench initial_world None.

(** The smallest number of a range. *)
Definition lowest (n : nat) (a b : Z) : Z := a.

(** A run of the tests of the repository for the demo adapter, one after the other against
    client, server and adapter, with the lowest random draws and one interleaving of the
    threads: all pass, for any random sample and any text form of values, and what can be
    read ends as it began. *)
Lemma demo_tests_pass format_val rand_sample :
  let '(r, b) := run_tests (suite format_val rand_sample lowest 8) bench0 in
  r = Ok tt ∧ restored b = true.
Proof.
  assert ((let '(r, b) := run_tests (suite format_val rand_sample lowest 8) bench0 in is_ok r && restored b) = true) as H by (by vm_compute).
  destruct (run_tests _ _) as [[[]|e] b]; [split; [done|exact H]|discriminate H].
Qed.
End Demo.
