(* ===== verification/ApiTests.v ===== *)
(** * The gNMI tests against ConfD: confdgnmi/tests/test_client_server_api.py

    The parts of client_server_test_base.py that only run with the ConfD adapter, the
    test of external changes, and utils.py: threads that change data in ConfD while a
    subscription is read, as calls answered by an environment.  What the change thread
    sends is read by the model of the ConfD adapter. *)

From Stdlib Require Import Ascii String.
From S2P Require Import Prelude PyStr PyDict Json Xml GnmiMsg GnmiPath Adapter ApiAdapter RouteStatus Trace GrpcTests.
Import Demo.

(** [nodeid_to_path]. *)
Definition nodeid_to_path (nodeid : pystr) : pystr :=
  let nodeid := PyStr.replace nodeid (py"(") [] in
  let nodeid := PyStr.replace nodeid (py")") [] in
  let nodeid := PyStr.replace nodeid (py"::") (py"_") in
  PyStr.replace nodeid (py"/") (py"_").

(** ** Calls *)

Inductive thread := ConfdLoop | ChangeThread | SendThread.

#[export] Instance thread_eq_dec : EqDecision thread.
Proof. solve_decision. Defined.

Inductive effect : Set → Type :=
  | ESleep (seconds : Z) : effect unit
  | EShell (cmd : pystr) : effect unit
  | ESocket : effect unit
  | EConnect (host : pystr) (port : Z) : effect unit
  | ESendAll (bytes : pystr) : effect unit
  | ECloseSocket : effect unit
  | EMonitorExternal (val : bool) : effect unit
  | EInitDp (routes : routes) : effect unit
  | ECloseDp : effect unit
  | EStart (t : thread) : effect unit
  | EJoin (t : thread) : effect unit
  | EStopLoop : effect unit
  | EVerify (prefix : Path) (paths : list Path) (path_value : list (list (Path * json))) (read_count : nat) : effect unit.

Abbreviation M := (PyM (list (item effect))).

(** [except Exception]. *)
Definition is_Exception (e : exn) : bool := match e with KeyboardInterrupt | SystemExit _ => false | _ => true end.

Section tests.
Context (external_port : Z) (env : environment effect).
(** [str(value)] of a value that is neither a string nor a number. *)
Context (str_value : json → pystr).

Definition call {A : Set} (e : effect A) : M A := act env e.

(** *** Changes by commands *)

Definition send_to_confd (config_cmd oper_cmd : pystr) : M unit :=
  _ ← when (negb (bool_decide (config_cmd = []))) (call (EShell (fmt (xq"confd_cmd -c `{0}`") [config_cmd])));
  when (negb (bool_decide (oper_cmd = []))) (call (EShell (fmt (xq"confd_cmd -o -fr -c `set {0}`") [oper_cmd]))).

(** [c[1].split(":")[-1]]. *)
Definition plain_value (v : json) : res pystr :=
  match v with JStr s => Ok (List.last (split ":" s) []) | _ => Raise AttributeError end.

Definition change_cmd (prefix_str p : pystr) (v : json) : res pystr :=
  path_prefix ← make_gnmi_path prefix_str None None;
  path ← make_gnmi_path p None None;
  value ← plain_value v;
  Ok (fmt (py"{0} {1}") [make_formatted_path path (Some path_prefix) false; value]).

(** The loop over the changes, with the commands collected so far. *)
Fixpoint send_changes (prefix_str : pystr) (l : list change) (config_cmd oper_cmd : pystr) : M unit :=
  match l with
  | [] => mret tt
  | Send :: l' =>
      _ ← send_to_confd config_cmd oper_cmd;
      _ ← call (ESleep 1);
      send_changes prefix_str l' [] []
  | Set_value p v :: l' =>
      cmd ← lift (change_cmd prefix_str p v);
      if contains prefix_str (py"state") then send_changes prefix_str l' config_cmd (oper_cmd ++ fmt (py"{0} ") [cmd])
      else send_changes prefix_str l' (config_cmd ++ fmt (py"mset {0};") [cmd]) oper_cmd
  end.

Definition _send_change_list_to_confd_thread (prefix_str : pystr) (changes_list : list change) : M unit :=
  _ ← call (ESleep 1);
  send_changes prefix_str changes_list [] [].

(** State data is not written in transactions: one response for each change. *)
Definition each_sent (l : list change) : list change :=
  concat ((λ c, match c with Send => [] | _ => [c; Send] end) <$> l).

Definition api_changes_list (state : bool) : list change :=
  if state then each_sent (changes_list (py"state_")) else changes_list [].

Definition test_subscribe_stream (state : bool) : M unit :=
  let prefix_str := py"interfaces" ++ (if state then py"-state" else []) in
  let changes := api_changes_list state in
  pv ← lift (_changes_list_to_pv changes);
  let path_value := [] :: pv in
  prefix ← lift (make_gnmi_path (py"/" ++ DemoAdapter.NS_INTERFACES ++ prefix_str) None None);
  path ← lift (make_gnmi_path (py"interface") None None);
  _ ← call (ESleep 1);
  _ ← call (EStart SendThread);
  _ ← call (EVerify prefix [path] path_value (length path_value));
  call (EJoin SendThread).

(** *** External changes *)

Definition format_value (v : json) : pystr := match v with JStr s => s | JInt z => str_Z z | _ => str_value v end.

Definition change_lines (pv : Path * json) : list pystr :=
  [py"mod"; make_xpath_path (Some pv.1) None false; format_value pv.2].
Definition change_message (pv : Path * json) : pystr := join nl (change_lines pv).

(** One list of changes; the variable [msg] that is logged has been assigned when any
    change has been seen. *)
Definition send_chunk (assigned : bool) (pv_chunk : list (Path * json)) : M unit :=
  let msgs := change_message <$> pv_chunk in
  _ ← lift (if assigned || negb (bool_decide (pv_chunk = [])) then Ok tt else Raise UnboundLocalError);
  _ ← call ESocket;
  try_finally
    (try_except (_ ← call (EConnect (py"localhost") external_port); call (ESendAll (changes_msg msgs)))
       (λ e, if is_Exception e then Some (mret tt) else None))
    (call ECloseSocket).

Fixpoint send_chunks (assigned : bool) (path_value : list (list (Path * json))) : M unit :=
  match path_value with
  | [] => mret tt
  | pv_chunk :: rest => _ ← send_chunk assigned pv_chunk; send_chunks true rest
  end.

Definition _route_change_thread (path_value : list (list (Path * json))) (sleep_val : Z) : M unit :=
  _ ← call (ESleep sleep_val);
  send_chunks false path_value.

Definition route_changes : list change :=
  [Set_value (py"/route-status:route-status/route[id=rt5]/leaf1") (JInt 1010);
   Set_value (py"/route-status:route-status/route[id=rt6]/leaf1") (JInt 1020); Send;
   Set_value (py"/route-status:route-status/route[id=rt6]/leaf1") (JInt 1030); Send].

(** The change thread is started with [path_value[1:]]. *)
Definition test_subscribe_stream_on_change_api_state : M unit :=
  _ ← call (EMonitorExternal true);
  pv ← lift (_changes_list_to_pv route_changes);
  let path_value := [] :: pv in
  prefix ← lift (make_gnmi_path [] None None);
  path ← lift (make_gnmi_path (py"route-status:route-status") None None);
  let route_data := RouteData (Some 10) false (λ _, 0) in
  _ ← lift (py_assert (negb (bool_decide (length route_data = 0))));
  _ ← call (EInitDp route_data);
  _ ← call (EStart ConfdLoop);
  _ ← call (EStart ChangeThread);
  try_finally
    (_ ← call (EVerify prefix [path] path_value (length path_value)); call (ESleep 1))
    (_ ← call (EJoin ChangeThread);
     _ ← call EStopLoop;
     _ ← call (EJoin ConfdLoop);
     call ECloseDp).
End tests.

(** ** What the change thread sends is what the adapter receives *)

Lemma message_lines_length str_value chunk : length (concat (change_lines str_value <$> chunk)) = length chunk * 3.
Proof. induction chunk as [|pv chunk IH]; [done|]. rewrite fmap_cons. cbn. rewrite IH. lia. Qed.

Section received.
Context `{PM : ProtoMap} {V X R T : Type} `{ConfdApi V X R T} (a : api_adapter) (str_value : json → pystr).

(** A change that the adapter can read: a path whose text is one line and is read back, of
    a leaf of numbers of 32 bits in the schema. *)
Definition readable (p : Path) : Prop :=
  path_ok p ∧ ("010"%char ∉ make_xpath_path (Some p) None false) ∧
  ∃ node, cs_node_cd None (fix_path_prefixes a (make_xpath_path (Some p) None false)) = Some node ∧
    ∀ z, int32 z → ∃ v, str2val (str_Z z) node = Ok v ∧ value_kind v = VInt z.

(** The path as it is read back. *)
Definition read_path (p : Path) : Path := {| origin := []; elem := reread (elem p); target := [] |}.

Definition received (pz : Path * Z) : api_change := (inr (py"mod"), read_path pz.1, JsonIetfVal (str_Z pz.2)).

(** It is the same path, for the order in which keys are iterated. *)
Lemma read_path_equiv p : path_ok p → Forall2 (≡) (elem (read_path p)) (elem p).
Proof. intros Hp. by apply reread_equiv, path_ok_wf. Qed.

Lemma read_path_ok p : path_ok p → make_gnmi_path (make_xpath_path (Some p) None false) None None = Ok (read_path p).
Proof.
  intros Hp. unfold make_gnmi_path. change (make_xpath_path (Some p) None false) with (make_xpath_path (Some p) (Some empty_path) false).
  rewrite make_elems_string_path by (done || constructor). done.
Qed.

Definition as_json (pz : Path * Z) : Path * json := (pz.1, JInt pz.2).

Lemma received_ok chunk :
  Forall (λ pz, readable pz.1 ∧ int32 pz.2) chunk →
  _external_changes a (concat (change_lines str_value <$> (as_json <$> chunk))) = Ok (received <$> chunk).
Proof.
  induction chunk as [|[p z] chunk IH]; [done|]. rewrite !fmap_cons.
  intros [[(Hp & _ & node & Hn & Hv) Hz] Hr]%Forall_cons. specialize (IH Hr).
  cbn [fst snd] in Hp, Hn, Hz. destruct (Hv z Hz) as (v & Hv1 & Hv2).
  change (concat (change_lines str_value (as_json (p, z)) :: (change_lines str_value <$> (as_json <$> chunk)))) with
    (py"mod" :: make_xpath_path (Some p) None false :: str_Z z :: concat (change_lines str_value <$> (as_json <$> chunk))).
  cbn [_external_changes]. rewrite IH. unfold external_change.
  rewrite Hn, read_path_ok, Hv1 by done. cbn [mbind res_bind]. unfold make_gnmi_json_value. by rewrite Hv2.
Qed.

(** The adapter records the changes of a message that it can read whole, in their order,
    and wakes the subscription up. *)
Lemma chunk_received (w : api_world (X := X)) chunk :
  let msg := changes_msg (change_message str_value <$> (as_json <$> chunk)) in
  adapter w = a → chunk ≠ [] → Forall (λ pz, readable pz.1 ∧ int32 pz.2) chunk →
  length msg ≤ RECV_SIZE → NetconfFraming.utf8_valid msg = true →
  process_external_change [msg] w =
    (Ok tt, api_put_event SEND_CHANGES (_append_changes EXT_SPOINT (received <$> chunk) w)).
Proof.
  cbn zeta. intros Ha Hne Hr Hsize Hutf. unfold process_external_change. monad_unfold.
  cbn [recv]. rewrite take_ge by done. cbn [NetconfFraming.str_data]. rewrite Hutf. clear Hsize Hutf.
  replace (change_message str_value <$> (as_json <$> chunk)) with (join nl <$> (change_lines str_value <$> (as_json <$> chunk)))
    by (by rewrite <-!list_fmap_compose).
  rewrite changes_msg_join; [|by destruct chunk|apply Forall_fmap, Forall_true; done].
  rewrite split_join.
  - rewrite message_lines_length, Nat.Div0.mod_mul, bool_decide_true by done.
    rewrite Ha. by rewrite received_ok.
  - destruct chunk; [done|]. done.
  - clear Hne. induction chunk as [|[p z] chunk IH]; [constructor|]. rewrite !fmap_cons in *.
    apply Forall_cons in Hr as [[(_ & Hp & _) _] Hr]. cbn [concat]. apply Forall_app. split; [|by apply IH].
    repeat (apply Forall_cons; split); [vm_decide|exact Hp|apply str_Z_no_nl|done].
Qed.
End received.

(** ** The order of the calls *)

(** The socket of the change thread; the data provider and the threads that run;
    whether the loop of the provider was told to stop. *)
Record view := View { sock_open : bool; dp_open : bool; running : list thread; stopping : bool }.

Definition start : view := View false false [] false.

Definition allow {A} (b : bool) (r : res A) (q q' q'' : view) : option view :=
  if b then Some (if is_ok r then q' else q'') else None.

Definition runs_ (t : thread) (q : view) : bool := bool_decide (t ∈ running q).

(** A socket is opened when none is, and used while it is open; the provider is closed
    when its loop has ended; a loop that was not told to stop is not waited for. *)
Definition order (q : view) (i : item effect) : option view :=
  let '(View so dp ts st) := q in
  match i with Item e r =>
    match e in effect A return res A → option view with
    | ESleep _ | EShell _ | EMonitorExternal _ => λ r, allow true r q q q
    | EVerify _ _ _ _ => λ r, allow (negb (bool_decide (ts = []))) r q q q
    | ESocket => λ r, allow (negb so) r q (View true dp ts st) q
    | EConnect _ _ | ESendAll _ => λ r, allow so r q q q
    | ECloseSocket => λ r, allow so r q (View false dp ts st) (View false dp ts st)
    | EInitDp _ => λ r, allow (negb dp) r q (View so true ts st) q
    | ECloseDp => λ r, allow (dp && negb (runs_ ConfdLoop q)) r q (View so false ts st) q
    | EStart t => λ r,
        allow (negb (runs_ t q) && (dp || negb (bool_decide (t = ConfdLoop)))) r q
          (View so dp (t :: ts) (if decide (t = ConfdLoop) then false else st)) q
    | EJoin t => λ r,
        allow (runs_ t q && (st || negb (bool_decide (t = ConfdLoop)))) r q (View so dp (filter (.≠ t) ts) st) q
    | EStopLoop => λ r, allow (runs_ ConfdLoop q) r q (View so dp ts true) q
    end r
  end.

Local Abbreviation triple := (triple order).

(** A call from a known state. *)
Lemma known_state (env : environment effect) {A : Set} (e : effect A) q q' (X : view → Prop) :
  (∀ r, ∃ q'', order q (Item e r) = Some (if is_ok r then q' else q'') ∧ X q'') →
  triple (λ q0, q0 = q) (call env e) (λ _ q0, q0 = q') X.
Proof.
  intros He. apply triple_act. intros q0 r ->. destruct (He r) as (q'' & Ho & HX). eexists. split; [exact Ho|]. by destruct r.
Qed.

Ltac call_step := apply known_state; intros r; eexists; split; [reflexivity|try done].

Section runs.
Context (external_port : Z) (env : environment effect) (str_value : json → pystr).

(** Sending one list of changes opens a socket and closes it, whatever fails. *)
Lemma send_chunk_closes assigned chunk :
  triple (λ q, q = start) (send_chunk external_port env str_value assigned chunk) (λ _ q, q = start) (λ q, q = start).
Proof.
  unfold send_chunk. set (opened := View true false [] false).
  eapply (triple_bind order _ _ (λ _ q, q = start));
    [apply triple_lift; intros q ->; by destruct (assigned || _)|]. intros [].
  eapply (triple_bind order _ _ (λ _ q, q = opened)); [call_step|]. intros [].
  assert (∀ P : view → Prop, P start → triple (λ q, q = opened) (call env ECloseSocket) (λ _ q, q = start) P) as Hclose.
  { intros P HP. call_step. }
  eapply (triple_finally order _ _ (λ _ q, q = opened) (λ q, q = opened)); [|intros []; by apply Hclose|].
  - apply (triple_except order _ _ _ _ (λ q, q = opened)); [| |done].
    + eapply (triple_bind order _ _ (λ _ q, q = opened)); [call_step|]. intros []. call_step.
    + intros e k. destruct (is_Exception e); [|done]. intros [= <-]. apply (triple_ret order tt (λ _ q, q = opened)).
  - by apply Hclose.
Qed.

Lemma change_thread_closes path_value sleep_val :
  triple (λ q, q = start) (_route_change_thread external_port env str_value path_value sleep_val)
    (λ _ q, q = start) (λ q, q = start).
Proof.
  unfold _route_change_thread. eapply (triple_bind order _ _ (λ _ q, q = start)); [call_step|]. intros [].
  generalize false as assigned. induction path_value as [|chunk rest IH]; intros assigned; cbn [send_chunks].
  { apply (triple_ret order tt (λ _ q, q = start)). }
  eapply triple_bind; [apply send_chunk_closes|]. intros []. apply IH.
Qed.

(** A test that ends without a failing call has waited for both threads and closed the
    provider, also when the verification fails. *)
Lemma on_change_test_order :
  triple (λ q, q = start) (test_subscribe_stream_on_change_api_state env) (λ _ q, running q = [] ∧ dp_open q = false) (λ _, True).
Proof.
  unfold test_subscribe_stream_on_change_api_state.
  eapply (triple_bind order _ _ (λ _ q, q = start)); [call_step|]. intros [].
  do 4 (eapply (triple_bind order _ _ (λ _ q, q = start)); [apply triple_lift; intros q ->; by vm_compute|]; intros ?).
  eapply (triple_bind order _ _ (λ _ q, q = View false true [] false)); [call_step|]. intros [].
  eapply (triple_bind order _ _ (λ _ q, q = View false true [ConfdLoop] false)); [call_step|]. intros [].
  set (both := View false true [ChangeThread; ConfdLoop] false).
  eapply (triple_bind order _ _ (λ _ q, q = both)); [call_step|]. intros [].
  assert (∀ X : view → Prop, X (View false false [] true) → triple (λ q, q = both)
    (_ ← call env (EJoin ChangeThread); _ ← call env EStopLoop; _ ← call env (EJoin ConfdLoop); call env ECloseDp)
    (λ _, X) (λ _, True)) as Hend.
  { intros X HX. eapply (triple_bind order _ _ (λ _ q, q = View false true [ConfdLoop] false)); [call_step|]. intros [].
    eapply (triple_bind order _ _ (λ _ q, q = View false true [ConfdLoop] true)); [call_step|]. intros [].
    eapply (triple_bind order _ _ (λ _ q, q = View false true [] true)); [call_step|]. intros [].
    eapply triple_conseq; [apply (known_state env ECloseDp (View false true [] true) (View false false [] true) (λ _, True))|done| |done].
    - intros r. eexists. by split.
    - by intros x q ->. }
  eapply (triple_finally order _ _ (λ _ q, q = both) (λ q, q = both)); [|intros []; by apply Hend|by apply Hend].
  eapply (triple_bind order _ _ (λ _ q, q = both)); [call_step|]. intros []. call_step.
Qed.
End runs.

(** ** The calls on a system where all of them return *)

Definition all_return : environment effect := λ A h e,
  match e in effect B return res B with
  | ESleep _ | EShell _ | EMonitorExternal _ | ESocket | EConnect _ _ | ESendAll _ | ECloseSocket | EInitDp _ | ECloseDp
  | EStart _ | EJoin _ | EStopLoop | EVerify _ _ _ _ => Ok tt
  end.

Definition shell_item (i : item effect) : option pystr :=
  match i with Item e _ => match e with EShell c => Some c | _ => None end end.
Definition sent_item (i : item effect) : option pystr :=
  match i with Item e _ => match e with ESendAll m => Some m | _ => None end end.

(** The commands for configuration: a transaction for each pair of changes. *)
Lemma config_commands :
  omap shell_item (_send_change_list_to_confd_thread all_return (py"interfaces") (api_changes_list false) []).2 =
  [xq"confd_cmd -c `mset /interfaces/interface{if_5}/type fastEther;mset /interfaces/interface{if_6}/type fastEther;`";
   xq"confd_cmd -c `mset /interfaces/interface{if_5}/type gigabitEthernet;mset /interfaces/interface{if_6}/type gigabitEthernet;`"].
Proof. vm_compute. reflexivity. Qed.

(** The commands for state data: one for each change. *)
Lemma state_commands :
  omap shell_item (_send_change_list_to_confd_thread all_return (py"interfaces-state") (api_changes_list true) []).2 =
  [xq"confd_cmd -o -fr -c `set /interfaces-state/interface{state_if_5}/type fastEther `";
   xq"confd_cmd -o -fr -c `set /interfaces-state/interface{state_if_6}/type fastEther `";
   xq"confd_cmd -o -fr -c `set /interfaces-state/interface{state_if_5}/type gigabitEthernet `";
   xq"confd_cmd -o -fr -c `set /interfaces-state/interface{state_if_6}/type gigabitEthernet `"].
Proof. vm_compute. reflexivity. Qed.

(** The messages of the test of external changes. *)
Lemma external_messages :
  ∃ pv, _changes_list_to_pv route_changes = Ok pv ∧
    omap sent_item (_route_change_thread 5055 all_return (λ _, []) pv 2 []).2 =
      [join nl [py"mod"; py"/route-status:route-status/route[id=rt5]/leaf1"; py"1010";
                py"mod"; py"/route-status:route-status/route[id=rt6]/leaf1"; py"1020"];
       join nl [py"mod"; py"/route-status:route-status/route[id=rt6]/leaf1"; py"1030"]].
Proof. eexists. split; vm_compute; reflexivity. Qed.

(** The name of the file for a test. *)
Lemma nodeid_path :
  nodeid_to_path (py"tests/test_client_server_api.py::TestGrpcApi::test_get(1)") =
  py"tests_test_client_server_api.py_TestGrpcApi_test_get1".
Proof. vm_compute. reflexivity. Qed.

(** A first list without changes ends the thread on the unassigned variable it logs. *)
Lemma empty_first_chunk external_port env str_value rest h :
  (send_chunks external_port env str_value false ([] :: rest) h).1 = Raise UnboundLocalError.
Proof. reflexivity. Qed.
